(** * Knowledge-base synchronisation engine (app/kb/update.py)

    A shallow embedding of the ingestion engine of the repository:
    the glob matcher ([_matches_any], [_should_include]), the chunker
    ([_chunk_text]), the document materialiser
    ([_upsert_document_and_chunks]) and the run coordinator
    ([update_campaign_kb]), followed by the properties of the
    specification checked against them.

    Conventions of the embedding.
    - The SQL store is a record of tables, each table a list of rows in
      insertion order.  [UPDATE ... WHERE id = x] maps over the table,
      [INSERT] appends, [SELECT] filters.  Identifiers generated by the store
      are natural numbers drawn from one sequence per table.
    - [now()] is the transaction time: one value for the whole run.
    - The filesystem is an observation: what [exists] gives for a root
      (a boolean, or an [OSError] such as a [PermissionError]), what
      [os.walk] yields, what [stat] and [open] give for each file (either
      may fail).
    - Python exceptions are values of [outcome]; an exception that leaves
      [update_campaign_kb] rolls the transaction back.
    - Python text is a [string] of 8-bit characters.
    - Two statements of the engine write a parameter in front of a cast,
      [:metadata::jsonb] and [:stats::jsonb].  [text()] binds no parameter
      there (app/ui/routes.py notes it and uses [CAST(... AS jsonb)]), the
      statement reaches the store as it is written and the store refuses it:
      [db.execute] raises, and the transaction is aborted, so that every
      later statement raises too, until the rollback.  The other statements
      are total: constraint violations and connection failures are outside
      the model. *)

From Stdlib Require Import String Ascii List ZArith Bool Arith Lia Sorted.
Import ListNotations.
Open Scope string_scope.
Open Scope nat_scope.
Open Scope list_scope.


(* ------------------------------------------------------------------ *)
(** ** Python helpers *)

Module Py.

(** [str.isspace] on the code points below 256. *)
Definition is_space (c : ascii) : bool :=
  let n := nat_of_ascii c in
  ((9 <=? n) && (n <=? 13)) || ((28 <=? n) && (n <=? 32))
  || (n =? 133) || (n =? 160).

Fixpoint lstrip (l : list ascii) : list ascii :=
  match l with
  | [] => []
  | c :: t => if is_space c then lstrip t else l
  end.

Definition rstrip (l : list ascii) : list ascii := rev (lstrip (rev l)).

(** [s.strip()] *)
Definition strip (l : list ascii) : list ascii := rstrip (lstrip l).

Definition len {A} (l : list A) : Z := Z.of_nat (length l).

(** Slice bound normalisation: negative indices count from the end, and the
    result is clamped to [0, len]. *)
Definition clamp_index (n i : Z) : Z :=
  let i' := if (i <? 0)%Z then (n + i)%Z else i in
  Z.max 0 (Z.min n i').

(** [s[i:j]] *)
Definition slice {A} (l : list A) (i j : Z) : list A :=
  let a := clamp_index (len l) i in
  let b := clamp_index (len l) j in
  firstn (Z.to_nat (b - a)) (skipn (Z.to_nat a) l).

End Py.

(* ------------------------------------------------------------------ *)
(** ** Chunker: [_chunk_text] *)

(** The [while] loop of [_chunk_text].  The loop of the source has no bound of
    its own (it does not advance when [overlap >= max_chars]), so the embedding
    takes fuel: [None] means the fuel ran out before the loop ended. *)
Fixpoint chunk_loop (fuel : nat) (s : list ascii) (max_chars overlap : Z)
    (i : Z) (out : list (list ascii)) : option (list (list ascii)) :=
  match fuel with
  | O => None
  | S fuel' =>
      if (i <? Py.len s)%Z then
        let j := Z.min (Py.len s) (i + max_chars) in
        let out' := out ++ [Py.slice s i j] in
        if (j >=? Py.len s)%Z then Some out'
        else chunk_loop fuel' s max_chars overlap (Z.max 0 (j - overlap)) out'
      else Some out
  end.

Definition chunk_chars (fuel : nat) (text_str : list ascii)
    (max_chars overlap : Z) : option (list (list ascii)) :=
  let s := Py.strip text_str in
  match s with
  | [] => Some []
  | _ => chunk_loop fuel s max_chars overlap 0 []
  end.

Definition _chunk_text (fuel : nat) (text_str : string)
    (max_chars overlap : Z) : option (list string) :=
  option_map (map string_of_list_ascii)
    (chunk_chars fuel (list_ascii_of_string text_str) max_chars overlap).

(** Removing the overlap: every fragment after the first loses its first
    [overlap] characters. *)
Definition reconstruct (overlap : nat) (chunks : list (list ascii))
    : list ascii :=
  match chunks with
  | [] => []
  | c :: rest => c ++ concat (map (skipn overlap) rest)
  end.

Definition reconstruct_text (overlap : nat) (chunks : list string) : string :=
  string_of_list_ascii
    (reconstruct overlap (map list_ascii_of_string chunks)).

Definition strip_text (s : string) : string :=
  string_of_list_ascii (Py.strip (list_ascii_of_string s)).

(** All fragments but the last one are full windows. *)
Fixpoint all_but_last_full (max_chars : nat) (chunks : list (list ascii))
    : Prop :=
  match chunks with
  | [] => True
  | [_] => True
  | c :: rest => length c = max_chars /\ all_but_last_full max_chars rest
  end.

(* ------------------------------------------------------------------ *)
(** ** Glob matcher: [_matches_any], [_should_include]

    [PurePosixPath(rel_posix).match(pat)] is library code; it is embedded
    from its documented behaviour: the pattern is split into path segments,
    a relative pattern is matched from the right, each segment against one
    segment of the path with [fnmatch.fnmatchcase], an empty pattern raises
    [ValueError], and the recursive wildcard is not supported ([**] acts
    like [*], inside one segment). *)

Module Posix.

Definition slash : ascii := "/"%char.

(** Splitting at ["/"]; [cur] is the segment being read, reversed. *)
Fixpoint split_slash (s : list ascii) (cur : list ascii)
    : list (list ascii) :=
  match s with
  | [] => [rev cur]
  | c :: t =>
      if Ascii.eqb c slash then rev cur :: split_slash t []
      else split_slash t (c :: cur)
  end.

Definition is_dot (seg : list ascii) : bool :=
  match seg with
  | [c] => Ascii.eqb c "."%char
  | _ => false
  end.

Definition keep_segment (seg : list ascii) : bool :=
  match seg with
  | [] => false
  | _ => negb (is_dot seg)
  end.

(** The segments of a path, without its root: empty segments and ["."]
    segments are dropped. *)
Definition segments (s : string) : list (list ascii) :=
  filter keep_segment (split_slash (list_ascii_of_string s) []).

(** The root of a POSIX path: [""], ["/"], or ["//"] for exactly two leading
    slashes. *)
Definition root (s : string) : string :=
  match list_ascii_of_string s with
  | a :: b :: c :: _ =>
      if Ascii.eqb a slash then
        if Ascii.eqb b slash && negb (Ascii.eqb c slash) then "//" else "/"
      else ""
  | [a; b] =>
      if Ascii.eqb a slash then (if Ascii.eqb b slash then "//" else "/")
      else ""
  | [a] => if Ascii.eqb a slash then "/" else ""
  | [] => ""
  end.

Fixpoint join_segments (segs : list (list ascii)) : string :=
  match segs with
  | [] => ""
  | [x] => string_of_list_ascii x
  | x :: rest => string_of_list_ascii x ++ "/" ++ join_segments rest
  end.

(** The text of a path, from its root and its segments. *)
Definition render (r : string) (segs : list (list ascii)) : string :=
  match r, segs with
  | EmptyString, [] => "."
  | r, segs => r ++ join_segments segs
  end.

(** [PurePosixPath(s).as_posix()], which is [str(PurePosixPath(s))] *)
Definition as_posix (s : string) : string := render (root s) (segments s).

(** [PurePosixPath(s).parent.as_posix()] *)
Definition parent (s : string) : string :=
  render (root s) (removelast (segments s)).

(** [str(PurePosixPath(a) / b)] for a relative [b] *)
Definition joinpath (a b : string) : string :=
  render (root a) (segments a ++ segments b).

(** [PurePosixPath(s).parts]: the root, when there is one, is the first
    part. *)
Definition parts (s : string) : list (list ascii) :=
  (if String.eqb (root s) "" then [] else [list_ascii_of_string (root s)])
  ++ segments s.

(** [len(PurePosixPath(s).parts)] *)
Definition parts_count (s : string) : nat :=
  (if String.eqb (root s) "" then 0 else 1) + length (segments s).

End Posix.

Module Fnmatch.

(** A pattern of [fnmatch], read: [*], [?], a literal character, or a
    character class with its ranges ([c] alone is the range from [c] to [c]). *)
Inductive tok : Type :=
  | Star
  | AnyChar
  | Lit (c : ascii)
  | Class (negated : bool) (ranges : list (ascii * ascii)).

(** The body of a class, between the brackets and after the [!]: [x-y] is a
    range, a hyphen that is first or last is a literal. *)
Fixpoint class_ranges (body : list ascii) : list (ascii * ascii) :=
  match body with
  | [] => []
  | x :: rest =>
      match rest with
      | h :: y :: rest' =>
          if Ascii.eqb h "-"%char then (x, y) :: class_ranges rest'
          else (x, x) :: class_ranges rest
      | _ => (x, x) :: class_ranges rest
      end
  end.

(** Looking for the bracket that closes a class: the characters before it
    and the rest of the pattern after it. *)
Fixpoint until_close (s : list ascii) : option (list ascii * list ascii) :=
  match s with
  | [] => None
  | c :: t =>
      if Ascii.eqb c "]"%char then Some ([], t)
      else match until_close t with
           | Some (body, rest) => Some (c :: body, rest)
           | None => None
           end
  end.

(** The class opened by a bracket, [s] being what follows the bracket: a
    leading [!] negates, a closing bracket that comes first is a member. *)
Definition read_class (s : list ascii)
    : option (bool * list ascii * list ascii) :=
  let '(neg, s1) :=
    match s with
    | c :: t => if Ascii.eqb c "!"%char then (true, t) else (false, s)
    | [] => (false, s)
    end in
  match s1 with
  | c :: t =>
      if Ascii.eqb c "]"%char then
        match until_close t with
        | Some (body, rest) => Some (neg, c :: body, rest)
        | None => None
        end
      else
        match until_close s1 with
        | Some (body, rest) => Some (neg, body, rest)
        | None => None
        end
  | [] => None
  end.

(** [fnmatch.translate], to tokens.  The fuel is the length of the pattern,
    which every call consumes at least one character of. *)
Fixpoint tokens (fuel : nat) (pat : list ascii) : list tok :=
  match fuel with
  | O => []
  | S fuel' =>
      match pat with
      | [] => []
      | c :: t =>
          if Ascii.eqb c "*"%char then Star :: tokens fuel' t
          else if Ascii.eqb c "?"%char then AnyChar :: tokens fuel' t
          else if Ascii.eqb c "["%char then
            match read_class t with
            | Some (neg, body, rest) =>
                Class neg (class_ranges body) :: tokens fuel' rest
            | None => Lit c :: tokens fuel' t
            end
          else Lit c :: tokens fuel' t
      end
  end.

Definition in_range (c : ascii) (r : ascii * ascii) : bool :=
  (nat_of_ascii (fst r) <=? nat_of_ascii c)
  && (nat_of_ascii c <=? nat_of_ascii (snd r)).

Definition in_class (negated : bool) (ranges : list (ascii * ascii))
    (c : ascii) : bool :=
  xorb negated (existsb (in_range c) ranges).

(** The whole name against the whole pattern. *)
Fixpoint matches (toks : list tok) (name : list ascii) : bool :=
  match toks with
  | [] => match name with [] => true | _ => false end
  | Star :: ts =>
      (fix star (n : list ascii) : bool :=
         matches ts n
         || match n with
            | [] => false
            | _ :: n' => star n'
            end) name
  | AnyChar :: ts =>
      match name with
      | _ :: n => matches ts n
      | [] => false
      end
  | Lit c :: ts =>
      match name with
      | x :: n => Ascii.eqb x c && matches ts n
      | [] => false
      end
  | Class neg ranges :: ts =>
      match name with
      | x :: n => in_class neg ranges x && matches ts n
      | [] => false
      end
  end.

(** [fnmatch.fnmatchcase(name, pat)] *)
Definition fnmatchcase (name pat : list ascii) : bool :=
  matches (tokens (length pat) pat) name.

End Fnmatch.

(** The segments of path and pattern, both from the right. *)
Fixpoint match_reversed (parts pat_parts : list (list ascii)) : bool :=
  match parts, pat_parts with
  | p :: ps, q :: qs => Fnmatch.fnmatchcase p q && match_reversed ps qs
  | _, _ => true
  end.

(** [PurePosixPath(rel_posix).match(pat)]; [None] is the [ValueError] of an
    empty pattern.  A relative pattern is compared with the last parts of
    the path, and the root of an absolute path is one of its parts; a
    pattern with a root needs the same root and as many segments as the
    path. *)
Definition path_match (rel_posix pat : string) : option bool :=
  let pat_root := Posix.root pat in
  let pat_segs := Posix.segments pat in
  let segs := Posix.segments rel_posix in
  let parts := Posix.parts rel_posix in
  if String.eqb pat_root "" then
    match pat_segs with
    | [] => None
    | _ =>
        if length parts <? length pat_segs then Some false
        else Some (match_reversed (rev parts) (rev pat_segs))
    end
  else if negb (String.eqb pat_root (Posix.root rel_posix)) then Some false
  else if negb (length pat_segs =? length segs) then Some false
  else Some (match_reversed (rev segs) (rev pat_segs)).

Fixpoint _matches_any (rel_posix : string) (patterns : list string) : bool :=
  match patterns with
  | [] => false
  | pat :: rest =>
      match path_match rel_posix pat with
      | Some true => true
      | Some false => _matches_any rel_posix rest
      | None => _matches_any rel_posix rest
      end
  end.

Definition is_nil {A} (l : list A) : bool :=
  match l with [] => true | _ => false end.

Definition _should_include (rel_posix : string)
    (include_globs exclude_globs : list string) : bool :=
  if negb (is_nil exclude_globs) && _matches_any rel_posix exclude_globs
  then false
  else if is_nil include_globs then true
  else _matches_any rel_posix include_globs.

(* ------------------------------------------------------------------ *)
(** ** Python dictionaries and path attributes *)

Module Dict.

(** A [dict] with string keys, in insertion order. *)
Definition t (V : Type) : Type := list (string * V).

Fixpoint get {V} (d : t V) (k : string) : option V :=
  match d with
  | [] => None
  | (k', v) :: rest => if String.eqb k' k then Some v else get rest k
  end.

Definition mem {V} (d : t V) (k : string) : bool :=
  match get d k with Some _ => true | None => false end.

(** [d[k] = v]: a key that is present keeps its place. *)
Fixpoint set {V} (d : t V) (k : string) (v : V) : t V :=
  match d with
  | [] => [(k, v)]
  | (k', v') :: rest =>
      if String.eqb k' k then (k', v) :: rest else (k', v') :: set rest k v
  end.

(** [{key(r): val(r) for r in rows}] *)
Definition of_rows {R V} (key : R -> string) (val : R -> V) (rows : list R)
    : t V :=
  fold_left (fun d r => set d (key r) (val r)) rows [].

End Dict.

Module PathAttr.

Definition dot : ascii := "."%char.

(** [name.rfind('.')] *)
Fixpoint rfind_dot (name : list ascii) (pos : nat) (found : option nat)
    : option nat :=
  match name with
  | [] => found
  | c :: t =>
      rfind_dot t (S pos) (if Ascii.eqb c dot then Some pos else found)
  end.

(** [PurePath.suffix]: the last dot counts when it is neither the first nor
    the last character of the name. *)
Definition suffix (name : string) : string :=
  let l := list_ascii_of_string name in
  match rfind_dot l 0 None with
  | Some i =>
      if (0 <? i) && (i <? length l - 1)
      then string_of_list_ascii (skipn i l) else ""
  | None => ""
  end.

(** [PurePath.stem] *)
Definition stem (name : string) : string :=
  let l := list_ascii_of_string name in
  match rfind_dot l 0 None with
  | Some i =>
      if (0 <? i) && (i <? length l - 1)
      then string_of_list_ascii (firstn i l) else name
  | None => name
  end.

(** [str.lower] on the code points below 256. *)
Definition lower_char (c : ascii) : ascii :=
  let n := nat_of_ascii c in
  if ((65 <=? n) && (n <=? 90))
     || ((192 <=? n) && (n <=? 222) && negb (n =? 215))
  then ascii_of_nat (n + 32) else c.

Definition lower (s : string) : string :=
  string_of_list_ascii (map lower_char (list_ascii_of_string s)).

Fixpoint lstrip_dots (l : list ascii) : list ascii :=
  match l with
  | [] => []
  | c :: t => if Ascii.eqb c dot then lstrip_dots t else l
  end.

(** [full_path.suffix.lower().lstrip(".") or None] *)
Definition ext_of (name : string) : option string :=
  match lstrip_dots (list_ascii_of_string (lower (suffix name))) with
  | [] => None
  | l => Some (string_of_list_ascii l)
  end.

(** [(Path(dirpath) / fn).relative_to(root_path).as_posix()], from the
    directory relative to the root. *)
Definition rel_of (dir_rel fn : string) : string :=
  Posix.as_posix (dir_rel ++ "/" ++ fn).

(** [str(Path(dirpath) / fn)]: the root of the source followed by the
    relative path of the file. *)
Definition full_of (root_path rel_path : string) : string :=
  Posix.joinpath root_path rel_path.

End PathAttr.

(* ------------------------------------------------------------------ *)
(** ** The store *)

(** The counters of a run ([stats]). *)
Record stats : Type := mkStats {
  sources_total : nat;
  sources_scanned : nat;
  files_seen : nat;
  files_new : nat;
  files_changed : nat;
  files_unchanged : nat;
  files_deleted : nat;
  files_ingested : nat;
  docs_ingested : nat;
  docs_skipped : nat;
  errors : list string
}.

(** A row of [campaign_sources]. *)
Record source : Type := mkSource {
  src_id : nat;
  src_campaign : nat;
  src_name : string;
  src_kind : string;
  src_root_path : string;
  src_recursive : bool;
  src_follow_symlinks : bool;
  src_include_globs : list string;
  src_exclude_globs : list string;
  src_change_detection : string;
  src_enabled : bool;
  src_last_scan_at : option nat;
  src_last_ingest_at : option nat
}.

(** A row of [source_folders]. *)
Record folder : Type := mkFolder {
  fo_id : nat;
  fo_source : nat;
  fo_rel_path : string;
  fo_parent : option nat;
  fo_depth : nat;
  fo_last_seen_at : nat
}.

(** A row of [source_files]. *)
Record file : Type := mkFile {
  f_id : nat;
  f_source : nat;
  f_folder : nat;
  f_rel_path : string;
  f_ext : option string;
  f_size_bytes : Z;
  f_mtime_epoch : Z;
  f_sha256 : option string;
  f_status : string;
  f_last_seen_at : nat;
  f_last_ingested_at : option nat;
  f_last_ingest_status : string;
  f_error : option string
}.

(** A row of [kb_documents]. *)
Record document : Type := mkDocument {
  d_id : nat;
  d_campaign : nat;
  d_source_file : nat;
  d_doc_type : string;
  d_title : string;
  d_body_md : string;
  d_content_hash : string;
  d_updated_at : option nat
}.

(** A row of [kb_chunks]; the metadata is the JSON object of the source, as
    its list of members. *)
Record chunk : Type := mkChunk {
  ch_campaign : nat;
  ch_document : nat;
  ch_section_path : string;
  ch_chunk_index : nat;
  ch_content : string;
  ch_metadata : list (string * Z);
  ch_embedding : option (list Z);
  ch_embedding_model : string
}.

(** A row of [ingest_runs]. *)
Record run : Type := mkRun {
  run_id : nat;
  run_campaign : nat;
  run_trigger : string;
  run_status : string;
  run_finished_at : option nat;
  run_stats : option stats;
  run_error : option string
}.

(** A row of [ingest_run_files]. *)
Record run_file : Type := mkRunFile {
  rf_run : nat;
  rf_file : nat;
  rf_action : string;
  rf_status : string;
  rf_reason : option string;
  rf_error : option string
}.

Record db : Type := mkDb {
  campaigns : list nat;
  campaign_sources : list source;
  source_folders : list folder;
  source_files : list file;
  kb_documents : list document;
  kb_chunks : list chunk;
  ingest_runs : list run;
  ingest_run_files : list run_file;
  seq_folder : nat;
  seq_file : nat;
  seq_document : nat;
  seq_run : nat
}.

(** *** Record updates *)

Definition set_campaign_sources (d : db) (v : list source) : db :=
  mkDb (campaigns d) v (source_folders d) (source_files d) (kb_documents d)
    (kb_chunks d) (ingest_runs d) (ingest_run_files d)
    (seq_folder d) (seq_file d) (seq_document d) (seq_run d).

Definition set_source_folders (d : db) (v : list folder) (next : nat) : db :=
  mkDb (campaigns d) (campaign_sources d) v (source_files d) (kb_documents d)
    (kb_chunks d) (ingest_runs d) (ingest_run_files d)
    next (seq_file d) (seq_document d) (seq_run d).

Definition set_source_files (d : db) (v : list file) (next : nat) : db :=
  mkDb (campaigns d) (campaign_sources d) (source_folders d) v (kb_documents d)
    (kb_chunks d) (ingest_runs d) (ingest_run_files d)
    (seq_folder d) next (seq_document d) (seq_run d).

Definition set_kb_documents (d : db) (v : list document) (next : nat) : db :=
  mkDb (campaigns d) (campaign_sources d) (source_folders d) (source_files d) v
    (kb_chunks d) (ingest_runs d) (ingest_run_files d)
    (seq_folder d) (seq_file d) next (seq_run d).

Definition set_kb_chunks (d : db) (v : list chunk) : db :=
  mkDb (campaigns d) (campaign_sources d) (source_folders d) (source_files d)
    (kb_documents d) v (ingest_runs d) (ingest_run_files d)
    (seq_folder d) (seq_file d) (seq_document d) (seq_run d).

Definition set_ingest_runs (d : db) (v : list run) (next : nat) : db :=
  mkDb (campaigns d) (campaign_sources d) (source_folders d) (source_files d)
    (kb_documents d) (kb_chunks d) v (ingest_run_files d)
    (seq_folder d) (seq_file d) (seq_document d) next.

Definition set_ingest_run_files (d : db) (v : list run_file) : db :=
  mkDb (campaigns d) (campaign_sources d) (source_folders d) (source_files d)
    (kb_documents d) (kb_chunks d) (ingest_runs d) v
    (seq_folder d) (seq_file d) (seq_document d) (seq_run d).

Definition empty_stats : stats := mkStats 0 0 0 0 0 0 0 0 0 0 [].

Definition set_sources_total (s : stats) (n : nat) : stats :=
  mkStats n (sources_scanned s) (files_seen s) (files_new s)
    (files_changed s) (files_unchanged s) (files_deleted s)
    (files_ingested s) (docs_ingested s) (docs_skipped s) (errors s).

Definition incr_sources_scanned (s : stats) : stats :=
  mkStats (sources_total s) (sources_scanned s + 1) (files_seen s)
    (files_new s) (files_changed s) (files_unchanged s) (files_deleted s)
    (files_ingested s) (docs_ingested s) (docs_skipped s) (errors s).

Definition incr_files_seen (s : stats) : stats :=
  mkStats (sources_total s) (sources_scanned s) (files_seen s + 1)
    (files_new s) (files_changed s) (files_unchanged s) (files_deleted s)
    (files_ingested s) (docs_ingested s) (docs_skipped s) (errors s).

Definition incr_files_new (s : stats) : stats :=
  mkStats (sources_total s) (sources_scanned s) (files_seen s)
    (files_new s + 1) (files_changed s) (files_unchanged s) (files_deleted s)
    (files_ingested s) (docs_ingested s) (docs_skipped s) (errors s).

Definition incr_files_changed (s : stats) : stats :=
  mkStats (sources_total s) (sources_scanned s) (files_seen s)
    (files_new s) (files_changed s + 1) (files_unchanged s) (files_deleted s)
    (files_ingested s) (docs_ingested s) (docs_skipped s) (errors s).

Definition incr_files_unchanged (s : stats) : stats :=
  mkStats (sources_total s) (sources_scanned s) (files_seen s)
    (files_new s) (files_changed s) (files_unchanged s + 1) (files_deleted s)
    (files_ingested s) (docs_ingested s) (docs_skipped s) (errors s).

Definition incr_files_deleted (s : stats) : stats :=
  mkStats (sources_total s) (sources_scanned s) (files_seen s)
    (files_new s) (files_changed s) (files_unchanged s) (files_deleted s + 1)
    (files_ingested s) (docs_ingested s) (docs_skipped s) (errors s).

(** [stats["files_ingested"] += 1; stats["docs_ingested"] += 1] *)
Definition incr_ingested (s : stats) : stats :=
  mkStats (sources_total s) (sources_scanned s) (files_seen s)
    (files_new s) (files_changed s) (files_unchanged s) (files_deleted s)
    (files_ingested s + 1) (docs_ingested s + 1) (docs_skipped s) (errors s).

Definition incr_docs_skipped (s : stats) : stats :=
  mkStats (sources_total s) (sources_scanned s) (files_seen s)
    (files_new s) (files_changed s) (files_unchanged s) (files_deleted s)
    (files_ingested s) (docs_ingested s) (docs_skipped s + 1) (errors s).

(** [stats["errors"].append(msg)] *)
Definition append_error (s : stats) (msg : string) : stats :=
  mkStats (sources_total s) (sources_scanned s) (files_seen s)
    (files_new s) (files_changed s) (files_unchanged s) (files_deleted s)
    (files_ingested s) (docs_ingested s) (docs_skipped s) (errors s ++ [msg]).

(* ------------------------------------------------------------------ *)
(** ** Environment: filesystem, hashing, exceptions *)

(** What [full_path.stat()] gives: size and modification time, or [OSError]. *)
Inductive stat_result : Type :=
  | StatOk (st_size st_mtime : Z)
  | StatErr (msg : string).

(** What opening the file gives: its bytes, or [OSError]. *)
Inductive open_result : Type :=
  | OpenOk (content : string)
  | OpenErr (msg : string).

(** What [root_path.exists()] gives: whether [stat] found the path, or the
    [OSError] of [stat] that [exists] lets through (it swallows the errors
    of a missing path only; a [PermissionError] on a directory above the root
    is raised). *)
Inductive exists_result : Type :=
  | ExistsOk (found : bool)
  | ExistsErr (msg : string).

Record file_entry : Type := mkFileEntry {
  fe_name : string;
  fe_stat : stat_result;
  fe_open : open_result
}.

(** One step of [os.walk]: the directory, as
    [Path(dirpath).relative_to(root_path).as_posix()], and its files. *)
Record dir_entry : Type := mkDirEntry {
  de_rel : string;
  de_files : list file_entry
}.

Record filesystem : Type := mkFs {
  fs_exists : string -> exists_result;
  fs_walk : string -> bool -> list dir_entry
}.

(** [hashlib.sha256(...).hexdigest()] and the UTF-8 codec. *)
Class Hashlib : Type := mkHashlib {
  sha256_hex : string -> string;
  utf8_encode : string -> string;
  utf8_decode_replace : string -> string
}.

(** The exceptions of the engine; [SQLAlchemyError] is the exception of
    [db.execute] for a statement that the store refuses, named by the
    statement. *)
Inductive exn : Type :=
  | ValueError (msg : string)
  | OSError (msg : string)
  | SQLAlchemyError (statement : string).

Inductive outcome (A : Type) : Type :=
  | Ok (a : A)
  | Raise (e : exn).

Arguments Ok {A} a.
Arguments Raise {A} e.

Definition bind {A B} (m : outcome A) (k : A -> outcome B) : outcome B :=
  match m with
  | Ok a => k a
  | Raise e => Raise e
  end.

Notation "x <- m ;; k" := (bind m (fun x => k))
  (at level 61, m at next level, right associativity).

Notation "' pat <- m ;; k" :=
  (bind m (fun x => match x with pat => k end))
  (at level 61, pat pattern, m at next level, right associativity).

(** A [for] loop whose body may raise. *)
Fixpoint for_each {A S} (body : A -> S -> outcome S) (l : list A) (s : S)
    : outcome S :=
  match l with
  | [] => Ok s
  | a :: rest => s' <- body a s ;; for_each body rest s'
  end.

(** Calls that leave the process, recorded in the order they are made: this
    trace is not a variable of the source. *)
Inductive event : Type :=
  | EvHashFile (full_path : string)
  | EvReadText (full_path : string)
  | EvUpsertDocument (source_file_id : nat) (action : string).

Definition is_hash_event (e : event) : bool :=
  match e with EvHashFile _ => true | _ => false end.

Definition is_read_event (e : event) : bool :=
  match e with EvReadText _ => true | _ => false end.

(** The transaction, the counters and the trace. *)
Record world : Type := mkWorld {
  w_db : db;
  w_stats : stats;
  w_trace : list event
}.

Definition on_db (f : db -> db) (w : world) : world :=
  mkWorld (f (w_db w)) (w_stats w) (w_trace w).

Definition on_stats (f : stats -> stats) (w : world) : world :=
  mkWorld (w_db w) (f (w_stats w)) (w_trace w).

Definition emit (e : event) (w : world) : world :=
  mkWorld (w_db w) (w_stats w) (w_trace w ++ [e]).

(** The locals of the scan of one source. *)
Record scan : Type := mkScan {
  sc_world : world;
  sc_folder_map : Dict.t nat;
  sc_seen_paths : list string;
  sc_files_to_ingest : Z
}.

Definition on_world (f : world -> world) (sc : scan) : scan :=
  mkScan (f (sc_world sc)) (sc_folder_map sc) (sc_seen_paths sc)
    (sc_files_to_ingest sc).

(** [rel_path in seen_paths] *)
Definition seen (paths : list string) (p : string) : bool :=
  existsb (String.eqb p) paths.

(** [seen_paths.add(rel_path)] *)
Definition seen_add (paths : list string) (p : string) : list string :=
  if seen paths p then paths else paths ++ [p].

(* ------------------------------------------------------------------ *)
(** ** The statements sent to the store *)

Module Sql.

(** [SELECT 1 FROM campaigns WHERE id = :id] *)
Definition campaign_exists (d : db) (id : nat) : bool :=
  existsb (Nat.eqb id) (campaigns d).

(** [INSERT INTO ingest_runs ... RETURNING id] *)
Definition insert_run (d : db) (campaign_id : nat) : db * nat :=
  let id := seq_run d in
  (set_ingest_runs d
     (ingest_runs d ++ [mkRun id campaign_id "api" "running" None None None])
     (S id),
   id).

(** [SELECT ... FROM campaign_sources WHERE campaign_id = :campaign_id AND
    enabled = true] *)
Definition select_sources (d : db) (campaign_id : nat) : list source :=
  filter (fun s => (src_campaign s =? campaign_id) && src_enabled s)
    (campaign_sources d).

(** [UPDATE campaign_sources SET last_scan_at = now() WHERE id = :id] *)
Definition stamp_scan (now source_id : nat) (d : db) : db :=
  set_campaign_sources d
    (map (fun s =>
            if src_id s =? source_id then
              mkSource (src_id s) (src_campaign s) (src_name s) (src_kind s)
                (src_root_path s) (src_recursive s) (src_follow_symlinks s)
                (src_include_globs s) (src_exclude_globs s)
                (src_change_detection s) (src_enabled s)
                (Some now) (src_last_ingest_at s)
            else s)
       (campaign_sources d)).

(** [UPDATE campaign_sources SET last_ingest_at = now() WHERE id = :id] *)
Definition stamp_ingest (now source_id : nat) (d : db) : db :=
  set_campaign_sources d
    (map (fun s =>
            if src_id s =? source_id then
              mkSource (src_id s) (src_campaign s) (src_name s) (src_kind s)
                (src_root_path s) (src_recursive s) (src_follow_symlinks s)
                (src_include_globs s) (src_exclude_globs s)
                (src_change_detection s) (src_enabled s)
                (src_last_scan_at s) (Some now)
            else s)
       (campaign_sources d)).

(** [SELECT ... FROM source_files WHERE source_id = :source_id AND
    status <> 'deleted'] *)
Definition select_existing (d : db) (source_id : nat) : list file :=
  filter (fun r => (f_source r =? source_id)
                   && negb (String.eqb (f_status r) "deleted"))
    (source_files d).

(** [SELECT id, rel_path FROM source_folders WHERE source_id = :source_id] *)
Definition select_folders (d : db) (source_id : nat) : list folder :=
  filter (fun r => fo_source r =? source_id) (source_folders d).

Definition same_folder (source_id : nat) (rel_path : string) (r : folder)
    : bool :=
  (fo_source r =? source_id) && String.eqb (fo_rel_path r) rel_path.

Definition touch_folder_row (now : nat) (r : folder) : folder :=
  mkFolder (fo_id r) (fo_source r) (fo_rel_path r) (fo_parent r) (fo_depth r)
    now.

(** [UPDATE source_folders SET last_seen_at = now() WHERE source_id = :sid
    AND rel_path = :rp] *)
Definition touch_folder (now source_id : nat) (rel_path : string) (d : db)
    : db :=
  set_source_folders d
    (map (fun r => if same_folder source_id rel_path r
                   then touch_folder_row now r else r)
       (source_folders d))
    (seq_folder d).

(** [INSERT INTO source_folders ... ON CONFLICT (source_id, rel_path) DO
    UPDATE SET last_seen_at = now() RETURNING id] *)
Definition upsert_folder (now source_id : nat) (rel_path : string)
    (parent_id : option nat) (depth : nat) (d : db) : db * nat :=
  match find (same_folder source_id rel_path) (source_folders d) with
  | Some r => (touch_folder now source_id rel_path d, fo_id r)
  | None =>
      let id := seq_folder d in
      (set_source_folders d
         (source_folders d
          ++ [mkFolder id source_id rel_path parent_id depth now])
         (S id),
       id)
  end.

(** [INSERT INTO source_files (...) VALUES (..., 'seen', now(), 'never')
    RETURNING id] *)
Definition insert_file (now source_id folder_id : nat) (rel_path : string)
    (ext : option string) (size_bytes mtime_epoch : Z)
    (sha256 : option string) (d : db) : db * nat :=
  let id := seq_file d in
  (set_source_files d
     (source_files d
      ++ [mkFile id source_id folder_id rel_path ext size_bytes mtime_epoch
            sha256 "seen" now None "never" None])
     (S id),
   id).

Definition update_rows (id : nat) (f : file -> file) (d : db) : db :=
  set_source_files d
    (map (fun r => if f_id r =? id then f r else r) (source_files d))
    (seq_file d).

(** [UPDATE source_files SET folder_id, ext, size_bytes, mtime_epoch, sha256,
    status = 'seen', last_seen_at = now() WHERE id = :id] *)
Definition mark_seen (now folder_id : nat) (ext : option string)
    (size_bytes mtime_epoch : Z) (sha256 : option string) (r : file) : file :=
  mkFile (f_id r) (f_source r) folder_id (f_rel_path r) ext size_bytes
    mtime_epoch sha256 "seen" now (f_last_ingested_at r)
    (f_last_ingest_status r) (f_error r).

(** [UPDATE source_files SET last_ingested_at = now(), last_ingest_status =
    :status, error = :err WHERE id = :id] *)
Definition mark_ingest (now : nat) (status : string) (err : option string)
    (r : file) : file :=
  mkFile (f_id r) (f_source r) (f_folder r) (f_rel_path r) (f_ext r)
    (f_size_bytes r) (f_mtime_epoch r) (f_sha256 r) (f_status r)
    (f_last_seen_at r) (Some now) status err.

(** [UPDATE source_files SET status='deleted', last_seen_at=now() WHERE
    id=:id] *)
Definition mark_deleted (now : nat) (r : file) : file :=
  mkFile (f_id r) (f_source r) (f_folder r) (f_rel_path r) (f_ext r)
    (f_size_bytes r) (f_mtime_epoch r) (f_sha256 r) "deleted" now
    (f_last_ingested_at r) (f_last_ingest_status r) (f_error r).

Definition same_run_file (run_id file_id : nat) (r : run_file) : bool :=
  (rf_run r =? run_id) && (rf_file r =? file_id).

(** [INSERT INTO ingest_run_files ... ON CONFLICT (ingest_run_id,
    source_file_id) DO NOTHING] *)
Definition insert_run_file (row : run_file) (d : db) : db :=
  if existsb (same_run_file (rf_run row) (rf_file row)) (ingest_run_files d)
  then d
  else set_ingest_run_files d (ingest_run_files d ++ [row]).

(** [INSERT INTO ingest_run_files ... ON CONFLICT (ingest_run_id,
    source_file_id) DO UPDATE SET status='error', error=excluded.error] *)
Definition upsert_run_file_error (row : run_file) (d : db) : db :=
  if existsb (same_run_file (rf_run row) (rf_file row)) (ingest_run_files d)
  then
    set_ingest_run_files d
      (map (fun r =>
              if same_run_file (rf_run row) (rf_file row) r
              then mkRunFile (rf_run r) (rf_file r) (rf_action r) "error"
                     (rf_reason r) (rf_error row)
              else r)
         (ingest_run_files d))
  else set_ingest_run_files d (ingest_run_files d ++ [row]).

(** [SELECT id, content_hash FROM kb_documents WHERE campaign_id = ... AND
    source_file_id = ...], first row. *)
Definition select_document (d : db) (campaign_id source_file_id : nat)
    : option document :=
  find (fun r => (d_campaign r =? campaign_id)
                 && (d_source_file r =? source_file_id))
    (kb_documents d).

(** [UPDATE kb_documents SET title, doc_type, body_md, content_hash,
    updated_at = now() WHERE id = :id] *)
Definition update_document (now id : nat) (title doc_type body hash : string)
    (d : db) : db :=
  set_kb_documents d
    (map (fun r =>
            if d_id r =? id then
              mkDocument (d_id r) (d_campaign r) (d_source_file r) doc_type
                title body hash (Some now)
            else r)
       (kb_documents d))
    (seq_document d).

(** [DELETE FROM kb_chunks WHERE document_id = :doc_id] *)
Definition delete_chunks (doc_id : nat) (d : db) : db :=
  set_kb_chunks d
    (filter (fun c => negb (ch_document c =? doc_id)) (kb_chunks d)).

(** [INSERT INTO kb_documents (...) RETURNING id] *)
Definition insert_document (campaign_id source_file_id : nat)
    (doc_type title body hash : string) (d : db) : db * nat :=
  let id := seq_document d in
  (set_kb_documents d
     (kb_documents d
      ++ [mkDocument id campaign_id source_file_id doc_type title body hash
            None])
     (S id),
   id).

(** [INSERT INTO kb_chunks (...) VALUES (..., :metadata::jsonb, NULL, ...)]:
    the parameter in front of the cast is not bound and the store refuses
    the statement; the transaction is aborted. *)
Definition insert_chunk (c : chunk) (d : db) : outcome db :=
  Raise (SQLAlchemyError "INSERT INTO kb_chunks").

(** [UPDATE ingest_runs SET finished_at = now(), status = :status,
    stats = :stats::jsonb, error = :error WHERE id = :id]: refused like
    [insert_chunk], for the parameter in front of the cast. *)
Definition finalize_run (now id : nat) (status : string) (st : stats)
    (error : option string) (d : db) : outcome db :=
  Raise (SQLAlchemyError "UPDATE ingest_runs").

End Sql.

(* ------------------------------------------------------------------ *)
(** ** The engine *)

(** The arguments of a call of [update_campaign_kb], with the filesystem it
    reads and the time of its transaction. *)
Record env : Type := mkEnv {
  e_fs : filesystem;
  e_now : nat;
  e_campaign_id : nat;
  e_dry_run : bool;
  e_force_rehash : bool;
  e_max_files : option Z
}.

(** The verdict of change detection on one file. *)
Record verdict : Type := mkVerdict {
  v_is_new : bool;
  v_changed_hint : bool;
  v_changed : bool;
  v_sha256 : option string;
  v_hashed : bool
}.

(** The dictionary returned to the caller. *)
Record run_result : Type := mkRunResult {
  res_ingest_run_id : nat;
  res_status : string;
  res_stats : stats
}.

(** What a call leaves behind: the store after commit or rollback, the value
    returned or the exception raised, and the trace of its external calls. *)
Record finished : Type := mkFinished {
  fin_db : db;
  fin_result : outcome run_result;
  fin_trace : list event
}.

Definition newline : string := String (ascii_of_nat 10) EmptyString.

(** [msg[:5000]] *)
Definition truncate (msg : string) : string := substring 0 5000 msg.

(** ["\n".join(errors)] *)
Fixpoint join_lines (l : list string) : string :=
  match l with
  | [] => ""
  | [x] => x
  | x :: rest => x ++ newline ++ join_lines rest
  end.

(** [root_path = Path(src["root_path"])], as text. *)
Definition root_path (src : source) : string :=
  Posix.as_posix (src_root_path src).

Section Engine.

Context {HL : Hashlib}.

Definition _sha256_file (o : open_result) : outcome string :=
  match o with
  | OpenOk content => Ok (sha256_hex content)
  | OpenErr msg => Raise (OSError msg)
  end.

Definition _sha256_text (s : string) : string := sha256_hex (utf8_encode s).

(** [_chunk_text(body)], with the default window of 6000 characters and
    overlap of 300, for which the loop ends within the length of the body. *)
Definition chunk_body (body : string) : list string :=
  match _chunk_text (S (String.length body)) body 6000 300 with
  | Some chunks => chunks
  | None => []
  end.

(** [for idx, ch in enumerate(chunks): INSERT INTO kb_chunks ...] *)
Fixpoint insert_chunks (campaign_id doc_id idx : nat) (chunks : list string)
    (conn : db) : outcome db :=
  match chunks with
  | [] => Ok conn
  | ch :: rest =>
      conn1 <- Sql.insert_chunk
                 (mkChunk campaign_id doc_id "" idx ch [("v", 0%Z)] None
                    "nomic-embed-text")
                 conn ;;
      insert_chunks campaign_id doc_id (S idx) rest conn1
  end.

Definition _upsert_document_and_chunks (now : nat) (conn : db)
    (campaign_id source_file_id : nat) (title doc_type body : string)
    : outcome (db * (nat * string)) :=
  let content_hash := _sha256_text body in
  match Sql.select_document conn campaign_id source_file_id with
  | Some doc_row =>
      if String.eqb (d_content_hash doc_row) content_hash then
        Ok (conn, (d_id doc_row, "skipped"))
      else
        let doc_id := d_id doc_row in
        let conn1 :=
          Sql.update_document now doc_id title doc_type body content_hash
            conn in
        let conn2 := Sql.delete_chunks doc_id conn1 in
        conn3 <- insert_chunks campaign_id doc_id 0 (chunk_body body) conn2 ;;
        Ok (conn3, (doc_id, "ingested"))
  | None =>
      let '(conn1, doc_id) :=
        Sql.insert_document campaign_id source_file_id doc_type title body
          content_hash conn in
      conn2 <- insert_chunks campaign_id doc_id 0 (chunk_body body) conn1 ;;
      Ok (conn2, (doc_id, "ingested"))
  end.

(** [change_detection in ("sha256", "auto")] *)
Definition hashing_mode (change_detection : string) : bool :=
  String.eqb change_detection "sha256" || String.eqb change_detection "auto".

(** Change detection on one file (the block from [prev = existing_map.get]
    to [sha256 = sha256_now]). *)
Definition detect_change (change_detection : string) (force_rehash : bool)
    (prev : option file) (size_bytes mtime_epoch : Z) (o : open_result)
    : outcome verdict :=
  let is_new := match prev with None => true | Some _ => false end in
  let changed_hint :=
    match prev with
    | None => true
    | Some p =>
        negb (f_size_bytes p =? size_bytes)%Z
        || negb (f_mtime_epoch p =? mtime_epoch)%Z
    end in
  let sha256 := match prev with Some p => f_sha256 p | None => None end in
  if hashing_mode change_detection
     && (force_rehash || changed_hint || is_new)
  then
    sha256_now <- _sha256_file o ;;
    let changed :=
      match prev with
      | Some p =>
          match f_sha256 p with
          | Some h => if String.eqb h sha256_now then false else changed_hint
          | None => changed_hint
          end
      | None => changed_hint
      end in
    Ok (mkVerdict is_new changed_hint changed (Some sha256_now) true)
  else Ok (mkVerdict is_new changed_hint changed_hint sha256 false).

(** [folder_map.get(key, folder_map[""])]; the root folder is in the map from
    the start of the scan on. *)
Definition folder_of (folder_map : Dict.t nat) (key : string) : nat :=
  match Dict.get folder_map key with
  | Some id => id
  | None => match Dict.get folder_map "" with Some id => id | None => 0 end
  end.

(** The counters of classification. *)
Definition count_verdict (v : verdict) (s : stats) : stats :=
  if v_is_new v then incr_files_new s
  else if v_changed v then incr_files_changed s
  else incr_files_unchanged s.

(** The insert or update of the [source_files] row; gives its id. *)
Definition upsert_source_file (now source_id folder_id : nat)
    (rel_path : string) (ext : option string) (size_bytes mtime_epoch : Z)
    (prev : option file) (v : verdict) (d : db) : db * nat :=
  match prev with
  | None =>
      Sql.insert_file now source_id folder_id rel_path ext size_bytes
        mtime_epoch (v_sha256 v) d
  | Some p =>
      (Sql.update_rows (f_id p)
         (Sql.mark_seen now folder_id ext size_bytes mtime_epoch (v_sha256 v))
         d,
       f_id p)
  end.

(** [max_files is not None and files_to_ingest >= max_files] *)
Definition cap_reached (max_files : option Z) (files_to_ingest : Z) : bool :=
  match max_files with
  | Some m => (files_to_ingest >=? m)%Z
  | None => false
  end.

(** The ingestion of one new or changed file: the [try] block and its
    [except] branch.  When the read fails the branch records the error.
    When the materializer fails, a statement was refused and the
    transaction is aborted: the first statement of the branch,
    [UPDATE source_files SET ... last_ingest_status = 'error'], raises in
    its turn, and that exception leaves the loop. *)
Definition ingest_file (e : env) (ingest_run_id source_file_id : nat)
    (rel_path full_path name : string) (ext : option string)
    (o : open_result) (w : world) : outcome world :=
  let w := emit (EvReadText full_path) w in
  match o with
  | OpenOk content =>
      let body := utf8_decode_replace content in
      let title := PathAttr.stem name in
      let doc_type :=
        match ext with
        | Some x => if String.eqb x "md" then "md" else x
        | None => "file"
        end in
      match _upsert_document_and_chunks (e_now e) (w_db w) (e_campaign_id e)
              source_file_id title doc_type body with
      | Ok (conn, (_, doc_action)) =>
          let w := mkWorld conn (w_stats w) (w_trace w) in
          let w := emit (EvUpsertDocument source_file_id doc_action) w in
          let ingested := String.eqb doc_action "ingested" in
          let w :=
            on_stats (if ingested then incr_ingested else incr_docs_skipped)
              w in
          let ingest_status := if ingested then "ok" else "skipped" in
          let w :=
            on_db (Sql.update_rows source_file_id
                     (Sql.mark_ingest (e_now e) ingest_status None)) w in
          Ok (on_db (Sql.insert_run_file
                       (mkRunFile ingest_run_id source_file_id "ingest" "ok"
                          None None)) w)
      | Raise _ => Raise (SQLAlchemyError "UPDATE source_files")
      end
  | OpenErr msg =>
      let w :=
        on_stats (fun s =>
          append_error s ("ingest failed for " ++ rel_path ++ ": " ++ msg))
          w in
      let w :=
        on_db (Sql.update_rows source_file_id
                 (Sql.mark_ingest (e_now e) "error" (Some (truncate msg)))) w in
      Ok (on_db (Sql.upsert_run_file_error
                   (mkRunFile ingest_run_id source_file_id "ingest" "error"
                      None (Some (truncate msg)))) w)
  end.

(** The body of [for fn in filenames]. *)
Definition process_file (e : env) (ingest_run_id : nat) (src : source)
    (existing_map : Dict.t file) (dir_rel : string) (fe : file_entry)
    (sc : scan) : outcome scan :=
  let rel_path := PathAttr.rel_of dir_rel (fe_name fe) in
  let full_path := PathAttr.full_of (src_root_path src) rel_path in
  if negb (_should_include rel_path (src_include_globs src)
             (src_exclude_globs src))
  then Ok sc
  else
    match fe_stat fe with
    | StatErr msg =>
        Ok (on_world (on_stats (fun s =>
              append_error s
                ("stat failed for " ++ full_path ++ ": " ++ msg))) sc)
    | StatOk size_bytes mtime_epoch =>
        let seen_paths := seen_add (sc_seen_paths sc) rel_path in
        let w := on_stats incr_files_seen (sc_world sc) in
        let prev := Dict.get existing_map rel_path in
        v <- detect_change (src_change_detection src) (e_force_rehash e)
               prev size_bytes mtime_epoch (fe_open fe) ;;
        let w := if v_hashed v then emit (EvHashFile full_path) w else w in
        let folder_id := folder_of (sc_folder_map sc) dir_rel in
        let ext := PathAttr.ext_of (fe_name fe) in
        let w := on_stats (count_verdict v) w in
        let '(conn, source_file_id) :=
          upsert_source_file (e_now e) (src_id src) folder_id rel_path ext
            size_bytes mtime_epoch prev v (w_db w) in
        let w := mkWorld conn (w_stats w) (w_trace w) in
        if (v_is_new v || v_changed v) && negb (e_dry_run e) then
          if cap_reached (e_max_files e) (sc_files_to_ingest sc) then
            Ok (mkScan w (sc_folder_map sc) seen_paths
                  (sc_files_to_ingest sc))
          else
            w <- ingest_file e ingest_run_id source_file_id rel_path
                   full_path (fe_name fe) ext (fe_open fe) w ;;
            Ok (mkScan w (sc_folder_map sc) seen_paths
                  (sc_files_to_ingest sc + 1)%Z)
        else
          Ok (mkScan w (sc_folder_map sc) seen_paths (sc_files_to_ingest sc))
    end.

(** The folder bookkeeping at the head of the body of the walk. *)
Definition process_folder (e : env) (src : source) (dir_rel : string)
    (sc : scan) : scan :=
  let parent_rel :=
    if String.eqb dir_rel "" then "" else Posix.parent dir_rel in
  let depth :=
    if String.eqb dir_rel "" then 0 else Posix.parts_count dir_rel in
  if negb (Dict.mem (sc_folder_map sc) dir_rel) then
    let parent_id := folder_of (sc_folder_map sc) parent_rel in
    let '(conn, folder_id) :=
      Sql.upsert_folder (e_now e) (src_id src) dir_rel (Some parent_id) depth
        (w_db (sc_world sc)) in
    mkScan (mkWorld conn (w_stats (sc_world sc)) (w_trace (sc_world sc)))
      (Dict.set (sc_folder_map sc) dir_rel folder_id)
      (sc_seen_paths sc) (sc_files_to_ingest sc)
  else
    on_world (on_db (Sql.touch_folder (e_now e) (src_id src) dir_rel)) sc.

(** The body of [for dirpath, _, filenames in os.walk(...)]. *)
Definition process_dir (e : env) (ingest_run_id : nat) (src : source)
    (existing_map : Dict.t file) (de : dir_entry) (sc : scan)
    : outcome scan :=
  for_each (process_file e ingest_run_id src existing_map (de_rel de))
    (de_files de) (process_folder e src (de_rel de) sc).

(** The body of [for rel_path, prev in existing_map.items()]. *)
Definition reconcile_one (e : env) (ingest_run_id : nat)
    (seen_paths : list string) (item : string * file) (w : world) : world :=
  let '(rel_path, prev) := item in
  if seen seen_paths rel_path then w
  else
    let w := on_stats incr_files_deleted w in
    if negb (e_dry_run e) then
      let w :=
        on_db (Sql.update_rows (f_id prev) (Sql.mark_deleted (e_now e))) w in
      on_db (Sql.insert_run_file
               (mkRunFile ingest_run_id (f_id prev) "delete" "ok"
                  (Some "missing_on_disk") None)) w
    else w.

(** The root folder, at the start of the scan of a source. *)
Definition ensure_root_folder (e : env) (src : source)
    (folder_map : Dict.t nat) (w : world) : world * Dict.t nat :=
  if negb (Dict.mem folder_map "") then
    let '(conn, root_folder_id) :=
      Sql.upsert_folder (e_now e) (src_id src) "" None 0 (w_db w) in
    (mkWorld conn (w_stats w) (w_trace w), Dict.set folder_map "" root_folder_id)
  else (on_db (Sql.touch_folder (e_now e) (src_id src) "") w, folder_map).

(** The scan of the files of a source whose root exists: the body of
    [for src in sources] after the test of the root. *)
Definition scan_files (e : env) (ingest_run_id : nat) (src : source)
    (w : world) : outcome world :=
  let source_id := src_id src in
  let existing := Sql.select_existing (w_db w) source_id in
  let existing_map := Dict.of_rows f_rel_path (fun r => r) existing in
  let folder_rows := Sql.select_folders (w_db w) source_id in
  let folder_map := Dict.of_rows fo_rel_path fo_id folder_rows in
  let '(w, folder_map) := ensure_root_folder e src folder_map w in
  sc <- for_each (process_dir e ingest_run_id src existing_map)
          (fs_walk (e_fs e) (root_path src) (src_follow_symlinks src))
          (mkScan w folder_map [] 0%Z) ;;
  let w :=
    fold_left (fun w item =>
                 reconcile_one e ingest_run_id (sc_seen_paths sc) item w)
      existing_map (sc_world sc) in
  Ok (if negb (e_dry_run e)
      then on_db (Sql.stamp_ingest (e_now e) source_id) w
      else w).

(** The body of [for src in sources]. *)
Definition scan_source (e : env) (ingest_run_id : nat) (src : source)
    (w : world) : outcome world :=
  let w := on_stats incr_sources_scanned w in
  let source_id := src_id src in
  let w := on_db (Sql.stamp_scan (e_now e) source_id) w in
  match fs_exists (e_fs e) (root_path src) with
  | ExistsErr msg => Raise (OSError msg)
  | ExistsOk false =>
      Ok (on_stats (fun s =>
            append_error s
              ("Source '" ++ src_name src ++ "' root_path not found: "
               ++ root_path src)) w)
  | ExistsOk true => scan_files e ingest_run_id src w
  end.

(** [update_campaign_kb] from the lookup of the campaign to the end of the
    loop over the sources: the transaction and the counters that the run
    hands to the statement that finalises it, and the id of the run. *)
Definition scan_campaign (e : env) (d : db) : outcome (world * nat) :=
  if negb (Sql.campaign_exists d (e_campaign_id e)) then
    Raise (ValueError "Campaign not found.")
  else
    let '(d1, ingest_run_id) := Sql.insert_run d (e_campaign_id e) in
    let sources := Sql.select_sources d1 (e_campaign_id e) in
    let w0 :=
      mkWorld d1 (set_sources_total empty_stats (length sources)) [] in
    w <- for_each (scan_source e ingest_run_id) sources w0 ;;
    Ok (w, ingest_run_id).

(** [status = "ok" if not stats["errors"] else "partial"] *)
Definition status_of (st : stats) : string :=
  if is_nil (errors st) then "ok" else "partial".

(** The transaction of [update_campaign_kb], up to the commit. *)
Definition run_transaction (e : env) (d : db)
    : outcome (world * run_result) :=
  '(w, ingest_run_id) <- scan_campaign e d ;;
  let st := w_stats w in
  let status := status_of st in
  let error :=
    if is_nil (errors st) then None
    else Some (truncate (join_lines (errors st))) in
  conn <- Sql.finalize_run (e_now e) ingest_run_id status st error (w_db w) ;;
  Ok (mkWorld conn (w_stats w) (w_trace w),
      mkRunResult ingest_run_id status st).

(** [update_campaign_kb]: commit and return, or roll back and raise. *)
Definition update_campaign_kb (fs : filesystem) (now : nat) (d : db)
    (campaign_id : nat) (dry_run force_rehash : bool) (max_files : option Z)
    : finished :=
  match run_transaction
          (mkEnv fs now campaign_id dry_run force_rehash max_files) d with
  | Ok (w, result) => mkFinished (w_db w) (Ok result) (w_trace w)
  | Raise ex => mkFinished d (Raise ex) []
  end.

(** The answer of the route: the result, or an HTTP error. *)
Inductive http_response : Type :=
  | Http200 (body : run_result)
  | HttpException (status_code : nat) (detail : string)
  | Unhandled (ex : exn).

(** [kb_update] of app/api/routes.py *)
Definition kb_update (fs : filesystem) (now : nat) (d : db)
    (campaign_id : nat) (dry_run force_rehash : bool) (max_files : option Z)
    : db * http_response :=
  let fin :=
    update_campaign_kb fs now d campaign_id dry_run force_rehash max_files in
  match fin_result fin with
  | Ok result => (fin_db fin, Http200 result)
  | Raise (ValueError msg) => (fin_db fin, HttpException 400 msg)
  | Raise ex => (fin_db fin, Unhandled ex)
  end.

End Engine.

(* ------------------------------------------------------------------ *)
(** ** Predicates of the statements *)

(** State of the loop at its head: nothing emitted yet and [i = 0], or the
    fragments emitted so far are full windows covering the text up to
    [i + overlap]. *)
Definition loop_inv (s : list ascii) (max_chars overlap i : Z)
    (out : list (list ascii)) : Prop :=
  (out = [] /\ i = 0%Z) \/
  (out <> [] /\ (0 <= i)%Z /\ (i + overlap < Py.len s)%Z /\
   reconstruct (Z.to_nat overlap) out = firstn (Z.to_nat (i + overlap)) s /\
   Forall (fun c => c <> []) out /\
   Forall (fun c => length c = Z.to_nat max_chars) out).

(** The two identities between the counters. *)
Definition balanced (s : stats) : Prop :=
  files_seen s = files_new s + files_changed s + files_unchanged s /\
  docs_ingested s = files_ingested s.


(** The test that selects the row [existing_map] holds for a path. *)
Definition is_existing (source_id : nat) (k : string) (r : file) : bool :=
  ((f_source r =? source_id) && negb (String.eqb (f_status r) "deleted"))
  && String.eqb (f_rel_path r) k.

(** The row [existing_map] holds for a path: the last one selected. *)
Definition existing_row (l : list file) (source_id : nat) (k : string)
    : option file :=
  find (is_existing source_id k) (rev l).

(** [UPDATE ... WHERE id = x], on one row. *)
Definition upd (x : nat) (h : file -> file) (r : file) : file :=
  if f_id r =? x then h r else r.

(** An update that keeps the identity of a row: id, source and path. *)
Definition keeps_key (h : file -> file) : Prop :=
  forall r, f_id (h r) = f_id r /\ f_source (h r) = f_source r /\
            f_rel_path (h r) = f_rel_path r.

(** An update that records a file as seen with the given metadata. *)
Definition records_seen (size_bytes mtime_epoch : Z) (h : file -> file)
    : Prop :=
  forall r, f_status (h r) = "seen" /\ f_size_bytes (h r) = size_bytes /\
            f_mtime_epoch (h r) = mtime_epoch.

(** What the handling of one included file does to [source_files]: a row
    appended for a path that had none, the row of the path updated
    otherwise. *)
Inductive file_step (source_id : nat) (k : string) (size_bytes mtime_epoch : Z)
    (prev : option file) (d d' : db) : Prop :=
  | step_insert (r : file) :
      prev = None ->
      source_files d' = source_files d ++ [r] ->
      seq_file d' = S (seq_file d) ->
      f_id r = seq_file d -> f_source r = source_id -> f_rel_path r = k ->
      f_status r = "seen" ->
      f_size_bytes r = size_bytes -> f_mtime_epoch r = mtime_epoch ->
      file_step source_id k size_bytes mtime_epoch prev d d'
  | step_update (p : file) (h : file -> file) :
      prev = Some p ->
      source_files d' = map (upd (f_id p) h) (source_files d) ->
      seq_file d' = seq_file d ->
      keeps_key h -> records_seen size_bytes mtime_epoch h ->
      file_step source_id k size_bytes mtime_epoch prev d d'.

(** The tables other than [kb_documents] and [kb_chunks] are the same. *)
Definition only_kb_changed (d d' : db) : Prop :=
  campaigns d' = campaigns d /\
  campaign_sources d' = campaign_sources d /\
  source_folders d' = source_folders d /\
  source_files d' = source_files d /\
  ingest_runs d' = ingest_runs d /\
  ingest_run_files d' = ingest_run_files d /\
  seq_folder d' = seq_folder d /\
  seq_file d' = seq_file d /\
  seq_run d' = seq_run d.

(** The path and the metadata of a walked file that passes the globs and
    whose [stat] succeeds. *)
Definition entry_rel (dir_rel : string) (fe : file_entry) : string :=
  PathAttr.rel_of dir_rel (fe_name fe).

Definition entry_included (src : source) (dir_rel : string) (fe : file_entry)
    : bool :=
  _should_include (entry_rel dir_rel fe) (src_include_globs src)
    (src_exclude_globs src).

(** The counters of scanning and classification. *)
Definition tally (s : stats) : nat * nat * nat * nat * nat * nat * nat :=
  (sources_total s, sources_scanned s, files_seen s, files_new s,
   files_changed s, files_unchanged s, files_deleted s).

(** The counters of ingestion. *)
Definition ingest_tally (s : stats) : nat * nat * nat :=
  (files_ingested s, docs_ingested s, docs_skipped s).

Definition hash_events (t : list event) : list event :=
  filter is_hash_event t.

Definition read_events (t : list event) : list event :=
  filter is_read_event t.

(** [metaChanged] of the specification: the file is new, or its size or its
    modification time differs from the prior record. *)
Definition meta_changed (prev : option file) (size_bytes mtime_epoch : Z)
    : bool :=
  match prev with
  | None => true
  | Some p =>
      negb (f_size_bytes p =? size_bytes)%Z
      || negb (f_mtime_epoch p =? mtime_epoch)%Z
  end.

Definition is_none {A} (o : option A) : bool :=
  match o with None => true | Some _ => false end.

(** Whether the handling of a file goes on to ingest it. *)
Definition attempts (e : env) (v : verdict) (files_to_ingest : Z) : bool :=
  ((v_is_new v || v_changed v) && negb (e_dry_run e))
  && negb (cap_reached (e_max_files e) files_to_ingest).

Definition entry_full (src : source) (dir_rel : string) (fe : file_entry)
    : string :=
  PathAttr.full_of (src_root_path src) (entry_rel dir_rel fe).

(** The three verdicts of the change detector. *)
Inductive file_class : Type := IsNew | IsChanged | IsUnchanged.

Definition class_of (is_new changed : bool) : file_class :=
  if is_new then IsNew else if changed then IsChanged else IsUnchanged.

(** One more file seen, counted in the class given and in no other. *)
Definition counted (c : file_class) (s s' : stats) : Prop :=
  files_seen s' = files_seen s + 1 /\
  files_new s' = files_new s + (match c with IsNew => 1 | _ => 0 end) /\
  files_changed s' = files_changed s + (match c with IsChanged => 1 | _ => 0 end) /\
  files_unchanged s'
  = files_unchanged s + (match c with IsUnchanged => 1 | _ => 0 end).

(** The test of the materializer: a Document exists for the file and its
    hash is the hash of the body. *)
Definition would_skip {HL : Hashlib} (conn : db)
    (campaign_id source_file_id : nat) (body : string) : bool :=
  match Sql.select_document conn campaign_id source_file_id with
  | Some doc_row => String.eqb (d_content_hash doc_row) (_sha256_text body)
  | None => false
  end.

(** The materializer reaches a statement that the store refuses: the body
    is to be written (no Document of the file holds its hash) and it has a
    fragment. *)
Definition refused {HL : Hashlib} (conn : db)
    (campaign_id source_file_id : nat) (body : string) : bool :=
  negb (would_skip conn campaign_id source_file_id body)
  && negb (is_nil (chunk_body body)).

(** The id of the [source_files] row of a file being handled. *)
Definition row_id (prev : option file) (d : db) : nat :=
  match prev with
  | Some p => f_id p
  | None => seq_file d
  end.

(** What a scan observes of a walked file: its path, size and modification
    time, when the file passes the globs and its [stat] succeeds. *)
Definition obs : Type := (string * Z * Z)%type.

Definition obs_path (o : obs) : string := fst (fst o).

Definition file_obs (src : source) (dir_rel : string) (fe : file_entry)
    : list obs :=
  if entry_included src dir_rel fe then
    match fe_stat fe with
    | StatOk sz mt => [(entry_rel dir_rel fe, sz, mt)]
    | StatErr _ => []
    end
  else [].

Definition dir_obs (src : source) (de : dir_entry) : list obs :=
  flat_map (file_obs src (de_rel de)) (de_files de).

Definition walk_obs (src : source) (walk : list dir_entry) : list obs :=
  flat_map (dir_obs src) walk.

(** The relative paths of all the files of a walk. *)
Definition dir_paths (de : dir_entry) : list string :=
  map (entry_rel (de_rel de)) (de_files de).

Definition walk_paths (walk : list dir_entry) : list string :=
  flat_map dir_paths walk.

(** A walk lists every path once. *)
Definition fs_wf (fs : filesystem) : Prop :=
  forall root follow, NoDup (walk_paths (fs_walk fs root follow)).

(** [l1] is [l2] with some elements left out. *)
Inductive sub_seq {A : Type} : list A -> list A -> Prop :=
  | sub_nil : sub_seq [] []
  | sub_skip (a : A) (l1 l2 : list A) : sub_seq l1 l2 -> sub_seq l1 (a :: l2)
  | sub_keep (a : A) (l1 l2 : list A) :
      sub_seq l1 l2 -> sub_seq (a :: l1) (a :: l2).

(** The rows of one source, whatever their status. *)
Definition rows_of (source_id : nat) (l : list file) : list file :=
  filter (fun r => f_source r =? source_id) l.

Definition ids_wf (l : list file) (next : nat) : Prop :=
  NoDup (map f_id l) /\ Forall (fun r => f_id r < next) l.

(** The state of [source_files] during the walk of source [S], started from
    the rows [l0]: [done] is what has been observed so far, [l] the rows now,
    [next] the sequence, [seen_paths] the set of the source. *)
Record walk_inv (S : nat) (l0 : list file) (done : list obs)
    (l : list file) (next : nat) (seen_paths : list string) : Prop :=
  mkWalkInv {
    wi_wf : ids_wf l next;
    wi_other : forall S', S' <> S -> rows_of S' l = rows_of S' l0;
    wi_unseen : forall k,
      ~ In k seen_paths -> existing_row l S k = existing_row l0 S k;
    wi_seen : forall k, In k seen_paths <-> In k (map obs_path done);
    wi_done : forall k sz mt,
      In (k, sz, mt) done ->
      exists r, existing_row l S k = Some r /\
                f_size_bytes r = sz /\ f_mtime_epoch r = mt
  }.

(** The walk a scan of the source makes. *)
Definition source_walk (fs : filesystem) (src : source) : list dir_entry :=
  fs_walk fs (root_path src) (src_follow_symlinks src).

(** The primary keys of the store: the ids of [source_files] are distinct and
    below their sequence, the ids of [campaign_sources] are distinct, and the
    audit rows belong to runs that exist. *)
Definition store_wf (d : db) : Prop :=
  ids_wf (source_files d) (seq_file d) /\
  NoDup (map src_id (campaign_sources d)) /\
  Forall (fun r => rf_run r < seq_run d) (ingest_run_files d).

(** The scans of the sources read walks that list a path once. *)
Definition walks_wf (fs : filesystem) (srcs : list source) : Prop :=
  forall src, In src srcs ->
    NoDup (map obs_path (walk_obs src (source_walk fs src))).

(** Every file the walk of the source observes has a live row with the
    size and the modification time observed. *)
Definition synced (fs : filesystem) (l : list file) (src : source) : Prop :=
  fs_exists fs (root_path src) = ExistsOk true ->
  forall k sz mt,
    In (k, sz, mt) (walk_obs src (source_walk fs src)) ->
    exists r, existing_row l (src_id src) k = Some r /\
              f_size_bytes r = sz /\ f_mtime_epoch r = mt.

Definition is_ingest_event (ev : event) : bool := negb (is_hash_event ev).

(** What a scan that finds nothing new or changed leaves as it was: the
    counters of new and changed files and of ingestion, the Documents and the
    Fragments, and the reads and materializer calls of the trace. *)
Definition quiet_view (w : world)
    : nat * nat * (nat * nat * nat) * list document * list chunk * nat
      * list event :=
  (files_new (w_stats w), files_changed (w_stats w), ingest_tally (w_stats w),
   kb_documents (w_db w), kb_chunks (w_db w), seq_document (w_db w),
   filter is_ingest_event (w_trace w)).

(** The configuration of a source: its row without the two timestamps. *)
Definition config_of (s : source)
    : nat * nat * string * bool * list string * list string * string * bool :=
  (src_id s, src_campaign s, src_root_path s, src_follow_symlinks s,
   src_include_globs s, src_exclude_globs s, src_change_detection s,
   src_enabled s).

(** What a dry run must leave as it was: Documents, Fragments and audit
    rows. *)
Definition dry_view (d : db)
    : list document * list chunk * nat * list run_file :=
  (kb_documents d, kb_chunks d, seq_document d, ingest_run_files d).



(** Every file of the walk can be opened. *)
Definition walk_readable (walk : list dir_entry) : Prop :=
  forall de fe, In de walk -> In fe (de_files de) ->
    exists content, fe_open fe = OpenOk content.

(** Every file of the walk can be opened and holds blank text: no
    fragment comes of it. *)
Definition walk_blank {HL : Hashlib} (walk : list dir_entry) : Prop :=
  forall de fe, In de walk -> In fe (de_files de) ->
    exists content,
      fe_open fe = OpenOk content /\
      strip_text (utf8_decode_replace content) = "".

(** Fixtures of the examples. *)
Module Fixture.

(** A stand-in for [hashlib] and the codec: the digest of a content is the
    content itself behind a prefix, and the codec is the identity. *)
Definition toy_hashlib : Hashlib :=
  mkHashlib (fun s => ("sha:" ++ s)%string) (fun s => s) (fun s => s).

Definition campaign : nat := 1.

Definition source_at (id : nat) (root mode : string)
    (include_globs exclude_globs : list string) : source :=
  mkSource id campaign "notes" "folder" root true false include_globs
    exclude_globs mode true None None.

Definition notes_source (mode : string) : source :=
  source_at 10 "/kb" mode [] [].

Definition empty_db (sources : list source) : db :=
  mkDb [campaign] sources [] [] [] [] [] [] 0 0 0 0.

(** A filesystem with one root, ["/kb"], and the walk given. *)
Definition kb_fs (walk : list dir_entry) : filesystem :=
  mkFs (fun p => ExistsOk (String.eqb p "/kb"))
    (fun p _ => if String.eqb p "/kb" then walk else []).

(** A filesystem with two roots. *)
Definition two_roots_fs (walk_a walk_b : list dir_entry) : filesystem :=
  mkFs (fun p => ExistsOk (String.eqb p "/a" || String.eqb p "/b"))
    (fun p _ => if String.eqb p "/a" then walk_a
                else if String.eqb p "/b" then walk_b else []).

Definition no_fs : filesystem :=
  mkFs (fun _ => ExistsOk false) (fun _ _ => []).

Definition text_file (name content : string) (size mtime : Z) : file_entry :=
  mkFileEntry name (StatOk size mtime) (OpenOk content).

(** A file whose [stat] succeeds and that cannot be opened. *)
Definition locked_file (name : string) : file_entry :=
  mkFileEntry name (StatOk 5 100) (OpenErr "Permission denied").

Definition one_file_walk : list dir_entry :=
  [mkDirEntry "." [text_file "a.md" "abc" 3 100]].

(** The tree of the scenario of the glob matcher. *)
Definition git_walk : list dir_entry :=
  [mkDirEntry "." [text_file "a.md" "abc" 3 100;
                   text_file "b.txt" "xyz" 3 100];
   mkDirEntry ".git" [text_file "c.md" "ref" 3 100]].

(** The environment of a live call, on a filesystem that is not looked at. *)
Definition live (max_files : option Z) : env :=
  mkEnv no_fs 7 campaign false false max_files.

(** [notes.md], as recorded by an earlier run: size 100, modified at 1000. *)
Definition notes_row (sha256 : option string) : file :=
  mkFile 0 10 0 "notes.md" (Some "md") 100 1000 sha256 "seen" 5 (Some 5) "ok"
    None.

Definition notes_map (sha256 : option string) : Dict.t file :=
  [("notes.md", notes_row sha256)].

Definition notes_db (mode : string) (sha256 : option string) : db :=
  mkDb [campaign] [notes_source mode] [mkFolder 0 10 "" None 0 5]
    [notes_row sha256]
    [mkDocument 0 campaign 0 "md" "notes" "old text" "sha:old text" None]
    [] [] [] 1 1 1 0.

Definition notes_scan (mode : string) (sha256 : option string) : scan :=
  mkScan (mkWorld (notes_db mode sha256) empty_stats []) [("", 0)] [] 0%Z.

(** [notes.md] rewritten: another size, a later time, another content. *)
Definition rewritten : file_entry := text_file "notes.md" "new text" 120 1001.

(** [notes.md] touched: a later time, the same size and content. *)
Definition touched : file_entry := text_file "notes.md" "old text" 100 1001.

(** A file without content. *)
Definition empty_file (name : string) : file_entry := text_file name "" 0 100.

Definition one_empty_walk : list dir_entry :=
  [mkDirEntry "." [empty_file "a.md"]].

Definition two_empty_walk : list dir_entry :=
  [mkDirEntry "." [empty_file "a.md"; empty_file "b.md"]].

Definition run (fs : filesystem) (now : nat) (d : db) (dry_run : bool)
    (max_files : option Z) : finished :=
  @update_campaign_kb toy_hashlib fs now d campaign dry_run false max_files.

(** The part of a run before its final statement. *)
Definition scan (fs : filesystem) (now : nat) (d : db) (dry_run : bool)
    (max_files : option Z) : outcome (world * nat) :=
  @scan_campaign toy_hashlib
    (mkEnv fs now campaign dry_run false max_files) d.

(** The state a scan hands to the final statement of the run; the empty
    one stands for an exception. *)
Definition handed (o : outcome (world * nat)) : world :=
  match o with
  | Ok (w, _) => w
  | Raise _ => mkWorld (empty_db []) empty_stats []
  end.

(** The scenario of the glob matcher: includes [**/*.md], excludes
    [**/.git/**]. *)
Definition git_source : source :=
  source_at 10 "/kb" "auto" ["**/*.md"] ["**/.git/**"].

(** Two sources with one new file each. *)
Definition two_sources_db : db :=
  empty_db [source_at 10 "/a" "auto" [] []; source_at 11 "/b" "auto" [] []].

Definition two_sources_fs : filesystem :=
  two_roots_fs one_empty_walk [mkDirEntry "." [empty_file "b.md"]].

(** A source with one file that cannot be opened. *)
Definition locked_fs : filesystem :=
  kb_fs [mkDirEntry "." [locked_file "d.md"]].

Definition locked_run (mode : string) : finished :=
  run locked_fs 7 (empty_db [notes_source mode]) false None.

(** The store of a campaign with one source and nothing recorded. *)
Definition fresh_db : db := empty_db [notes_source "auto"].

End Fixture.

(* ------------------------------------------------------------------ *)
(** ** Further vocabulary of the statements *)

(** The number of windows of [max_chars] characters, each starting [step]
    characters after the one before, that cover [n] characters. *)
Definition window_count (n max_chars step : nat) : nat :=
  if n <=? max_chars then 1 else 1 + (n - max_chars + step - 1) / step.

(** The [k]-th window of a text. *)
Definition window (s : string) (max_chars step k : nat) : string :=
  substring (k * step) max_chars s.

(** The windows of a text, in order. *)
Definition windows (s : string) (max_chars step : nat) : list string :=
  map (window s max_chars step)
    (seq 0 (window_count (String.length s) max_chars step)).

(** [SELECT ... FROM kb_chunks WHERE document_id = :id] *)
Definition chunks_of (doc_id : nat) (d : db) : list chunk :=
  filter (fun c => ch_document c =? doc_id) (kb_chunks d).

(** The Documents other than the one given, and the Fragments of the
    others. *)
Definition other_documents (doc_id : nat) (d : db) : list document :=
  filter (fun r => negb (d_id r =? doc_id)) (kb_documents d).

Definition other_chunks (doc_id : nat) (d : db) : list chunk :=
  filter (fun c => negb (ch_document c =? doc_id)) (kb_chunks d).

(** [l'] is [l] with elements appended. *)
Definition extends {A} (l l' : list A) : Prop := exists t, l' = l ++ t.

(** The message a source without its root leaves among the errors. *)
Definition root_not_found (src : source) : string :=
  "Source '" ++ src_name src ++ "' root_path not found: " ++ root_path src.

(** The two counters of sources. *)
Definition source_counters (s : stats) : nat * nat :=
  (sources_total s, sources_scanned s).

(** The number of ingestion attempts that went through the materializer. *)
Definition materialized (s : stats) : nat := files_ingested s + docs_skipped s.

(** The number of files read for ingestion. *)
Definition reads (t : list event) : nat := length (read_events t).

(** A file that the scan of the source would hash and that cannot be opened:
    the root is there, the source hashes, and the walk lists a file that
    passes the globs, whose [stat] succeeds and whose [open] fails with the
    message given. *)
Definition unhashable (fs : filesystem) (src : source) (msg : string)
    : Prop :=
  fs_exists fs (root_path src) = ExistsOk true /\
  hashing_mode (src_change_detection src) = true /\
  exists de fe sz mt,
    In de (source_walk fs src) /\ In fe (de_files de) /\
    entry_included src (de_rel de) fe = true /\
    fe_stat fe = StatOk sz mt /\ fe_open fe = OpenErr msg.

(** A root that cannot be tested: [exists] raises for it. *)
Definition untestable (fs : filesystem) (src : source) (msg : string)
    : Prop :=
  fs_exists fs (root_path src) = ExistsErr msg.

(** A file of the source with text to store: the root is there, and the
    walk lists a file that passes the globs, whose [stat] succeeds, that can
    be opened and whose text is not blank. *)
Definition fragmented {HL : Hashlib} (fs : filesystem) (src : source)
    : Prop :=
  fs_exists fs (root_path src) = ExistsOk true /\
  exists de fe sz mt content,
    In de (source_walk fs src) /\ In fe (de_files de) /\
    entry_included src (de_rel de) fe = true /\
    fe_stat fe = StatOk sz mt /\ fe_open fe = OpenOk content /\
    strip_text (utf8_decode_replace content) <> "".

(** A property of the audit rows that the two statements a run sends to
    [ingest_run_files] keep, for rows of the run given. *)
Definition audit_closed (rid : nat) (P : list run_file -> Prop) : Prop :=
  forall d row,
    rf_run row = rid -> P (ingest_run_files d) ->
    P (ingest_run_files (Sql.insert_run_file row d)) /\
    P (ingest_run_files (Sql.upsert_run_file_error row d)).

(** The audit rows are those of [l0], followed by rows of the run given. *)
Definition audit_grown (rid : nat) (l0 l : list run_file) : Prop :=
  exists t, l = l0 ++ t /\ Forall (fun r => rf_run r = rid) t.

(** The primary key of [ingest_runs]: the ids were drawn from the
    sequence. *)
Definition runs_wf (d : db) : Prop :=
  Forall (fun r => run_id r < seq_run d) (ingest_runs d).

(* ------------------------------------------------------------------ *)
(** ** Routes that read what a run wrote (app/api/routes.py)

    The arguments are those that passed the validation of the query
    ([limit >= 1], [offset >= 0]).  A row of the answer has the columns the
    embedding of the table has: the columns the store fills by itself
    ([started_at], [created_at], the id of a Fragment) are not part of it. *)

(** The answer of a route: the body, or the [HTTPException] raised. *)
Inductive answer (A : Type) : Type :=
  | Answer200 (body : A)
  | AnswerError (status_code : nat) (detail : string).

Arguments Answer200 {A} body.
Arguments AnswerError {A} status_code detail.

(** The body of a route that lists. *)
Record page (A : Type) : Type := mkPage {
  pg_items : list A;
  pg_total : nat;
  pg_limit : nat;
  pg_offset : nat
}.

Arguments mkPage {A} pg_items pg_total pg_limit pg_offset.
Arguments pg_items {A} p.
Arguments pg_total {A} p.

(** [ORDER BY] an integer column: rows are inserted one by one, each behind
    the rows whose key is not greater. *)
Fixpoint insert_by {A} (key : A -> nat) (x : A) (l : list A) : list A :=
  match l with
  | [] => [x]
  | y :: rest =>
      if key x <? key y then x :: l else y :: insert_by key x rest
  end.

Definition order_by {A} (key : A -> nat) (l : list A) : list A :=
  fold_left (fun acc x => insert_by key x acc) l [].

(** [list_document_chunks] *)
Definition list_document_chunks (d : db) (doc_id limit offset : nat)
    : answer (page chunk) :=
  match find (fun r => d_id r =? doc_id) (kb_documents d) with
  | None => AnswerError 404 "Document not found."
  | Some _ =>
      let rows := chunks_of doc_id d in
      Answer200
        (mkPage (firstn limit (skipn offset (order_by ch_chunk_index rows)))
           (length rows) limit offset)
  end.

(* ------------------------------------------------------------------ *)
(** ** The globs of the source form (app/ui/routes.py, [ui_source_create]) *)

(** The line boundaries of [str.splitlines], on the code points below 256. *)
Definition is_linebreak (c : ascii) : bool :=
  let n := nat_of_ascii c in
  ((10 <=? n) && (n <=? 13)) || ((28 <=? n) && (n <=? 30)) || (n =? 133).

(** [s.splitlines()]; [cur] is the line being read, reversed.  A carriage
    return followed by a line feed is one boundary. *)
Fixpoint splitlines (s : list ascii) (cur : list ascii)
    : list (list ascii) :=
  match s with
  | [] => match cur with [] => [] | _ => [rev cur] end
  | c :: t =>
      if is_linebreak c then
        rev cur ::
        match t with
        | c2 :: t' =>
            if Ascii.eqb c (ascii_of_nat 13) && Ascii.eqb c2 (ascii_of_nat 10)
            then splitlines t' []
            else splitlines t []
        | [] => splitlines t []
        end
      else splitlines t (c :: cur)
  end.

(** [[ln.strip() for ln in raw.splitlines() if ln.strip()]] *)
Definition glob_lines (raw : string) : list string :=
  map (fun ln => string_of_list_ascii (Py.strip ln))
    (filter (fun ln => negb (is_nil (Py.strip ln)))
       (splitlines (list_ascii_of_string raw) [])).

(** A glob as the form keeps it: not empty, without white space around it,
    on one line. *)
Definition clean_glob (g : string) : Prop :=
  g <> "" /\ strip_text g = g /\
  Forall (fun c => is_linebreak c = false) (list_ascii_of_string g).

(** Further fixtures of the examples. *)
Module Sample.

(** A source that is not enabled, with one File recorded. *)
Definition archive_source : source :=
  mkSource 11 Fixture.campaign "archive" "folder" "/kb" true false [] []
    "auto" false None None.

Definition archive_row : file :=
  mkFile 0 11 0 "old.md" (Some "md") 9 50 None "seen" 2 None "never" None.

Definition archived_db : db :=
  mkDb [Fixture.campaign] [Fixture.notes_source "auto"; archive_source] []
    [archive_row] [] [] [] [] 0 1 0 0.

(** The scan of a source at its start, over a store without Files. *)
Definition blank_scan (mode : string) : scan :=
  mkScan (mkWorld (Fixture.empty_db [Fixture.notes_source mode]) empty_stats
            [])
    [("", 0)] [] 0%Z.

(** The store the materializer leaves then. *)
Definition cleared_db : db :=
  Sql.delete_chunks 0
    (Sql.update_document 7 0 "notes" "md" "" "sha:"
       (Fixture.notes_db "auto" None)).

(** The state the scan of one source leaves; the empty one stands for an
    exception. *)
Definition scanned (o : outcome world) : world :=
  match o with
  | Ok w => w
  | Raise _ => mkWorld (Fixture.empty_db []) empty_stats []
  end.

(** A dry call and a live call over the tree of one file. *)
Definition dry_env : env :=
  mkEnv (Fixture.kb_fs Fixture.one_file_walk) 7 Fixture.campaign true false
    None.

Definition dry_scan : outcome (world * nat) :=
  Fixture.scan (Fixture.kb_fs Fixture.one_file_walk) 7 Fixture.fresh_db true
    None.

(** A live call with a cap of one file over a tree of two files without
    content. *)
Definition capped_env : env :=
  mkEnv (Fixture.kb_fs Fixture.two_empty_walk) 7 Fixture.campaign false false
    (Some 1%Z).

End Sample.

(** The source has a Folder row for the path, last seen at the time
    given. *)
Definition folder_seen (now source_id : nat) (rel_path : string) (d : db)
    : Prop :=
  exists row,
    In row (source_folders d) /\ fo_source row = source_id /\
    fo_rel_path row = rel_path /\ fo_last_seen_at row = now.

(** The source has a Folder row for the path. *)
Definition folder_known (source_id : nat) (rel_path : string) (d : db)
    : Prop :=
  exists row,
    In row (source_folders d) /\ fo_source row = source_id /\
    fo_rel_path row = rel_path.

(** Every source with the id given was scanned, or ingested, at the time
    given. *)
Definition scan_stamped (now source_id : nat) (d : db) : Prop :=
  forall s, In s (campaign_sources d) -> src_id s = source_id ->
            src_last_scan_at s = Some now.

Definition ingest_stamped (now source_id : nat) (d : db) : Prop :=
  forall s, In s (campaign_sources d) -> src_id s = source_id ->
            src_last_ingest_at s = Some now.

(** The folder map names only paths that have a row. *)
Definition map_known (source_id : nat) (folder_map : Dict.t nat) (d : db)
    : Prop :=
  forall k, Dict.mem folder_map k = true -> folder_known source_id k d.

(** What a File row says of its identity and of its ingestion. *)
Definition history_of (r : file)
    : nat * nat * string * option nat * string * option string :=
  (f_id r, f_source r, f_rel_path r, f_last_ingested_at r,
   f_last_ingest_status r, f_error r).

(** The Files [l] are those of [l0], with their history, followed by rows
    that were never ingested; and no row is deleted that was not. *)
Definition dry_files (l0 l : list file) : Prop :=
  (exists l1 t,
     l = l1 ++ t /\ map history_of l1 = map history_of l0 /\
     Forall (fun r => f_last_ingest_status r = "never" /\
                      f_last_ingested_at r = None) t) /\
  (forall r, In r l -> f_status r = "deleted" -> In r l0).

(** What a scan observes of the campaign: the files of the walks of the
    sources whose root is there. *)
Definition scan_obs (fs : filesystem) (srcs : list source) : list obs :=
  flat_map
    (fun src =>
       match fs_exists fs (root_path src) with
       | ExistsOk true => walk_obs src (source_walk fs src)
       | _ => []
       end)
    srcs.

(* ------------------------------------------------------------------ *)
(** ** Properties of the chunker *)

Section ChunkerFacts.

Lemma slice_inner {A} (l : list A) (i j : Z) :
  (0 <= i)%Z -> (i <= j)%Z -> (j <= Py.len l)%Z ->
  Py.slice l i j = firstn (Z.to_nat (j - i)) (skipn (Z.to_nat i) l).
Proof.
  intros Hi Hij Hj. unfold Py.slice, Py.clamp_index.
  destruct (Z.ltb_spec i 0); [lia|].
  destruct (Z.ltb_spec j 0); [lia|].
  rewrite !Z.min_r, !Z.max_r by lia. reflexivity.
Qed.

Lemma firstn_skipn_glue {A} (l : list A) (a b : nat) :
  a <= b -> firstn a l ++ firstn (b - a) (skipn a l) = firstn b l.
Proof.
  revert a b. induction l as [|x l IH]; intros a b Hab.
  - now rewrite skipn_nil, !firstn_nil.
  - destruct a as [|a]; [now rewrite Nat.sub_0_r|].
    destruct b as [|b]; [lia|]. simpl. f_equal. apply IH. lia.
Qed.

Lemma skipn_firstn_window {A} (l : list A) (i k ov : nat) :
  skipn ov (firstn k (skipn i l)) = firstn (k - ov) (skipn (i + ov) l).
Proof.
  rewrite skipn_firstn_comm, skipn_skipn. f_equal. f_equal. lia.
Qed.

Lemma reconstruct_snoc (ov : nat) (out : list (list ascii)) (c : list ascii) :
  out <> [] ->
  reconstruct ov (out ++ [c]) = reconstruct ov out ++ skipn ov c.
Proof.
  destruct out as [|o out]; [congruence|]. intros _. simpl.
  rewrite map_app, concat_app. simpl. now rewrite app_nil_r, app_assoc.
Qed.

Lemma all_but_last_full_snoc (m : nat) (out : list (list ascii)) c :
  Forall (fun x => length x = m) out -> all_but_last_full m (out ++ [c]).
Proof.
  induction 1 as [|x out Hx Hout IH]; simpl; [exact I|].
  destruct (out ++ [c]) eqn:E; [now destruct out|]. now split.
Qed.

Lemma chunk_loop_total (fuel : nat) (s : list ascii) (max_chars overlap : Z) :
  (0 <= overlap)%Z -> (overlap < max_chars)%Z ->
  forall i out,
    loop_inv s max_chars overlap i out ->
    (i < Py.len s)%Z ->
    (Py.len s - i < Z.of_nat fuel)%Z ->
    exists cs,
      chunk_loop fuel s max_chars overlap i out = Some cs /\
      reconstruct (Z.to_nat overlap) cs = s /\
      Forall (fun c => c <> []) cs /\
      all_but_last_full (Z.to_nat max_chars) cs.
Proof.
  intros Hov Hmax. induction fuel as [|fuel IH]; intros i out Hinv Hi Hfuel.
  - lia.
  - assert (Hi0 : (0 <= i)%Z) by (destruct Hinv as [[_ ->]|(_ & H & _)]; lia).
    cbn [chunk_loop].
    destruct (Z.ltb_spec i (Py.len s)) as [_|]; [|lia].
    set (j := Z.min (Py.len s) (i + max_chars)).
    assert (Hj : (i < j)%Z /\ (j <= Py.len s)%Z) by (subst j; lia).
    assert (Hslice : Py.slice s i j =
              firstn (Z.to_nat (j - i)) (skipn (Z.to_nat i) s))
      by (apply slice_inner; lia).
    assert (Hne : Py.slice s i j <> []).
    { rewrite Hslice. intros E. apply (f_equal (@length _)) in E.
      rewrite length_firstn, length_skipn in E. simpl in E.
      unfold Py.len in *. lia. }
    assert (Hrec : reconstruct (Z.to_nat overlap) (out ++ [Py.slice s i j])
                   = firstn (Z.to_nat j) s).
    { destruct Hinv as [[-> ->]|(Hout & _ & Hio & Hr & _ & _)].
      - simpl. rewrite app_nil_r, Hslice. simpl. now rewrite Z.sub_0_r.
      - rewrite reconstruct_snoc by assumption. rewrite Hr, Hslice.
        rewrite skipn_firstn_window.
        replace (Z.to_nat i + Z.to_nat overlap) with (Z.to_nat (i + overlap))
          by lia.
        replace (Z.to_nat (j - i) - Z.to_nat overlap)
          with (Z.to_nat j - Z.to_nat (i + overlap)) by lia.
        apply firstn_skipn_glue. lia. }
    assert (Hall : Forall (fun c => c <> []) (out ++ [Py.slice s i j])).
    { apply Forall_app. split; [|now constructor].
      destruct Hinv as [[-> _]|(_ & _ & _ & _ & H & _)]; [constructor|exact H]. }
    assert (Hfull : Forall (fun c => length c = Z.to_nat max_chars) out).
    { destruct Hinv as [[-> _]|(_ & _ & _ & _ & _ & H)]; [constructor|exact H]. }
    destruct (Z.geb_spec j (Py.len s)) as [Hge|Hlt].
    + exists (out ++ [Py.slice s i j]). split; [reflexivity|].
      split; [|split; [exact Hall|now apply all_but_last_full_snoc]].
      rewrite Hrec. apply firstn_all2. unfold Py.len in *. lia.
    + assert (Hjm : j = (i + max_chars)%Z) by (subst j; lia).
      apply IH.
      * right. split; [now destruct out|].
        rewrite Z.max_r by lia. split; [lia|]. split; [lia|].
        split; [now replace (j - overlap + overlap)%Z with j by lia|].
        split; [exact Hall|].
        apply Forall_app. split; [exact Hfull|]. constructor; [|constructor].
        rewrite Hslice, length_firstn, length_skipn. unfold Py.len in *. lia.
      * lia.
      * lia.
Qed.

Lemma chunk_chars_total (fuel : nat) (t : list ascii) (max_chars overlap : Z) :
  (0 <= overlap)%Z -> (overlap < max_chars)%Z ->
  length (Py.strip t) < fuel ->
  exists cs,
    chunk_chars fuel t max_chars overlap = Some cs /\
    reconstruct (Z.to_nat overlap) cs = Py.strip t /\
    Forall (fun c => c <> []) cs /\
    all_but_last_full (Z.to_nat max_chars) cs /\
    (Py.strip t = [] -> cs = []).
Proof.
  intros Hov Hmax Hfuel. unfold chunk_chars.
  destruct (Py.strip t) as [|c s'] eqn:E.
  - exists []. repeat split; constructor.
  - destruct (@chunk_loop_total fuel (c :: s') max_chars overlap Hov Hmax 0%Z [])
      as (cs & H1 & H2 & H3 & H4).
    + now left.
    + unfold Py.len. simpl length. lia.
    + unfold Py.len. lia.
    + exists cs. repeat split; try assumption. discriminate.
Qed.

End ChunkerFacts.

Section ChunkerText.

Lemma length_list_ascii_of_string (s : string) :
  length (list_ascii_of_string s) = String.length s.
Proof. induction s as [|c s IH]; simpl; [reflexivity|now rewrite IH]. Qed.

Lemma length_string_of_list_ascii (l : list ascii) :
  String.length (string_of_list_ascii l) = length l.
Proof. induction l as [|c l IH]; simpl; [reflexivity|now rewrite IH]. Qed.

Lemma lstrip_length (l : list ascii) : length (Py.lstrip l) <= length l.
Proof.
  induction l as [|c l IH]; simpl; [lia|].
  destruct (Py.is_space c); simpl; lia.
Qed.

Lemma strip_length (l : list ascii) : length (Py.strip l) <= length l.
Proof.
  unfold Py.strip, Py.rstrip. rewrite length_rev.
  etransitivity; [apply lstrip_length|]. rewrite length_rev.
  apply lstrip_length.
Qed.

Lemma string_of_list_ascii_nonempty (l : list ascii) :
  l <> [] -> string_of_list_ascii l <> "".
Proof. destruct l; [congruence|discriminate]. Qed.

Lemma map_list_ascii_roundtrip (cs : list (list ascii)) :
  map list_ascii_of_string (map string_of_list_ascii cs) = cs.
Proof.
  rewrite map_map. rewrite <- (map_id cs) at 2. apply map_ext.
  apply list_ascii_of_string_of_list_ascii.
Qed.

(** The chunker on text: termination within the fuel, reconstruction, full
    windows, no empty fragment. *)
Lemma chunk_text_total (fuel : nat) (text_str : string)
    (max_chars overlap : Z) :
  (0 <= overlap)%Z -> (overlap < max_chars)%Z ->
  String.length (strip_text text_str) < fuel ->
  exists chunks,
    _chunk_text fuel text_str max_chars overlap = Some chunks /\
    reconstruct_text (Z.to_nat overlap) chunks = strip_text text_str /\
    Forall (fun c => c <> "") chunks /\
    all_but_last_full (Z.to_nat max_chars)
      (map list_ascii_of_string chunks) /\
    (strip_text text_str = "" -> chunks = []).
Proof.
  intros Hov Hmax Hfuel. unfold strip_text in *.
  rewrite length_string_of_list_ascii in Hfuel.
  destruct (chunk_chars_total fuel (list_ascii_of_string text_str)
              max_chars overlap Hov Hmax Hfuel)
    as (cs & H1 & H2 & H3 & H4 & H5).
  exists (map string_of_list_ascii cs). unfold _chunk_text. rewrite H1.
  split; [reflexivity|]. unfold reconstruct_text.
  rewrite map_list_ascii_roundtrip. split; [now rewrite H2|].
  split; [|split; [exact H4|]].
  - rewrite Forall_map. eapply Forall_impl; [|exact H3].
    intros c. apply string_of_list_ascii_nonempty.
  - intros E. rewrite H5; [reflexivity|].
    destruct (Py.strip (list_ascii_of_string text_str)); [reflexivity|].
    discriminate.
Qed.

(** The default window always leaves the loop within its fuel. *)
Lemma chunk_body_default (fuel : nat) (body : string) :
  String.length body < fuel ->
  exists chunks,
    _chunk_text fuel body 6000 300 = Some chunks /\
    reconstruct_text 300 chunks = strip_text body.
Proof.
  intros Hfuel.
  destruct (chunk_text_total fuel body 6000 300) as (cs & H1 & H2 & _);
    try lia.
  - unfold strip_text. rewrite length_string_of_list_ascii.
    pose proof (strip_length (list_ascii_of_string body)).
    rewrite length_list_ascii_of_string in *. lia.
  - exists cs. split; [exact H1|exact H2].
Qed.

(** A body has no fragment exactly when it is blank. *)
Lemma chunk_body_nil (body : string) :
  chunk_body body = [] <-> strip_text body = "".
Proof.
  unfold chunk_body.
  destruct (chunk_text_total (S (String.length body)) body 6000 300)
    as (cs & H1 & H2 & _ & _ & H5); try lia.
  - unfold strip_text. rewrite length_string_of_list_ascii.
    pose proof (strip_length (list_ascii_of_string body)).
    rewrite length_list_ascii_of_string in *. lia.
  - rewrite H1. split; [|exact H5].
    intros ->. now rewrite <- H2.
Qed.

(** C8. For every text and every window [max_chars > overlap >= 0], the
    chunker returns (given fuel beyond the length of the trimmed text), and
    its fragments, with the first [overlap] characters of every
    fragment after the first removed, concatenate to the trimmed text; every
    fragment before the last is a full window, no fragment is empty, and an
    empty trimmed text gives no fragment. *)
Theorem chunk_text_reconstructs (fuel : nat) (text_str : string)
    (max_chars overlap : Z) :
  (0 <= overlap)%Z -> (overlap < max_chars)%Z ->
  String.length (strip_text text_str) < fuel ->
  exists chunks,
    _chunk_text fuel text_str max_chars overlap = Some chunks /\
    reconstruct_text (Z.to_nat overlap) chunks = strip_text text_str /\
    Forall (fun c => c <> "") chunks /\
    all_but_last_full (Z.to_nat max_chars)
      (map list_ascii_of_string chunks) /\
    (strip_text text_str = "" -> chunks = []).
Proof. exact (chunk_text_total fuel text_str max_chars overlap). Qed.

Lemma chunk_text_reconstructs_witness :
  exists chunks,
    _chunk_text 20 "  hello world  " 4 1 = Some chunks /\
    reconstruct_text (Z.to_nat 1) chunks = strip_text "  hello world  " /\
    Forall (fun c => c <> "") chunks /\
    all_but_last_full (Z.to_nat 4) (map list_ascii_of_string chunks) /\
    (strip_text "  hello world  " = "" -> chunks = []).
Proof.
  apply (chunk_text_reconstructs 20 "  hello world  " 4 1);
    [lia | lia | vm_compute; lia].
Defined.

End ChunkerText.

(* ------------------------------------------------------------------ *)
(** ** Loops and counters *)

Ltac break_match_hyp :=
  match goal with
  | H : context [match ?x with _ => _ end] |- _ => destruct x eqn:?
  end.

Ltac break_match_goal :=
  match goal with
  | |- context [match ?x with _ => _ end] => destruct x eqn:?
  end.

Ltac inv H := inversion H; subst; clear H.

Lemma for_each_inv {A S} (P : S -> Prop) (body : A -> S -> outcome S)
    (l : list A) :
  (forall a s s', In a l -> P s -> body a s = Ok s' -> P s') ->
  forall s s', P s -> for_each body l s = Ok s' -> P s'.
Proof.
  induction l as [|a l IH]; intros Hstep s s' Hs Hrun; simpl in Hrun.
  - now inv Hrun.
  - unfold bind in Hrun. destruct (body a s) as [s1|] eqn:E; [|discriminate].
    apply IH with (s := s1); auto.
    + intros; eapply Hstep; eauto. now right.
    + eapply Hstep; eauto. now left.
Qed.

Lemma fold_left_inv {A S} (P : S -> Prop) (f : S -> A -> S) (l : list A) :
  (forall a s, In a l -> P s -> P (f s a)) ->
  forall s, P s -> P (fold_left f l s).
Proof.
  induction l as [|a l IH]; intros Hstep s Hs; simpl; auto.
  apply IH; [intros; apply Hstep; auto; now right|].
  apply Hstep; auto. now left.
Qed.

Section EngineCounters.

Context {HL : Hashlib}.

(** No Fragment is ever stored: the loop over the fragments returns for an
    empty list only, and raises at the first fragment otherwise. *)
Lemma insert_chunks_ok c doc idx chunks conn conn' :
  insert_chunks c doc idx chunks conn = Ok conn' ->
  chunks = [] /\ conn' = conn.
Proof.
  destruct chunks as [|ch rest]; cbn; intros H; [now inv H|discriminate].
Qed.

Lemma insert_chunks_raise c doc idx chunks conn :
  chunks <> [] ->
  insert_chunks c doc idx chunks conn
  = Raise (SQLAlchemyError "INSERT INTO kb_chunks").
Proof.
  destruct chunks as [|ch rest]; [congruence|reflexivity].
Qed.

Lemma upsert_document_action now conn c f t ty b conn' id act :
  _upsert_document_and_chunks now conn c f t ty b = Ok (conn', (id, act)) ->
  act = "ingested" \/ act = "skipped".
Proof.
  unfold _upsert_document_and_chunks, bind. intros H.
  repeat break_match_hyp; inv H; auto.
Qed.

Lemma ingest_file_balanced e rid sid rel full name ext o w w' :
  balanced (w_stats w) ->
  ingest_file e rid sid rel full name ext o w = Ok w' ->
  balanced (w_stats w').
Proof.
  unfold ingest_file, balanced. intros [H1 H2] H.
  destruct o as [content|msg]; cbn in H.
  - destruct (_upsert_document_and_chunks _ _ _ _ _ _ _)
      as [[conn [id act]]|ex]; [|discriminate].
    inv H. cbn. destruct (String.eqb act "ingested"); cbn; lia.
  - inv H. cbn. lia.
Qed.

Lemma process_file_balanced e rid src em dir fe sc sc' :
  balanced (w_stats (sc_world sc)) ->
  process_file e rid src em dir fe sc = Ok sc' ->
  balanced (w_stats (sc_world sc')).
Proof.
  unfold process_file. intros Hb H.
  destruct (negb (_should_include _ _ _)); [now inv H|].
  destruct (fe_stat fe) as [sz mt|msg].
  2:{ inv H. destruct Hb. split; cbn; assumption. }
  unfold bind in H.
  destruct (detect_change _ _ _ _ _ _) as [v|] eqn:Ev; [|discriminate].
  destruct (upsert_source_file _ _ _ _ _ _ _ _ _ _) as [conn sid] eqn:Eu.
  set (w1 := mkWorld conn _ _) in H.
  assert (Hw1 : balanced (w_stats w1)).
  { subst w1. destruct Hb as [H1 H2]. unfold balanced, count_verdict.
    destruct (v_hashed v); cbn;
      destruct (v_is_new v); [|destruct (v_changed v)| |destruct (v_changed v)];
      cbn; lia. }
  destruct (_ && _).
  - destruct (cap_reached _ _); [inv H; cbn; auto|].
    destruct (ingest_file _ _ _ _ _ _ _ _ _) as [w2|] eqn:Ei; [|discriminate].
    inv H. cbn. eapply ingest_file_balanced; [exact Hw1|exact Ei].
  - inv H. exact Hw1.
Qed.

Lemma process_folder_stats e src dir sc :
  w_stats (sc_world (process_folder e src dir sc)) = w_stats (sc_world sc).
Proof.
  unfold process_folder.
  destruct (negb _); [|reflexivity].
  destruct (Sql.upsert_folder _ _ _ _ _ _). reflexivity.
Qed.

Lemma process_dir_balanced e rid src em de sc sc' :
  balanced (w_stats (sc_world sc)) ->
  process_dir e rid src em de sc = Ok sc' ->
  balanced (w_stats (sc_world sc')).
Proof.
  unfold process_dir. intros Hb H.
  eapply (for_each_inv (fun s => balanced (w_stats (sc_world s))));
    [| |exact H].
  - intros fe s s' _. apply process_file_balanced.
  - cbv beta. now rewrite process_folder_stats.
Qed.

Lemma reconcile_one_balanced e rid seen_paths item w :
  balanced (w_stats w) ->
  balanced (w_stats (reconcile_one e rid seen_paths item w)).
Proof.
  unfold reconcile_one, balanced. destruct item as [rel prev].
  intros [H1 H2]. destruct (seen _ _); [now split|].
  destruct (negb _); cbn; lia.
Qed.

Lemma scan_files_balanced e rid src w w' :
  balanced (w_stats w) ->
  scan_files e rid src w = Ok w' ->
  balanced (w_stats w').
Proof.
  unfold scan_files. intros Hb1 H.
  destruct (ensure_root_folder _ _ _ _) as [w1 fm] eqn:Er.
  assert (Hw1 : balanced (w_stats w1)).
  { unfold ensure_root_folder in Er. destruct (negb _).
    - destruct (Sql.upsert_folder _ _ _ _ _ _). inv Er. exact Hb1.
    - inv Er. exact Hb1. }
  unfold bind in H.
  destruct (for_each _ _ _) as [sc|] eqn:Ewalk; [|discriminate].
  inv H.
  assert (Hsc : balanced (w_stats (sc_world sc))).
  { eapply (for_each_inv (fun s => balanced (w_stats (sc_world s))));
      [| |exact Ewalk]; [|exact Hw1].
    intros de s s' _. apply process_dir_balanced. }
  match goal with
  | |- context [fold_left ?f ?items ?w0] =>
      assert (Hrec : balanced (w_stats (fold_left f items w0)))
  end.
  { apply (fold_left_inv (fun w => balanced (w_stats w))); [|exact Hsc].
    intros item s _. apply reconcile_one_balanced. }
  destruct (negb (e_dry_run e)); [|exact Hrec].
  destruct Hrec; split; cbn in *; assumption.
Qed.

Lemma scan_source_balanced e rid src w w' :
  balanced (w_stats w) ->
  scan_source e rid src w = Ok w' ->
  balanced (w_stats w').
Proof.
  unfold scan_source. intros Hb H.
  assert (Hb1 : balanced (w_stats
                  (on_db (Sql.stamp_scan (e_now e) (src_id src))
                     (on_stats incr_sources_scanned w))))
    by (destruct Hb; split; cbn; assumption).
  destruct (fs_exists _ _) as [[|]|msg]; [| |discriminate].
  - eapply scan_files_balanced; [exact Hb1|exact H].
  - inv H. destruct Hb1; split; cbn in *; assumption.
Qed.

(** What [scan_campaign] returns: the campaign is known, the id is the one
    the store drew for the run, and the loop over the sources returned. *)
Lemma scan_campaign_ok e d w rid :
  scan_campaign e d = Ok (w, rid) ->
  Sql.campaign_exists d (e_campaign_id e) = true /\
  rid = seq_run d /\
  for_each (scan_source e (seq_run d))
    (Sql.select_sources d (e_campaign_id e))
    (mkWorld (fst (Sql.insert_run d (e_campaign_id e)))
       (set_sources_total empty_stats
          (length (Sql.select_sources d (e_campaign_id e)))) [])
  = Ok w.
Proof.
  unfold scan_campaign. intros H.
  destruct (Sql.campaign_exists d (e_campaign_id e)); [|discriminate].
  split; [reflexivity|]. cbn [negb] in H.
  unfold Sql.insert_run in H. unfold bind in H.
  change (Sql.select_sources
            (set_ingest_runs d
               (ingest_runs d
                ++ [mkRun (seq_run d) (e_campaign_id e) "api" "running" None
                      None None]) (S (seq_run d))) (e_campaign_id e))
    with (Sql.select_sources d (e_campaign_id e)) in H.
  destruct (for_each _ _ _) as [w1|] eqn:E; [|discriminate].
  inv H. split; reflexivity.
Qed.

(** The converse: for a known campaign the scan is the loop over its
    sources. *)
Lemma scan_campaign_loop e d :
  Sql.campaign_exists d (e_campaign_id e) = true ->
  scan_campaign e d
  = (w <- for_each (scan_source e (seq_run d))
            (Sql.select_sources d (e_campaign_id e))
            (mkWorld (fst (Sql.insert_run d (e_campaign_id e)))
               (set_sources_total empty_stats
                  (length (Sql.select_sources d (e_campaign_id e)))) []) ;;
     Ok (w, seq_run d)).
Proof.
  unfold scan_campaign. intros ->. reflexivity.
Qed.

Lemma scan_campaign_balanced e d w rid :
  scan_campaign e d = Ok (w, rid) -> balanced (w_stats w).
Proof.
  intros H. apply scan_campaign_ok in H. destruct H as (_ & _ & E).
  eapply (for_each_inv (fun s => balanced (w_stats s))); [| |exact E].
  - intros src s s' _. apply scan_source_balanced.
  - split; reflexivity.
Qed.

(** The statement that finalises the run is refused: no call returns, and
    the rollback leaves the store as it was. *)
Lemma run_transaction_raises e d : exists ex, run_transaction e d = Raise ex.
Proof.
  unfold run_transaction, bind.
  destruct (scan_campaign e d) as [[w rid]|ex]; cbn; eauto.
Qed.

Lemma update_never_returns fs now d c dry force cap :
  fin_db (update_campaign_kb fs now d c dry force cap) = d /\
  fin_trace (update_campaign_kb fs now d c dry force cap) = [] /\
  exists ex,
    fin_result (update_campaign_kb fs now d c dry force cap) = Raise ex.
Proof.
  unfold update_campaign_kb.
  destruct (run_transaction_raises (mkEnv fs now c dry force cap) d)
    as [ex ->].
  repeat split. now exists ex.
Qed.

End EngineCounters.

(* ------------------------------------------------------------------ *)
(** ** Lists and dictionaries *)

Section ListFacts.

Context {A : Type}.

Lemma find_app (P : A -> bool) (l1 l2 : list A) :
  find P (l1 ++ l2) =
  match find P l1 with Some x => Some x | None => find P l2 end.
Proof.
  induction l1 as [|a l1 IH]; simpl; [reflexivity|].
  destruct (P a); [reflexivity|exact IH].
Qed.

Lemma find_ext_in (P Q : A -> bool) (l : list A) :
  (forall a, In a l -> P a = Q a) -> find P l = find Q l.
Proof.
  induction l as [|a l IH]; intros H; simpl; [reflexivity|].
  rewrite (H a) by now left. destruct (Q a); [reflexivity|].
  apply IH. intros; apply H; now right.
Qed.

(** [find] on a filtered list looks for the conjunction. *)
Lemma find_filter (P Q : A -> bool) (l : list A) :
  find P (filter Q l) = find (fun a => Q a && P a) l.
Proof.
  induction l as [|a l IH]; simpl; [reflexivity|].
  destruct (Q a); simpl; [|exact IH]. destruct (P a); [reflexivity|exact IH].
Qed.

Lemma filter_rev (P : A -> bool) (l : list A) :
  filter P (rev l) = rev (filter P l).
Proof.
  induction l as [|a l IH]; simpl; [reflexivity|].
  rewrite filter_app, IH. simpl. destruct (P a); simpl;
    [reflexivity|now rewrite app_nil_r].
Qed.

(** A map that leaves alone every element on which the test holds, before
    or after, does not change what [find] finds. *)
Lemma find_map_stable (P : A -> bool) (h : A -> A) (l : list A) :
  (forall a, In a l -> P (h a) = P a) ->
  (forall a, In a l -> P a = true -> h a = a) ->
  find P (map h l) = find P l.
Proof.
  induction l as [|a l IH]; intros H1 H2; simpl; [reflexivity|].
  rewrite (H1 a) by now left.
  destruct (P a) eqn:E.
  - now rewrite (H2 a) by (auto; now left).
  - apply IH; intros; [apply H1|apply H2]; auto; now right.
Qed.

Lemma filter_map_stable (P : A -> bool) (h : A -> A) (l : list A) :
  (forall a, In a l -> P (h a) = P a) ->
  (forall a, In a l -> P a = true -> h a = a) ->
  filter P (map h l) = filter P l.
Proof.
  induction l as [|a l IH]; intros H1 H2; simpl; [reflexivity|].
  rewrite (H1 a) by now left.
  destruct (P a) eqn:E.
  - rewrite (H2 a) by (auto; now left). f_equal.
    apply IH; intros; [apply H1|apply H2]; auto; now right.
  - apply IH; intros; [apply H1|apply H2]; auto; now right.
Qed.

Lemma map_id_in (h : A -> A) (l : list A) :
  (forall a, In a l -> h a = a) -> map h l = l.
Proof.
  induction l as [|a l IH]; intros H; simpl; [reflexivity|].
  rewrite (H a) by now left. f_equal. apply IH. intros; apply H; now right.
Qed.

Lemma existsb_false_forall (P : A -> bool) (l : list A) :
  existsb P l = false <-> forall a, In a l -> P a = false.
Proof.
  induction l as [|a l IH]; simpl.
  - split; [intros _ a []|reflexivity].
  - rewrite orb_false_iff, IH. split.
    + intros [Ha Hl] b [<-|Hb]; auto.
    + intros H. split; [apply H; now left|intros; apply H; now right].
Qed.

End ListFacts.

Lemma NoDup_map_inj {A B} (f : A -> B) (l : list A) (a b : A) :
  NoDup (map f l) -> In a l -> In b l -> f a = f b -> a = b.
Proof.
  induction l as [|x l IH]; intros Hnd Ha Hb Hab; [destruct Ha|].
  simpl in Hnd. apply NoDup_cons_iff in Hnd. destruct Hnd as [Hx Hnd].
  destruct Ha as [->|Ha], Hb as [->|Hb]; auto.
  - exfalso. apply Hx. rewrite Hab. now apply in_map.
  - exfalso. apply Hx. rewrite <- Hab. now apply in_map.
Qed.

Section DictFacts.

Context {V : Type}.

Lemma dict_get_set (d : Dict.t V) (k k' : string) (v : V) :
  Dict.get (Dict.set d k v) k' =
  if String.eqb k k' then Some v else Dict.get d k'.
Proof.
  induction d as [|[k0 v0] d IH]; simpl.
  - reflexivity.
  - destruct (String.eqb_spec k0 k) as [->|Hne]; simpl.
    + destruct (String.eqb k k'); reflexivity.
    + rewrite IH. destruct (String.eqb_spec k0 k') as [->|Hne'].
      * destruct (String.eqb_spec k k'); [congruence|reflexivity].
      * reflexivity.
Qed.

Lemma dict_set_keys_in (d : Dict.t V) (k : string) (v : V) (k' : string) :
  In k' (map fst (Dict.set d k v)) <-> k' = k \/ In k' (map fst d).
Proof.
  induction d as [|[k0 v0] d IH]; simpl.
  - intuition.
  - destruct (String.eqb_spec k0 k) as [->|Hne]; simpl.
    + intuition.
    + rewrite IH. intuition.
Qed.

Lemma dict_set_nodup (d : Dict.t V) (k : string) (v : V) :
  NoDup (map fst d) -> NoDup (map fst (Dict.set d k v)).
Proof.
  induction d as [|[k0 v0] d IH]; simpl; intros H.
  - constructor; [intros []|constructor].
  - apply NoDup_cons_iff in H. destruct H as [H0 H].
    destruct (String.eqb_spec k0 k) as [->|Hne]; simpl.
    + now constructor.
    + constructor; [|auto]. rewrite dict_set_keys_in. intros [E|E]; auto.
Qed.

Lemma dict_in_get (d : Dict.t V) (k : string) (v : V) :
  NoDup (map fst d) -> In (k, v) d -> Dict.get d k = Some v.
Proof.
  induction d as [|[k0 v0] d IH]; simpl; intros Hnd Hin; [destruct Hin|].
  apply NoDup_cons_iff in Hnd. destruct Hnd as [H0 Hnd].
  destruct Hin as [E|Hin].
  - inv E. now rewrite String.eqb_refl.
  - destruct (String.eqb_spec k0 k) as [->|Hne]; [|auto].
    exfalso. apply H0. now apply (in_map fst) in Hin.
Qed.

Lemma dict_get_in (d : Dict.t V) (k : string) (v : V) :
  Dict.get d k = Some v -> In (k, v) d.
Proof.
  induction d as [|[k0 v0] d IH]; simpl; [discriminate|].
  destruct (String.eqb_spec k0 k) as [->|Hne]; intros H.
  - inv H. now left.
  - right. auto.
Qed.

End DictFacts.

Section DictOfRows.

Context {R V : Type} (key : R -> string) (val : R -> V).

Lemma of_rows_snoc (rows : list R) (r : R) :
  Dict.of_rows key val (rows ++ [r]) =
  Dict.set (Dict.of_rows key val rows) (key r) (val r).
Proof. unfold Dict.of_rows. now rewrite fold_left_app. Qed.

(** The last row with the key wins. *)
Lemma dict_get_of_rows (rows : list R) (k : string) :
  Dict.get (Dict.of_rows key val rows) k =
  option_map val (find (fun r => String.eqb (key r) k) (rev rows)).
Proof.
  induction rows as [|r rows IH] using rev_ind; [reflexivity|].
  rewrite of_rows_snoc, dict_get_set, rev_app_distr. simpl.
  destruct (String.eqb (key r) k); [reflexivity|exact IH].
Qed.

Lemma of_rows_nodup (rows : list R) :
  NoDup (map fst (Dict.of_rows key val rows)).
Proof.
  induction rows as [|r rows IH] using rev_ind; [constructor|].
  rewrite of_rows_snoc. now apply dict_set_nodup.
Qed.

Lemma of_rows_item_get (rows : list R) (k : string) (v : V) :
  In (k, v) (Dict.of_rows key val rows) <->
  Dict.get (Dict.of_rows key val rows) k = Some v.
Proof.
  split; [apply dict_in_get, of_rows_nodup|apply dict_get_in].
Qed.

End DictOfRows.

(* ------------------------------------------------------------------ *)
(** ** Rows of [source_files] under the statements of a scan *)

Section FileRows.

Lemma keeps_key_mark_seen now fo ext sz mt sha :
  keeps_key (Sql.mark_seen now fo ext sz mt sha).
Proof. intros r. repeat split. Qed.

Lemma keeps_key_mark_ingest now st err : keeps_key (Sql.mark_ingest now st err).
Proof. intros r. repeat split. Qed.

Lemma keeps_key_mark_deleted now : keeps_key (Sql.mark_deleted now).
Proof. intros r. repeat split. Qed.

Lemma keeps_key_compose g h :
  keeps_key g -> keeps_key h -> keeps_key (fun r => g (h r)).
Proof.
  intros Hg Hh r. destruct (Hg (h r)) as (A & B & C).
  destruct (Hh r) as (A' & B' & C'). repeat split; congruence.
Qed.

Lemma upd_upd x g h r :
  keeps_key h -> upd x g (upd x h r) = upd x (fun r => g (h r)) r.
Proof.
  intros Hh. unfold upd. destruct (f_id r =? x) eqn:E; [|now rewrite E].
  destruct (Hh r) as (A & _). now rewrite A, E.
Qed.

Lemma map_upd_ids x h l :
  keeps_key h -> map f_id (map (upd x h) l) = map f_id l.
Proof.
  intros Hh. rewrite map_map. apply map_ext. intros r. unfold upd.
  destruct (f_id r =? x); [apply Hh|reflexivity].
Qed.

Lemma map_upd_fresh x h l :
  Forall (fun r => f_id r < x) l -> map (upd x h) l = l.
Proof.
  intros H. apply map_id_in. intros r Hr. unfold upd.
  rewrite Forall_forall in H. specialize (H r Hr).
  destruct (Nat.eqb_spec (f_id r) x); [lia|reflexivity].
Qed.

(** With distinct ids, an update by id touches the one row that has it. *)
Lemma upd_only x h l p r :
  NoDup (map f_id l) -> In p l -> f_id p = x -> In r l ->
  upd x h r = r \/ r = p.
Proof.
  intros Hnd Hp Hx Hr. unfold upd.
  destruct (Nat.eqb_spec (f_id r) x) as [E|E]; [right|now left].
  apply (NoDup_map_inj f_id l); auto. congruence.
Qed.

Lemma is_existing_key S k r r' :
  f_source r' = f_source r -> f_rel_path r' = f_rel_path r ->
  f_source r <> S \/ f_rel_path r <> k ->
  is_existing S k r = false /\ is_existing S k r' = false.
Proof.
  intros Es Ep H. unfold is_existing. rewrite Es, Ep.
  destruct H as [H|H].
  - destruct (Nat.eqb_spec (f_source r) S); [congruence|]. now split.
  - destruct (String.eqb_spec (f_rel_path r) k); [congruence|].
    rewrite !andb_false_r. now split.
Qed.

(** Updating the row of another source or path does not change the row of
    [(S, k)]. *)
Lemma existing_row_upd_other x h l p S k :
  NoDup (map f_id l) -> In p l -> f_id p = x -> keeps_key h ->
  f_source p <> S \/ f_rel_path p <> k ->
  existing_row (map (upd x h) l) S k = existing_row l S k.
Proof.
  intros Hnd Hp Hx Hh Hother. unfold existing_row.
  rewrite <- map_rev. apply find_map_stable.
  - intros a Ha. apply in_rev in Ha.
    destruct (upd_only x h _ _ _ Hnd Hp Hx Ha) as [E| ->]; [now rewrite E|].
    unfold upd. rewrite Hx, Nat.eqb_refl.
    destruct (Hh p) as (_ & B & C).
    destruct (is_existing_key S k p (h p) B C Hother) as [E1 E2].
    congruence.
  - intros a Ha Pa. apply in_rev in Ha.
    destruct (upd_only x h _ _ _ Hnd Hp Hx Ha) as [E| ->]; [assumption|].
    destruct (Hh p) as (_ & B & C).
    destruct (is_existing_key S k p (h p) B C Hother) as [E1 E2].
    congruence.
Qed.

Lemma find_map_replace {A} (P : A -> bool) (g : A -> A) (l : list A) (p : A) :
  find P l = Some p ->
  (forall a, In a l -> g a = a \/ a = p) ->
  P (g p) = true ->
  find P (map g l) = Some (g p).
Proof.
  induction l as [|a l IH]; simpl; intros Hf Hg Hp; [discriminate|].
  destruct (P a) eqn:E.
  - inv Hf. now rewrite Hp.
  - destruct (Hg a (or_introl eq_refl)) as [Ea| ->].
    + rewrite Ea, E. apply IH; auto.
    + apply find_some in Hf. destruct Hf as [_ Hf]. congruence.
Qed.

(** Updating the row of [(S, k)] itself. *)
Lemma existing_row_upd_same x h l p S k :
  NoDup (map f_id l) -> existing_row l S k = Some p -> f_id p = x ->
  keeps_key h -> f_status (h p) <> "deleted" ->
  existing_row (map (upd x h) l) S k = Some (h p).
Proof.
  intros Hnd Hp Hx Hh Hst. unfold existing_row in *.
  rewrite <- map_rev.
  assert (Hin : In p l).
  { apply find_some in Hp. destruct Hp as [Hp _]. now apply in_rev in Hp. }
  replace (h p) with (upd x h p)
    by (unfold upd; now rewrite Hx, Nat.eqb_refl).
  apply find_map_replace; auto.
  - intros a Ha. apply in_rev in Ha. eapply upd_only; eauto.
  - unfold upd. rewrite Hx, Nat.eqb_refl.
    apply find_some in Hp. destruct Hp as [_ Hp].
    unfold is_existing in *. destruct (Hh p) as (_ & B & C).
    rewrite B, C. apply andb_true_iff in Hp. destruct Hp as [Hp1 Hp2].
    apply andb_true_iff in Hp1. destruct Hp1 as [Hp1 _].
    rewrite Hp1, Hp2. simpl. rewrite andb_true_r.
    destruct (String.eqb_spec (f_status (h p)) "deleted"); [contradiction|].
    reflexivity.
Qed.

Lemma existing_row_snoc l r S k :
  existing_row (l ++ [r]) S k =
  if is_existing S k r then Some r else existing_row l S k.
Proof. unfold existing_row. now rewrite rev_app_distr. Qed.

Lemma existing_row_in l S k p :
  existing_row l S k = Some p ->
  In p l /\ f_source p = S /\ f_rel_path p = k /\ f_status p <> "deleted".
Proof.
  unfold existing_row. intros H. apply find_some in H. destruct H as [Hin H].
  apply in_rev in Hin. unfold is_existing in H.
  apply andb_true_iff in H. destruct H as [H1 H2].
  apply andb_true_iff in H1. destruct H1 as [H1 H3].
  apply Nat.eqb_eq in H1. apply String.eqb_eq in H2.
  repeat split; auto. intros E. rewrite E in H3. discriminate.
Qed.

(** The dictionary of a scan holds [existing_row] for every path. *)
Lemma existing_map_get d S k :
  Dict.get (Dict.of_rows f_rel_path (fun r => r) (Sql.select_existing d S)) k
  = existing_row (source_files d) S k.
Proof.
  rewrite dict_get_of_rows. unfold Sql.select_existing, existing_row.
  rewrite <- filter_rev, find_filter.
  destruct (find _ _); reflexivity.
Qed.

(** The rows selected for another source are left alone by an update. *)
Lemma select_existing_upd_other x h d l' p S' :
  NoDup (map f_id (source_files d)) -> In p (source_files d) -> f_id p = x ->
  keeps_key h -> f_source p <> S' ->
  source_files l' = map (upd x h) (source_files d) ->
  Sql.select_existing l' S' = Sql.select_existing d S'.
Proof.
  intros Hnd Hp Hx Hh Hs E. unfold Sql.select_existing. rewrite E.
  apply filter_map_stable.
  - intros a Ha.
    destruct (upd_only x h _ _ _ Hnd Hp Hx Ha) as [Eq| ->]; [now rewrite Eq|].
    unfold upd. rewrite Hx, Nat.eqb_refl. destruct (Hh p) as (_ & B & _).
    rewrite B. destruct (Nat.eqb_spec (f_source p) S'); [contradiction|].
    reflexivity.
  - intros a Ha Pa.
    destruct (upd_only x h _ _ _ Hnd Hp Hx Ha) as [Eq| ->]; [assumption|].
    destruct (Nat.eqb_spec (f_source p) S'); [contradiction|discriminate].
Qed.

Lemma select_existing_snoc_other d d' r S' :
  f_source r <> S' ->
  source_files d' = source_files d ++ [r] ->
  Sql.select_existing d' S' = Sql.select_existing d S'.
Proof.
  intros Hs E. unfold Sql.select_existing. rewrite E, filter_app. simpl.
  destruct (Nat.eqb_spec (f_source r) S'); [contradiction|].
  simpl. apply app_nil_r.
Qed.

End FileRows.

(* ------------------------------------------------------------------ *)
(** ** What each block of the engine does to the store *)

Section Effects.

Context {HL : Hashlib}.

Lemma upsert_document_only_kb now conn c f t ty b conn' res :
  _upsert_document_and_chunks now conn c f t ty b = Ok (conn', res) ->
  only_kb_changed conn conn'.
Proof.
  unfold _upsert_document_and_chunks, bind. intros H.
  destruct (Sql.select_document conn c f) as [doc|].
  - destruct (String.eqb _ _).
    + inv H. unfold only_kb_changed. repeat split.
    + destruct (insert_chunks _ _ _ _ _) as [conn3|] eqn:Ei; [|discriminate].
      apply insert_chunks_ok in Ei. destruct Ei as [_ ->]. inv H.
      unfold only_kb_changed. cbn. repeat split.
  - cbn in H.
    destruct (insert_chunks _ _ _ _ _) as [conn3|] eqn:Ei; [|discriminate].
    apply insert_chunks_ok in Ei. destruct Ei as [_ ->]. inv H.
    unfold only_kb_changed. cbn. repeat split.
Qed.

(** The skipping branch of the materializer writes nothing. *)
Lemma upsert_document_skipped now conn c f t ty b doc :
  Sql.select_document conn c f = Some doc ->
  d_content_hash doc = _sha256_text b ->
  _upsert_document_and_chunks now conn c f t ty b
  = Ok (conn, (d_id doc, "skipped")).
Proof.
  intros Hd Hh. unfold _upsert_document_and_chunks.
  now rewrite Hd, Hh, String.eqb_refl.
Qed.

Lemma ingest_file_files e rid sid rel full name ext o w w' :
  ingest_file e rid sid rel full name ext o w = Ok w' ->
  exists st err,
    source_files (w_db w')
    = map (upd sid (Sql.mark_ingest (e_now e) st err))
        (source_files (w_db w)) /\
    seq_file (w_db w') = seq_file (w_db w).
Proof.
  unfold ingest_file. intros H. destruct o as [content|msg].
  - destruct (_upsert_document_and_chunks _ _ _ _ _ _ _)
      as [[conn [id act]]|ex] eqn:E; [|discriminate].
    inv H.
    apply upsert_document_only_kb in E.
    destruct E as (_ & _ & _ & E4 & _ & _ & _ & E8 & _).
    cbn in E4, E8.
    exists (if String.eqb act "ingested" then "ok" else "skipped"), None.
    unfold Sql.insert_run_file. cbn.
    destruct (existsb _ _); cbn; rewrite E4, E8; split; reflexivity.
  - inv H. exists "error", (Some (truncate msg)).
    unfold Sql.upsert_run_file_error. cbn.
    destruct (existsb _ _); cbn; split; reflexivity.
Qed.

Lemma process_file_skipped e rid src em dir fe sc :
  entry_included src dir fe = false
  \/ (exists msg, fe_stat fe = StatErr msg) ->
  exists sc',
    process_file e rid src em dir fe sc = Ok sc' /\
    w_db (sc_world sc') = w_db (sc_world sc) /\
    w_trace (sc_world sc') = w_trace (sc_world sc) /\
    sc_folder_map sc' = sc_folder_map sc /\
    sc_seen_paths sc' = sc_seen_paths sc /\
    sc_files_to_ingest sc' = sc_files_to_ingest sc.
Proof.
  unfold process_file, entry_included, entry_rel.
  destruct (_should_include _ _ _) eqn:Ei; simpl.
  - intros [H|[msg H]]; [discriminate|]. rewrite H.
    eexists. split; [reflexivity|]. repeat split.
  - intros _. exists sc. repeat split.
Qed.

Lemma process_file_step e rid src em dir fe sc sc' sz mt :
  Forall (fun r => f_id r < seq_file (w_db (sc_world sc)))
    (source_files (w_db (sc_world sc))) ->
  entry_included src dir fe = true ->
  fe_stat fe = StatOk sz mt ->
  process_file e rid src em dir fe sc = Ok sc' ->
  file_step (src_id src) (entry_rel dir fe) sz mt
    (Dict.get em (entry_rel dir fe))
    (w_db (sc_world sc)) (w_db (sc_world sc')) /\
  sc_seen_paths sc' = seen_add (sc_seen_paths sc) (entry_rel dir fe) /\
  sc_folder_map sc' = sc_folder_map sc.
Proof.
  unfold process_file, entry_included, entry_rel.
  intros Hlt Hinc Hstat H. rewrite Hinc, Hstat in H. simpl in H.
  unfold bind in H.
  destruct (detect_change _ _ _ _ _ _) as [v|]; [|discriminate].
  set (rel := PathAttr.rel_of dir (fe_name fe)) in *.
  destruct (Dict.get em rel) as [p|] eqn:Eprev; unfold upsert_source_file in H.
  - (* the path has a row *)
    set (h1 := Sql.mark_seen _ _ _ _ _ _) in H.
    destruct (_ && _); [destruct (cap_reached _ _)|].
    + inv H. cbn. split; [|split; reflexivity].
      apply step_update with (p := p) (h := h1); auto.
      * destruct (v_hashed v); reflexivity.
      * destruct (v_hashed v); reflexivity.
      * apply keeps_key_mark_seen.
      * intros r. repeat split.
    + destruct (ingest_file _ _ _ _ _ _ _ _ _) as [w2|] eqn:Ei;
        [|discriminate].
      destruct (ingest_file_files _ _ _ _ _ _ _ _ _ _ Ei)
        as (st & err & Hfi & Hsi).
      inv H. cbn. split; [|split; reflexivity].
      apply step_update with (p := p)
        (h := fun r => Sql.mark_ingest (e_now e) st err (h1 r)); auto.
      * rewrite Hfi. destruct (v_hashed v); cbn;
          rewrite map_map; apply map_ext; intros r;
          apply upd_upd, keeps_key_mark_seen.
      * rewrite Hsi. destruct (v_hashed v); reflexivity.
      * apply keeps_key_compose;
          [apply keeps_key_mark_ingest|apply keeps_key_mark_seen].
      * intros r. repeat split.
    + inv H. cbn. split; [|split; reflexivity].
      apply step_update with (p := p) (h := h1); auto.
      * destruct (v_hashed v); reflexivity.
      * destruct (v_hashed v); reflexivity.
      * apply keeps_key_mark_seen.
      * intros r. repeat split.
  - (* the path is new *)
    unfold Sql.insert_file in H.
    destruct (_ && _); [destruct (cap_reached _ _)|].
    + inv H. cbn. split; [|split; reflexivity].
      destruct (v_hashed v); eapply step_insert; cbn; reflexivity.
    + destruct (ingest_file _ _ _ _ _ _ _ _ _) as [w2|] eqn:Ei;
        [|discriminate].
      destruct (ingest_file_files _ _ _ _ _ _ _ _ _ _ Ei)
        as (st & err & Hfi & Hsi).
      inv H. cbn. split; [|split; reflexivity].
      destruct (v_hashed v); cbn in Hfi, Hsi;
        (eapply step_insert with
           (r := Sql.mark_ingest (e_now e) st err
                   (mkFile (seq_file (w_db (sc_world sc))) (src_id src)
                      (folder_of (sc_folder_map sc) dir) rel
                      (PathAttr.ext_of (fe_name fe)) sz mt (v_sha256 v) "seen"
                      (e_now e) None "never" None));
         try reflexivity;
         [ rewrite Hfi, map_app; cbn; unfold upd at 2; cbn;
           rewrite Nat.eqb_refl; now rewrite map_upd_fresh
         | now rewrite Hsi ]).
    + inv H. cbn. split; [|split; reflexivity].
      destruct (v_hashed v); eapply step_insert; cbn; reflexivity.
Qed.

End Effects.

(* ------------------------------------------------------------------ *)
(** ** The handling of one file, in terms of its verdict *)

Section FileVerdict.

Context {HL : Hashlib}.

Lemma detect_change_shape mode force prev sz mt o v :
  detect_change mode force prev sz mt o = Ok v ->
  v_is_new v = is_none prev /\
  v_changed_hint v = meta_changed prev sz mt /\
  (v_changed v = true -> meta_changed prev sz mt = true) /\
  (v_hashed v = false -> v_changed v = meta_changed prev sz mt).
Proof.
  unfold detect_change, meta_changed, is_none. intros H.
  destruct (_ && _).
  - unfold bind, _sha256_file in H. destruct o as [content|msg]; inv H.
    cbn. repeat split; try discriminate.
    destruct prev as [p|]; [|auto]. destruct (f_sha256 p) as [h|]; [|auto].
    destruct (String.eqb h _); [discriminate|auto].
  - inv H. cbn. repeat split; auto.
Qed.

Lemma detect_change_no_hash mode force prev sz mt o :
  hashing_mode mode = false ->
  detect_change mode force prev sz mt o
  = Ok (mkVerdict (is_none prev) (meta_changed prev sz mt)
          (meta_changed prev sz mt)
          (match prev with Some p => f_sha256 p | None => None end) false).
Proof.
  intros Hm. unfold detect_change. rewrite Hm. cbn.
  destruct prev; reflexivity.
Qed.

Lemma detect_change_hash mode force prev sz mt content :
  hashing_mode mode = true ->
  force || meta_changed prev sz mt = true ->
  detect_change mode force prev sz mt (OpenOk content)
  = Ok (mkVerdict (is_none prev) (meta_changed prev sz mt)
          (match prev with
           | Some p =>
               match f_sha256 p with
               | Some h =>
                   if String.eqb h (sha256_hex content) then false
                   else meta_changed prev sz mt
               | None => meta_changed prev sz mt
               end
           | None => meta_changed prev sz mt
           end)
          (Some (sha256_hex content)) true).
Proof.
  intros Hm Hc. unfold detect_change. rewrite Hm.
  assert (E : (force
               || match prev with
                  | Some p => negb (f_size_bytes p =? sz)%Z
                              || negb (f_mtime_epoch p =? mt)%Z
                  | None => true
                  end
               || match prev with Some _ => false | None => true end) = true).
  { unfold meta_changed in Hc. destruct prev; rewrite ?orb_false_r; auto.
    now rewrite orb_true_r. }
  rewrite E. cbn. destruct prev; reflexivity.
Qed.

Lemma process_file_raise e rid src em dir fe sc sz mt x :
  entry_included src dir fe = true ->
  fe_stat fe = StatOk sz mt ->
  detect_change (src_change_detection src) (e_force_rehash e)
    (Dict.get em (entry_rel dir fe)) sz mt (fe_open fe) = Raise x ->
  process_file e rid src em dir fe sc = Raise x.
Proof.
  unfold process_file, entry_included, entry_rel. intros Hi Hs Hd.
  rewrite Hi, Hs. cbn. now rewrite Hd.
Qed.

Lemma upsert_source_file_other now S fo rel ext sz mt prev v d conn sid :
  upsert_source_file now S fo rel ext sz mt prev v d = (conn, sid) ->
  campaigns conn = campaigns d /\
  campaign_sources conn = campaign_sources d /\
  source_folders conn = source_folders d /\
  kb_documents conn = kb_documents d /\
  kb_chunks conn = kb_chunks d /\
  ingest_runs conn = ingest_runs d /\
  ingest_run_files conn = ingest_run_files d /\
  seq_folder conn = seq_folder d /\
  seq_document conn = seq_document d /\
  seq_run conn = seq_run d.
Proof.
  unfold upsert_source_file. destruct prev; intros H; inv H; cbn;
    repeat split.
Qed.

Lemma upsert_source_file_id now S fo rel ext sz mt prev v d conn sid :
  upsert_source_file now S fo rel ext sz mt prev v d = (conn, sid) ->
  sid = row_id prev d.
Proof.
  unfold upsert_source_file, row_id. destruct prev; intros H; now inv H.
Qed.

(** A file that is not ingested: counters of classification, the hash event
    when the file was hashed, and nothing else. *)
Lemma process_file_quiet e rid src em dir fe sc sz mt v :
  entry_included src dir fe = true ->
  fe_stat fe = StatOk sz mt ->
  detect_change (src_change_detection src) (e_force_rehash e)
    (Dict.get em (entry_rel dir fe)) sz mt (fe_open fe) = Ok v ->
  attempts e v (sc_files_to_ingest sc) = false ->
  exists sc',
    process_file e rid src em dir fe sc = Ok sc' /\
    w_stats (sc_world sc')
    = count_verdict v (incr_files_seen (w_stats (sc_world sc))) /\
    w_trace (sc_world sc')
    = w_trace (sc_world sc)
      ++ (if v_hashed v then [EvHashFile (entry_full src dir fe)] else []) /\
    kb_documents (w_db (sc_world sc')) = kb_documents (w_db (sc_world sc)) /\
    kb_chunks (w_db (sc_world sc')) = kb_chunks (w_db (sc_world sc)) /\
    seq_document (w_db (sc_world sc')) = seq_document (w_db (sc_world sc)) /\
    ingest_run_files (w_db (sc_world sc'))
    = ingest_run_files (w_db (sc_world sc)) /\
    sc_files_to_ingest sc' = sc_files_to_ingest sc.
Proof.
  unfold process_file, entry_included, entry_rel, entry_full, attempts.
  intros Hi Hs Hd Ha. rewrite Hi, Hs. cbn. rewrite Hd. cbn.
  destruct (upsert_source_file _ _ _ _ _ _ _ _ _ _) as [conn sid] eqn:Eu.
  apply upsert_source_file_other in Eu.
  destruct Eu as (_ & _ & _ & E4 & E5 & _ & E7 & _ & E9 & _).
  destruct ((v_is_new v || v_changed v) && negb (e_dry_run e)) eqn:Ec.
  - cbn in Ha. apply negb_false_iff in Ha. rewrite Ha.
    eexists. split; [reflexivity|]. cbn.
    rewrite E4, E5, E7, E9.
    destruct (v_hashed v); cbn; rewrite ?app_nil_r; repeat split.
  - eexists. split; [reflexivity|]. cbn.
    rewrite E4, E5, E7, E9.
    destruct (v_hashed v); cbn; rewrite ?app_nil_r; repeat split.
Qed.

Lemma would_skip_docs conn conn' c f b :
  kb_documents conn' = kb_documents conn ->
  would_skip conn' c f b = would_skip conn c f b.
Proof.
  intros E. unfold would_skip, Sql.select_document. now rewrite E.
Qed.

Lemma refused_docs conn conn' c f b :
  kb_documents conn' = kb_documents conn ->
  refused conn' c f b = refused conn c f b.
Proof.
  intros E. unfold refused. now rewrite (would_skip_docs _ _ _ _ _ E).
Qed.

Lemma would_skip_action now conn c f t ty b conn' id act :
  _upsert_document_and_chunks now conn c f t ty b = Ok (conn', (id, act)) ->
  act = if would_skip conn c f b then "skipped" else "ingested".
Proof.
  unfold _upsert_document_and_chunks, would_skip, bind. intros H.
  destruct (Sql.select_document conn c f) as [doc|].
  - destruct (String.eqb _ _); [now inv H|].
    destruct (insert_chunks _ _ _ _ _); now inv H.
  - cbn in H. destruct (insert_chunks _ _ _ _ _); now inv H.
Qed.

(** The materializer raises exactly when it is to write a body that has a
    fragment. *)
Lemma upsert_document_refused now conn c f t ty b :
  refused conn c f b = true ->
  _upsert_document_and_chunks now conn c f t ty b
  = Raise (SQLAlchemyError "INSERT INTO kb_chunks").
Proof.
  unfold refused, would_skip, _upsert_document_and_chunks, bind.
  intros H. apply andb_true_iff in H. destruct H as [H1 H2].
  assert (Hne : chunk_body b <> [])
    by (destruct (chunk_body b); [discriminate|congruence]).
  destruct (Sql.select_document conn c f) as [doc|].
  - destruct (String.eqb _ _); [discriminate|].
    now rewrite insert_chunks_raise.
  - cbn. now rewrite insert_chunks_raise.
Qed.

Lemma upsert_document_returns now conn c f t ty b :
  refused conn c f b = false ->
  exists conn' id,
    _upsert_document_and_chunks now conn c f t ty b
    = Ok (conn', (id, if would_skip conn c f b then "skipped"
                      else "ingested")).
Proof.
  unfold refused, would_skip, _upsert_document_and_chunks, bind.
  intros H.
  destruct (Sql.select_document conn c f) as [doc|].
  - destruct (String.eqb _ _); [eauto|].
    cbn in H. destruct (chunk_body b); [cbn; eauto|discriminate].
  - cbn in *. destruct (chunk_body b); [cbn; eauto|discriminate].
Qed.

Lemma upsert_document_ok_accepted now conn c f t ty b r :
  _upsert_document_and_chunks now conn c f t ty b = Ok r ->
  refused conn c f b = false.
Proof.
  intros H. destruct (refused conn c f b) eqn:E; [|reflexivity].
  rewrite (upsert_document_refused now conn c f t ty b E) in H.
  discriminate.
Qed.

Lemma ingest_file_refused e rid sid rel full name ext content w :
  refused (w_db w) (e_campaign_id e) sid (utf8_decode_replace content) = true ->
  ingest_file e rid sid rel full name ext (OpenOk content) w
  = Raise (SQLAlchemyError "UPDATE source_files").
Proof.
  intros H. unfold ingest_file. cbn [emit w_db].
  now rewrite (upsert_document_refused _ _ _ _ _ _ _ H).
Qed.

Lemma ingest_file_returns e rid sid rel full name ext o w :
  (forall content,
     o = OpenOk content ->
     refused (w_db w) (e_campaign_id e) sid (utf8_decode_replace content)
     = false) ->
  exists w', ingest_file e rid sid rel full name ext o w = Ok w'.
Proof.
  intros H. unfold ingest_file. destruct o as [content|msg]; [|eauto].
  cbn [emit w_db].
  destruct (upsert_document_returns (e_now e) (w_db w) (e_campaign_id e) sid
              (PathAttr.stem name)
              match ext with
              | Some x => if String.eqb x "md" then "md" else x
              | None => "file"
              end (utf8_decode_replace content) (H content eq_refl))
    as (conn' & id & ->).
  eauto.
Qed.

Lemma ingest_file_ok_accepted e rid sid rel full name ext content w w' :
  ingest_file e rid sid rel full name ext (OpenOk content) w = Ok w' ->
  refused (w_db w) (e_campaign_id e) sid (utf8_decode_replace content)
  = false.
Proof.
  intros H.
  destruct (refused (w_db w) (e_campaign_id e) sid
              (utf8_decode_replace content)) eqn:E; [|reflexivity].
  rewrite (ingest_file_refused e rid sid rel full name ext content w E) in H.
  discriminate.
Qed.

(** A file that is ingested, when its handling returns. *)
Lemma process_file_attempt e rid src em dir fe sc sc' sz mt v :
  entry_included src dir fe = true ->
  fe_stat fe = StatOk sz mt ->
  detect_change (src_change_detection src) (e_force_rehash e)
    (Dict.get em (entry_rel dir fe)) sz mt (fe_open fe) = Ok v ->
  attempts e v (sc_files_to_ingest sc) = true ->
  process_file e rid src em dir fe sc = Ok sc' ->
  tally (w_stats (sc_world sc'))
  = tally (count_verdict v (incr_files_seen (w_stats (sc_world sc)))) /\
  hash_events (w_trace (sc_world sc'))
  = hash_events (w_trace (sc_world sc))
    ++ (if v_hashed v then [EvHashFile (entry_full src dir fe)] else []) /\
  read_events (w_trace (sc_world sc'))
  = read_events (w_trace (sc_world sc))
    ++ [EvReadText (entry_full src dir fe)] /\
  sc_files_to_ingest sc' = (sc_files_to_ingest sc + 1)%Z.
Proof.
  unfold process_file, entry_included, entry_rel, entry_full, attempts.
  intros Hi Hs Hd Ha H. rewrite Hi, Hs in H. cbn in H. rewrite Hd in H.
  cbn in H.
  destruct (upsert_source_file _ _ _ _ _ _ _ _ _ _) as [conn sid] eqn:Eu.
  apply andb_true_iff in Ha. destruct Ha as [Ha Hb].
  rewrite Ha in H. apply negb_true_iff in Hb. rewrite Hb in H.
  unfold bind in H.
  destruct (ingest_file _ _ _ _ _ _ _ _ _) as [w2|] eqn:Ei; [|discriminate].
  inv H. cbn.
  unfold ingest_file in Ei. unfold hash_events, read_events.
  destruct (fe_open fe) as [content|msg].
  - destruct (_upsert_document_and_chunks _ _ _ _ _ _ _)
      as [[conn' [id act]]|]; [|discriminate].
    inv Ei.
    cbn. destruct (String.eqb act "ingested"); destruct (v_hashed v); cbn;
      rewrite ?filter_app; cbn; rewrite ?app_nil_r; repeat split.
  - inv Ei. cbn. destruct (v_hashed v); cbn;
      rewrite ?filter_app; cbn; rewrite ?app_nil_r; repeat split.
Qed.

(** The store the ingestion of a file starts from has the Documents the
    handling of the file started from, and the file has the id of its
    row. *)
Lemma process_file_ingestion e rid src em dir fe sc sz mt v :
  entry_included src dir fe = true ->
  fe_stat fe = StatOk sz mt ->
  detect_change (src_change_detection src) (e_force_rehash e)
    (Dict.get em (entry_rel dir fe)) sz mt (fe_open fe) = Ok v ->
  attempts e v (sc_files_to_ingest sc) = true ->
  exists w1,
    kb_documents (w_db w1) = kb_documents (w_db (sc_world sc)) /\
    kb_chunks (w_db w1) = kb_chunks (w_db (sc_world sc)) /\
    w_trace w1
    = w_trace (sc_world sc)
      ++ (if v_hashed v then [EvHashFile (entry_full src dir fe)] else []) /\
    process_file e rid src em dir fe sc
    = (w2 <- ingest_file e rid
               (row_id (Dict.get em (entry_rel dir fe)) (w_db (sc_world sc)))
               (entry_rel dir fe) (entry_full src dir fe) (fe_name fe)
               (PathAttr.ext_of (fe_name fe)) (fe_open fe) w1 ;;
       Ok (mkScan w2 (sc_folder_map sc)
             (seen_add (sc_seen_paths sc) (entry_rel dir fe))
             (sc_files_to_ingest sc + 1)%Z)).
Proof.
  unfold process_file, entry_included, entry_rel, entry_full, attempts.
  intros Hi Hs Hd Ha. rewrite Hi, Hs. cbn. rewrite Hd. cbn.
  destruct (upsert_source_file _ _ _ _ _ _ _ _ _ _) as [conn sid] eqn:Eu.
  pose proof (upsert_source_file_id _ _ _ _ _ _ _ _ _ _ _ _ Eu) as Hsid.
  apply upsert_source_file_other in Eu.
  destruct Eu as (_ & _ & _ & E4 & E5 & _).
  apply andb_true_iff in Ha. destruct Ha as [Ha Hb].
  rewrite Ha. apply negb_true_iff in Hb. rewrite Hb.
  assert (Hs2 : sid = row_id (Dict.get em (PathAttr.rel_of dir (fe_name fe)))
                        (w_db (sc_world sc)))
    by (rewrite Hsid; destruct (v_hashed v); reflexivity).
  rewrite <- Hs2.
  eexists. split; [|split; [|split; [|reflexivity]]]; cbn.
  - rewrite E4. destruct (v_hashed v); reflexivity.
  - rewrite E5. destruct (v_hashed v); reflexivity.
  - destruct (v_hashed v); cbn; now rewrite ?app_nil_r.
Qed.

(** A file whose ingestion is refused: the exception of the statement that
    follows the refusal leaves the handling of the file. *)
Lemma process_file_refused e rid src em dir fe sc sz mt v content :
  entry_included src dir fe = true ->
  fe_stat fe = StatOk sz mt ->
  detect_change (src_change_detection src) (e_force_rehash e)
    (Dict.get em (entry_rel dir fe)) sz mt (fe_open fe) = Ok v ->
  attempts e v (sc_files_to_ingest sc) = true ->
  fe_open fe = OpenOk content ->
  refused (w_db (sc_world sc)) (e_campaign_id e)
    (row_id (Dict.get em (entry_rel dir fe)) (w_db (sc_world sc)))
    (utf8_decode_replace content) = true ->
  process_file e rid src em dir fe sc
  = Raise (SQLAlchemyError "UPDATE source_files").
Proof.
  intros Hi Hs Hd Ha Ho Hr.
  destruct (process_file_ingestion e rid src em dir fe sc sz mt v Hi Hs Hd Ha)
    as (w1 & E1 & _ & _ & ->).
  rewrite Ho. rewrite ingest_file_refused; [reflexivity|].
  now rewrite (refused_docs _ _ _ _ _ E1).
Qed.

Lemma process_file_accepted e rid src em dir fe sc sz mt v :
  entry_included src dir fe = true ->
  fe_stat fe = StatOk sz mt ->
  detect_change (src_change_detection src) (e_force_rehash e)
    (Dict.get em (entry_rel dir fe)) sz mt (fe_open fe) = Ok v ->
  attempts e v (sc_files_to_ingest sc) = true ->
  (forall content,
     fe_open fe = OpenOk content ->
     refused (w_db (sc_world sc)) (e_campaign_id e)
       (row_id (Dict.get em (entry_rel dir fe)) (w_db (sc_world sc)))
       (utf8_decode_replace content) = false) ->
  exists sc', process_file e rid src em dir fe sc = Ok sc'.
Proof.
  intros Hi Hs Hd Ha Hr.
  destruct (process_file_ingestion e rid src em dir fe sc sz mt v Hi Hs Hd Ha)
    as (w1 & E1 & _ & _ & ->).
  match goal with
  | |- context [ingest_file ?e ?rid ?sid ?rl ?fl ?nm ?ex ?o ?w] =>
      destruct (ingest_file_returns e rid sid rl fl nm ex o w) as [w2 ->]
  end.
  - intros content Ho. rewrite (refused_docs _ _ _ _ _ E1). now apply Hr.
  - cbn. eauto.
Qed.

End FileVerdict.

Section FileClaims.

Context {HL : Hashlib}.

Lemma count_verdict_counted v s :
  counted (class_of (v_is_new v) (v_changed v)) s
    (count_verdict v (incr_files_seen s)).
Proof.
  unfold counted, class_of, count_verdict.
  destruct (v_is_new v); [|destruct (v_changed v)]; cbn; lia.
Qed.

Lemma counted_tally c s s1 s2 :
  tally s2 = tally s1 -> counted c s s1 -> counted c s s2.
Proof.
  unfold tally, counted. intros E H. inv E. rewrite H3, H4, H5, H6. exact H.
Qed.

(** An ingested file whose content can be read: what is read, and what the
    materializer answers, when the handling of the file returns. *)
Lemma process_file_ingest e rid src em dir fe sc sc' sz mt v content :
  entry_included src dir fe = true ->
  fe_stat fe = StatOk sz mt ->
  detect_change (src_change_detection src) (e_force_rehash e)
    (Dict.get em (entry_rel dir fe)) sz mt (fe_open fe) = Ok v ->
  attempts e v (sc_files_to_ingest sc) = true ->
  fe_open fe = OpenOk content ->
  process_file e rid src em dir fe sc = Ok sc' ->
  w_trace (sc_world sc')
  = w_trace (sc_world sc)
    ++ (if v_hashed v then [EvHashFile (entry_full src dir fe)] else [])
    ++ [EvReadText (entry_full src dir fe);
        EvUpsertDocument
          (row_id (Dict.get em (entry_rel dir fe)) (w_db (sc_world sc)))
          (if would_skip (w_db (sc_world sc)) (e_campaign_id e)
                (row_id (Dict.get em (entry_rel dir fe))
                   (w_db (sc_world sc)))
                (utf8_decode_replace content)
           then "skipped" else "ingested")].
Proof.
  intros Hi Hs Hd Ha Ho H.
  destruct (process_file_ingestion e rid src em dir fe sc sz mt v Hi Hs Hd Ha)
    as (w1 & E1 & _ & Et & E).
  rewrite E in H. clear E. unfold bind in H.
  destruct (ingest_file _ _ _ _ _ _ _ _ _) as [w2|] eqn:Ei; [|discriminate].
  inv H. cbn. unfold ingest_file in Ei. rewrite Ho in Ei.
  destruct (_upsert_document_and_chunks _ _ _ _ _ _ _)
    as [[conn' [id act]]|] eqn:Em; [|discriminate].
  apply would_skip_action in Em. cbn in Em.
  rewrite (would_skip_docs _ _ _ _ _ E1) in Em. subst act.
  injection Ei as <-. cbn. rewrite Et. now rewrite <- !app_assoc.
Qed.

(** Under change detection [mtime] no hash of the file is computed and the
    verdict is [metaChanged]: the file is classified new when it has no
    prior record, changed when its size or modification time differs from
    the record, unchanged otherwise.  When the handling of the file returns,
    the file is counted in that class and no hash event was added; a changed
    file, outside a dry run and under the cap, was read and handed to the
    materializer. *)
Lemma mtime_mode_verdict e rid src em dir fe sc sz mt :
  src_change_detection src = "mtime" ->
  entry_included src dir fe = true ->
  fe_stat fe = StatOk sz mt ->
  let prev := Dict.get em (entry_rel dir fe) in
  let changed := meta_changed prev sz mt in
  exists v,
    detect_change (src_change_detection src) (e_force_rehash e) prev sz mt
      (fe_open fe) = Ok v /\
    v_hashed v = false /\
    v_changed v = changed /\
    (forall sc',
       process_file e rid src em dir fe sc = Ok sc' ->
       hash_events (w_trace (sc_world sc'))
       = hash_events (w_trace (sc_world sc)) /\
       counted (class_of (is_none prev) changed)
         (w_stats (sc_world sc)) (w_stats (sc_world sc')) /\
       (forall content,
          changed = true -> e_dry_run e = false ->
          cap_reached (e_max_files e) (sc_files_to_ingest sc) = false ->
          fe_open fe = OpenOk content ->
          w_trace (sc_world sc')
          = w_trace (sc_world sc)
            ++ [EvReadText (entry_full src dir fe);
                EvUpsertDocument (row_id prev (w_db (sc_world sc)))
                  (if would_skip (w_db (sc_world sc)) (e_campaign_id e)
                        (row_id prev (w_db (sc_world sc)))
                        (utf8_decode_replace content)
                   then "skipped" else "ingested")])).
Proof.
  intros Hmode Hi Hs prev changed.
  assert (Hd := detect_change_no_hash (src_change_detection src)
                  (e_force_rehash e) prev sz mt (fe_open fe)).
  rewrite Hmode in Hd at 1. specialize (Hd eq_refl). fold changed in Hd.
  set (v := mkVerdict (is_none prev) changed changed
              match prev with Some p => f_sha256 p | None => None end false)
    in *.
  exists v. split; [exact Hd|]. split; [reflexivity|]. split; [reflexivity|].
  intros sc' Hp.
  destruct (attempts e v (sc_files_to_ingest sc)) eqn:Ea.
  - destruct (process_file_attempt e rid src em dir fe sc sc' sz mt v Hi Hs Hd
                Ea Hp) as (Ht & Hh & Hr & Hn).
    split; [cbn in Hh; now rewrite app_nil_r in Hh|].
    split; [eapply counted_tally; [exact Ht|apply (count_verdict_counted v)]|].
    intros content _ _ _ Ho.
    exact (process_file_ingest e rid src em dir fe sc sc' sz mt v content
             Hi Hs Hd Ea Ho Hp).
  - destruct (process_file_quiet e rid src em dir fe sc sz mt v Hi Hs Hd Ea)
      as (sc2 & Hp2 & Hst & Htr & _).
    rewrite Hp in Hp2. inv Hp2.
    split; [rewrite Htr; cbn; now rewrite app_nil_r|].
    split; [rewrite Hst; apply (count_verdict_counted v)|].
    intros content Hc Hdry Hcap _. exfalso.
    unfold attempts in Ea. cbn in Ea. rewrite Hc, Hdry, Hcap in Ea.
    rewrite orb_true_r in Ea. discriminate.
Qed.

(** C6. Under change detection [sha256] (the hash-confirmed mode) or [auto],
    when [force_rehash] holds or the metadata differ from the prior record
    (or there is none), the content of the file is hashed.  If a prior record
    exists and holds that hash, the file is classified unchanged, its
    handling returns and nothing is materialized: no read, no call of the
    materializer, Documents and Fragments as they were.  Otherwise the
    verdict is the one of the metadata; the handling of the file then
    returns with the file counted in its class, or the file went on to
    ingestion with a body the materializer is refused, and the exception
    leaves the handling of the file. *)
Theorem hash_mode_confirms e rid src em dir fe sc sz mt content :
  src_change_detection src = "sha256" \/ src_change_detection src = "auto" ->
  entry_included src dir fe = true ->
  fe_stat fe = StatOk sz mt ->
  fe_open fe = OpenOk content ->
  let prev := Dict.get em (entry_rel dir fe) in
  e_force_rehash e = true \/ meta_changed prev sz mt = true ->
  exists v,
    detect_change (src_change_detection src) (e_force_rehash e) prev sz mt
      (fe_open fe) = Ok v /\
    v_hashed v = true /\
    v_sha256 v = Some (sha256_hex content) /\
    (forall p,
       prev = Some p -> f_sha256 p = Some (sha256_hex content) ->
       v_changed v = false /\
       exists sc',
         process_file e rid src em dir fe sc = Ok sc' /\
         counted IsUnchanged (w_stats (sc_world sc)) (w_stats (sc_world sc'))
         /\
         w_trace (sc_world sc')
         = w_trace (sc_world sc) ++ [EvHashFile (entry_full src dir fe)] /\
         kb_documents (w_db (sc_world sc'))
         = kb_documents (w_db (sc_world sc)) /\
         kb_chunks (w_db (sc_world sc')) = kb_chunks (w_db (sc_world sc))) /\
    ((forall p, prev = Some p -> f_sha256 p <> Some (sha256_hex content)) ->
     v_changed v = meta_changed prev sz mt /\
     ((exists sc',
         process_file e rid src em dir fe sc = Ok sc' /\
         hash_events (w_trace (sc_world sc'))
         = hash_events (w_trace (sc_world sc))
           ++ [EvHashFile (entry_full src dir fe)] /\
         counted (class_of (is_none prev) (meta_changed prev sz mt))
           (w_stats (sc_world sc)) (w_stats (sc_world sc'))) \/
      (attempts e v (sc_files_to_ingest sc) = true /\
       refused (w_db (sc_world sc)) (e_campaign_id e)
         (row_id prev (w_db (sc_world sc))) (utf8_decode_replace content)
       = true /\
       process_file e rid src em dir fe sc
       = Raise (SQLAlchemyError "UPDATE source_files")))).
Proof.
  intros Hmode Hi Hs Ho prev Hc.
  assert (Hm : hashing_mode (src_change_detection src) = true)
    by (destruct Hmode as [-> | ->]; reflexivity).
  assert (Hc' : e_force_rehash e || meta_changed prev sz mt = true)
    by (destruct Hc as [-> | ->]; [reflexivity|apply orb_true_r]).
  assert (Hd := detect_change_hash (src_change_detection src)
                  (e_force_rehash e) prev sz mt content Hm Hc').
  rewrite <- Ho in Hd.
  match type of Hd with _ = Ok ?x => set (v := x) in * end.
  assert (Hsame : forall p, prev = Some p ->
            f_sha256 p = Some (sha256_hex content) -> v_changed v = false).
  { intros p Hp Hh. subst v. cbn. rewrite Hp, Hh.
    now rewrite String.eqb_refl. }
  assert (Hdiff : (forall p, prev = Some p ->
                     f_sha256 p <> Some (sha256_hex content)) ->
                  v_changed v = meta_changed prev sz mt).
  { intros Hne. subst v. cbn. destruct prev as [p|] eqn:Ep; [|reflexivity].
    destruct (f_sha256 p) as [h|] eqn:Eh; [|reflexivity].
    destruct (String.eqb_spec h (sha256_hex content)) as [->|]; [|reflexivity].
    exfalso. now apply (Hne p eq_refl). }
  exists v. split; [exact Hd|]. split; [reflexivity|].
  split; [reflexivity|]. split.
  - intros p Hprev Hsha. split; [now apply (Hsame p)|].
    assert (Hnew : v_is_new v = false) by (unfold v; cbn; now rewrite Hprev).
    assert (Ea : attempts e v (sc_files_to_ingest sc) = false)
      by (unfold attempts; now rewrite (Hsame p Hprev Hsha), Hnew).
    destruct (process_file_quiet e rid src em dir fe sc sz mt v Hi Hs Hd Ea)
      as (sc' & Hp & Hst & Htr & Hdoc & Hch & _).
    exists sc'. split; [exact Hp|].
    split; [|split; [exact Htr|split; [exact Hdoc|exact Hch]]].
    rewrite Hst.
    pose proof (count_verdict_counted v (w_stats (sc_world sc))) as Hcv.
    rewrite (Hsame p Hprev Hsha), Hnew in Hcv. exact Hcv.
  - intros Hne. split; [now apply Hdiff|].
    pose proof (count_verdict_counted v (w_stats (sc_world sc))) as Hcv.
    rewrite (Hdiff Hne) in Hcv.
    destruct (attempts e v (sc_files_to_ingest sc)) eqn:Ea.
    + destruct (refused (w_db (sc_world sc)) (e_campaign_id e)
                  (row_id prev (w_db (sc_world sc)))
                  (utf8_decode_replace content)) eqn:Er.
      * right. split; [reflexivity|]. split; [reflexivity|].
        exact (process_file_refused e rid src em dir fe sc sz mt v content
                 Hi Hs Hd Ea Ho Er).
      * left.
        destruct (process_file_accepted e rid src em dir fe sc sz mt v
                    Hi Hs Hd Ea) as [sc' Hp].
        { intros c0 Hc0. rewrite Ho in Hc0. inv Hc0. exact Er. }
        destruct (process_file_attempt e rid src em dir fe sc sc' sz mt v
                    Hi Hs Hd Ea Hp) as (Ht & Hh & _).
        exists sc'. split; [exact Hp|]. split; [exact Hh|].
        eapply counted_tally; [exact Ht|exact Hcv].
    + left.
      destruct (process_file_quiet e rid src em dir fe sc sz mt v Hi Hs Hd Ea)
        as (sc' & Hp & Hst & Htr & _).
      exists sc'. split; [exact Hp|].
      split; [rewrite Htr; unfold hash_events; now rewrite filter_app|].
      rewrite Hst. exact Hcv.
Qed.

End FileClaims.

(* ------------------------------------------------------------------ *)
(** ** The walk of one source *)

Section WalkInvariant.

Lemma seen_spec (paths : list string) (k : string) :
  seen paths k = true <-> In k paths.
Proof.
  unfold seen. rewrite existsb_exists. split.
  - intros (x & Hx & E). apply String.eqb_eq in E. now subst.
  - intros H. exists k. split; [exact H|apply String.eqb_refl].
Qed.

Lemma seen_add_in (paths : list string) (k k' : string) :
  In k' (seen_add paths k) <-> k' = k \/ In k' paths.
Proof.
  unfold seen_add. destruct (seen paths k) eqn:E.
  - apply seen_spec in E. split; [auto|]. intros [->|H]; auto.
  - rewrite in_app_iff. simpl. intuition.
Qed.

Lemma rows_of_upd_other x h l p S' :
  NoDup (map f_id l) -> In p l -> f_id p = x -> keeps_key h ->
  f_source p <> S' ->
  rows_of S' (map (upd x h) l) = rows_of S' l.
Proof.
  intros Hnd Hp Hx Hh Hs. unfold rows_of. apply filter_map_stable.
  - intros a Ha.
    destruct (upd_only x h _ _ _ Hnd Hp Hx Ha) as [Eq| ->]; [now rewrite Eq|].
    unfold upd. rewrite Hx, Nat.eqb_refl. destruct (Hh p) as (_ & B & _).
    now rewrite B.
  - intros a Ha Pa.
    destruct (upd_only x h _ _ _ Hnd Hp Hx Ha) as [Eq| ->]; [assumption|].
    apply Nat.eqb_eq in Pa. contradiction.
Qed.

Lemma rows_of_snoc_other l r S' :
  f_source r <> S' -> rows_of S' (l ++ [r]) = rows_of S' l.
Proof.
  intros Hs. unfold rows_of. rewrite filter_app. simpl.
  destruct (Nat.eqb_spec (f_source r) S'); [contradiction|apply app_nil_r].
Qed.

Lemma select_existing_rows_of d S :
  Sql.select_existing d S
  = filter (fun r => negb (String.eqb (f_status r) "deleted"))
      (rows_of S (source_files d)).
Proof.
  unfold Sql.select_existing, rows_of.
  induction (source_files d) as [|r l IH]; simpl; [reflexivity|].
  destruct (f_source r =? S); simpl; [|exact IH].
  destruct (negb _); [now rewrite IH|exact IH].
Qed.

Lemma existing_row_rows_of l S k :
  existing_row l S k = existing_row (rows_of S l) S k.
Proof.
  unfold existing_row, rows_of. rewrite <- filter_rev, find_filter.
  apply find_ext_in. intros a _. unfold is_existing.
  destruct (f_source a =? S); reflexivity.
Qed.

Lemma in_rows_of l S r : In r (rows_of S l) <-> In r l /\ f_source r = S.
Proof.
  unfold rows_of. rewrite filter_In. now rewrite Nat.eqb_eq.
Qed.

Lemma ids_wf_snoc l next r :
  ids_wf l next -> f_id r = next -> ids_wf (l ++ [r]) (S next).
Proof.
  intros [Hnd Hlt] Hr. split.
  - rewrite map_app. simpl. apply NoDup_app.
    + exact Hnd.
    + constructor; [intros []|constructor].
    + intros a Ha [E|[]]. apply in_map_iff in Ha.
      destruct Ha as (x & Ex & Hx). rewrite Forall_forall in Hlt.
      specialize (Hlt x Hx). lia.
  - apply Forall_app. split.
    + eapply Forall_impl; [|exact Hlt]. cbv beta. intros; lia.
    + constructor; [lia|constructor].
Qed.

Lemma ids_wf_upd l next x h :
  ids_wf l next -> keeps_key h -> ids_wf (map (upd x h) l) next.
Proof.
  intros [Hnd Hlt] Hh. split.
  - now rewrite map_upd_ids.
  - rewrite Forall_map. eapply Forall_impl; [|exact Hlt]. cbv beta.
    intros r Hr. unfold upd. destruct (f_id r =? x); [|exact Hr].
    destruct (Hh r) as (A & _). now rewrite A.
Qed.

Lemma file_step_inv S l0 done d d' seen_paths k sz mt :
  walk_inv S l0 done (source_files d) (seq_file d) seen_paths ->
  ~ In k (map obs_path done) ->
  file_step S k sz mt (existing_row l0 S k) d d' ->
  walk_inv S l0 (done ++ [(k, sz, mt)]) (source_files d') (seq_file d')
    (seen_add seen_paths k).
Proof.
  intros [Hwf Hother Hunseen Hseen Hdone] Hk Hstep.
  assert (Hks : ~ In k seen_paths) by (now rewrite Hseen).
  assert (Hseen' : forall k', In k' (seen_add seen_paths k) <->
                     In k' (map obs_path (done ++ [(k, sz, mt)]))).
  { intros k'. rewrite seen_add_in, map_app, in_app_iff, Hseen. simpl.
    unfold obs_path at 2. simpl. intuition. }
  destruct Hstep as [r Hprev Hl Hn Hid Hsrc Hrel Hst Hsz Hmt
                    |p h Hprev Hl Hn Hkey Hrec].
  - (* a row is appended *)
    rewrite Hl, Hn.
    assert (Hex : is_existing S k r = true).
    { unfold is_existing. rewrite Hsrc, Hrel, Hst, Nat.eqb_refl.
      now rewrite String.eqb_refl. }
    assert (Hex' : forall k', k' <> k -> is_existing S k' r = false).
    { intros k' Hne. unfold is_existing. rewrite Hrel.
      destruct (String.eqb_spec k k'); [congruence|apply andb_false_r]. }
    constructor.
    + now apply ids_wf_snoc.
    + intros S' HS'. rewrite rows_of_snoc_other by congruence. now apply Hother.
    + intros k' Hk'. rewrite seen_add_in in Hk'.
      rewrite existing_row_snoc, Hex' by intuition. apply Hunseen. intuition.
    + exact Hseen'.
    + intros k' sz' mt' Hin. apply in_app_iff in Hin.
      destruct Hin as [Hin|[E|[]]].
      * rewrite existing_row_snoc, Hex'; [now apply Hdone|].
        intros ->. apply Hk. apply in_map_iff. now exists (k, sz', mt').
      * inv E. rewrite existing_row_snoc, Hex. now exists r.
  - (* the row of the path is updated *)
    rewrite Hl, Hn.
    assert (Hp : existing_row (source_files d) S k = Some p)
      by (now rewrite Hunseen).
    destruct (existing_row_in _ _ _ _ Hp) as (Hin & Hps & Hpk & Hpst).
    destruct Hwf as [Hnd Hlt].
    constructor.
    + apply ids_wf_upd; [now split|exact Hkey].
    + intros S' HS'.
      rewrite (rows_of_upd_other (f_id p) h _ p) by (auto; congruence).
      now apply Hother.
    + intros k' Hk'. rewrite seen_add_in in Hk'.
      rewrite (existing_row_upd_other (f_id p) h _ p) by
        (auto; right; rewrite Hpk; intuition).
      apply Hunseen. intuition.
    + exact Hseen'.
    + intros k' sz' mt' Hin'. apply in_app_iff in Hin'.
      destruct Hin' as [Hin'|[E|[]]].
      * rewrite (existing_row_upd_other (f_id p) h _ p); auto.
        right. rewrite Hpk. intros ->. apply Hk. apply in_map_iff.
        now exists (k', sz', mt').
      * inv E. destruct (Hrec p) as (R1 & R2 & R3).
        exists (h p). split; [|now split].
        apply existing_row_upd_same; auto. rewrite R1. discriminate.
Qed.

End WalkInvariant.

Section WalkLoops.

Context {HL : Hashlib}.

Lemma process_folder_files e src dir sc :
  source_files (w_db (sc_world (process_folder e src dir sc)))
  = source_files (w_db (sc_world sc)) /\
  seq_file (w_db (sc_world (process_folder e src dir sc)))
  = seq_file (w_db (sc_world sc)) /\
  sc_seen_paths (process_folder e src dir sc) = sc_seen_paths sc /\
  sc_files_to_ingest (process_folder e src dir sc) = sc_files_to_ingest sc.
Proof.
  unfold process_folder. destruct (negb _).
  - unfold Sql.upsert_folder. destruct (find _ _); cbn; repeat split.
  - cbn. repeat split.
Qed.

Lemma process_file_inv e rid src em dir fe sc sc' l0 done :
  walk_inv (src_id src) l0 done (source_files (w_db (sc_world sc)))
    (seq_file (w_db (sc_world sc))) (sc_seen_paths sc) ->
  (forall k, Dict.get em k = existing_row l0 (src_id src) k) ->
  (forall o, In o (file_obs src dir fe) ->
             ~ In (obs_path o) (map obs_path done)) ->
  process_file e rid src em dir fe sc = Ok sc' ->
  walk_inv (src_id src) l0 (done ++ file_obs src dir fe)
    (source_files (w_db (sc_world sc'))) (seq_file (w_db (sc_world sc')))
    (sc_seen_paths sc').
Proof.
  intros Hinv Hem Hfresh Hrun. unfold file_obs in *.
  destruct (entry_included src dir fe) eqn:Hi.
  - destruct (fe_stat fe) as [sz mt|msg] eqn:Hs.
    + destruct (process_file_step e rid src em dir fe sc sc' sz mt)
        as (Hstep & Hseen & _); auto.
      { destruct Hinv as [[_ Hlt] _ _ _ _]. exact Hlt. }
      rewrite Hseen. rewrite Hem in Hstep.
      apply file_step_inv with (d := w_db (sc_world sc)); auto.
      apply (Hfresh (entry_rel dir fe, sz, mt)). now left.
    + destruct (process_file_skipped e rid src em dir fe sc)
        as (sc2 & Hrun2 & Hdb & _ & _ & Hseen & _).
      { right. now exists msg. }
      rewrite Hrun in Hrun2. inv Hrun2.
      now rewrite app_nil_r, Hdb, Hseen.
  - destruct (process_file_skipped e rid src em dir fe sc)
      as (sc2 & Hrun2 & Hdb & _ & _ & Hseen & _); [now left|].
    rewrite Hrun in Hrun2. inv Hrun2.
    now rewrite app_nil_r, Hdb, Hseen.
Qed.

Lemma nodup_app_fresh {A} (l1 l2 : list A) (a : A) :
  NoDup (l1 ++ l2) -> In a l2 -> ~ In a l1.
Proof.
  intros H Ha Hin. induction l1 as [|x l1 IH]; [destruct Hin|].
  simpl in H. apply NoDup_cons_iff in H. destruct H as [Hx H].
  destruct Hin as [->|Hin]; [|auto].
  apply Hx. apply in_app_iff. now right.
Qed.

Lemma files_loop_inv e rid src em dir l0 :
  (forall k, Dict.get em k = existing_row l0 (src_id src) k) ->
  forall files done sc sc',
    walk_inv (src_id src) l0 done (source_files (w_db (sc_world sc)))
      (seq_file (w_db (sc_world sc))) (sc_seen_paths sc) ->
    NoDup (map obs_path (done ++ flat_map (file_obs src dir) files)) ->
    for_each (process_file e rid src em dir) files sc = Ok sc' ->
    walk_inv (src_id src) l0 (done ++ flat_map (file_obs src dir) files)
      (source_files (w_db (sc_world sc'))) (seq_file (w_db (sc_world sc')))
      (sc_seen_paths sc').
Proof.
  intros Hem. induction files as [|fe files IH]; intros done sc sc' Hinv Hnd Hrun.
  - simpl in *. inv Hrun. now rewrite app_nil_r.
  - simpl in Hrun. unfold bind in Hrun.
    destruct (process_file e rid src em dir fe sc) as [sc1|] eqn:E1;
      [|discriminate].
    simpl flat_map in *. rewrite app_assoc in *.
    apply IH with (sc := sc1); auto.
    eapply process_file_inv; eauto.
    intros o Ho. rewrite map_app, map_app in Hnd.
    apply NoDup_app_remove_r in Hnd.
    eapply nodup_app_fresh; [exact Hnd|]. now apply in_map.
Qed.

Lemma walk_loop_inv e rid src em l0 :
  (forall k, Dict.get em k = existing_row l0 (src_id src) k) ->
  forall walk done sc sc',
    walk_inv (src_id src) l0 done (source_files (w_db (sc_world sc)))
      (seq_file (w_db (sc_world sc))) (sc_seen_paths sc) ->
    NoDup (map obs_path (done ++ walk_obs src walk)) ->
    for_each (process_dir e rid src em) walk sc = Ok sc' ->
    walk_inv (src_id src) l0 (done ++ walk_obs src walk)
      (source_files (w_db (sc_world sc'))) (seq_file (w_db (sc_world sc')))
      (sc_seen_paths sc').
Proof.
  intros Hem. induction walk as [|de walk IH]; intros done sc sc' Hinv Hnd Hrun.
  - simpl in *. inv Hrun. now rewrite app_nil_r.
  - simpl in Hrun. unfold bind in Hrun.
    destruct (process_dir e rid src em de sc) as [sc1|] eqn:E1;
      [|discriminate].
    unfold walk_obs in *. simpl flat_map in *. rewrite app_assoc in *.
    apply IH with (sc := sc1); auto.
    unfold process_dir in E1.
    eapply files_loop_inv; [exact Hem| |
      rewrite map_app in Hnd; apply NoDup_app_remove_r in Hnd; exact Hnd|
      exact E1].
    destruct (process_folder_files e src (de_rel de) sc) as (A & B & C & _).
    now rewrite A, B, C.
Qed.

(** At the start of the walk nothing is observed and no path is seen. *)
Lemma walk_inv_start S l next :
  ids_wf l next -> walk_inv S l [] l next [].
Proof.
  intros H. constructor; auto.
  - intros k. simpl. tauto.
  - intros k sz mt [].
Qed.

End WalkLoops.

Section Reconcile.

Context {HL : Hashlib}.

Lemma in_upd_other x h l p r :
  NoDup (map f_id l) -> In p l -> f_id p = x -> In r l -> r <> p ->
  In r (map (upd x h) l).
Proof.
  intros Hnd Hp Hx Hr Hne.
  destruct (upd_only x h _ _ _ Hnd Hp Hx Hr) as [E|E]; [|contradiction].
  rewrite <- E. now apply in_map.
Qed.

Lemma in_upd_same x h l p :
  In p l -> f_id p = x -> In (h p) (map (upd x h) l).
Proof.
  intros Hp Hx. replace (h p) with (upd x h p).
  - now apply in_map.
  - unfold upd. now rewrite Hx, Nat.eqb_refl.
Qed.

Lemma reconcile_one_files e rid seen_paths k p w :
  source_files (w_db (reconcile_one e rid seen_paths (k, p) w))
  = (if seen seen_paths k || e_dry_run e then source_files (w_db w)
     else map (upd (f_id p) (Sql.mark_deleted (e_now e)))
            (source_files (w_db w))) /\
  seq_file (w_db (reconcile_one e rid seen_paths (k, p) w))
  = seq_file (w_db w).
Proof.
  unfold reconcile_one. destruct (seen seen_paths k); [now split|].
  destruct (e_dry_run e); cbn; [now split|].
  unfold Sql.insert_run_file. cbn. destruct (existsb _ _); now split.
Qed.

(** The loop that marks the missing files, over the items that remain. *)
Lemma reconcile_loop_files e rid S seen_paths : forall items w,
  ids_wf (source_files (w_db w)) (seq_file (w_db w)) ->
  NoDup (map fst items) ->
  (forall k p, In (k, p) items -> ~ In k seen_paths ->
               existing_row (source_files (w_db w)) S k = Some p) ->
  let w' :=
    fold_left (fun w item => reconcile_one e rid seen_paths item w) items w in
  ids_wf (source_files (w_db w')) (seq_file (w_db w')) /\
  (forall S', S' <> S ->
     rows_of S' (source_files (w_db w')) = rows_of S' (source_files (w_db w)))
  /\
  (forall k, In k seen_paths \/ ~ In k (map fst items) ->
     existing_row (source_files (w_db w')) S k
     = existing_row (source_files (w_db w)) S k) /\
  (forall r, In r (source_files (w_db w)) -> f_status r = "deleted" ->
     In r (source_files (w_db w'))) /\
  (e_dry_run e = false ->
   forall k p, In (k, p) items -> ~ In k seen_paths ->
     In (Sql.mark_deleted (e_now e) p) (source_files (w_db w'))) /\
  (e_dry_run e = true -> source_files (w_db w') = source_files (w_db w)).
Proof.
  induction items as [|[k p] items IH]; intros w Hwf Hnd Hitems;
    cbn [fold_left].
  - repeat split; auto; try (apply Hwf). intros _ k p [].
  - simpl in Hnd. apply NoDup_cons_iff in Hnd. destruct Hnd as [Hk Hnd].
    set (w1 := reconcile_one e rid seen_paths (k, p) w).
    destruct (reconcile_one_files e rid seen_paths k p w) as [Hf Hs].
    fold w1 in Hf, Hs.
    destruct (seen seen_paths k || e_dry_run e) eqn:Eskip.
    + (* nothing is written for this item *)
      destruct (IH w1) as (A & B & C & D & E & F).
      * now rewrite Hf, Hs.
      * exact Hnd.
      * intros k' p' Hin Hns. rewrite Hf. apply Hitems; auto. now right.
      * rewrite Hf in B, C, D, F. split; [exact A|]. split; [exact B|].
        split; [intros k' Hk'; apply C; simpl in Hk'; intuition|].
        split; [exact D|]. split; [|exact F].
        intros Hdry k' p' [Eq|Hin] Hns.
        -- inv Eq. rewrite Hdry, orb_false_r in Eskip.
           apply seen_spec in Eskip. contradiction.
        -- now apply (E Hdry k' p').
    + (* the row is marked deleted *)
      apply orb_false_iff in Eskip. destruct Eskip as [Ens Edry].
      assert (Hns : ~ In k seen_paths)
        by (intros H; apply seen_spec in H; congruence).
      assert (Hp : existing_row (source_files (w_db w)) S k = Some p)
        by (apply Hitems; auto; now left).
      destruct (existing_row_in _ _ _ _ Hp) as (Hin & Hps & Hpk & Hpst).
      destruct Hwf as [Hnd0 Hlt].
      destruct (IH w1) as (A & B & C & D & E & F).
      * rewrite Hf, Hs. apply ids_wf_upd; [now split|].
        apply keeps_key_mark_deleted.
      * exact Hnd.
      * intros k' p' Hin' Hns'. rewrite Hf.
        rewrite (existing_row_upd_other (f_id p) _ _ p); auto.
        -- apply Hitems; auto. now right.
        -- apply keeps_key_mark_deleted.
        -- right. rewrite Hpk. intros ->. apply Hk.
           apply in_map_iff. now exists (k', p').
      * rewrite Hf in B, C, D, F.
        split; [exact A|]. split; [|split; [|split; [|split]]].
        -- intros S' HS'. rewrite B by exact HS'.
           apply (rows_of_upd_other (f_id p) _ _ p); auto.
           ++ apply keeps_key_mark_deleted.
           ++ congruence.
        -- intros k' Hk'. rewrite C by (simpl in Hk'; intuition).
           apply (existing_row_upd_other (f_id p) _ _ p); auto.
           ++ apply keeps_key_mark_deleted.
           ++ right. rewrite Hpk. intros ->. destruct Hk' as [H|H].
              ** contradiction.
              ** apply H. now left.
        -- intros r Hr Hst. apply D; [|exact Hst].
           apply (in_upd_other (f_id p) _ _ p); auto. congruence.
        -- intros _ k' p' [Eq|Hin'] Hns'.
           ++ inv Eq. apply D; [|reflexivity]. now apply in_upd_same.
           ++ now apply (E Edry k' p').
        -- intros Hdry. congruence.
Qed.

End Reconcile.

Section ScanSource.

Context {HL : Hashlib}.

Lemma ensure_root_folder_files e src fm w w' fm' :
  ensure_root_folder e src fm w = (w', fm') ->
  source_files (w_db w') = source_files (w_db w) /\
  seq_file (w_db w') = seq_file (w_db w) /\
  w_stats w' = w_stats w /\ w_trace w' = w_trace w /\
  kb_documents (w_db w') = kb_documents (w_db w) /\
  kb_chunks (w_db w') = kb_chunks (w_db w) /\
  seq_document (w_db w') = seq_document (w_db w) /\
  ingest_run_files (w_db w') = ingest_run_files (w_db w).
Proof.
  unfold ensure_root_folder. destruct (negb _).
  - unfold Sql.upsert_folder. destruct (find _ _); intros H; inv H; cbn;
      repeat split.
  - intros H. inv H. cbn. repeat split.
Qed.

(** What the scan of a source does to [source_files]. *)
Lemma scan_source_files e rid src w w' :
  ids_wf (source_files (w_db w)) (seq_file (w_db w)) ->
  NoDup (map obs_path (walk_obs src (source_walk (e_fs e) src))) ->
  scan_source e rid src w = Ok w' ->
  ids_wf (source_files (w_db w')) (seq_file (w_db w')) /\
  (forall S', S' <> src_id src ->
     rows_of S' (source_files (w_db w')) = rows_of S' (source_files (w_db w)))
  /\
  (fs_exists (e_fs e) (root_path src) = ExistsOk true ->
   forall k sz mt,
     In (k, sz, mt) (walk_obs src (source_walk (e_fs e) src)) ->
     exists r,
       existing_row (source_files (w_db w')) (src_id src) k = Some r /\
       f_size_bytes r = sz /\ f_mtime_epoch r = mt) /\
  (fs_exists (e_fs e) (root_path src) = ExistsOk true ->
   e_dry_run e = false ->
   forall k p,
     existing_row (source_files (w_db w)) (src_id src) k = Some p ->
     ~ In k (map obs_path (walk_obs src (source_walk (e_fs e) src))) ->
     In (Sql.mark_deleted (e_now e) p) (source_files (w_db w'))) /\
  (fs_exists (e_fs e) (root_path src) = ExistsOk false ->
   source_files (w_db w') = source_files (w_db w)).
Proof.
  intros Hwf Hnd Hrun. unfold scan_source in Hrun.
  destruct (fs_exists (e_fs e) (root_path src)) as [[|]|msg] eqn:Ex;
    [| |discriminate].
  2:{ inv Hrun. cbn. repeat split; try apply Hwf; try discriminate. }
  unfold scan_files in Hrun.
  set (em := Dict.of_rows f_rel_path (fun r => r) _) in Hrun.
  destruct (ensure_root_folder _ _ _ _) as [w2 fm] eqn:Er.
  apply ensure_root_folder_files in Er. cbn in Er.
  destruct Er as (Ef & Es & _).
  unfold bind in Hrun.
  destruct (for_each _ _ _) as [sc|] eqn:Ewalk; [|discriminate].
  inv Hrun.
  set (S := src_id src) in *. set (l := source_files (w_db w)) in *.
  assert (Hem : forall k, Dict.get em k = existing_row l S k).
  { intros k. unfold em. now rewrite existing_map_get. }
  assert (Hinv : walk_inv S l (walk_obs src (source_walk (e_fs e) src))
                   (source_files (w_db (sc_world sc)))
                   (seq_file (w_db (sc_world sc))) (sc_seen_paths sc)).
  { apply (walk_loop_inv e rid src em l Hem _ [] (mkScan w2 fm [] 0%Z) sc);
      [|exact Hnd|exact Ewalk].
    cbn. rewrite Ef, Es. now apply walk_inv_start. }
  destruct Hinv as [Hwf' Hother Hunseen Hseen Hdone].
  destruct (reconcile_loop_files e rid S (sc_seen_paths sc) em (sc_world sc))
    as (A & B & C & D & E & F).
  { exact Hwf'. }
  { apply of_rows_nodup. }
  { intros k p Hin Hns. rewrite Hunseen by exact Hns. rewrite <- Hem.
    now apply of_rows_item_get. }
  cbv zeta in A, B, C, D, E, F.
  set (w3 := fold_left _ em (sc_world sc)) in *.
  assert (Hfin : forall wf,
            wf = (if negb (e_dry_run e)
                  then on_db (Sql.stamp_ingest (e_now e) S) w3 else w3) ->
            source_files (w_db wf) = source_files (w_db w3) /\
            seq_file (w_db wf) = seq_file (w_db w3)).
  { intros wf ->. destruct (negb _); cbn; now split. }
  destruct (Hfin _ eq_refl) as [Hf1 Hf2]. rewrite Hf1, Hf2.
  split; [exact A|]. split; [|split; [|split; [|discriminate]]].
  - intros S' HS'. rewrite B by exact HS'. now apply Hother.
  - intros _ k sz mt Hin. rewrite C.
    + now apply Hdone.
    + left. apply Hseen. apply in_map_iff. now exists (k, sz, mt).
  - intros _ Hdry k p Hp Hk. apply (E Hdry k p).
    + apply of_rows_item_get. now rewrite Hem.
    + now rewrite Hseen.
Qed.

End ScanSource.

(* ------------------------------------------------------------------ *)
(** ** The loop over the sources *)

Section SourcesLoop.

Context {HL : Hashlib}.

Lemma sub_seq_in {A} (l1 l2 : list A) (a : A) :
  sub_seq l1 l2 -> In a l1 -> In a l2.
Proof.
  induction 1; intros Hin; [destruct Hin| |].
  - right. auto.
  - destruct Hin as [->|Hin]; [now left|right; auto].
Qed.

Lemma sub_seq_nodup {A} (l1 l2 : list A) :
  sub_seq l1 l2 -> NoDup l2 -> NoDup l1.
Proof.
  induction 1; intros Hnd; [constructor| |].
  - apply NoDup_cons_iff in Hnd. destruct Hnd. auto.
  - apply NoDup_cons_iff in Hnd. destruct Hnd as [Ha Hnd].
    constructor; [|auto]. intros Hin. apply Ha.
    eapply sub_seq_in; eauto.
Qed.

Lemma sub_seq_refl {A} (l : list A) : sub_seq l l.
Proof. induction l; [apply sub_nil|apply sub_keep; assumption]. Qed.

Lemma sub_seq_app {A} (a1 a2 b1 b2 : list A) :
  sub_seq a1 a2 -> sub_seq b1 b2 -> sub_seq (a1 ++ b1) (a2 ++ b2).
Proof.
  induction 1; intros Hb; simpl;
    [exact Hb|apply sub_skip; auto|apply sub_keep; auto].
Qed.

Lemma dir_obs_sub src de :
  sub_seq (map obs_path (dir_obs src de)) (dir_paths de).
Proof.
  unfold dir_obs, dir_paths. induction (de_files de) as [|fe l IH]; simpl.
  - constructor.
  - rewrite map_app. unfold file_obs at 1.
    destruct (entry_included src (de_rel de) fe);
      [destruct (fe_stat fe)|]; simpl;
      [apply sub_keep|apply sub_skip|apply sub_skip]; exact IH.
Qed.

Lemma walk_obs_sub src walk :
  sub_seq (map obs_path (walk_obs src walk)) (walk_paths walk).
Proof.
  unfold walk_obs, walk_paths. induction walk as [|de walk IH]; simpl.
  - constructor.
  - rewrite map_app. apply sub_seq_app; [apply dir_obs_sub|exact IH].
Qed.

(** Walks that list each path once give observations with distinct paths. *)
Lemma fs_wf_walks fs srcs : fs_wf fs -> walks_wf fs srcs.
Proof.
  intros H src _. eapply sub_seq_nodup; [apply walk_obs_sub|apply H].
Qed.

Lemma existing_row_same_rows l l' S k :
  rows_of S l' = rows_of S l -> existing_row l' S k = existing_row l S k.
Proof.
  intros E. rewrite (existing_row_rows_of l'), (existing_row_rows_of l).
  now rewrite E.
Qed.

Lemma in_same_rows l l' S r :
  rows_of S l' = rows_of S l -> In r l -> f_source r = S -> In r l'.
Proof.
  intros E Hr Hs. assert (H : In r (rows_of S l')).
  { rewrite E. now apply in_rows_of. }
  now apply in_rows_of in H.
Qed.

Lemma sources_loop_files e rid : forall srcs w w',
  ids_wf (source_files (w_db w)) (seq_file (w_db w)) ->
  NoDup (map src_id srcs) ->
  walks_wf (e_fs e) srcs ->
  for_each (scan_source e rid) srcs w = Ok w' ->
  ids_wf (source_files (w_db w')) (seq_file (w_db w')) /\
  (forall S', ~ In S' (map src_id srcs) ->
     rows_of S' (source_files (w_db w')) = rows_of S' (source_files (w_db w)))
  /\
  (forall src, In src srcs -> synced (e_fs e) (source_files (w_db w')) src) /\
  (e_dry_run e = false ->
   forall src k p,
     In src srcs ->
     fs_exists (e_fs e) (root_path src) = ExistsOk true ->
     existing_row (source_files (w_db w)) (src_id src) k = Some p ->
     ~ In k (map obs_path (walk_obs src (source_walk (e_fs e) src))) ->
     In (Sql.mark_deleted (e_now e) p) (source_files (w_db w'))).
Proof.
  induction srcs as [|src srcs IH]; intros w w' Hwf Hnd Hwalks Hrun.
  - simpl in Hrun. inv Hrun. repeat split; try apply Hwf.
    + intros _ [].
    + intros _ src k p [].
  - simpl in Hrun. unfold bind in Hrun.
    destruct (scan_source e rid src w) as [w1|] eqn:E1; [|discriminate].
    simpl in Hnd. apply NoDup_cons_iff in Hnd. destruct Hnd as [Hsrc Hnd].
    destruct (scan_source_files e rid src w w1 Hwf) as (A & B & C & D & _).
    { apply Hwalks. now left. }
    { exact E1. }
    destruct (IH w1 w' A Hnd) as (A' & B' & C' & D').
    { intros s Hs. apply Hwalks. now right. }
    { exact Hrun. }
    split; [exact A'|]. split; [|split].
    + intros S' HS'. simpl in HS'. rewrite B' by intuition.
      apply B. intuition.
    + intros s [<-|Hs]; [|now apply C'].
      intros Hex k sz mt Hin.
      rewrite (existing_row_same_rows _ _ _ _ (B' _ Hsrc)).
      now apply C.
    + intros Hdry s k p [<-|Hs] Hex Hp Hk.
      * destruct (existing_row_in _ _ _ _ Hp) as (_ & Hps & _).
        apply (in_same_rows _ _ _ _ (B' _ Hsrc)); [|exact Hps].
        now apply (D Hex Hdry k p).
      * apply (D' Hdry s k p); auto.
        rewrite (existing_row_same_rows (source_files (w_db w))
                   (source_files (w_db w1))); [exact Hp|].
        apply B. intros E. apply Hsrc. rewrite <- E. now apply in_map.
Qed.

End SourcesLoop.

(* ------------------------------------------------------------------ *)
(** ** A scan over files that are all recorded *)

Section Quiet.

Context {HL : Hashlib}.

Lemma process_file_skipped_view e rid src em dir fe sc sc' :
  entry_included src dir fe = false
  \/ (exists msg, fe_stat fe = StatErr msg) ->
  process_file e rid src em dir fe sc = Ok sc' ->
  tally (w_stats (sc_world sc')) = tally (w_stats (sc_world sc)) /\
  ingest_tally (w_stats (sc_world sc'))
  = ingest_tally (w_stats (sc_world sc)).
Proof.
  unfold process_file, entry_included, entry_rel.
  destruct (_should_include _ _ _) eqn:Ei; simpl.
  - intros [H|[msg H]]; [discriminate|]. rewrite H. intros H'. inv H'.
    split; reflexivity.
  - intros _ H. inv H. split; reflexivity.
Qed.

Lemma process_file_synced e rid src em dir fe sc sc' sz mt r :
  entry_included src dir fe = true ->
  fe_stat fe = StatOk sz mt ->
  Dict.get em (entry_rel dir fe) = Some r ->
  f_size_bytes r = sz -> f_mtime_epoch r = mt ->
  process_file e rid src em dir fe sc = Ok sc' ->
  quiet_view (sc_world sc') = quiet_view (sc_world sc).
Proof.
  intros Hi Hs Hr Hsz Hmt Hrun.
  destruct (detect_change (src_change_detection src) (e_force_rehash e)
              (Dict.get em (entry_rel dir fe)) sz mt (fe_open fe))
    as [v|x] eqn:Hd.
  2:{ rewrite (process_file_raise e rid src em dir fe sc sz mt x Hi Hs Hd)
        in Hrun. discriminate. }
  destruct (detect_change_shape _ _ _ _ _ _ _ Hd) as (Hnew & _ & Hch & _).
  assert (Hmeta : meta_changed (Dict.get em (entry_rel dir fe)) sz mt = false).
  { rewrite Hr. unfold meta_changed. rewrite Hsz, Hmt, !Z.eqb_refl.
    reflexivity. }
  assert (Hv : v_changed v = false).
  { destruct (v_changed v); [|reflexivity]. rewrite Hch in Hmeta; auto. }
  assert (Hn : v_is_new v = false) by (now rewrite Hnew, Hr).
  assert (Ha : attempts e v (sc_files_to_ingest sc) = false)
    by (unfold attempts; now rewrite Hn, Hv).
  destruct (process_file_quiet e rid src em dir fe sc sz mt v Hi Hs Hd Ha)
    as (sc2 & Hrun2 & Hst & Htr & Hdoc & Hch2 & Hsq & _).
  rewrite Hrun in Hrun2. inv Hrun2.
  unfold quiet_view. rewrite Hst, Htr, Hdoc, Hch2, Hsq.
  unfold count_verdict. rewrite Hn, Hv. cbn.
  rewrite filter_app. destruct (v_hashed v); cbn; now rewrite app_nil_r.
Qed.

Lemma process_folder_view e src dir sc :
  w_stats (sc_world (process_folder e src dir sc)) = w_stats (sc_world sc) /\
  w_trace (sc_world (process_folder e src dir sc)) = w_trace (sc_world sc) /\
  kb_documents (w_db (sc_world (process_folder e src dir sc)))
  = kb_documents (w_db (sc_world sc)) /\
  kb_chunks (w_db (sc_world (process_folder e src dir sc)))
  = kb_chunks (w_db (sc_world sc)) /\
  seq_document (w_db (sc_world (process_folder e src dir sc)))
  = seq_document (w_db (sc_world sc)) /\
  ingest_run_files (w_db (sc_world (process_folder e src dir sc)))
  = ingest_run_files (w_db (sc_world sc)) /\
  campaign_sources (w_db (sc_world (process_folder e src dir sc)))
  = campaign_sources (w_db (sc_world sc)).
Proof.
  unfold process_folder. destruct (negb _).
  - unfold Sql.upsert_folder. destruct (find _ _); cbn; repeat split.
  - cbn. repeat split.
Qed.

Lemma quiet_view_skipped sc sc' :
  w_db (sc_world sc') = w_db (sc_world sc) ->
  w_trace (sc_world sc') = w_trace (sc_world sc) ->
  tally (w_stats (sc_world sc')) = tally (w_stats (sc_world sc)) ->
  ingest_tally (w_stats (sc_world sc'))
  = ingest_tally (w_stats (sc_world sc)) ->
  quiet_view (sc_world sc') = quiet_view (sc_world sc).
Proof.
  intros Hdb Htr Ht Hi. unfold quiet_view. rewrite Hdb, Htr, Hi.
  unfold tally in Ht. inv Ht. now rewrite H3, H4.
Qed.

Lemma files_loop_quiet e rid src em dir : forall files sc sc',
  (forall k sz mt, In (k, sz, mt) (flat_map (file_obs src dir) files) ->
     exists r, Dict.get em k = Some r /\
               f_size_bytes r = sz /\ f_mtime_epoch r = mt) ->
  for_each (process_file e rid src em dir) files sc = Ok sc' ->
  quiet_view (sc_world sc') = quiet_view (sc_world sc).
Proof.
  induction files as [|fe files IH]; intros sc sc' Hall Hrun.
  - simpl in Hrun. now inv Hrun.
  - simpl in Hrun. unfold bind in Hrun.
    destruct (process_file e rid src em dir fe sc) as [sc1|] eqn:E1;
      [|discriminate].
    rewrite (IH sc1 sc'); auto.
    2:{ intros k sz mt Hin. apply Hall. simpl. apply in_app_iff. now right. }
    destruct (entry_included src dir fe) eqn:Hi.
    + destruct (fe_stat fe) as [sz mt|msg] eqn:Hs.
      * destruct (Hall (entry_rel dir fe) sz mt) as (r & Hr & Hsz & Hmt).
        { simpl. apply in_app_iff. left. unfold file_obs.
          rewrite Hi, Hs. now left. }
        eapply process_file_synced; eauto.
      * destruct (process_file_skipped e rid src em dir fe sc)
          as (sc2 & Hrun2 & Hdb & Htr & _); [right; now exists msg|].
        rewrite E1 in Hrun2. inv Hrun2.
        destruct (process_file_skipped_view e rid src em dir fe sc sc2)
          as [Ht Hg]; auto; [right; now exists msg|].
        now apply quiet_view_skipped.
    + destruct (process_file_skipped e rid src em dir fe sc)
        as (sc2 & Hrun2 & Hdb & Htr & _); [now left|].
      rewrite E1 in Hrun2. inv Hrun2.
      destruct (process_file_skipped_view e rid src em dir fe sc sc2)
        as [Ht Hg]; auto.
      now apply quiet_view_skipped.
Qed.

Lemma walk_loop_quiet e rid src em : forall walk sc sc',
  (forall k sz mt, In (k, sz, mt) (walk_obs src walk) ->
     exists r, Dict.get em k = Some r /\
               f_size_bytes r = sz /\ f_mtime_epoch r = mt) ->
  for_each (process_dir e rid src em) walk sc = Ok sc' ->
  quiet_view (sc_world sc') = quiet_view (sc_world sc).
Proof.
  induction walk as [|de walk IH]; intros sc sc' Hall Hrun.
  - simpl in Hrun. now inv Hrun.
  - simpl in Hrun. unfold bind in Hrun.
    destruct (process_dir e rid src em de sc) as [sc1|] eqn:E1;
      [|discriminate].
    rewrite (IH sc1 sc'); auto.
    2:{ intros k sz mt Hin. apply Hall. unfold walk_obs. simpl.
        apply in_app_iff. now right. }
    unfold process_dir in E1.
    assert (Hd : forall k sz mt,
              In (k, sz, mt) (flat_map (file_obs src (de_rel de)) (de_files de))
              -> exists r, Dict.get em k = Some r /\
                           f_size_bytes r = sz /\ f_mtime_epoch r = mt).
    { intros k sz mt Hin. apply Hall. unfold walk_obs. simpl.
      apply in_app_iff. now left. }
    rewrite (files_loop_quiet e rid src em (de_rel de) _ _ _ Hd E1).
    destruct (process_folder_view e src (de_rel de) sc)
      as (A & B & C & D & E & _).
    unfold quiet_view. now rewrite A, B, C, D, E.
Qed.

Lemma reconcile_one_view e rid seen_paths item w :
  quiet_view (reconcile_one e rid seen_paths item w) = quiet_view w /\
  hash_events (w_trace (reconcile_one e rid seen_paths item w))
  = hash_events (w_trace w) /\
  campaign_sources (w_db (reconcile_one e rid seen_paths item w))
  = campaign_sources (w_db w).
Proof.
  unfold reconcile_one. destruct item as [k p].
  destruct (seen seen_paths k); [repeat split|].
  destruct (negb (e_dry_run e)); [|repeat split].
  unfold Sql.insert_run_file, quiet_view. cbn.
  destruct (existsb _ _); repeat split.
Qed.

Lemma reconcile_loop_view e rid seen_paths : forall items w,
  quiet_view
    (fold_left (fun w item => reconcile_one e rid seen_paths item w) items w)
  = quiet_view w.
Proof.
  induction items as [|item items IH]; intros w; cbn [fold_left];
    [reflexivity|].
  rewrite IH. apply reconcile_one_view.
Qed.

(** The scan of a source whose files are all recorded classifies none of
    them new or changed and ingests nothing. *)
Lemma scan_source_quiet e rid src w w' :
  synced (e_fs e) (source_files (w_db w)) src ->
  scan_source e rid src w = Ok w' ->
  quiet_view w' = quiet_view w.
Proof.
  intros Hsync Hrun. unfold scan_source in Hrun.
  destruct (fs_exists (e_fs e) (root_path src)) as [[|]|msg] eqn:Ex;
    [| |discriminate].
  2:{ inv Hrun. reflexivity. }
  unfold scan_files in Hrun.
  set (em := Dict.of_rows f_rel_path (fun r => r) _) in Hrun.
  destruct (ensure_root_folder _ _ _ _) as [w2 fm] eqn:Er.
  apply ensure_root_folder_files in Er. cbn in Er.
  destruct Er as (_ & _ & E3 & E4 & E5 & E6 & E7 & _).
  unfold bind in Hrun.
  destruct (for_each _ _ _) as [sc|] eqn:Ewalk; [|discriminate].
  inv Hrun.
  assert (Hq : quiet_view (sc_world sc) = quiet_view w).
  { assert (Hd : forall k sz mt,
              In (k, sz, mt) (walk_obs src (source_walk (e_fs e) src)) ->
              exists r, Dict.get em k = Some r /\
                        f_size_bytes r = sz /\ f_mtime_epoch r = mt).
    { intros k sz mt Hin. unfold em. rewrite existing_map_get.
      now apply (Hsync Ex). }
    rewrite (walk_loop_quiet e rid src em _ _ _ Hd Ewalk).
    unfold quiet_view. cbn. now rewrite E3, E4, E5, E6, E7. }
  rewrite <- Hq, <- (reconcile_loop_view e rid (sc_seen_paths sc) em
                       (sc_world sc)).
  destruct (negb (e_dry_run e)); reflexivity.
Qed.

End Quiet.

(* ------------------------------------------------------------------ *)
(** ** The run as a whole *)

Section RunLevel.

Context {HL : Hashlib}.

Lemma ingest_file_frame e rid sid rel full name ext o w w' :
  ingest_file e rid sid rel full name ext o w = Ok w' ->
  campaign_sources (w_db w') = campaign_sources (w_db w) /\
  campaigns (w_db w') = campaigns (w_db w) /\
  seq_run (w_db w') = seq_run (w_db w) /\
  ingest_runs (w_db w') = ingest_runs (w_db w).
Proof.
  unfold ingest_file. intros H. destruct o as [content|msg].
  - destruct (_upsert_document_and_chunks _ _ _ _ _ _ _)
      as [[conn [id act]]|] eqn:E; [|discriminate].
    inv H.
    apply upsert_document_only_kb in E.
    destruct E as (E1 & E2 & _ & _ & E5 & _ & _ & _ & E9).
    unfold Sql.insert_run_file. cbn.
    destruct (existsb _ _); cbn; rewrite E1, E2, E5, E9; repeat split.
  - inv H. unfold Sql.upsert_run_file_error. cbn.
    destruct (existsb _ _); cbn; repeat split.
Qed.

Lemma process_file_frame e rid src em dir fe sc sc' :
  process_file e rid src em dir fe sc = Ok sc' ->
  campaign_sources (w_db (sc_world sc')) = campaign_sources (w_db (sc_world sc))
  /\ campaigns (w_db (sc_world sc')) = campaigns (w_db (sc_world sc))
  /\ seq_run (w_db (sc_world sc')) = seq_run (w_db (sc_world sc))
  /\ ingest_runs (w_db (sc_world sc')) = ingest_runs (w_db (sc_world sc)).
Proof.
  unfold process_file. intros H.
  destruct (negb _); [inv H; repeat split|].
  destruct (fe_stat fe) as [sz mt|msg]; [|inv H; repeat split].
  unfold bind in H.
  destruct (detect_change _ _ _ _ _ _) as [v|]; [|discriminate].
  destruct (upsert_source_file _ _ _ _ _ _ _ _ _ _) as [conn sid] eqn:Eu.
  apply upsert_source_file_other in Eu.
  destruct Eu as (E1 & E2 & _ & _ & _ & E6 & _ & _ & _ & E10).
  assert (Hw : forall (b : bool) (x : event) (w0 : world),
            w_db (if b then emit x w0 else w0) = w_db w0)
    by (intros [] ? ?; reflexivity).
  cbn in E1, E2, E6, E10. rewrite Hw in E1, E2, E6, E10.
  cbn in E1, E2, E6, E10.
  destruct (_ && _); [destruct (cap_reached _ _)|];
    try (inv H; cbn; repeat split; assumption).
  destruct (ingest_file _ _ _ _ _ _ _ _ _) as [w2|] eqn:Ei; [|discriminate].
  destruct (ingest_file_frame _ _ _ _ _ _ _ _ _ _ Ei) as (F1 & F2 & F3 & F4).
  inv H. cbn [sc_world].
  rewrite F1, F2, F3, F4. cbn. repeat split; assumption.
Qed.

Lemma walk_loop_frame e rid src em : forall walk sc sc',
  for_each (process_dir e rid src em) walk sc = Ok sc' ->
  campaign_sources (w_db (sc_world sc')) = campaign_sources (w_db (sc_world sc))
  /\ campaigns (w_db (sc_world sc')) = campaigns (w_db (sc_world sc))
  /\ seq_run (w_db (sc_world sc')) = seq_run (w_db (sc_world sc))
  /\ ingest_runs (w_db (sc_world sc')) = ingest_runs (w_db (sc_world sc)).
Proof.
  intros walk sc sc' H.
  eapply (for_each_inv
           (fun s =>
              campaign_sources (w_db (sc_world s))
              = campaign_sources (w_db (sc_world sc)) /\
              campaigns (w_db (sc_world s)) = campaigns (w_db (sc_world sc)) /\
              seq_run (w_db (sc_world s)) = seq_run (w_db (sc_world sc)) /\
              ingest_runs (w_db (sc_world s))
              = ingest_runs (w_db (sc_world sc)))
           (process_dir e rid src em) walk); [|repeat split|exact H].
  intros de s s' _ (A & B & C & D) Hd. unfold process_dir in Hd.
  eapply (for_each_inv
           (fun s0 =>
              campaign_sources (w_db (sc_world s0))
              = campaign_sources (w_db (sc_world sc)) /\
              campaigns (w_db (sc_world s0)) = campaigns (w_db (sc_world sc)) /\
              seq_run (w_db (sc_world s0)) = seq_run (w_db (sc_world sc)) /\
              ingest_runs (w_db (sc_world s0))
              = ingest_runs (w_db (sc_world sc)))
           (process_file e rid src em (de_rel de)) (de_files de));
    [| |exact Hd].
  - intros fe s0 s1 _ (A0 & B0 & C0 & D0) Hf.
    apply process_file_frame in Hf. destruct Hf as (F1 & F2 & F3 & F4).
    rewrite F1, F2, F3, F4. repeat split; assumption.
  - unfold process_folder. destruct (negb _).
    + unfold Sql.upsert_folder. destruct (find _ _); cbn;
        repeat split; assumption.
    + cbn. repeat split; assumption.
Qed.

Lemma reconcile_loop_frame e rid seen_paths : forall items w,
  let w' :=
    fold_left (fun w item => reconcile_one e rid seen_paths item w) items w in
  campaign_sources (w_db w') = campaign_sources (w_db w) /\
  campaigns (w_db w') = campaigns (w_db w) /\
  seq_run (w_db w') = seq_run (w_db w) /\
  ingest_runs (w_db w') = ingest_runs (w_db w) /\
  hash_events (w_trace w') = hash_events (w_trace w).
Proof.
  intros items w. cbv zeta.
  apply (fold_left_inv
           (fun s =>
              campaign_sources (w_db s) = campaign_sources (w_db w) /\
              campaigns (w_db s) = campaigns (w_db w) /\
              seq_run (w_db s) = seq_run (w_db w) /\
              ingest_runs (w_db s) = ingest_runs (w_db w) /\
              hash_events (w_trace s) = hash_events (w_trace w)));
    [|repeat split].
  intros [k p] s _ (A & B & C & D & E). unfold reconcile_one.
  destruct (seen seen_paths k); [repeat split; assumption|].
  destruct (negb (e_dry_run e)); [|repeat split; assumption].
  unfold Sql.insert_run_file. cbn.
  destruct (existsb _ _); cbn; repeat split; assumption.
Qed.

Lemma map_config_stamp (f : source -> source) l :
  (forall s, config_of (f s) = config_of s) ->
  map config_of (map f l) = map config_of l.
Proof. intros H. rewrite map_map. apply map_ext. exact H. Qed.

(** A scan changes no configuration, nor the campaigns and the runs. *)
Lemma scan_source_frame e rid src w w' :
  scan_source e rid src w = Ok w' ->
  map config_of (campaign_sources (w_db w'))
  = map config_of (campaign_sources (w_db w)) /\
  campaigns (w_db w') = campaigns (w_db w) /\
  seq_run (w_db w') = seq_run (w_db w) /\
  ingest_runs (w_db w') = ingest_runs (w_db w).
Proof.
  intros Hrun. unfold scan_source in Hrun.
  assert (Hstamp :
    map config_of
      (campaign_sources
         (w_db (on_db (Sql.stamp_scan (e_now e) (src_id src))
                  (on_stats incr_sources_scanned w))))
    = map config_of (campaign_sources (w_db w))).
  { cbn. apply map_config_stamp. intros s.
    destruct (src_id s =? src_id src); reflexivity. }
  destruct (fs_exists _ _) as [[|]|msg]; [| |discriminate].
  2:{ inv Hrun. split; [exact Hstamp|repeat split]. }
  unfold scan_files in Hrun.
  destruct (ensure_root_folder _ _ _ _) as [w2 fm] eqn:Er.
  assert (Hroot : campaign_sources (w_db w2)
                  = campaign_sources
                      (w_db (on_db (Sql.stamp_scan (e_now e) (src_id src))
                               (on_stats incr_sources_scanned w))) /\
                  campaigns (w_db w2) = campaigns (w_db w) /\
                  seq_run (w_db w2) = seq_run (w_db w) /\
                  ingest_runs (w_db w2) = ingest_runs (w_db w)).
  { unfold ensure_root_folder in Er. destruct (negb _).
    - unfold Sql.upsert_folder in Er. destruct (find _ _); inv Er; cbn;
        repeat split.
    - inv Er. cbn. repeat split. }
  destruct Hroot as (R1 & R2 & R3 & R4).
  unfold bind in Hrun.
  destruct (for_each _ _ _) as [sc|] eqn:Ewalk; [|discriminate].
  inv Hrun.
  apply walk_loop_frame in Ewalk. cbn [sc_world] in Ewalk.
  destruct Ewalk as (W1 & W2 & W3 & W4).
  match goal with
  | |- context [fold_left ?f ?items ?w0] =>
      destruct (reconcile_loop_frame e rid (sc_seen_paths sc) items w0)
        as (L1 & L2 & L3 & L4 & _)
  end.
  cbv zeta in L1, L2, L3, L4.
  set (w3 := fold_left _ _ (sc_world sc)) in *.
  destruct (negb (e_dry_run e)).
  - unfold on_db, Sql.stamp_ingest.
    cbn [w_db campaign_sources campaigns seq_run ingest_runs
         set_campaign_sources].
    rewrite L1, L2, L3, L4, W1, W2, W3, W4, R1, R2, R3, R4.
    split; [|repeat split].
    rewrite map_config_stamp;
      [exact Hstamp|intros s; destruct (src_id s =? src_id src); reflexivity].
  - rewrite L1, L2, L3, L4, W1, W2, W3, W4, R1, R2, R3, R4.
    split; [exact Hstamp|repeat split].
Qed.

Lemma sources_loop_frame e rid : forall srcs w w',
  for_each (scan_source e rid) srcs w = Ok w' ->
  map config_of (campaign_sources (w_db w'))
  = map config_of (campaign_sources (w_db w)) /\
  campaigns (w_db w') = campaigns (w_db w) /\
  seq_run (w_db w') = seq_run (w_db w) /\
  ingest_runs (w_db w') = ingest_runs (w_db w).
Proof.
  intros srcs w w' H.
  eapply (for_each_inv
           (fun s =>
              map config_of (campaign_sources (w_db s))
              = map config_of (campaign_sources (w_db w)) /\
              campaigns (w_db s) = campaigns (w_db w) /\
              seq_run (w_db s) = seq_run (w_db w) /\
              ingest_runs (w_db s) = ingest_runs (w_db w))
           (scan_source e rid) srcs); [|repeat split|exact H].
  intros src s s' _ (A & B & C & D) Hs.
  apply scan_source_frame in Hs. destruct Hs as (F1 & F2 & F3 & F4).
  rewrite F1, F2, F3, F4. repeat split; assumption.
Qed.

(** A scan of recorded files, source after source. *)
Lemma sources_loop_quiet e rid : forall srcs w w',
  ids_wf (source_files (w_db w)) (seq_file (w_db w)) ->
  NoDup (map src_id srcs) ->
  walks_wf (e_fs e) srcs ->
  (forall src, In src srcs -> synced (e_fs e) (source_files (w_db w)) src) ->
  for_each (scan_source e rid) srcs w = Ok w' ->
  quiet_view w' = quiet_view w.
Proof.
  induction srcs as [|src srcs IH]; intros w w' Hwf Hnd Hwalks Hsync Hrun.
  - simpl in Hrun. now inv Hrun.
  - simpl in Hrun. unfold bind in Hrun.
    destruct (scan_source e rid src w) as [w1|] eqn:E1; [|discriminate].
    simpl in Hnd. apply NoDup_cons_iff in Hnd. destruct Hnd as [Hsrc Hnd].
    destruct (scan_source_files e rid src w w1 Hwf) as (A & B & _).
    { apply Hwalks. now left. }
    { exact E1. }
    rewrite (IH w1 w'); auto.
    + apply (scan_source_quiet e rid src); auto. apply Hsync. now left.
    + intros s Hs. apply Hwalks. now right.
    + intros s Hs Hex k sz mt Hin.
      rewrite (existing_row_same_rows (source_files (w_db w))).
      * apply (Hsync s); auto. now right.
      * apply B. intros E. apply Hsrc. rewrite <- E. now apply in_map.
Qed.

Lemma NoDup_map_filter {A B} (f : A -> B) (P : A -> bool) (l : list A) :
  NoDup (map f l) -> NoDup (map f (filter P l)).
Proof.
  induction l as [|a l IH]; simpl; intros H; [constructor|].
  apply NoDup_cons_iff in H. destruct H as [Ha H].
  destruct (P a); simpl; [|auto]. constructor; [|auto].
  intros Hin. apply Ha. apply in_map_iff in Hin.
  destruct Hin as (x & Ex & Hx). apply filter_In in Hx.
  apply in_map_iff. exists x. tauto.
Qed.

Lemma config_src_id l1 l2 :
  map config_of l1 = map config_of l2 -> map src_id l1 = map src_id l2.
Proof.
  revert l2. induction l1 as [|a l1 IH]; destruct l2 as [|b l2];
    cbn [map]; intros H; try discriminate; [reflexivity|].
  assert (H1 : config_of a = config_of b) by congruence.
  assert (H2 : map config_of l1 = map config_of l2) by congruence.
  rewrite (IH l2 H2). f_equal. unfold config_of in H1. congruence.
Qed.

(** Rows of equal configuration are selected together. *)
Lemma select_sources_config l1 l2 c :
  map config_of l1 = map config_of l2 ->
  map config_of
    (filter (fun s => (src_campaign s =? c) && src_enabled s) l1)
  = map config_of
      (filter (fun s => (src_campaign s =? c) && src_enabled s) l2).
Proof.
  revert l2. induction l1 as [|a l1 IH]; destruct l2 as [|b l2];
    cbn [map filter]; intros H; try discriminate; [reflexivity|].
  assert (H1 : config_of a = config_of b) by congruence.
  assert (H2 : map config_of l1 = map config_of l2) by congruence.
  pose proof H1 as H1'. unfold config_of in H1'.
  assert (E1 : src_campaign a = src_campaign b) by congruence.
  assert (E2 : src_enabled a = src_enabled b) by congruence.
  rewrite E1, E2. destruct (_ && _); cbn [map]; [|auto].
  now rewrite H1, (IH l2 H2).
Qed.

Lemma config_in l1 l2 s2 :
  map config_of l1 = map config_of l2 -> In s2 l2 ->
  exists s1, In s1 l1 /\ config_of s1 = config_of s2.
Proof.
  intros H Hin. apply (in_map config_of) in Hin. rewrite <- H in Hin.
  apply in_map_iff in Hin. destruct Hin as (s1 & E & H1). now exists s1.
Qed.

Lemma walk_obs_config fs s1 s2 :
  config_of s1 = config_of s2 ->
  src_id s1 = src_id s2 /\
  root_path s1 = root_path s2 /\
  walk_obs s1 (source_walk fs s1) = walk_obs s2 (source_walk fs s2).
Proof.
  unfold config_of. intros H.
  assert (E1 : src_id s1 = src_id s2) by congruence.
  assert (E2 : src_root_path s1 = src_root_path s2) by congruence.
  assert (E3 : src_follow_symlinks s1 = src_follow_symlinks s2)
    by congruence.
  assert (E4 : src_include_globs s1 = src_include_globs s2) by congruence.
  assert (E5 : src_exclude_globs s1 = src_exclude_globs s2) by congruence.
  split; [assumption|]. split; [unfold root_path; now rewrite E2|].
  unfold source_walk, root_path. rewrite E2, E3. unfold walk_obs.
  apply flat_map_ext. intros de. unfold dir_obs. apply flat_map_ext.
  intros fe. unfold file_obs, entry_included. now rewrite E4, E5.
Qed.

Lemma synced_config fs l s1 s2 :
  config_of s1 = config_of s2 -> synced fs l s1 -> synced fs l s2.
Proof.
  intros H Hs. destruct (walk_obs_config fs s1 s2 H) as (E1 & E2 & E3).
  unfold synced in *. rewrite <- E1, <- E2, <- E3. exact Hs.
Qed.

Lemma walks_wf_config fs l1 l2 :
  map config_of l1 = map config_of l2 -> walks_wf fs l1 -> walks_wf fs l2.
Proof.
  intros H Hw s2 Hin. destruct (config_in l1 l2 s2 H Hin) as (s1 & H1 & E).
  destruct (walk_obs_config fs s1 s2 E) as (_ & _ & E3).
  rewrite <- E3. now apply Hw.
Qed.

End RunLevel.

(* ------------------------------------------------------------------ *)
(** ** Two scans in a row *)

Section SecondScan.

Context {HL : Hashlib}.

Lemma store_wf_sources d c :
  store_wf d -> NoDup (map src_id (Sql.select_sources d c)).
Proof.
  intros (_ & H & _). unfold Sql.select_sources. now apply NoDup_map_filter.
Qed.

(** What a scan that reaches the end of its loop leaves in [source_files]:
    every source it scanned is synced, and the configurations are those it
    started from. *)
Lemma scan_leaves_synced e d w rid :
  store_wf d -> fs_wf (e_fs e) ->
  scan_campaign e d = Ok (w, rid) ->
  ids_wf (source_files (w_db w)) (seq_file (w_db w)) /\
  map config_of (campaign_sources (w_db w))
  = map config_of (campaign_sources d) /\
  campaigns (w_db w) = campaigns d /\
  (forall src, In src (Sql.select_sources d (e_campaign_id e)) ->
     synced (e_fs e) (source_files (w_db w)) src).
Proof.
  intros Hwf Hfs Hrun. apply scan_campaign_ok in Hrun.
  destruct Hrun as (_ & _ & Hloop).
  pose proof (sources_loop_frame _ _ _ _ _ Hloop) as (F1 & F2 & _).
  apply sources_loop_files in Hloop.
  - destruct Hloop as (A & _ & C & _).
    split; [exact A|]. split; [exact F1|].
    split; [exact F2|exact C].
  - cbn. apply Hwf.
  - now apply store_wf_sources.
  - now apply fs_wf_walks.
Qed.

(** A scan over a store in which every selected source is synced is idle. *)
Lemma scan_on_synced_is_idle e d w rid :
  ids_wf (source_files d) (seq_file d) ->
  NoDup (map src_id (Sql.select_sources d (e_campaign_id e))) ->
  fs_wf (e_fs e) ->
  (forall src, In src (Sql.select_sources d (e_campaign_id e)) ->
     synced (e_fs e) (source_files d) src) ->
  scan_campaign e d = Ok (w, rid) ->
  files_new (w_stats w) = 0 /\
  files_changed (w_stats w) = 0 /\
  files_unchanged (w_stats w) = files_seen (w_stats w) /\
  ingest_tally (w_stats w) = (0, 0, 0) /\
  kb_documents (w_db w) = kb_documents d /\
  kb_chunks (w_db w) = kb_chunks d /\
  filter is_ingest_event (w_trace w) = [].
Proof.
  intros Hids Hnd Hfs Hsync Hrun.
  pose proof (scan_campaign_balanced _ _ _ _ Hrun) as [Bal _].
  apply scan_campaign_ok in Hrun.
  destruct Hrun as (_ & _ & Hloop).
  apply sources_loop_quiet in Hloop; auto.
  - unfold quiet_view, ingest_tally in Hloop. cbn in Hloop.
    injection Hloop as Q1 Q2 Q3 Q4 Q5 Q6 Q7 Q8 Q9.
    unfold ingest_tally.
    split; [exact Q1|]. split; [exact Q2|]. split; [lia|].
    repeat split; congruence.
  - now apply fs_wf_walks.
Qed.

(** The scan of the store another scan handed over, over the same
    filesystem, is idle. *)
Lemma second_scan_is_idle fs now1 now2 d c dry1 force1 cap1 dry2 force2 cap2
    w1 rid1 w2 rid2 :
  store_wf d -> fs_wf fs ->
  scan_campaign (mkEnv fs now1 c dry1 force1 cap1) d = Ok (w1, rid1) ->
  scan_campaign (mkEnv fs now2 c dry2 force2 cap2) (w_db w1)
  = Ok (w2, rid2) ->
  files_new (w_stats w2) = 0 /\
  files_changed (w_stats w2) = 0 /\
  files_unchanged (w_stats w2) = files_seen (w_stats w2) /\
  ingest_tally (w_stats w2) = (0, 0, 0) /\
  kb_documents (w_db w2) = kb_documents (w_db w1) /\
  kb_chunks (w_db w2) = kb_chunks (w_db w1) /\
  filter is_ingest_event (w_trace w2) = [].
Proof.
  intros Hwf Hfs EA EB.
  destruct (scan_leaves_synced (mkEnv fs now1 c dry1 force1 cap1) d w1 rid1
              Hwf Hfs EA) as (Hids & Hcfg & _ & Hsync).
  cbn [e_fs e_campaign_id] in Hsync.
  assert (Hsel : map config_of (Sql.select_sources (w_db w1) c)
                 = map config_of (Sql.select_sources d c))
    by (apply select_sources_config, Hcfg).
  apply (scan_on_synced_is_idle (mkEnv fs now2 c dry2 force2 cap2)
           (w_db w1) w2 rid2 Hids); [| | |exact EB].
  - cbn [e_campaign_id]. rewrite (config_src_id _ _ Hsel).
    now apply store_wf_sources.
  - exact Hfs.
  - cbn [e_fs e_campaign_id]. intros src2 Hin.
    destruct (config_in (Sql.select_sources d c)
                (Sql.select_sources (w_db w1) c) src2 (eq_sym Hsel) Hin)
      as (src1 & Hin1 & E).
    apply (synced_config fs _ src1 src2 E). now apply Hsync.
Qed.

End SecondScan.

(* ------------------------------------------------------------------ *)
(** ** Dry runs *)

Section DryRun.

Context {HL : Hashlib}.

Lemma process_file_dry e rid src em dir fe sc sc' :
  e_dry_run e = true ->
  process_file e rid src em dir fe sc = Ok sc' ->
  dry_view (w_db (sc_world sc')) = dry_view (w_db (sc_world sc)).
Proof.
  intros Hdry Hrun.
  destruct (entry_included src dir fe) eqn:Hi.
  - destruct (fe_stat fe) as [sz mt|msg] eqn:Hs.
    + destruct (detect_change (src_change_detection src) (e_force_rehash e)
                  (Dict.get em (entry_rel dir fe)) sz mt (fe_open fe))
        as [v|x] eqn:Hd.
      2:{ rewrite (process_file_raise e rid src em dir fe sc sz mt x Hi Hs Hd)
            in Hrun. discriminate. }
      assert (Ha : attempts e v (sc_files_to_ingest sc) = false).
      { unfold attempts. rewrite Hdry. cbn. now rewrite andb_false_r. }
      destruct (process_file_quiet e rid src em dir fe sc sz mt v Hi Hs Hd Ha)
        as (sc2 & Hrun2 & _ & _ & Hdoc & Hch & Hsq & Hrf & _).
      rewrite Hrun in Hrun2. inv Hrun2.
      unfold dry_view. now rewrite Hdoc, Hch, Hsq, Hrf.
    + destruct (process_file_skipped e rid src em dir fe sc)
        as (sc2 & Hrun2 & Hdb & _); [right; now exists msg|].
      rewrite Hrun in Hrun2. inv Hrun2. now rewrite Hdb.
  - destruct (process_file_skipped e rid src em dir fe sc)
      as (sc2 & Hrun2 & Hdb & _); [now left|].
    rewrite Hrun in Hrun2. inv Hrun2. now rewrite Hdb.
Qed.

Lemma scan_source_dry e rid src w w' :
  e_dry_run e = true ->
  scan_source e rid src w = Ok w' ->
  dry_view (w_db w') = dry_view (w_db w).
Proof.
  intros Hdry Hrun. unfold scan_source in Hrun.
  destruct (fs_exists _ _) as [[|]|]; [|now inv Hrun|discriminate].
  unfold scan_files in Hrun.
  set (em := Dict.of_rows f_rel_path (fun r => r) _) in Hrun.
  destruct (ensure_root_folder _ _ _ _) as [w2 fm] eqn:Er.
  apply ensure_root_folder_files in Er. cbn in Er.
  destruct Er as (_ & _ & _ & _ & E5 & E6 & E7 & E8).
  unfold bind in Hrun.
  destruct (for_each _ _ _) as [sc|] eqn:Ewalk; [|discriminate].
  inv Hrun. rewrite Hdry. cbn [negb].
  assert (Hwalk : dry_view (w_db (sc_world sc)) = dry_view (w_db w)).
  { eapply (for_each_inv
              (fun s => dry_view (w_db (sc_world s)) = dry_view (w_db w)));
      [| |exact Ewalk].
    - intros de s s' _ Hs Hd. unfold process_dir in Hd.
      eapply (for_each_inv
                (fun s0 => dry_view (w_db (sc_world s0)) = dry_view (w_db w)));
        [| |exact Hd].
      + intros fe s0 s1 _ Hs0 Hf.
        now rewrite (process_file_dry _ _ _ _ _ _ _ _ Hdry Hf).
      + cbv beta.
        destruct (process_folder_view e src (de_rel de) s)
          as (_ & _ & C & D & E & F & _).
        unfold dry_view in *. now rewrite C, D, E, F.
    - cbn. unfold dry_view. now rewrite E5, E6, E7, E8. }
  rewrite <- Hwalk.
  apply (fold_left_inv
           (fun s => dry_view (w_db s) = dry_view (w_db (sc_world sc))));
    [|reflexivity].
  intros [k p] s _ Hs. unfold reconcile_one.
  destruct (seen _ k); [exact Hs|]. rewrite Hdry. exact Hs.
Qed.

(** A dry scan leaves Documents, Fragments and audit rows as they were. *)
Lemma dry_scan_view e d w rid :
  e_dry_run e = true ->
  scan_campaign e d = Ok (w, rid) ->
  dry_view (w_db w) = dry_view d.
Proof.
  intros Hdry Hrun. apply scan_campaign_ok in Hrun.
  destruct Hrun as (_ & _ & Hloop).
  eapply (for_each_inv (fun s => dry_view (w_db s) = dry_view d));
    [| |exact Hloop].
  - intros src s s' _ Hs Hsc.
    now rewrite (scan_source_dry _ _ _ _ _ Hdry Hsc).
  - reflexivity.
Qed.

End DryRun.

(* ------------------------------------------------------------------ *)
(** ** The audit rows of a run *)

Section Audit.

Context {HL : Hashlib}.











Lemma reconcile_loop_seq e rid seen_paths : forall items w,
  seq_file
    (w_db (fold_left (fun w item => reconcile_one e rid seen_paths item w)
             items w))
  = seq_file (w_db w).
Proof.
  induction items as [|[k p] items IH]; intros w; cbn [fold_left];
    [reflexivity|].
  rewrite IH. apply reconcile_one_files.
Qed.





End Audit.

(* ------------------------------------------------------------------ *)
(** ** Files that are gone from the disk *)

Section SoftDelete.

Context {HL : Hashlib}.




End SoftDelete.

(* ------------------------------------------------------------------ *)
(** ** Scans that reach the statement that finalises the run *)

Section Totality.

Context {HL : Hashlib}.

Lemma for_each_total {A S} (body : A -> S -> outcome S) (l : list A) :
  (forall a s, In a l -> exists s', body a s = Ok s') ->
  forall s, exists s', for_each body l s = Ok s'.
Proof.
  induction l as [|a l IH]; intros H s; simpl.
  - now exists s.
  - destruct (H a s (or_introl eq_refl)) as (s1 & E). unfold bind.
    rewrite E. apply IH. intros; apply H; now right.
Qed.

Lemma detect_change_total mode force prev sz mt content :
  exists v, detect_change mode force prev sz mt (OpenOk content) = Ok v.
Proof.
  unfold detect_change. destruct (_ && _); cbn; eexists; reflexivity.
Qed.

Lemma blank_not_refused conn c f body :
  strip_text body = "" -> refused conn c f body = false.
Proof.
  intros H. unfold refused. apply chunk_body_nil in H. rewrite H.
  apply andb_false_r.
Qed.

(** The handling of a file that can be opened returns in a dry run, and in
    a live run when the text of the file is blank. *)
Lemma process_file_total e rid src em dir fe sc :
  (exists content,
     fe_open fe = OpenOk content /\
     (e_dry_run e = true \/ strip_text (utf8_decode_replace content) = "")) ->
  exists sc', process_file e rid src em dir fe sc = Ok sc'.
Proof.
  intros (content & Ho & Hcase).
  destruct (entry_included src dir fe) eqn:Hi.
  - destruct (fe_stat fe) as [sz mt|msg] eqn:Hs.
    + destruct (detect_change_total (src_change_detection src)
                  (e_force_rehash e) (Dict.get em (entry_rel dir fe)) sz mt
                  content) as (v & Hd).
      rewrite <- Ho in Hd.
      destruct (attempts e v (sc_files_to_ingest sc)) eqn:Ea.
      * apply (process_file_accepted e rid src em dir fe sc sz mt v Hi Hs Hd
                 Ea).
        intros c0 Hc0. rewrite Ho in Hc0. inv Hc0.
        destruct Hcase as [Hdry|Hblank]; [|now apply blank_not_refused].
        unfold attempts in Ea. rewrite Hdry in Ea. cbn in Ea.
        rewrite andb_false_r in Ea. discriminate.
      * destruct (process_file_quiet e rid src em dir fe sc sz mt v Hi Hs Hd
                    Ea) as (sc' & Hp & _).
        now exists sc'.
    + destruct (process_file_skipped e rid src em dir fe sc)
        as (sc' & Hp & _); [right; now exists msg|now exists sc'].
  - destruct (process_file_skipped e rid src em dir fe sc)
      as (sc' & Hp & _); [now left|now exists sc'].
Qed.

Lemma scan_source_total e rid src w :
  (exists found, fs_exists (e_fs e) (root_path src) = ExistsOk found) ->
  walk_readable (source_walk (e_fs e) src) ->
  e_dry_run e = true \/ walk_blank (source_walk (e_fs e) src) ->
  exists w', scan_source e rid src w = Ok w'.
Proof.
  intros (found & Hex) Hread Hcase. unfold scan_source. rewrite Hex.
  destruct found; [|eexists; reflexivity].
  unfold scan_files.
  destruct (ensure_root_folder _ _ _ _) as [w2 fm].
  match goal with
  | |- context [for_each ?b ?l ?s0] =>
      assert (Hloop : exists sc, for_each b l s0 = Ok sc);
        [apply for_each_total|destruct Hloop as (sc & E)]
  end.
  - intros de s Hde. unfold process_dir. apply for_each_total.
    intros fe s0 Hfe.
    apply process_file_total.
    destruct Hcase as [Hdry|Hblank].
    + destruct (Hread de fe Hde Hfe) as (content & Ho).
      exists content. split; [exact Ho|now left].
    + destruct (Hblank de fe Hde Hfe) as (content & Ho & Hb).
      exists content. split; [exact Ho|now right].
  - rewrite E. cbn. eexists. reflexivity.
Qed.

(** A known campaign whose roots can be tested and whose files can all be
    opened: a dry scan reaches the statement that finalises the run, and so
    does a live scan over blank files. *)
Lemma scan_campaign_returns e d :
  Sql.campaign_exists d (e_campaign_id e) = true ->
  (forall src, In src (Sql.select_sources d (e_campaign_id e)) ->
     exists found, fs_exists (e_fs e) (root_path src) = ExistsOk found) ->
  (forall src, In src (Sql.select_sources d (e_campaign_id e)) ->
     walk_readable (source_walk (e_fs e) src)) ->
  (e_dry_run e = true \/
   forall src, In src (Sql.select_sources d (e_campaign_id e)) ->
     walk_blank (source_walk (e_fs e) src)) ->
  exists w, scan_campaign e d = Ok (w, seq_run d).
Proof.
  intros Hc Hex Hread Hcase. rewrite (scan_campaign_loop e d Hc).
  match goal with
  | |- context [for_each ?b ?l ?s0] =>
      assert (Hloop : exists w1, for_each b l s0 = Ok w1);
        [apply for_each_total|destruct Hloop as (w1 & E)]
  end.
  - intros src s Hsrc. apply scan_source_total.
    + now apply Hex.
    + now apply Hread.
    + destruct Hcase as [Hdry|Hblank]; [now left|right; now apply Hblank].
  - rewrite E. cbn. now exists w1.
Qed.

(** When the scan reaches it, the statement that finalises the run is
    refused: its exception leaves [update_campaign_kb], which rolls back. *)
Lemma scanned_run_raises fs now d c dry force cap w rid :
  scan_campaign (mkEnv fs now c dry force cap) d = Ok (w, rid) ->
  update_campaign_kb fs now d c dry force cap
  = mkFinished d (Raise (SQLAlchemyError "UPDATE ingest_runs")) [].
Proof.
  intros H. unfold update_campaign_kb, run_transaction. now rewrite H.
Qed.

(** When the scan raises, its exception leaves [update_campaign_kb]. *)
Lemma failed_scan_raises fs now d c dry force cap ex :
  scan_campaign (mkEnv fs now c dry force cap) d = Raise ex ->
  update_campaign_kb fs now d c dry force cap = mkFinished d (Raise ex) [].
Proof.
  intros H. unfold update_campaign_kb, run_transaction. now rewrite H.
Qed.

(** An unknown campaign: [ValueError], and the store as it was; the route
    answers 400 with the message of the exception. *)
Lemma unknown_campaign_aborts fs now d c dry force cap :
  Sql.campaign_exists d c = false ->
  update_campaign_kb fs now d c dry force cap
  = mkFinished d (Raise (ValueError "Campaign not found.")) [] /\
  kb_update fs now d c dry force cap
  = (d, HttpException 400 "Campaign not found.").
Proof.
  intros Hc. unfold kb_update, update_campaign_kb, run_transaction,
    scan_campaign.
  cbn [e_campaign_id]. rewrite Hc. split; reflexivity.
Qed.

End Totality.

(* ------------------------------------------------------------------ *)
(** ** The glob matcher *)

Section GlobFacts.

Lemma matches_any_exists rel pats :
  _matches_any rel pats = true <->
  exists pat, In pat pats /\ path_match rel pat = Some true.
Proof.
  induction pats as [|pat pats IH]; simpl.
  - split; [discriminate|intros (p & [] & _)].
  - destruct (path_match rel pat) as [[|]|] eqn:E.
    + split; [|reflexivity]. intros _. exists pat. split; [now left|exact E].
    + rewrite IH. split.
      * intros (p & Hp & Hm). exists p. split; [now right|exact Hm].
      * intros (p & [<-|Hp] & Hm); [congruence|now exists p].
    + rewrite IH. split.
      * intros (p & Hp & Hm). exists p. split; [now right|exact Hm].
      * intros (p & [<-|Hp] & Hm); [congruence|now exists p].
Qed.

(** The three rules of inclusion, over [path_match]: an exclude pattern that
    matches forces [false], no include pattern means [true], and otherwise
    some include pattern has to match; a pattern on which [match] raises
    matches nothing. *)
Lemma should_include_rules rel inc exc :
  (_matches_any rel exc = true -> _should_include rel inc exc = false) /\
  (_matches_any rel exc = false -> inc = [] ->
   _should_include rel inc exc = true) /\
  (_matches_any rel exc = false -> inc <> [] ->
   _should_include rel inc exc = _matches_any rel inc) /\
  (forall pat, path_match rel pat = None -> _matches_any rel [pat] = false).
Proof.
  unfold _should_include. repeat split.
  - intros H. rewrite H. destruct exc; [discriminate|reflexivity].
  - intros H ->. rewrite H, andb_false_r. reflexivity.
  - intros H Hinc. rewrite H, andb_false_r.
    destruct inc; [congruence|reflexivity].
  - intros pat H. simpl. now rewrite H.
Qed.

End GlobFacts.

(* ------------------------------------------------------------------ *)
(** ** The chunker: windows, short texts, windows that do not advance *)

Section ChunkerWindows.

Lemma firstn_skipn_beyond {A} (l : list A) (i m : nat) :
  length l <= i + m -> firstn m (skipn i l) = skipn i l.
Proof.
  intros H. apply firstn_all2. rewrite length_skipn. lia.
Qed.

(** The slice the loop takes is the window of [max_chars] characters at
    [i]. *)
Lemma slice_window (s : list ascii) (i max_chars : Z) :
  (0 <= i)%Z -> (i < Py.len s)%Z -> (0 < max_chars)%Z ->
  Py.slice s i (Z.min (Py.len s) (i + max_chars))
  = firstn (Z.to_nat max_chars) (skipn (Z.to_nat i) s).
Proof.
  intros Hi Hlen Hm. rewrite slice_inner by lia.
  destruct (Z.le_ge_cases (Py.len s) (i + max_chars)) as [H|H].
  - rewrite Z.min_l by lia. unfold Py.len in *.
    rewrite !firstn_skipn_beyond by lia. reflexivity.
  - rewrite Z.min_r by lia. f_equal. lia.
Qed.

Lemma seq_snoc (k : nat) : seq 0 (S k) = seq 0 k ++ [k].
Proof. now rewrite seq_S. Qed.

Lemma chunk_loop_windows (s : list ascii) (max_chars overlap : Z) :
  (0 <= overlap)%Z -> (overlap < max_chars)%Z ->
  let step := Z.to_nat (max_chars - overlap) in
  let m := Z.to_nat max_chars in
  let W := fun k => firstn m (skipn (k * step) s) in
  forall fuel k,
    (Z.of_nat (k * step) < Py.len s)%Z ->
    (Py.len s - Z.of_nat (k * step) < Z.of_nat fuel)%Z ->
    (forall k', k' < k -> k' * step + m < length s) ->
    exists L,
      chunk_loop fuel s max_chars overlap (Z.of_nat (k * step))
        (map W (seq 0 k))
      = Some (map W (seq 0 L)) /\
      k < L /\
      length s <= (L - 1) * step + m /\
      (forall k', S k' < L -> k' * step + m < length s).
Proof.
  intros Hov Hmax step m W. induction fuel as [|fuel IH]; intros k Hi Hfuel Hk.
  - lia.
  - cbn [chunk_loop].
    destruct (Z.ltb_spec (Z.of_nat (k * step)) (Py.len s)) as [_|]; [|lia].
    rewrite slice_window by lia. rewrite Nat2Z.id.
    change (firstn (Z.to_nat max_chars) (skipn (k * step) s)) with (W k).
    replace (map W (seq 0 k) ++ [W k]) with (map W (seq 0 (S k)))
      by (rewrite seq_snoc, map_app; reflexivity).
    destruct (Z.geb_spec (Z.min (Py.len s) (Z.of_nat (k * step) + max_chars))
                (Py.len s)) as [Hge|Hlt].
    + exists (S k). split; [reflexivity|]. split; [lia|].
      split.
      * unfold Py.len in *. simpl. rewrite Nat.sub_0_r. subst m. lia.
      * intros k' Hk'. apply Hk. lia.
    + assert (Hnext : Z.max 0 (Z.min (Py.len s)
                                  (Z.of_nat (k * step) + max_chars) - overlap)
                      = Z.of_nat (S k * step)).
      { subst step. simpl. lia. }
      rewrite Hnext.
      destruct (IH (S k)) as (L & H1 & H2 & H3 & H4).
      * rewrite <- Hnext. unfold Py.len in *. lia.
      * rewrite <- Hnext. lia.
      * intros k' Hk'. destruct (Nat.eq_dec k' k) as [->|Hne].
        -- unfold Py.len in *. subst m. lia.
        -- apply Hk. lia.
      * exists L. split; [exact H1|]. split; [lia|]. split; assumption.
Qed.

Lemma window_count_spec (n m step L : nat) :
  0 < step -> 1 <= L ->
  n <= (L - 1) * step + m ->
  (forall k', S k' < L -> k' * step + m < n) ->
  L = window_count n m step.
Proof.
  intros Hstep HL Hcover Hfull. unfold window_count.
  destruct (Nat.leb_spec n m) as [Hnm|Hnm].
  - destruct L as [|[|L]]; [lia|reflexivity|].
    specialize (Hfull 0). simpl in Hfull. lia.
  - destruct L as [|[|L]]; [lia|simpl in Hcover; lia|].
    specialize (Hfull L (Nat.lt_succ_diag_r _)).
    replace (S (S L) - 1) with (S L) in Hcover by lia.
    cbn [Nat.add]. f_equal.
    apply (Nat.div_unique _ _ _ (n - m + step - 1 - S L * step)); nia.
Qed.

Lemma substring_of_list (l : list ascii) (n m : nat) :
  substring n m (string_of_list_ascii l)
  = string_of_list_ascii (firstn m (skipn n l)).
Proof.
  revert n m. induction l as [|c l IH]; intros n m.
  - destruct n, m; reflexivity.
  - destruct n as [|n].
    + destruct m as [|m]; [reflexivity|]. simpl. f_equal. apply (IH 0 m).
    + simpl. apply IH.
Qed.

(** The fragments are the windows of the trimmed text. *)
Lemma chunk_text_is_windows (fuel : nat) (text_str : string)
    (max_chars overlap : Z) :
  (0 <= overlap)%Z -> (overlap < max_chars)%Z ->
  String.length (strip_text text_str) < fuel ->
  strip_text text_str <> "" ->
  _chunk_text fuel text_str max_chars overlap
  = Some (windows (strip_text text_str) (Z.to_nat max_chars)
            (Z.to_nat (max_chars - overlap))).
Proof.
  intros Hov Hmax Hfuel Hne. unfold _chunk_text, chunk_chars, strip_text in *.
  rewrite length_string_of_list_ascii in Hfuel.
  destruct (Py.strip (list_ascii_of_string text_str)) as [|c s'] eqn:E;
    [now elim Hne|].
  set (s := c :: s') in *.
  destruct (@chunk_loop_windows s max_chars overlap Hov Hmax fuel 0)
    as (L & H1 & H2 & H3 & H4).
  - unfold Py.len. simpl. lia.
  - unfold Py.len. simpl Z.of_nat at 2. lia.
  - intros k' Hk'. lia.
  - simpl Z.of_nat in H1. simpl map in H1 at 1. rewrite H1. simpl option_map.
    f_equal. unfold windows. rewrite length_string_of_list_ascii.
    rewrite <- (@window_count_spec (length s) (Z.to_nat max_chars)
                  (Z.to_nat (max_chars - overlap)) L) by (try assumption; lia).
    rewrite map_map. apply map_ext. intros k. unfold window.
    now rewrite substring_of_list.
Qed.

(** A trimmed text that fits in one window is its only fragment, whatever
    the overlap. *)
Lemma chunk_text_one_window (fuel : nat) (text_str : string)
    (max_chars overlap : Z) :
  strip_text text_str <> "" ->
  (Z.of_nat (String.length (strip_text text_str)) <= max_chars)%Z ->
  _chunk_text (S fuel) text_str max_chars overlap
  = Some [strip_text text_str].
Proof.
  intros Hne Hfit. unfold _chunk_text, chunk_chars, strip_text in *.
  rewrite length_string_of_list_ascii in Hfit.
  destruct (Py.strip (list_ascii_of_string text_str)) as [|c s'] eqn:E;
    [now elim Hne|].
  set (s := c :: s') in *. cbn [chunk_loop].
  assert (Hlen : (0 < Py.len s)%Z) by (unfold Py.len; simpl; lia).
  destruct (Z.ltb_spec 0 (Py.len s)) as [_|]; [|lia].
  unfold Py.len in *.
  rewrite Z.min_l by lia.
  destruct (Z.geb_spec (Z.of_nat (length s)) (Z.of_nat (length s)));
    [|lia].
  change (Z.of_nat (length s)) with (Py.len s).
  rewrite slice_inner by (unfold Py.len; lia).
  unfold Py.len. rewrite Z.sub_0_r, Nat2Z.id. simpl skipn.
  rewrite firstn_all. reflexivity.
Qed.

(** When the window is not longer than the overlap the loop starts every
    round at the same place. *)
Lemma chunk_loop_stuck (s : list ascii) (max_chars overlap : Z) :
  (0 <= overlap)%Z -> (max_chars <= overlap)%Z ->
  (max_chars < Py.len s)%Z -> (0 < Py.len s)%Z ->
  forall fuel out, chunk_loop fuel s max_chars overlap 0 out = None.
Proof.
  intros Hov Hmax Hlen Hpos. induction fuel as [|fuel IH]; intros out.
  - reflexivity.
  - cbn [chunk_loop].
    destruct (Z.ltb_spec 0 (Py.len s)) as [_|]; [|lia].
    destruct (Z.geb_spec (Z.min (Py.len s) (0 + max_chars)) (Py.len s));
      [lia|].
    replace (Z.max 0 (Z.min (Py.len s) (0 + max_chars) - overlap)) with 0%Z
      by lia.
    apply IH.
Qed.

Lemma chunk_text_stuck (fuel : nat) (text_str : string)
    (max_chars overlap : Z) :
  (0 <= overlap)%Z -> (max_chars <= overlap)%Z ->
  (max_chars < Z.of_nat (String.length (strip_text text_str)))%Z ->
  strip_text text_str <> "" ->
  _chunk_text fuel text_str max_chars overlap = None.
Proof.
  intros Hov Hmax Hlen Hne. unfold _chunk_text, chunk_chars, strip_text in *.
  rewrite length_string_of_list_ascii in Hlen.
  destruct (Py.strip (list_ascii_of_string text_str)) as [|c s'] eqn:E;
    [now elim Hne|].
  rewrite chunk_loop_stuck; try assumption; [reflexivity|].
  unfold Py.len. simpl. lia.
Qed.

End ChunkerWindows.

(* ------------------------------------------------------------------ *)
(** ** The materializer: [_upsert_document_and_chunks] *)

Section Materializer.

Context {HL : Hashlib}.

Lemma find_map_keeps {A} (P : A -> bool) (h : A -> A) (l : list A) :
  (forall a, P (h a) = P a) ->
  find P (map h l) = option_map h (find P l).
Proof.
  intros HP. induction l as [|a l IH]; [reflexivity|]. simpl.
  rewrite HP. destruct (P a); [reflexivity|exact IH].
Qed.

Lemma filter_all {A} (P : A -> bool) (l : list A) :
  Forall (fun a => P a = true) l -> filter P l = l.
Proof.
  induction 1 as [|a l Ha _ IH]; simpl; [reflexivity|].
  now rewrite Ha, IH.
Qed.

Lemma filter_none {A} (P : A -> bool) (l : list A) :
  Forall (fun a => P a = false) l -> filter P l = [].
Proof.
  induction 1 as [|a l Ha _ IH]; simpl; [reflexivity|].
  now rewrite Ha, IH.
Qed.

Lemma filter_filter_neg {A} (P : A -> bool) (l : list A) :
  filter P (filter (fun a => negb (P a)) l) = [].
Proof.
  apply filter_none. apply Forall_forall. intros a Ha.
  apply filter_In in Ha. destruct Ha as [_ Ha]. now destruct (P a).
Qed.

Lemma filter_idem {A} (P : A -> bool) (l : list A) :
  filter P (filter P l) = filter P l.
Proof.
  apply filter_all. apply Forall_forall. intros a Ha.
  now apply filter_In in Ha.
Qed.

(** The four ways through the materializer. *)
Lemma upsert_document_cases now conn c f title ty body :
  (exists doc,
     Sql.select_document conn c f = Some doc /\
     d_content_hash doc = _sha256_text body /\
     _upsert_document_and_chunks now conn c f title ty body
     = Ok (conn, (d_id doc, "skipped"))) \/
  (exists doc,
     Sql.select_document conn c f = Some doc /\
     d_content_hash doc <> _sha256_text body /\
     chunk_body body = [] /\
     _upsert_document_and_chunks now conn c f title ty body
     = Ok (Sql.delete_chunks (d_id doc)
             (Sql.update_document now (d_id doc) title ty body
                (_sha256_text body) conn),
           (d_id doc, "ingested"))) \/
  (Sql.select_document conn c f = None /\
   chunk_body body = [] /\
   _upsert_document_and_chunks now conn c f title ty body
   = Ok (fst (Sql.insert_document c f ty title body (_sha256_text body)
                conn),
         (seq_document conn, "ingested"))) \/
  (refused conn c f body = true /\
   _upsert_document_and_chunks now conn c f title ty body
   = Raise (SQLAlchemyError "INSERT INTO kb_chunks")).
Proof.
  destruct (refused conn c f body) eqn:Er.
  { right. right. right. split; [reflexivity|].
    now apply upsert_document_refused. }
  unfold refused, would_skip in Er.
  unfold _upsert_document_and_chunks.
  destruct (Sql.select_document conn c f) as [doc|] eqn:E.
  - destruct (String.eqb_spec (d_content_hash doc) (_sha256_text body))
      as [Hh|Hh].
    + left. exists doc. now repeat split.
    + right. left. exists doc. split; [reflexivity|]. split; [exact Hh|].
      cbn in Er. destruct (chunk_body body); [|discriminate].
      split; reflexivity.
  - right. right. left. split; [reflexivity|].
    cbn in Er. destruct (chunk_body body); [|discriminate].
    split; reflexivity.
Qed.

Lemma select_document_found conn c f doc :
  Sql.select_document conn c f = Some doc ->
  d_campaign doc = c /\ d_source_file doc = f /\ In doc (kb_documents conn).
Proof.
  unfold Sql.select_document. intros H. apply find_some in H.
  destruct H as [Hin H]. apply andb_prop in H. destruct H as [H1 H2].
  apply Nat.eqb_eq in H1, H2. now repeat split.
Qed.

(** A second call with the same body is skipped, on the store the first one
    left. *)
Lemma upsert_document_twice now now' conn c f title ty body conn' id act :
  _upsert_document_and_chunks now conn c f title ty body
  = Ok (conn', (id, act)) ->
  _upsert_document_and_chunks now' conn' c f title ty body
  = Ok (conn', (id, "skipped")).
Proof.
  intros H.
  destruct (upsert_document_cases now conn c f title ty body)
    as [(doc & E & Hh & R)|[(doc & E & Hh & _ & R)|[(E & _ & R)|(_ & R)]]];
    rewrite R in H; inversion H; subst; clear H.
  - now apply upsert_document_skipped.
  - apply (upsert_document_skipped now' _ c f title ty body
             (mkDocument (d_id doc) (d_campaign doc) (d_source_file doc) ty
                title body (_sha256_text body) (Some now))); [|reflexivity].
    unfold Sql.select_document in *. cbn [kb_documents set_kb_chunks
      Sql.delete_chunks Sql.update_document set_kb_documents].
    rewrite find_map_keeps.
    + rewrite E. simpl. now rewrite Nat.eqb_refl.
    + intros a. destruct (d_id a =? d_id doc); reflexivity.
  - apply (upsert_document_skipped now' _ c f title ty body
             (mkDocument (seq_document conn) c f ty title body
                (_sha256_text body) None)); [|reflexivity].
    unfold Sql.select_document in *. cbn [kb_documents set_kb_chunks
      Sql.insert_document set_kb_documents fst].
    rewrite find_app, E. simpl. now rewrite !Nat.eqb_refl.
Qed.

(** What an ingestion that returns leaves: the Document of the file with
    the body given, which is blank, and no Fragment of that Document. *)
Lemma upsert_document_ingested now conn c f title ty body conn' id :
  Forall (fun ch => ch_document ch < seq_document conn) (kb_chunks conn) ->
  _upsert_document_and_chunks now conn c f title ty body
  = Ok (conn', (id, "ingested")) ->
  (exists doc,
     Sql.select_document conn' c f = Some doc /\
     d_id doc = id /\ d_title doc = title /\ d_doc_type doc = ty /\
     d_body_md doc = body /\ d_content_hash doc = _sha256_text body) /\
  chunks_of id conn' = [] /\
  strip_text body = "".
Proof.
  intros Hfk H.
  destruct (upsert_document_cases now conn c f title ty body)
    as [(doc & E & Hh & R)|[(doc & E & Hh & Hb & R)|[(E & Hb & R)|(_ & R)]]];
    rewrite R in H; inversion H; subst; clear H.
  - split; [|split; [|now apply chunk_body_nil]].
    + exists (mkDocument (d_id doc) (d_campaign doc) (d_source_file doc) ty
                title body (_sha256_text body) (Some now)).
      split; [|now repeat split].
      unfold Sql.select_document in *. cbn [kb_documents set_kb_chunks
        Sql.delete_chunks Sql.update_document set_kb_documents].
      rewrite find_map_keeps.
      * rewrite E. simpl. now rewrite Nat.eqb_refl.
      * intros a. destruct (d_id a =? d_id doc); reflexivity.
    + unfold chunks_of. cbn [kb_chunks set_kb_chunks Sql.delete_chunks
        Sql.update_document set_kb_documents].
      apply filter_filter_neg.
  - split; [|split; [|now apply chunk_body_nil]].
    + exists (mkDocument (seq_document conn) c f ty title body
                (_sha256_text body) None).
      split; [|now repeat split].
      unfold Sql.select_document in *. cbn [kb_documents set_kb_chunks
        Sql.insert_document set_kb_documents fst].
      rewrite find_app, E. simpl. now rewrite !Nat.eqb_refl.
    + unfold chunks_of. cbn [kb_chunks Sql.insert_document set_kb_documents
        fst].
      apply filter_none.
      eapply Forall_impl; [|exact Hfk]. intros r Hr. cbv beta in Hr.
      apply Nat.eqb_neq. lia.
Qed.

(** The materializer stores no Fragment: the Fragments it leaves were there
    before. *)
Lemma upsert_document_no_fragment now conn c f title ty body conn' res :
  _upsert_document_and_chunks now conn c f title ty body = Ok (conn', res) ->
  forall ch, In ch (kb_chunks conn') -> In ch (kb_chunks conn).
Proof.
  intros H ch.
  destruct (upsert_document_cases now conn c f title ty body)
    as [(doc & E & Hh & R)|[(doc & E & Hh & Hb & R)|[(E & Hb & R)|(_ & R)]]];
    rewrite R in H; inversion H; subst; clear H; auto.
  cbn [kb_chunks set_kb_chunks Sql.delete_chunks Sql.update_document
       set_kb_documents].
  intros Hin. now apply filter_In in Hin.
Qed.

Lemma chunk_body_reconstructs body :
  reconstruct_text 300 (chunk_body body) = strip_text body.
Proof.
  unfold chunk_body.
  destruct (chunk_body_default (S (String.length body)) body) as (cs & H1 & H2);
    [lia|].
  now rewrite H1.
Qed.

(** What the materializer leaves alone: the other Documents and their
    Fragments. *)
Lemma upsert_document_frame now conn c f title ty body conn' id act :
  _upsert_document_and_chunks now conn c f title ty body
  = Ok (conn', (id, act)) ->
  other_documents id conn' = other_documents id conn /\
  other_chunks id conn' = other_chunks id conn.
Proof.
  intros H.
  destruct (upsert_document_cases now conn c f title ty body)
    as [(doc & E & Hh & R)|[(doc & E & Hh & _ & R)|[(E & _ & R)|(_ & R)]]];
    rewrite R in H; inversion H; subst; clear H.
  - now split.
  - unfold other_documents, other_chunks.
    cbn [kb_documents kb_chunks set_kb_chunks Sql.delete_chunks
         Sql.update_document set_kb_documents].
    split.
    + apply filter_map_stable.
      * intros a _. cbv beta.
        destruct (d_id a =? d_id doc) eqn:Ea; cbn [d_id]; now rewrite Ea.
      * intros a _ Ha. apply negb_true_iff in Ha. now rewrite Ha.
    + apply filter_idem.
  - unfold other_documents, other_chunks.
    cbn [kb_documents kb_chunks set_kb_chunks Sql.insert_document
         set_kb_documents fst].
    split; [|reflexivity].
    rewrite filter_app. simpl. rewrite Nat.eqb_refl. apply app_nil_r.
Qed.

End Materializer.

(* ------------------------------------------------------------------ *)
(** ** The counters of sources and the list of errors *)

Section Counters.

Context {HL : Hashlib}.

Lemma extends_refl {A} (l : list A) : extends l l.
Proof. exists []. now rewrite app_nil_r. Qed.

Lemma extends_trans {A} (l1 l2 l3 : list A) :
  extends l1 l2 -> extends l2 l3 -> extends l1 l3.
Proof.
  intros [t1 ->] [t2 ->]. exists (t1 ++ t2). now rewrite app_assoc.
Qed.

Lemma extends_snoc {A} (l : list A) (a : A) : extends l (l ++ [a]).
Proof. now exists [a]. Qed.

Lemma extends_nonempty {A} (l l' : list A) :
  extends l l' -> l <> [] -> l' <> [].
Proof. intros [t ->] H. now destruct l. Qed.

Lemma count_verdict_keeps v s :
  source_counters (count_verdict v s) = source_counters s /\
  errors (count_verdict v s) = errors s.
Proof.
  unfold count_verdict. destruct (v_is_new v); [now split|].
  destruct (v_changed v); now split.
Qed.

Lemma ingest_file_stats e rid sid rel full name ext o w w' :
  ingest_file e rid sid rel full name ext o w = Ok w' ->
  source_counters (w_stats w') = source_counters (w_stats w) /\
  extends (errors (w_stats w)) (errors (w_stats w')).
Proof.
  unfold ingest_file. intros H. destruct o as [content|msg].
  - destruct (_upsert_document_and_chunks _ _ _ _ _ _ _)
      as [[conn [id act]]|]; [|discriminate].
    inv H. cbn. destruct (String.eqb act "ingested"); cbn;
      (split; [reflexivity|apply extends_refl]).
  - inv H. cbn. split; [reflexivity|apply extends_snoc].
Qed.

Lemma process_file_stats e rid src em dir fe sc sc' :
  process_file e rid src em dir fe sc = Ok sc' ->
  source_counters (w_stats (sc_world sc'))
  = source_counters (w_stats (sc_world sc)) /\
  extends (errors (w_stats (sc_world sc)))
    (errors (w_stats (sc_world sc'))).
Proof.
  unfold process_file. intros H.
  destruct (negb _); [inv H; split; [reflexivity|apply extends_refl]|].
  destruct (fe_stat fe) as [sz mt|msg];
    [|inv H; cbn; split; [reflexivity|apply extends_snoc]].
  unfold bind in H.
  destruct (detect_change _ _ _ _ _ _) as [v|]; [|discriminate].
  destruct (upsert_source_file _ _ _ _ _ _ _ _ _ _) as [conn sid].
  assert (Hw : forall (b : bool) (x : event) (w0 : world),
            w_stats (if b then emit x w0 else w0) = w_stats w0)
    by (intros [] ? ?; reflexivity).
  destruct (count_verdict_keeps v (incr_files_seen (w_stats (sc_world sc))))
    as [K1 K2].
  destruct (_ && _); [destruct (cap_reached _ _)|];
    try (inv H; cbn; rewrite ?Hw; cbn; rewrite K1, K2; split;
         [reflexivity|apply extends_refl]).
  destruct (ingest_file _ _ _ _ _ _ _ _ _) as [w2|] eqn:Ei; [|discriminate].
  destruct (ingest_file_stats _ _ _ _ _ _ _ _ _ _ Ei) as [F1 F2].
  cbn [w_stats on_stats] in F1, F2. rewrite Hw in F1, F2.
  cbn [w_stats on_stats] in F1, F2. rewrite K1 in F1. rewrite K2 in F2.
  inv H. cbn [sc_world]. now split.
Qed.

Lemma walk_loop_stats e rid src em : forall walk sc sc',
  for_each (process_dir e rid src em) walk sc = Ok sc' ->
  source_counters (w_stats (sc_world sc'))
  = source_counters (w_stats (sc_world sc)) /\
  extends (errors (w_stats (sc_world sc)))
    (errors (w_stats (sc_world sc'))).
Proof.
  intros walk sc sc' H.
  eapply (for_each_inv
           (fun s =>
              source_counters (w_stats (sc_world s))
              = source_counters (w_stats (sc_world sc)) /\
              extends (errors (w_stats (sc_world sc)))
                (errors (w_stats (sc_world s))))
           (process_dir e rid src em) walk);
    [|split; [reflexivity|apply extends_refl]|exact H].
  intros de s s' _ (A & B) Hd. unfold process_dir in Hd.
  eapply (for_each_inv
           (fun s0 =>
              source_counters (w_stats (sc_world s0))
              = source_counters (w_stats (sc_world sc)) /\
              extends (errors (w_stats (sc_world sc)))
                (errors (w_stats (sc_world s0))))
           (process_file e rid src em (de_rel de)) (de_files de));
    [| |exact Hd].
  - intros fe s0 s1 _ (A0 & B0) Hf.
    apply process_file_stats in Hf. destruct Hf as (F1 & F2).
    rewrite F1. split; [exact A0|]. eapply extends_trans; eassumption.
  - unfold process_folder. destruct (negb _).
    + destruct (Sql.upsert_folder _ _ _ _ _ _); cbn. now split.
    + cbn. now split.
Qed.

Lemma reconcile_loop_stats e rid seen_paths : forall items w,
  let w' :=
    fold_left (fun w item => reconcile_one e rid seen_paths item w) items w in
  source_counters (w_stats w') = source_counters (w_stats w) /\
  errors (w_stats w') = errors (w_stats w) /\
  w_trace w' = w_trace w.
Proof.
  intros items w. cbv zeta.
  apply (fold_left_inv
           (fun s =>
              source_counters (w_stats s) = source_counters (w_stats w) /\
              errors (w_stats s) = errors (w_stats w) /\
              w_trace s = w_trace w));
    [|repeat split].
  intros [k p] s _ (A & B & C). unfold reconcile_one.
  destruct (seen seen_paths k); [repeat split; assumption|].
  destruct (negb (e_dry_run e)); cbn; repeat split; assumption.
Qed.

(** One source has been scanned more; the errors have only grown, by the
    message of the missing root when the root is not there. *)
Lemma scan_source_stats e rid src w w' :
  scan_source e rid src w = Ok w' ->
  sources_total (w_stats w') = sources_total (w_stats w) /\
  sources_scanned (w_stats w') = sources_scanned (w_stats w) + 1 /\
  extends (errors (w_stats w)) (errors (w_stats w')) /\
  (fs_exists (e_fs e) (root_path src) = ExistsOk false ->
   errors (w_stats w') = errors (w_stats w) ++ [root_not_found src]).
Proof.
  unfold scan_source. intros H.
  destruct (fs_exists (e_fs e) (root_path src)) as [[|]|] eqn:Hex;
    [| |discriminate].
  - unfold scan_files in H.
    destruct (ensure_root_folder _ _ _ _) as [w2 fm] eqn:Er.
    assert (Hw2 : w_stats w2 = incr_sources_scanned (w_stats w)).
    { unfold ensure_root_folder in Er. destruct (negb _).
      - destruct (Sql.upsert_folder _ _ _ _ _ _). now inv Er.
      - now inv Er. }
    unfold bind in H.
    destruct (for_each _ _ _) as [sc|] eqn:Ew; [|discriminate].
    apply walk_loop_stats in Ew. cbn [sc_world] in Ew.
    destruct Ew as [A B]. rewrite Hw2 in A, B.
    match type of H with
    | context [fold_left ?f ?items ?w0] =>
        pose proof (reconcile_loop_stats e rid (sc_seen_paths sc) items w0)
          as R; cbv zeta in R;
        set (wr := fold_left f items w0) in *
    end.
    destruct R as (R1 & R2 & _).
    assert (Hs : forall (b : bool) (f : db -> db) (w0 : world),
              w_stats (if b then on_db f w0 else w0) = w_stats w0)
      by (intros [] ? ?; reflexivity).
    inv H. rewrite Hs. unfold source_counters in *.
    rewrite R2. inversion R1 as [[Q1 Q2]]. inversion A as [[A1 A2]].
    rewrite Q1, Q2, A1, A2. cbn.
    split; [reflexivity|]. split; [reflexivity|].
    split; [exact B|discriminate].
  - inv H. cbn. split; [reflexivity|]. split; [reflexivity|].
    split; [apply extends_snoc|]. intros _. reflexivity.
Qed.

Lemma sources_loop_stats e rid : forall srcs w w',
  for_each (scan_source e rid) srcs w = Ok w' ->
  sources_total (w_stats w') = sources_total (w_stats w) /\
  sources_scanned (w_stats w') = sources_scanned (w_stats w) + length srcs /\
  extends (errors (w_stats w)) (errors (w_stats w')) /\
  (forall src, In src srcs ->
     fs_exists (e_fs e) (root_path src) = ExistsOk false ->
     In (root_not_found src) (errors (w_stats w'))).
Proof.
  induction srcs as [|src srcs IH]; intros w w' H.
  - inv H. repeat split; [simpl; lia|apply extends_refl|intros ? []].
  - simpl in H. unfold bind in H.
    destruct (scan_source e rid src w) as [w1|] eqn:E1; [|discriminate].
    apply scan_source_stats in E1. destruct E1 as (A1 & A2 & A3 & A4).
    apply IH in H. destruct H as (B1 & B2 & B3 & B4).
    split; [congruence|]. split; [simpl; lia|].
    split; [eapply extends_trans; eassumption|].
    intros s [<-|Hs] Hex.
    + destruct B3 as [t ->]. rewrite (A4 Hex).
      apply in_or_app. left. apply in_or_app. right. now left.
    + now apply B4.
Qed.

(** A scan that reaches the end of its loop has scanned every enabled
    source of the campaign and no other. *)
Lemma scan_counts_sources e d w rid :
  scan_campaign e d = Ok (w, rid) ->
  sources_total (w_stats w)
  = length (Sql.select_sources d (e_campaign_id e)) /\
  sources_scanned (w_stats w)
  = length (Sql.select_sources d (e_campaign_id e)) /\
  (forall src, In src (Sql.select_sources d (e_campaign_id e)) ->
     fs_exists (e_fs e) (root_path src) = ExistsOk false ->
     In (root_not_found src) (errors (w_stats w)) /\
     status_of (w_stats w) = "partial").
Proof.
  intros H. apply scan_campaign_ok in H. destruct H as (_ & _ & L).
  apply sources_loop_stats in L. cbn [w_stats] in L.
  destruct L as (A & B & _ & D).
  split; [exact A|]. split; [exact B|].
  intros src Hin Hex. specialize (D src Hin Hex).
  split; [exact D|]. unfold status_of.
  destruct (errors (w_stats w)); [destruct D|reflexivity].
Qed.

End Counters.

(* ------------------------------------------------------------------ *)
(** ** The cap on ingestion *)

Section Cap.

Context {HL : Hashlib}.

Lemma count_verdict_materialized v s :
  materialized (count_verdict v s) = materialized s.
Proof.
  unfold count_verdict. destruct (v_is_new v); [reflexivity|].
  destruct (v_changed v); reflexivity.
Qed.

Lemma reads_app t1 t2 : reads (t1 ++ t2) = reads t1 + reads t2.
Proof. unfold reads, read_events. now rewrite filter_app, length_app. Qed.

Lemma ingest_file_budget e rid sid rel full name ext o w w' :
  ingest_file e rid sid rel full name ext o w = Ok w' ->
  reads (w_trace w') = reads (w_trace w) + 1 /\
  materialized (w_stats w) <= materialized (w_stats w') /\
  materialized (w_stats w') <= materialized (w_stats w) + 1.
Proof.
  unfold ingest_file. intros H. destruct o as [content|msg].
  - destruct (_upsert_document_and_chunks _ _ _ _ _ _ _)
      as [[conn [id act]]|]; [|discriminate].
    inv H.
    unfold emit, on_stats, on_db. cbn [w_trace w_stats].
    rewrite !reads_app. unfold materialized.
    destruct (String.eqb act "ingested"); cbn; lia.
  - inv H. unfold emit, on_stats, on_db. cbn [w_trace w_stats].
    rewrite reads_app. unfold materialized. cbn. lia.
Qed.

(** One file: either no attempt is made, or the cap was not reached and one
    file more has been read. *)
Lemma process_file_budget e rid src em dir fe sc sc' :
  process_file e rid src em dir fe sc = Ok sc' ->
  (sc_files_to_ingest sc' = sc_files_to_ingest sc /\
   reads (w_trace (sc_world sc')) = reads (w_trace (sc_world sc)) /\
   materialized (w_stats (sc_world sc'))
   = materialized (w_stats (sc_world sc))) \/
  (cap_reached (e_max_files e) (sc_files_to_ingest sc) = false /\
   sc_files_to_ingest sc' = (sc_files_to_ingest sc + 1)%Z /\
   reads (w_trace (sc_world sc')) = reads (w_trace (sc_world sc)) + 1 /\
   materialized (w_stats (sc_world sc))
   <= materialized (w_stats (sc_world sc')) /\
   materialized (w_stats (sc_world sc'))
   <= materialized (w_stats (sc_world sc)) + 1).
Proof.
  unfold process_file. intros H.
  destruct (negb _); [inv H; now left|].
  destruct (fe_stat fe) as [sz mt|msg]; [|inv H; now left].
  unfold bind in H.
  destruct (detect_change _ _ _ _ _ _) as [v|]; [|discriminate].
  destruct (upsert_source_file _ _ _ _ _ _ _ _ _ _) as [conn sid].
  assert (Hs : forall (b : bool) (x : event) (w0 : world),
            w_stats (if b then emit x w0 else w0) = w_stats w0)
    by (intros [] ? ?; reflexivity).
  assert (Ht : forall (b : bool) (x : string) (w0 : world),
            reads (w_trace (if b then emit (EvHashFile x) w0 else w0))
            = reads (w_trace w0)).
  { intros [] ? ?; [|reflexivity]. unfold emit. cbn [w_trace].
    rewrite reads_app. cbn. lia. }
  assert (K : materialized
                (count_verdict v (incr_files_seen (w_stats (sc_world sc))))
              = materialized (w_stats (sc_world sc)))
    by (now rewrite count_verdict_materialized).
  destruct (_ && _); [destruct (cap_reached _ _) eqn:Hcap|];
    try (inv H; cbn [sc_world sc_files_to_ingest w_stats w_trace];
         left; rewrite Ht, Hs; cbn [w_stats w_trace on_stats]; rewrite K;
         now repeat split).
  destruct (ingest_file _ _ _ _ _ _ _ _ _) as [w2|] eqn:Ei; [|discriminate].
  destruct (ingest_file_budget _ _ _ _ _ _ _ _ _ _ Ei) as (F1 & F2 & F3).
  cbn [w_stats w_trace on_stats] in F1, F2, F3. rewrite Ht in F1.
  rewrite Hs in F2, F3. cbn [w_stats w_trace on_stats] in F1, F2, F3.
  rewrite K in F2, F3.
  inv H. cbn [sc_world sc_files_to_ingest].
  right. now repeat split.
Qed.

Lemma walk_loop_budget e rid src em : forall walk sc sc',
  (0 <= sc_files_to_ingest sc)%Z ->
  (forall k, e_max_files e = Some k ->
             (sc_files_to_ingest sc <= Z.max 0 k)%Z) ->
  for_each (process_dir e rid src em) walk sc = Ok sc' ->
  exists n,
    sc_files_to_ingest sc' = (sc_files_to_ingest sc + Z.of_nat n)%Z /\
    (forall k, e_max_files e = Some k ->
               (sc_files_to_ingest sc' <= Z.max 0 k)%Z) /\
    reads (w_trace (sc_world sc')) = reads (w_trace (sc_world sc)) + n /\
    materialized (w_stats (sc_world sc))
    <= materialized (w_stats (sc_world sc')) /\
    materialized (w_stats (sc_world sc'))
    <= materialized (w_stats (sc_world sc)) + n.
Proof.
  intros walk sc sc' H0 Hcap H.
  set (P := fun s : scan =>
    exists n,
      sc_files_to_ingest s = (sc_files_to_ingest sc + Z.of_nat n)%Z /\
      (forall k, e_max_files e = Some k ->
                 (sc_files_to_ingest s <= Z.max 0 k)%Z) /\
      reads (w_trace (sc_world s)) = reads (w_trace (sc_world sc)) + n /\
      materialized (w_stats (sc_world sc))
      <= materialized (w_stats (sc_world s)) /\
      materialized (w_stats (sc_world s))
      <= materialized (w_stats (sc_world sc)) + n).
  assert (P0 : P sc).
  { exists 0. repeat split; try lia. exact Hcap. }
  eapply (for_each_inv P (process_dir e rid src em) walk); [|exact P0|exact H].
  intros de s s' _ Ps Hd. unfold process_dir in Hd.
  eapply (for_each_inv P (process_file e rid src em (de_rel de))
            (de_files de)); [| |exact Hd].
  - intros fe s0 s1 _ (n & A1 & A2 & A3 & A4 & A5) Hf.
    apply process_file_budget in Hf.
    destruct Hf as [(B1 & B2 & B3)|(B0 & B1 & B2 & B3 & B4)].
    + exists n. rewrite B1, B2, B3. now repeat split.
    + exists (S n). rewrite B1, B2. repeat split; try lia.
      intros k Hk. specialize (A2 k Hk). unfold cap_reached in B0.
      rewrite Hk in B0. destruct (Z.geb_spec (sc_files_to_ingest s0) k);
        [discriminate|lia].
  - destruct Ps as (n & A1 & A2 & A3 & A4 & A5).
    exists n. unfold process_folder. destruct (negb _).
    + destruct (Sql.upsert_folder _ _ _ _ _ _); cbn. now repeat split.
    + cbn. now repeat split.
Qed.

Lemma reconcile_loop_materialized e rid seen_paths : forall items w,
  materialized
    (w_stats
       (fold_left (fun w item => reconcile_one e rid seen_paths item w)
          items w))
  = materialized (w_stats w).
Proof.
  intros items w.
  apply (fold_left_inv
           (fun s => materialized (w_stats s) = materialized (w_stats w)));
    [|reflexivity].
  intros [k p] s _ A. unfold reconcile_one.
  destruct (seen seen_paths k); [exact A|].
  destruct (negb (e_dry_run e)); cbn; exact A.
Qed.

(** The scan of one source reads at most [max_files] files for ingestion. *)
Lemma scan_source_budget e rid src w w' :
  scan_source e rid src w = Ok w' ->
  exists n,
    (forall k, e_max_files e = Some k -> n <= Z.to_nat k) /\
    reads (w_trace w') = reads (w_trace w) + n /\
    materialized (w_stats w) <= materialized (w_stats w') /\
    materialized (w_stats w') <= materialized (w_stats w) + n.
Proof.
  unfold scan_source. intros H.
  destruct (fs_exists (e_fs e) (root_path src)) as [[|]|]; [| |discriminate].
  2:{ inv H. exists 0. unfold on_stats, on_db. cbn [w_trace w_stats].
      split; [intros; lia|]. split; [lia|]. unfold materialized. cbn. lia. }
  - unfold scan_files in H.
    destruct (ensure_root_folder _ _ _ _) as [w2 fm] eqn:Er.
    assert (Hw2 : w_stats w2 = incr_sources_scanned (w_stats w)
                  /\ w_trace w2 = w_trace w).
    { unfold ensure_root_folder in Er. destruct (negb _).
      - destruct (Sql.upsert_folder _ _ _ _ _ _). now inv Er.
      - now inv Er. }
    destruct Hw2 as [Hs2 Ht2].
    unfold bind in H.
    destruct (for_each _ _ _) as [sc|] eqn:Ew; [|discriminate].
    apply walk_loop_budget in Ew; cbn [sc_files_to_ingest] in *;
      [|lia|intros; lia].
    destruct Ew as (n & A1 & A2 & A3 & A4 & A5). cbn [sc_world] in *.
    rewrite Hs2 in A4, A5. rewrite Ht2 in A3.
    match type of H with
    | context [fold_left ?f ?items ?w0] =>
        pose proof (reconcile_loop_stats e rid (sc_seen_paths sc) items w0)
          as R; cbv zeta in R;
        pose proof (reconcile_loop_materialized e rid (sc_seen_paths sc)
                      items w0) as M;
        set (wr := fold_left f items w0) in *
    end.
    destruct R as (_ & _ & R3).
    assert (Hs : forall (b : bool) (f : db -> db) (w0 : world),
              w_stats (if b then on_db f w0 else w0) = w_stats w0
              /\ w_trace (if b then on_db f w0 else w0) = w_trace w0)
      by (intros [] ? ?; split; reflexivity).
    inv H. destruct (Hs (negb (e_dry_run e))
                       (Sql.stamp_ingest (e_now e) (src_id src)) wr)
      as [-> ->].
    rewrite R3, M. exists n. split.
    + intros k Hk. specialize (A2 k Hk). lia.
    + split; [exact A3|]. split; [exact A4|exact A5].
Qed.

End Cap.

(* ------------------------------------------------------------------ *)
(** ** The exceptions that leave a run *)

Section Exceptions.

Context {HL : Hashlib}.

Lemma for_each_raise {A S} (body : A -> S -> outcome S) (l : list A) x :
  forall s, for_each body l s = Raise x ->
  exists a s1, In a l /\ body a s1 = Raise x.
Proof.
  induction l as [|a l IH]; intros s H; [discriminate|].
  simpl in H. unfold bind in H. destruct (body a s) as [s'|y] eqn:E.
  - destruct (IH s' H) as (a' & s1 & Hin & Hb).
    exists a', s1. split; [now right|exact Hb].
  - inv H. exists a, s. split; [now left|exact E].
Qed.

Lemma detect_change_raise mode force prev sz mt o x :
  detect_change mode force prev sz mt o = Raise x ->
  hashing_mode mode = true /\ exists msg, o = OpenErr msg /\ x = OSError msg.
Proof.
  unfold detect_change. destruct (hashing_mode mode); [|discriminate].
  destruct (_ || _); cbn [andb]; [|discriminate].
  destruct o as [content|msg]; cbn; [discriminate|].
  intros H. inv H. split; [reflexivity|]. now exists msg.
Qed.

Lemma refused_fragment conn c f body :
  refused conn c f body = true -> strip_text body <> "".
Proof.
  unfold refused. intros H. apply andb_true_iff in H. destruct H as [_ H].
  intros E. apply chunk_body_nil in E. rewrite E in H. discriminate.
Qed.

Lemma ingest_file_raise_inv e rid sid rel full name ext o w x :
  ingest_file e rid sid rel full name ext o w = Raise x ->
  x = SQLAlchemyError "UPDATE source_files" /\
  exists content,
    o = OpenOk content /\
    refused (w_db w) (e_campaign_id e) sid (utf8_decode_replace content)
    = true.
Proof.
  unfold ingest_file. intros H. destruct o as [content|msg]; [|discriminate].
  cbn [emit w_db] in H.
  destruct (_upsert_document_and_chunks _ _ _ _ _ _ _)
    as [[conn [id act]]|y] eqn:E; [discriminate|].
  inv H. split; [reflexivity|]. exists content. split; [reflexivity|].
  match goal with
  | |- ?r = true => destruct r eqn:Er; [reflexivity|]
  end.
  match type of E with
  | _upsert_document_and_chunks ?n ?cn ?c ?f ?t ?ty ?b = _ =>
      destruct (upsert_document_returns n cn c f t ty b Er) as (c' & i' & R)
  end.
  rewrite R in E. discriminate.
Qed.

(** The two exceptions of the handling of a file: the hash of a file that
    cannot be opened, and, in a live run, the ingestion of a text that has a
    fragment. *)
Lemma process_file_raise_inv e rid src em dir fe sc x :
  process_file e rid src em dir fe sc = Raise x ->
  entry_included src dir fe = true /\
  exists sz mt,
    fe_stat fe = StatOk sz mt /\
    ((hashing_mode (src_change_detection src) = true /\
      exists msg, fe_open fe = OpenErr msg /\ x = OSError msg) \/
     (e_dry_run e = false /\
      x = SQLAlchemyError "UPDATE source_files" /\
      exists content,
        fe_open fe = OpenOk content /\
        strip_text (utf8_decode_replace content) <> "")).
Proof.
  unfold process_file, entry_included, entry_rel. intros H.
  destruct (_should_include _ _ _); cbn [negb] in H; [|discriminate].
  destruct (fe_stat fe) as [sz mt|m]; [|discriminate].
  split; [reflexivity|]. exists sz, mt. split; [reflexivity|].
  unfold bind in H.
  destruct (detect_change _ _ _ _ _ _) as [v|y] eqn:E.
  - destruct (upsert_source_file _ _ _ _ _ _ _ _ _ _).
    destruct ((v_is_new v || v_changed v) && negb (e_dry_run e)) eqn:Ec;
      [|discriminate].
    destruct (cap_reached _ _); [discriminate|].
    destruct (ingest_file _ _ _ _ _ _ _ _ _) as [w2|z] eqn:Ei;
      [discriminate|].
    inv H. apply ingest_file_raise_inv in Ei.
    destruct Ei as (-> & content & Ho & Hr).
    right. apply andb_true_iff in Ec. destruct Ec as [_ Hdry].
    apply negb_true_iff in Hdry. split; [exact Hdry|].
    split; [reflexivity|]. exists content. split; [exact Ho|].
    eapply refused_fragment. exact Hr.
  - inv H. apply detect_change_raise in E.
    destruct E as (Hm & msg & Ho & ->).
    left. split; [exact Hm|]. now exists msg.
Qed.

(** The exceptions of the scan of a source. *)
Lemma scan_source_raise_inv e rid src w x :
  scan_source e rid src w = Raise x ->
  (exists msg, untestable (e_fs e) src msg /\ x = OSError msg) \/
  (exists msg, unhashable (e_fs e) src msg /\ x = OSError msg) \/
  (e_dry_run e = false /\ fragmented (e_fs e) src /\
   x = SQLAlchemyError "UPDATE source_files").
Proof.
  unfold scan_source. intros H.
  destruct (fs_exists (e_fs e) (root_path src)) as [[|]|m] eqn:Hex;
    [|discriminate|].
  2:{ inv H. left. now exists m. }
  right. unfold scan_files in H.
  destruct (ensure_root_folder _ _ _ _) as [w2 fm].
  unfold bind in H.
  destruct (for_each _ _ _) as [sc|y] eqn:Ew; [discriminate|].
  inv H. apply for_each_raise in Ew. destruct Ew as (de & s1 & Hde & Hd).
  unfold process_dir in Hd. apply for_each_raise in Hd.
  destruct Hd as (fe & s2 & Hfe & Hf).
  apply process_file_raise_inv in Hf.
  destruct Hf as (Hi & sz & mt & Hs &
                  [(Hm & msg & Ho & ->)|(Hdry & -> & content & Ho & Hb)]).
  - left. exists msg. split; [|reflexivity].
    split; [exact Hex|]. split; [exact Hm|].
    now exists de, fe, sz, mt.
  - right. split; [exact Hdry|]. split; [|reflexivity].
    split; [exact Hex|]. now exists de, fe, sz, mt, content.
Qed.

(** Every call raises and leaves the store as it was.  The exception is
    [ValueError] for an unknown campaign; for a known one it is the
    [OSError] of a root that cannot be tested or of a hashed file that
    cannot be opened, or the exception of the store at the ingestion of a
    text that has a fragment, or, when the scan reaches it, the exception of
    the statement that finalises the run. *)
Lemma run_raise_cases fs now d c dry force cap :
  fin_db (update_campaign_kb fs now d c dry force cap) = d /\
  exists x,
    fin_result (update_campaign_kb fs now d c dry force cap) = Raise x /\
    ((Sql.campaign_exists d c = false /\
      x = ValueError "Campaign not found.") \/
     (Sql.campaign_exists d c = true /\
      ((exists src msg,
          In src (Sql.select_sources d c) /\ untestable fs src msg /\
          x = OSError msg) \/
       (exists src msg,
          In src (Sql.select_sources d c) /\ unhashable fs src msg /\
          x = OSError msg) \/
       (dry = false /\
        (exists src, In src (Sql.select_sources d c) /\ fragmented fs src) /\
        x = SQLAlchemyError "UPDATE source_files") \/
       ((exists w,
           scan_campaign (mkEnv fs now c dry force cap) d
           = Ok (w, seq_run d)) /\
        x = SQLAlchemyError "UPDATE ingest_runs")))).
Proof.
  split; [apply update_never_returns|].
  destruct (scan_campaign (mkEnv fs now c dry force cap) d)
    as [[w rid]|y] eqn:E.
  - rewrite (scanned_run_raises fs now d c dry force cap w rid E).
    eexists. split; [reflexivity|].
    destruct (scan_campaign_ok _ _ _ _ E) as (Hc & -> & _).
    right. split; [exact Hc|]. right. right. right.
    split; [now exists w|reflexivity].
  - rewrite (failed_scan_raises fs now d c dry force cap y E).
    exists y. split; [reflexivity|].
    destruct (Sql.campaign_exists d c) eqn:Hc.
    + right. split; [reflexivity|].
      rewrite (scan_campaign_loop (mkEnv fs now c dry force cap) d Hc) in E.
      cbn [e_campaign_id] in E.
      unfold bind in E.
      destruct (for_each _ _ _) as [w1|z] eqn:Ew; [discriminate|].
      inv E. apply for_each_raise in Ew. destruct Ew as (src & s1 & Hin & Hs).
      apply scan_source_raise_inv in Hs. cbn [e_fs e_dry_run] in Hs.
      destruct Hs as [(msg & Hu & ->)|[(msg & Hu & ->)|(Hdry & Hf & ->)]].
      * left. now exists src, msg.
      * right. left. now exists src, msg.
      * right. right. left. split; [exact Hdry|].
        split; [now exists src|reflexivity].
    + left. unfold scan_campaign in E. cbn [e_campaign_id] in E.
      rewrite Hc in E. inv E. now split.
Qed.

(** The answers of the route: 400 with the message for an unknown campaign
    and for nothing else; for a known campaign the exception of the engine
    passes through, and the route never answers with a result. *)
Lemma kb_update_answers fs now d c dry force cap :
  fst (kb_update fs now d c dry force cap) = d /\
  (forall body, snd (kb_update fs now d c dry force cap) <> Http200 body) /\
  (Sql.campaign_exists d c = false ->
   snd (kb_update fs now d c dry force cap)
   = HttpException 400 "Campaign not found.") /\
  (Sql.campaign_exists d c = true ->
   exists ex,
     snd (kb_update fs now d c dry force cap) = Unhandled ex /\
     fin_result (update_campaign_kb fs now d c dry force cap) = Raise ex /\
     forall msg, ex <> ValueError msg).
Proof.
  destruct (run_raise_cases fs now d c dry force cap) as (Hd & x & Hx & Hc).
  unfold kb_update. rewrite Hx, Hd.
  destruct Hc as [(Hc & ->)|(Hc & Hcase)].
  - cbn. split; [reflexivity|]. split; [discriminate|].
    split; [reflexivity|]. rewrite Hc. discriminate.
  - assert (Hnv : forall msg, x <> ValueError msg).
    { destruct Hcase as [(s & m & _ & _ & ->)|[(s & m & _ & _ & ->)|
                         [(_ & _ & ->)|(_ & ->)]]]; discriminate. }
    destruct x as [m|m|st]; [exfalso; now apply (Hnv m)| |]; cbn;
      (split; [reflexivity|]; split; [discriminate|];
       split; [rewrite Hc; discriminate|]; intros _;
       eexists; split; [reflexivity|]; split; [reflexivity|exact Hnv]).
Qed.

End Exceptions.

(* ------------------------------------------------------------------ *)
(** ** What a run does to the audit rows and to the runs *)

Section AuditClosed.

Context {HL : Hashlib}.

Variable rid : nat.
Variable P : list run_file -> Prop.
Hypothesis Pclosed : audit_closed rid P.

Lemma ingest_file_closed e sid rel full name ext o w w' :
  ingest_file e rid sid rel full name ext o w = Ok w' ->
  P (ingest_run_files (w_db w)) ->
  P (ingest_run_files (w_db w')).
Proof.
  intros Hi H. unfold ingest_file in Hi. destruct o as [content|msg].
  - destruct (_upsert_document_and_chunks _ _ _ _ _ _ _)
      as [[conn [id act]]|] eqn:E; [|discriminate].
    inv Hi.
    apply upsert_document_only_kb in E.
    destruct E as (_ & _ & _ & _ & _ & E6 & _).
    unfold emit, on_stats, on_db. cbn [w_db w_stats w_trace].
    apply Pclosed; [reflexivity|]. cbn [Sql.update_rows set_source_files
      ingest_run_files]. now rewrite E6.
  - inv Hi. unfold emit, on_stats, on_db. cbn [w_db w_stats w_trace].
    apply Pclosed; [reflexivity|]. exact H.
Qed.

Lemma process_file_closed e src em dir fe sc sc' :
  process_file e rid src em dir fe sc = Ok sc' ->
  P (ingest_run_files (w_db (sc_world sc))) ->
  P (ingest_run_files (w_db (sc_world sc'))).
Proof.
  unfold process_file. intros H HP.
  destruct (negb _); [now inv H|].
  destruct (fe_stat fe) as [sz mt|msg]; [|now inv H].
  unfold bind in H.
  destruct (detect_change _ _ _ _ _ _) as [v|]; [|discriminate].
  destruct (upsert_source_file _ _ _ _ _ _ _ _ _ _) as [conn sid] eqn:Eu.
  apply upsert_source_file_other in Eu.
  destruct Eu as (_ & _ & _ & _ & _ & _ & E7 & _).
  assert (Hw : forall (b : bool) (x : event) (w0 : world),
            w_db (if b then emit x w0 else w0) = w_db w0)
    by (intros [] ? ?; reflexivity).
  cbn in E7. rewrite Hw in E7. cbn in E7.
  destruct (_ && _); [destruct (cap_reached _ _)|];
    try (inv H; cbn [sc_world w_db]; now rewrite E7).
  destruct (ingest_file _ _ _ _ _ _ _ _ _) as [w2|] eqn:Ei; [|discriminate].
  inv H. cbn [sc_world].
  eapply ingest_file_closed; [exact Ei|]. cbn [w_db]. now rewrite E7.
Qed.

Lemma walk_loop_closed e src em : forall walk sc sc',
  for_each (process_dir e rid src em) walk sc = Ok sc' ->
  P (ingest_run_files (w_db (sc_world sc))) ->
  P (ingest_run_files (w_db (sc_world sc'))).
Proof.
  intros walk sc sc' H HP.
  eapply (for_each_inv
            (fun s => P (ingest_run_files (w_db (sc_world s))))
            (process_dir e rid src em) walk); [|exact HP|exact H].
  intros de s s' _ Ps Hd. unfold process_dir in Hd.
  eapply (for_each_inv
            (fun s0 => P (ingest_run_files (w_db (sc_world s0))))
            (process_file e rid src em (de_rel de)) (de_files de));
    [| |exact Hd].
  - intros fe s0 s1 _ P0 Hf. eapply process_file_closed; eassumption.
  - unfold process_folder. destruct (negb _).
    + unfold Sql.upsert_folder. destruct (find _ _); cbn; exact Ps.
    + cbn. exact Ps.
Qed.

Lemma reconcile_loop_closed e seen_paths : forall items w,
  P (ingest_run_files (w_db w)) ->
  P (ingest_run_files
       (w_db (fold_left
                (fun w item => reconcile_one e rid seen_paths item w)
                items w))).
Proof.
  intros items w HP.
  apply (fold_left_inv (fun s => P (ingest_run_files (w_db s))));
    [|exact HP].
  intros [k p] s _ Ps. unfold reconcile_one.
  destruct (seen seen_paths k); [exact Ps|].
  destruct (negb (e_dry_run e)); [|exact Ps].
  unfold on_stats, on_db. cbn [w_db w_stats w_trace].
  apply Pclosed; [reflexivity|]. exact Ps.
Qed.

Lemma scan_source_closed e src w w' :
  scan_source e rid src w = Ok w' ->
  P (ingest_run_files (w_db w)) -> P (ingest_run_files (w_db w')).
Proof.
  unfold scan_source. intros H HP.
  destruct (fs_exists _ _) as [[|]|]; [|now inv H|discriminate].
  unfold scan_files in H.
  destruct (ensure_root_folder _ _ _ _) as [w2 fm] eqn:Er.
  assert (Hw2 : ingest_run_files (w_db w2) = ingest_run_files (w_db w)).
  { unfold ensure_root_folder in Er. destruct (negb _).
    - unfold Sql.upsert_folder in Er. destruct (find _ _); now inv Er.
    - now inv Er. }
  unfold bind in H.
  destruct (for_each _ _ _) as [sc|] eqn:Ew; [|discriminate].
  apply walk_loop_closed in Ew; [|cbn [sc_world]; now rewrite Hw2].
  match type of H with
  | context [fold_left ?f ?items ?w0] =>
      pose proof (reconcile_loop_closed e (sc_seen_paths sc) items w0 Ew)
        as R;
      set (wr := fold_left f items w0) in *
  end.
  inv H. destruct (negb (e_dry_run e)); exact R.
Qed.

Lemma sources_loop_closed e : forall srcs w w',
  for_each (scan_source e rid) srcs w = Ok w' ->
  P (ingest_run_files (w_db w)) -> P (ingest_run_files (w_db w')).
Proof.
  intros srcs w w' H HP.
  eapply (for_each_inv (fun s => P (ingest_run_files (w_db s)))
            (scan_source e rid) srcs); [|exact HP|exact H].
  intros src s s' _ Ps Hs. eapply scan_source_closed; eassumption.
Qed.

End AuditClosed.

Section RunRows.

Context {HL : Hashlib}.

Lemma audit_grown_closed rid l0 :
  Forall (fun r => rf_run r <> rid) l0 ->
  audit_closed rid (audit_grown rid l0).
Proof.
  intros Hold d row Hrow (t & E & Ht). split.
  - unfold Sql.insert_run_file. destruct (existsb _ _).
    + now exists t.
    + cbn. exists (t ++ [row]). rewrite E, app_assoc. split; [reflexivity|].
      apply Forall_app. split; [exact Ht|]. now constructor.
  - unfold Sql.upsert_run_file_error. destruct (existsb _ _).
    + cbn. rewrite E, map_app.
      exists (map (fun r =>
                if Sql.same_run_file (rf_run row) (rf_file row) r
                then mkRunFile (rf_run r) (rf_file r) (rf_action r) "error"
                       (rf_reason r) (rf_error row)
                else r) t).
      split.
      * f_equal. apply map_id_in. intros a Ha.
        rewrite Forall_forall in Hold. specialize (Hold a Ha).
        unfold Sql.same_run_file. rewrite Hrow.
        destruct (Nat.eqb_spec (rf_run a) rid); [contradiction|reflexivity].
      * rewrite Forall_map. eapply Forall_impl; [|exact Ht].
        intros a Ha. now destruct (Sql.same_run_file _ _ a).
    + cbn. exists (t ++ [row]). rewrite E, app_assoc. split; [reflexivity|].
      apply Forall_app. split; [exact Ht|]. now constructor.
Qed.

(** The row of the run, and the audit rows, in the transaction a scan hands
    to the statement that finalises it: the rows of the earlier runs as they
    were, followed by the row of the run, still [running]; and after the
    audit rows that were there only rows of the run. *)
Lemma scan_rows e d w rid :
  Forall (fun rf => rf_run rf < seq_run d) (ingest_run_files d) ->
  scan_campaign e d = Ok (w, rid) ->
  rid = seq_run d /\
  ingest_runs (w_db w)
  = ingest_runs d
    ++ [mkRun (seq_run d) (e_campaign_id e) "api" "running" None None None]
  /\
  seq_run (w_db w) = S (seq_run d) /\
  audit_grown (seq_run d) (ingest_run_files d) (ingest_run_files (w_db w)).
Proof.
  intros Haudit H. apply scan_campaign_ok in H.
  destruct H as (_ & Hid & L).
  pose proof (sources_loop_frame _ _ _ _ _ L) as (_ & _ & F3 & F4).
  cbn [w_db Sql.insert_run fst set_ingest_runs seq_run ingest_runs] in F3, F4.
  split; [exact Hid|]. split; [exact F4|]. split; [exact F3|].
  eapply (sources_loop_closed (seq_run d)
            (audit_grown (seq_run d) (ingest_run_files d))); [|exact L|].
  - apply audit_grown_closed. eapply Forall_impl; [|exact Haudit].
    intros a Ha. cbv beta in Ha. lia.
  - cbn. exists []. rewrite app_nil_r. split; [reflexivity|constructor].
Qed.

End RunRows.

(* ------------------------------------------------------------------ *)
(** ** The store after a run *)

Section StoreAfterRun.

Context {HL : Hashlib}.

Lemma map_src_id_config l1 l2 :
  map config_of l1 = map config_of l2 -> map src_id l1 = map src_id l2.
Proof.
  revert l2. induction l1 as [|a l1 IH]; destruct l2 as [|b l2];
    cbn [map]; intros H; try discriminate; [reflexivity|].
  assert (H1 : config_of a = config_of b) by congruence.
  assert (H2 : map config_of l1 = map config_of l2) by congruence.
  f_equal; [|now apply IH]. unfold config_of in H1. congruence.
Qed.


(** The keys are sound in the transaction a scan hands to the statement
    that finalises the run. *)
Lemma scan_keeps_keys e d w rid :
  store_wf d -> runs_wf d -> fs_wf (e_fs e) ->
  scan_campaign e d = Ok (w, rid) ->
  store_wf (w_db w) /\ runs_wf (w_db w).
Proof.
  intros Hwf Hruns Hfs E.
  destruct (scan_rows e d w rid (proj2 (proj2 Hwf)) E)
    as (Hid & R1 & R2 & (t & R3 & Ht)).
  destruct (scan_leaves_synced e d w rid Hwf Hfs E) as (A & B & _).
  split.
  - split; [exact A|]. split.
    + rewrite (map_src_id_config _ _ B). apply Hwf.
    + rewrite R3, R2. apply Forall_app. split.
      * eapply Forall_impl; [|exact (proj2 (proj2 Hwf))].
        intros a Ha. cbv beta in Ha. lia.
      * eapply Forall_impl; [|exact Ht]. intros a Ha. cbv beta in Ha. lia.
  - unfold runs_wf. rewrite R1, R2. apply Forall_app. split.
    + eapply Forall_impl; [|exact Hruns]. intros a Ha. cbv beta in Ha. lia.
    + constructor; [|constructor]. cbn. lia.
Qed.

(** The Files of the sources a scan does not take up are as they were. *)
Lemma scan_frame_files e d w rid S' :
  store_wf d -> fs_wf (e_fs e) ->
  scan_campaign e d = Ok (w, rid) ->
  ~ In S' (map src_id (Sql.select_sources d (e_campaign_id e))) ->
  rows_of S' (source_files (w_db w)) = rows_of S' (source_files d).
Proof.
  intros Hwf Hfs E Hout.
  apply scan_campaign_ok in E. destruct E as (_ & _ & L).
  apply sources_loop_files in L.
  - destruct L as (_ & B & _). now apply B.
  - cbn. apply Hwf.
  - now apply store_wf_sources.
  - now apply fs_wf_walks.
Qed.

Lemma sources_loop_rootless e rid src : forall srcs w w',
  ids_wf (source_files (w_db w)) (seq_file (w_db w)) ->
  NoDup (map src_id srcs) ->
  walks_wf (e_fs e) srcs ->
  In src srcs ->
  fs_exists (e_fs e) (root_path src) = ExistsOk false ->
  for_each (scan_source e rid) srcs w = Ok w' ->
  rows_of (src_id src) (source_files (w_db w'))
  = rows_of (src_id src) (source_files (w_db w)).
Proof.
  induction srcs as [|s0 srcs IH]; intros w w' Hids Hnd Hwalks Hin Hex H;
    [destruct Hin|].
  simpl in H. unfold bind in H.
  destruct (scan_source e rid s0 w) as [w1|] eqn:E1; [|discriminate].
  inversion Hnd as [|? ? Hnotin Hnd']; subst.
  assert (Hw0 : NoDup (map obs_path
                         (walk_obs s0 (source_walk (e_fs e) s0))))
    by (apply Hwalks; now left).
  assert (Hwalks' : walks_wf (e_fs e) srcs)
    by (intros s Hs; apply Hwalks; now right).
  destruct (scan_source_files e rid s0 w w1 Hids Hw0 E1)
    as (A & B & _ & _ & D).
  destruct Hin as [->|Hin].
  - rewrite <- (D Hex).
    destruct (sources_loop_files e rid srcs w1 w' A Hnd' Hwalks' H)
      as (_ & F & _).
    now apply F.
  - rewrite (IH w1 w' A Hnd' Hwalks' Hin Hex H). apply B.
    intros Heq. apply Hnotin. rewrite <- Heq. now apply in_map.
Qed.

(** A source whose root is not there: its Files are as they were, and the
    message of the missing root is among the errors. *)
Lemma scan_skips_rootless e d w rid src :
  store_wf d -> fs_wf (e_fs e) ->
  In src (Sql.select_sources d (e_campaign_id e)) ->
  fs_exists (e_fs e) (root_path src) = ExistsOk false ->
  scan_campaign e d = Ok (w, rid) ->
  rows_of (src_id src) (source_files (w_db w))
  = rows_of (src_id src) (source_files d) /\
  status_of (w_stats w) = "partial" /\
  In (root_not_found src) (errors (w_stats w)).
Proof.
  intros Hwf Hfs Hin Hex E.
  destruct (scan_counts_sources e d w rid E) as (_ & _ & C).
  destruct (C src Hin Hex) as [C1 C2].
  split; [|now split].
  apply scan_campaign_ok in E. destruct E as (_ & _ & L).
  apply (sources_loop_rootless _ _ src) in L; auto.
  - cbn. apply Hwf.
  - now apply store_wf_sources.
  - now apply fs_wf_walks.
Qed.

(** Every file a scan observes has its live row, with the size and the time
    observed. *)
Lemma scan_syncs_files e d w rid src k sz mt :
  store_wf d -> fs_wf (e_fs e) ->
  scan_campaign e d = Ok (w, rid) ->
  In src (Sql.select_sources d (e_campaign_id e)) ->
  fs_exists (e_fs e) (root_path src) = ExistsOk true ->
  In (k, sz, mt) (walk_obs src (source_walk (e_fs e) src)) ->
  exists row,
    existing_row (source_files (w_db w)) (src_id src) k = Some row /\
    f_size_bytes row = sz /\ f_mtime_epoch row = mt.
Proof.
  intros Hwf Hfs E Hin Hex Hobs.
  destruct (scan_leaves_synced e d w rid Hwf Hfs E) as (_ & _ & _ & S).
  exact (S src Hin Hex k sz mt Hobs).
Qed.

End StoreAfterRun.

(* ------------------------------------------------------------------ *)
(** ** The glob matcher, the attributes of a file name *)

Section GlobRules.

(** The test of inclusion, in one statement. *)
Lemma should_include_iff rel inc exc :
  _should_include rel inc exc = true <->
  (forall p, In p exc -> path_match rel p <> Some true) /\
  (inc = [] \/ exists p, In p inc /\ path_match rel p = Some true).
Proof.
  destruct (should_include_rules rel inc exc) as (R1 & R2 & R3 & _).
  destruct (_matches_any rel exc) eqn:Ex.
  - rewrite (R1 eq_refl). split; [discriminate|].
    intros [H _]. apply matches_any_exists in Ex.
    destruct Ex as (p & Hp & Hm). now elim (H p Hp).
  - assert (Hno : forall p, In p exc -> path_match rel p <> Some true).
    { intros p Hp Hm.
      assert (_matches_any rel exc = true)
        by (apply matches_any_exists; now exists p).
      congruence. }
    destruct inc as [|i inc].
    + rewrite (R2 eq_refl eq_refl). split; [|reflexivity].
      intros _. split; [exact Hno|now left].
    + rewrite (R3 eq_refl) by discriminate. rewrite matches_any_exists.
      split.
      * intros H. split; [exact Hno|now right].
      * intros [_ [H|H]]; [discriminate|exact H].
Qed.

Lemma parts_length s :
  length (Posix.parts s)
  = (if String.eqb (Posix.root s) "" then 0 else 1)
    + length (Posix.segments s).
Proof.
  unfold Posix.parts. rewrite length_app.
  now destruct (String.eqb (Posix.root s) "").
Qed.

(** A pattern with more parts than the path does not match it. *)
Lemma path_match_longer rel pat :
  length (Posix.parts rel) < length (Posix.parts pat) ->
  path_match rel pat = Some false.
Proof.
  intros H. unfold path_match. rewrite (parts_length pat) in H.
  destruct (String.eqb (Posix.root pat) "") eqn:Ep.
  - destruct (Posix.segments pat) as [|q qs] eqn:E; [simpl in H; lia|].
    cbn [Nat.add] in H. apply Nat.ltb_lt in H. now rewrite H.
  - destruct (String.eqb_spec (Posix.root pat) (Posix.root rel)) as [Er|];
      [|reflexivity].
    cbn [negb]. rewrite (parts_length rel), <- Er, Ep in H.
    destruct (Nat.eqb_spec (length (Posix.segments pat))
                (length (Posix.segments rel))); [lia|reflexivity].
Qed.

Lemma should_include_longer rel inc exc :
  inc <> [] ->
  (forall p, In p inc ->
     length (Posix.parts rel) < length (Posix.parts p)) ->
  _should_include rel inc exc = false.
Proof.
  intros Hne Hlong.
  destruct (_should_include rel inc exc) eqn:E; [|reflexivity].
  apply should_include_iff in E. destruct E as [_ [E|(p & Hp & Hm)]].
  - contradiction.
  - rewrite (path_match_longer rel p (Hlong p Hp)) in Hm. discriminate.
Qed.

(** A relative pattern of one segment is matched against the last segment
    of the path, whatever the directories before it. *)
Lemma path_match_name rel pat q dirs name :
  Posix.root pat = "" ->
  Posix.segments pat = [q] ->
  Posix.segments rel = dirs ++ [name] ->
  path_match rel pat = Some (Fnmatch.fnmatchcase name q).
Proof.
  intros Hr Hq Hs. unfold path_match. rewrite Hr, Hq. cbn [String.eqb].
  rewrite parts_length, Hs. unfold Posix.parts. rewrite Hs.
  rewrite length_app. cbn [length].
  match goal with
  | |- context [?n <? 1] => destruct (Nat.ltb_spec n 1); [lia|]
  end.
  rewrite app_assoc, rev_app_distr. cbn [rev app match_reversed].
  match goal with
  | |- context [match_reversed ?l []] => destruct l
  end; cbn [match_reversed]; now rewrite andb_true_r.
Qed.

Lemma append_nil_r (s : string) : (s ++ "")%string = s.
Proof. induction s as [|c s IH]; simpl; [reflexivity|now rewrite IH]. Qed.

Lemma stem_suffix name :
  (PathAttr.stem name ++ PathAttr.suffix name)%string = name.
Proof.
  unfold PathAttr.stem, PathAttr.suffix.
  destruct (PathAttr.rfind_dot _ 0 None) as [i|];
    [|apply append_nil_r].
  destruct (_ && _); [|apply append_nil_r].
  rewrite <- (string_of_list_ascii_of_string name) at 3.
  rewrite <- (firstn_skipn i (list_ascii_of_string name)) at 3.
  generalize (firstn i (list_ascii_of_string name)).
  intros l. induction l as [|a l IH]; simpl; [reflexivity|now rewrite IH].
Qed.

Lemma lstrip_dots_head l c rest :
  PathAttr.lstrip_dots l = c :: rest -> c <> "."%char.
Proof.
  induction l as [|a l IH]; simpl; [discriminate|].
  destruct (Ascii.eqb_spec a PathAttr.dot) as [->|Hne]; [exact IH|].
  intros H. inv H. exact Hne.
Qed.

(** The extension stored with a File: never empty, and without the dot. *)
Lemma ext_of_clean name x :
  PathAttr.ext_of name = Some x ->
  exists c rest, x = String c rest /\ c <> "."%char.
Proof.
  unfold PathAttr.ext_of.
  destruct (PathAttr.lstrip_dots _) as [|c rest] eqn:E; [discriminate|].
  intros H. inv H. exists c, (string_of_list_ascii rest).
  split; [reflexivity|]. eapply lstrip_dots_head. exact E.
Qed.

End GlobRules.

(* ------------------------------------------------------------------ *)
(** ** The routes that read what a run wrote *)

Section Routes.

Context {HL : Hashlib}.

Lemma insert_by_last {A} (key : A -> nat) (x : A) (l : list A) :
  Forall (fun y => key y <= key x) l -> insert_by key x l = l ++ [x].
Proof.
  induction 1 as [|y l Hy _ IH]; simpl; [reflexivity|].
  destruct (Nat.ltb_spec (key x) (key y)); [lia|]. now rewrite IH.
Qed.

Lemma sorted_app_head {A} (key : A -> nat) (acc : list A) x l :
  StronglySorted le (map key (acc ++ x :: l)) ->
  Forall (fun y => key y <= key x) acc.
Proof.
  induction acc as [|a acc IH]; simpl; intros H; [constructor|].
  inversion H as [|? ? Hs Hall]; subst. constructor.
  - rewrite Forall_forall in Hall. apply Hall. rewrite map_app.
    apply in_or_app. right. now left.
  - now apply IH.
Qed.

Lemma order_by_sorted_from {A} (key : A -> nat) : forall l acc,
  StronglySorted le (map key (acc ++ l)) ->
  fold_left (fun acc x => insert_by key x acc) l acc = acc ++ l.
Proof.
  induction l as [|x l IH]; intros acc H; simpl.
  - now rewrite app_nil_r.
  - rewrite insert_by_last by (eapply sorted_app_head; exact H).
    rewrite IH; rewrite <- app_assoc; [reflexivity|exact H].
Qed.

(** Rows that are in the order of their keys stay as they are. *)
Lemma order_by_sorted {A} (key : A -> nat) (l : list A) :
  StronglySorted le (map key l) -> order_by key l = l.
Proof. intros H. unfold order_by. now apply order_by_sorted_from. Qed.

Lemma insert_by_in {A} (key : A -> nat) (x y : A) (l : list A) :
  In y (insert_by key x l) <-> y = x \/ In y l.
Proof.
  induction l as [|a l IH]; simpl; [intuition|].
  destruct (key x <? key a); simpl; [intuition|]. rewrite IH. intuition.
Qed.

Lemma order_by_in {A} (key : A -> nat) (y : A) (l : list A) :
  In y (order_by key l) <-> In y l.
Proof.
  unfold order_by.
  assert (H : forall l acc,
            In y (fold_left (fun acc x => insert_by key x acc) l acc)
            <-> In y acc \/ In y l).
  { induction l0 as [|a l0 IH]; intros acc; simpl; [intuition|].
    rewrite IH, insert_by_in. intuition. }
  rewrite H. simpl. intuition.
Qed.

Lemma insert_by_sorted {A} (key : A -> nat) (x : A) (l : list A) :
  StronglySorted le (map key l) ->
  StronglySorted le (map key (insert_by key x l)).
Proof.
  induction l as [|y l IH]; simpl; intros H.
  - constructor; constructor.
  - inversion H as [|? ? Hs Hall]; subst.
    destruct (Nat.ltb_spec (key x) (key y)); simpl.
    + constructor; [exact H|]. constructor; [lia|].
      eapply Forall_impl; [|exact Hall]. intros a Ha. cbv beta in Ha. lia.
    + constructor; [now apply IH|].
      apply Forall_forall. intros k Hk. apply in_map_iff in Hk.
      destruct Hk as (z & <- & Hz). apply insert_by_in in Hz.
      destruct Hz as [->|Hz]; [lia|].
      rewrite Forall_forall in Hall. apply Hall. now apply in_map.
Qed.

(** [ORDER BY] gives rows in the order of their keys. *)
Lemma order_by_is_sorted {A} (key : A -> nat) (l : list A) :
  StronglySorted le (map key (order_by key l)).
Proof.
  unfold order_by.
  assert (H : forall l acc,
            StronglySorted le (map key acc) ->
            StronglySorted le
              (map key (fold_left (fun acc x => insert_by key x acc) l acc))).
  { induction l0 as [|a l0 IH]; intros acc Hacc; simpl; [exact Hacc|].
    apply IH. now apply insert_by_sorted. }
  apply H. constructor.
Qed.

Lemma in_firstn {A} (x : A) : forall n l, In x (firstn n l) -> In x l.
Proof.
  induction n as [|n IH]; intros [|a l]; simpl; try tauto.
  intros [->|H]; [now left|right; now apply IH].
Qed.

Lemma in_skipn {A} (x : A) : forall n l, In x (skipn n l) -> In x l.
Proof.
  induction n as [|n IH]; intros [|a l]; simpl; auto.
Qed.

Lemma sorted_skipn (l : list nat) : forall n,
  StronglySorted le l -> StronglySorted le (skipn n l).
Proof.
  induction l as [|a l IH]; intros [|n] H; simpl; auto.
  inversion H; subst. now apply IH.
Qed.

Lemma sorted_firstn (l : list nat) : forall n,
  StronglySorted le l -> StronglySorted le (firstn n l).
Proof.
  induction l as [|a l IH]; intros [|n] H; simpl; try constructor.
  - inversion H; subst. now apply IH.
  - inversion H as [|? ? Hs Hall]; subst.
    apply Forall_forall. intros x Hx.
    rewrite Forall_forall in Hall. apply Hall.
    eapply in_firstn. exact Hx.
Qed.

Lemma in_firstn_skipn {A} (l : list A) n m x :
  In x (firstn n (skipn m l)) -> In x l.
Proof.
  intros H. apply in_firstn in H. eapply in_skipn. exact H.
Qed.

(** The page of Fragments of a Document: 404 when no Document has the id;
    otherwise the total counts the Fragments of the Document, and the items
    are at most [limit] Fragments of that Document in the order of their
    index, all of them when the page starts at 0 and is wide enough. *)
Lemma list_document_chunks_page d doc_id lim off :
  ((forall r, In r (kb_documents d) -> d_id r <> doc_id) ->
   list_document_chunks d doc_id lim off
   = AnswerError 404 "Document not found.") /\
  ((exists r, In r (kb_documents d) /\ d_id r = doc_id) ->
   exists items,
     list_document_chunks d doc_id lim off
     = Answer200 (mkPage items (length (chunks_of doc_id d)) lim off) /\
     length items <= lim /\
     StronglySorted le (map ch_chunk_index items) /\
     (forall ch, In ch items ->
        In ch (kb_chunks d) /\ ch_document ch = doc_id) /\
     (off = 0 -> length (chunks_of doc_id d) <= lim ->
      forall ch, In ch (kb_chunks d) -> ch_document ch = doc_id ->
                 In ch items)).
Proof.
  unfold list_document_chunks. split.
  - intros Hno.
    destruct (find (fun r => d_id r =? doc_id) (kb_documents d)) as [r|] eqn:E;
      [|reflexivity].
    apply find_some in E. destruct E as [Hin He]. apply Nat.eqb_eq in He.
    now elim (Hno r Hin).
  - intros (r & Hin & Hid).
    destruct (find (fun r => d_id r =? doc_id) (kb_documents d)) as [r0|] eqn:E.
    2:{ pose proof (find_none _ _ E r Hin) as Hn. cbv beta in Hn.
        rewrite Hid, Nat.eqb_refl in Hn. discriminate. }
    eexists. split; [reflexivity|]. split; [apply firstn_le_length|].
    split; [|split].
    + rewrite <- firstn_map, <- skipn_map.
      apply sorted_firstn, sorted_skipn, order_by_is_sorted.
    + intros ch Hch. apply in_firstn_skipn in Hch.
      apply order_by_in in Hch. unfold chunks_of in Hch.
      apply filter_In in Hch. destruct Hch as [H1 H2].
      apply Nat.eqb_eq in H2. now split.
    + intros -> Hlim ch Hch Hdoc. cbn [skipn].
      assert (Hlen : forall (A : Type) (key : A -> nat) (l : list A),
                length (order_by key l) = length l).
      { intros A key l. unfold order_by.
        assert (Hi : forall x (acc : list A),
                  length (insert_by key x acc) = S (length acc)).
        { intros x acc. induction acc as [|y acc IH]; simpl; [reflexivity|].
          destruct (key x <? key y); simpl; [reflexivity|now rewrite IH]. }
        assert (Hf : forall l0 acc,
                  length (fold_left (fun acc x => insert_by key x acc) l0 acc)
                  = length acc + length l0).
        { induction l0 as [|a l0 IH]; intros acc; simpl; [lia|].
          rewrite IH, Hi. lia. }
        rewrite Hf. reflexivity. }
      rewrite firstn_all2 by (rewrite Hlen; exact Hlim).
      apply order_by_in. unfold chunks_of. apply filter_In.
      split; [exact Hch|]. now apply Nat.eqb_eq.
Qed.

End Routes.

(* ------------------------------------------------------------------ *)
(** ** A file that cannot be read for ingestion *)

Section IngestError.

Context {HL : Hashlib}.

Lemma upsert_run_file_error_row row d :
  rf_status row = "error" ->
  exists rf,
    In rf (ingest_run_files (Sql.upsert_run_file_error row d)) /\
    rf_run rf = rf_run row /\ rf_file rf = rf_file row /\
    rf_status rf = "error" /\ rf_error rf = rf_error row.
Proof.
  intros Hst. unfold Sql.upsert_run_file_error.
  destruct (existsb _ _) eqn:E.
  - apply existsb_exists in E. destruct E as (r0 & Hin & Hsame).
    exists (mkRunFile (rf_run r0) (rf_file r0) (rf_action r0) "error"
              (rf_reason r0) (rf_error row)).
    unfold Sql.same_run_file in Hsame. apply andb_prop in Hsame.
    destruct Hsame as [H1 H2]. apply Nat.eqb_eq in H1, H2.
    split; [|now repeat split].
    cbn. apply in_map_iff. exists r0. split; [|exact Hin].
    unfold Sql.same_run_file. now rewrite H1, H2, !Nat.eqb_refl.
  - exists row. split; [|now repeat split].
    cbn. apply in_or_app. right. now left.
Qed.

Lemma update_rows_marked sid h d row :
  (forall r, f_id (h r) = f_id r) ->
  In row (source_files (Sql.update_rows sid h d)) -> f_id row = sid ->
  exists r0, row = h r0.
Proof.
  intros Hid Hin Hrow. cbn in Hin. apply in_map_iff in Hin.
  destruct Hin as (r0 & E & _).
  destruct (Nat.eqb_spec (f_id r0) sid) as [He|Hne].
  - now exists r0.
  - subst row. contradiction.
Qed.

(** A new or changed file that is not hashed and cannot be read: the scan
    goes on, the failure is among the errors, on the row of the File and in
    the audit row, no Document is written, and the attempt counts against
    the cap. *)
Lemma process_file_unreadable e rid src em dir fe sc sz mt msg :
  entry_included src dir fe = true ->
  fe_stat fe = StatOk sz mt ->
  fe_open fe = OpenErr msg ->
  hashing_mode (src_change_detection src) = false ->
  meta_changed (Dict.get em (entry_rel dir fe)) sz mt = true ->
  e_dry_run e = false ->
  cap_reached (e_max_files e) (sc_files_to_ingest sc) = false ->
  exists sc',
    process_file e rid src em dir fe sc = Ok sc' /\
    errors (w_stats (sc_world sc'))
    = errors (w_stats (sc_world sc))
      ++ [("ingest failed for " ++ entry_rel dir fe ++ ": " ++ msg)%string]
    /\
    sc_files_to_ingest sc' = (sc_files_to_ingest sc + 1)%Z /\
    kb_documents (w_db (sc_world sc')) = kb_documents (w_db (sc_world sc)) /\
    kb_chunks (w_db (sc_world sc')) = kb_chunks (w_db (sc_world sc)) /\
    (exists rf,
       In rf (ingest_run_files (w_db (sc_world sc'))) /\
       rf_run rf = rid /\
       rf_file rf
       = row_id (Dict.get em (entry_rel dir fe)) (w_db (sc_world sc)) /\
       rf_status rf = "error" /\ rf_error rf = Some (truncate msg)) /\
    (forall row,
       In row (source_files (w_db (sc_world sc'))) ->
       f_id row
       = row_id (Dict.get em (entry_rel dir fe)) (w_db (sc_world sc)) ->
       f_last_ingest_status row = "error" /\
       f_error row = Some (truncate msg) /\
       f_last_ingested_at row = Some (e_now e)).
Proof.
  intros Hi Hs Ho Hm Hc Hdry Hcap.
  unfold process_file. unfold entry_included, entry_rel in *.
  rewrite Hi, Hs. cbn [negb]. unfold detect_change. rewrite Hm.
  cbn [andb bind].
  assert (Hchg :
    (is_none (Dict.get em (PathAttr.rel_of dir (fe_name fe)))
     || meta_changed (Dict.get em (PathAttr.rel_of dir (fe_name fe))) sz mt)
    = true) by (rewrite Hc; apply orb_true_r).
  unfold meta_changed, is_none in Hchg.
  cbn [v_is_new v_changed v_hashed v_sha256].
  destruct (upsert_source_file _ _ _ _ _ _ _ _ _ _) as [conn sid] eqn:Eu.
  assert (Hsid : sid = row_id (Dict.get em (PathAttr.rel_of dir (fe_name fe)))
                         (w_db (sc_world sc))).
  { unfold upsert_source_file in Eu.
    destruct (Dict.get em _); cbn in Eu; now inv Eu. }
  pose proof (upsert_source_file_other _ _ _ _ _ _ _ _ _ _ _ _ Eu)
    as (_ & _ & _ & E4 & E5 & _ & E7 & _).
  cbn [w_db on_stats] in E4, E5, E7.
  match goal with
  | |- context [if ?b then _ else _] =>
      replace b with true
        by (symmetry; rewrite Hdry;
            destruct (Dict.get em (PathAttr.rel_of dir (fe_name fe)));
            cbn in *; now rewrite ?Hchg)
  end.
  rewrite Hcap. unfold ingest_file. rewrite Ho. cbn [bind].
  eexists. split; [reflexivity|].
  cbn [sc_world sc_files_to_ingest].
  unfold emit, on_stats, on_db. cbn [w_db w_stats w_trace].
  split.
  { cbn [errors append_error].
    now rewrite (proj2 (count_verdict_keeps _ _)). }
  split; [reflexivity|].
  split; [unfold Sql.upsert_run_file_error; destruct (existsb _ _); cbn;
          exact E4|].
  split; [unfold Sql.upsert_run_file_error; destruct (existsb _ _); cbn;
          exact E5|].
  split.
  - destruct (upsert_run_file_error_row
                (mkRunFile rid sid "ingest" "error" None (Some (truncate msg)))
                (Sql.update_rows sid
                   (Sql.mark_ingest (e_now e) "error" (Some (truncate msg)))
                   conn) eq_refl) as (rf & H1 & H2 & H3 & H4 & H5).
    exists rf. cbn in H2, H3, H5. rewrite <- Hsid. now repeat split.
  - intros row Hin Hrow. rewrite <- Hsid in Hrow.
    assert (Hin' : In row (source_files
                             (Sql.update_rows sid
                                (Sql.mark_ingest (e_now e) "error"
                                   (Some (truncate msg))) conn))).
    { revert Hin. unfold Sql.upsert_run_file_error.
      destruct (existsb _ _); cbn; exact (fun H => H). }
    apply update_rows_marked in Hin'; [|reflexivity|exact Hrow].
    destruct Hin' as (r0 & ->). now repeat split.
Qed.

End IngestError.

(* ------------------------------------------------------------------ *)
(** ** A file that is ingested *)

Section Ingested.

Context {HL : Hashlib}.

(** After the materializer, whatever its answer, the Document of the file
    holds the hash of the body. *)
Lemma upsert_document_post now conn c f title ty body conn' id act :
  _upsert_document_and_chunks now conn c f title ty body
  = Ok (conn', (id, act)) ->
  exists doc,
    Sql.select_document conn' c f = Some doc /\ d_id doc = id /\
    d_content_hash doc = _sha256_text body.
Proof.
  intros H.
  pose proof (upsert_document_twice now now conn c f title ty body conn' id
                act H) as H2.
  unfold _upsert_document_and_chunks, bind in H2.
  destruct (Sql.select_document conn' c f) as [doc|] eqn:E.
  - destruct (String.eqb_spec (d_content_hash doc) (_sha256_text body))
      as [Hh|Hh].
    + inv H2. now exists doc.
    + destruct (insert_chunks _ _ _ _ _); inv H2.
  - destruct (Sql.insert_document _ _ _ _ _ _ _) as [c1 i1].
    destruct (insert_chunks _ _ _ _ _); inv H2.
Qed.

Lemma refused_spec conn c f body :
  refused conn c f body = true <->
  would_skip conn c f body = false /\ strip_text body <> "".
Proof.
  unfold refused. rewrite andb_true_iff, !negb_true_iff.
  rewrite <- chunk_body_nil.
  destruct (chunk_body body); cbn; split; intros [A B]; split; auto;
    try discriminate; congruence.
Qed.

(** A new or changed file that is read and whose text the materializer is
    not refused: its Document holds the hash of its text, no Fragment was
    added, the row of the File says [ok] or [skipped], without an error, and
    the run has an audit row for it. *)
Lemma process_file_materializes e rid src em dir fe sc sz mt v content :
  entry_included src dir fe = true ->
  fe_stat fe = StatOk sz mt ->
  fe_open fe = OpenOk content ->
  detect_change (src_change_detection src) (e_force_rehash e)
    (Dict.get em (entry_rel dir fe)) sz mt (fe_open fe) = Ok v ->
  attempts e v (sc_files_to_ingest sc) = true ->
  refused (w_db (sc_world sc)) (e_campaign_id e)
    (row_id (Dict.get em (entry_rel dir fe)) (w_db (sc_world sc)))
    (utf8_decode_replace content) = false ->
  exists sc',
    process_file e rid src em dir fe sc = Ok sc' /\
    (exists doc,
       Sql.select_document (w_db (sc_world sc')) (e_campaign_id e)
         (row_id (Dict.get em (entry_rel dir fe)) (w_db (sc_world sc)))
       = Some doc /\
       d_content_hash doc = _sha256_text (utf8_decode_replace content)) /\
    (forall ch, In ch (kb_chunks (w_db (sc_world sc'))) ->
                In ch (kb_chunks (w_db (sc_world sc)))) /\
    (exists rf,
       In rf (ingest_run_files (w_db (sc_world sc'))) /\
       rf_run rf = rid /\
       rf_file rf
       = row_id (Dict.get em (entry_rel dir fe)) (w_db (sc_world sc))) /\
    (forall row,
       In row (source_files (w_db (sc_world sc'))) ->
       f_id row
       = row_id (Dict.get em (entry_rel dir fe)) (w_db (sc_world sc)) ->
       (f_last_ingest_status row = "ok"
        \/ f_last_ingest_status row = "skipped") /\
       f_error row = None /\
       f_last_ingested_at row = Some (e_now e)).
Proof.
  intros Hi Hs Ho Hd Ha Hr.
  destruct (process_file_ingestion e rid src em dir fe sc sz mt v Hi Hs Hd Ha)
    as (w1 & E1 & E2 & _ & ->).
  set (sid := row_id (Dict.get em (entry_rel dir fe)) (w_db (sc_world sc)))
    in *.
  rewrite <- (refused_docs _ _ _ _ _ E1) in Hr.
  rewrite Ho. unfold ingest_file. cbn [emit w_db].
  match goal with
  | |- context [_upsert_document_and_chunks ?n ?cn ?c ?f ?t ?ty ?b] =>
      destruct (upsert_document_returns n cn c f t ty b Hr)
        as (conn2 & id & Em);
      rewrite Em
  end.
  set (act := if would_skip _ _ _ _ then "skipped" else "ingested") in *.
  cbn [bind]. eexists. split; [reflexivity|]. cbn [sc_world].
  destruct (upsert_document_post _ _ _ _ _ _ _ _ _ _ Em)
    as (doc & Hsel & _ & Hh).
  pose proof (upsert_document_no_fragment _ _ _ _ _ _ _ _ _ Em) as Hnf.
  unfold emit, on_stats, on_db. cbn [w_db w_stats w_trace].
  split; [|split; [|split]].
  - exists doc. split; [|exact Hh].
    unfold Sql.select_document, Sql.insert_run_file in *.
    destruct (existsb _ _); cbn; exact Hsel.
  - intros ch Hch. rewrite <- E2. apply Hnf.
    revert Hch. unfold Sql.insert_run_file.
    destruct (existsb _ _); cbn; exact (fun H => H).
  - unfold Sql.insert_run_file. destruct (existsb _ _) eqn:Ex.
    + apply existsb_exists in Ex. destruct Ex as (rf & Hin & Hsame).
      unfold Sql.same_run_file in Hsame. cbn in Hsame.
      apply andb_prop in Hsame. destruct Hsame as [H1 H2].
      apply Nat.eqb_eq in H1, H2. now exists rf.
    + eexists. split; [cbn; apply in_or_app; right; now left|].
      now split.
  - intros row Hin Hrow.
    assert (Hin' : In row (source_files
                             (Sql.update_rows sid
                                (Sql.mark_ingest (e_now e)
                                   (if String.eqb act "ingested"
                                    then "ok" else "skipped") None)
                                conn2))).
    { revert Hin. unfold Sql.insert_run_file.
      destruct (existsb _ _); cbn; exact (fun H => H). }
    apply update_rows_marked in Hin'; [|reflexivity|exact Hrow].
    destruct Hin' as (r0 & ->). cbn.
    destruct (String.eqb act "ingested"); split; auto.
Qed.

End Ingested.

(* ------------------------------------------------------------------ *)
(** ** The globs of the source form *)

Section FormGlobs.

Lemma lstrip_head l c t : Py.lstrip l = c :: t -> Py.is_space c = false.
Proof.
  induction l as [|a l IH]; simpl; [discriminate|].
  destruct (Py.is_space a) eqn:E; [exact IH|]. intros H. now inv H.
Qed.

Lemma lstrip_fixed c t : Py.is_space c = false -> Py.lstrip (c :: t) = c :: t.
Proof. intros H. simpl. now rewrite H. Qed.

Lemma lstrip_idem l : Py.lstrip (Py.lstrip l) = Py.lstrip l.
Proof.
  destruct (Py.lstrip l) as [|c t] eqn:E; [reflexivity|].
  apply lstrip_fixed. eapply lstrip_head. exact E.
Qed.

Lemma rstrip_idem l : Py.rstrip (Py.rstrip l) = Py.rstrip l.
Proof. unfold Py.rstrip. now rewrite rev_involutive, lstrip_idem. Qed.

Lemma lstrip_snoc l c :
  Py.is_space c = false -> Py.lstrip (l ++ [c]) = Py.lstrip l ++ [c].
Proof.
  intros H. induction l as [|a l IH]; simpl; [now rewrite H|].
  destruct (Py.is_space a); [exact IH|reflexivity].
Qed.

Lemma rstrip_cons c t :
  Py.is_space c = false -> Py.rstrip (c :: t) = c :: Py.rstrip t.
Proof.
  intros H. unfold Py.rstrip. simpl. rewrite lstrip_snoc by exact H.
  now rewrite rev_app_distr.
Qed.

Lemma strip_idem l : Py.strip (Py.strip l) = Py.strip l.
Proof.
  unfold Py.strip. destruct (Py.lstrip l) as [|c t] eqn:E; [reflexivity|].
  pose proof (lstrip_head l c t E) as Hc.
  rewrite (rstrip_cons c t Hc), (lstrip_fixed c _ Hc), (rstrip_cons c _ Hc).
  now rewrite rstrip_idem.
Qed.

Lemma linebreak_is_space c : is_linebreak c = true -> Py.is_space c = true.
Proof.
  destruct c as [[] [] [] [] [] [] [] []]; vm_compute; intros H;
    congruence.
Qed.

Lemma rev_no_break cur :
  Forall (fun c => is_linebreak c = false) cur ->
  Forall (fun c => is_linebreak c = false) (rev cur).
Proof.
  intros H. apply Forall_forall. intros x Hx. apply in_rev in Hx.
  rewrite Forall_forall in H. now apply H.
Qed.

Lemma splitlines_no_break_len : forall n s cur,
  length s <= n ->
  Forall (fun c => is_linebreak c = false) cur ->
  Forall (Forall (fun c => is_linebreak c = false)) (splitlines s cur).
Proof.
  induction n as [|n IH]; intros s cur Hlen Hcur; destruct s as [|c t];
    simpl in *; try lia.
  - destruct cur; [constructor|].
    constructor; [now apply rev_no_break|constructor].
  - destruct cur; [constructor|].
    constructor; [now apply rev_no_break|constructor].
  - destruct (is_linebreak c) eqn:Ec.
    + constructor; [now apply rev_no_break|].
      destruct t as [|c2 t']; [apply IH; [simpl; lia|constructor]|].
      destruct (_ && _); apply IH; simpl in *; try lia; constructor.
    + apply IH; [lia|now constructor].
Qed.

(** No line of [splitlines] holds a line boundary. *)
Lemma splitlines_no_break s cur :
  Forall (fun c => is_linebreak c = false) cur ->
  Forall (Forall (fun c => is_linebreak c = false)) (splitlines s cur).
Proof. apply (splitlines_no_break_len (length s)). lia. Qed.

Lemma strip_sub l : forall x, In x (Py.strip l) -> In x l.
Proof.
  assert (Hl : forall l x, In x (Py.lstrip l) -> In x l).
  { induction l0 as [|a l0 IH]; simpl; [tauto|].
    intros x. destruct (Py.is_space a); [intros H; right; now apply IH|].
    exact (fun H => H). }
  intros x Hx. unfold Py.strip, Py.rstrip in Hx.
  apply in_rev in Hx. apply Hl in Hx. apply in_rev in Hx. now apply Hl.
Qed.

(** The globs read off the form are clean. *)
Lemma glob_lines_clean raw : Forall clean_glob (glob_lines raw).
Proof.
  unfold glob_lines. rewrite Forall_map. apply Forall_forall.
  intros ln Hln. apply filter_In in Hln. destruct Hln as [Hin Hne].
  unfold clean_glob, strip_text.
  rewrite list_ascii_of_string_of_list_ascii, strip_idem.
  split; [|split; [reflexivity|]].
  - destruct (Py.strip ln); [discriminate|discriminate].
  - pose proof (splitlines_no_break (list_ascii_of_string raw) []
                  (Forall_nil _)) as H.
    rewrite Forall_forall in H. specialize (H ln Hin).
    apply Forall_forall. intros x Hx. apply strip_sub in Hx.
    rewrite Forall_forall in H. now apply H.
Qed.

Lemma splitlines_line : forall g rest cur,
  Forall (fun c => is_linebreak c = false) g ->
  splitlines (g ++ rest) cur = splitlines rest (rev g ++ cur).
Proof.
  induction g as [|c g IH]; intros rest cur H; [reflexivity|].
  inversion H as [|? ? Hc Hg]; subst. simpl. rewrite Hc.
  rewrite IH by exact Hg. now rewrite <- app_assoc.
Qed.

Lemma list_ascii_app (a b : string) :
  list_ascii_of_string (a ++ b)
  = list_ascii_of_string a ++ list_ascii_of_string b.
Proof. induction a as [|c a IH]; simpl; [reflexivity|now rewrite IH]. Qed.

Lemma splitlines_join : forall gs,
  Forall clean_glob gs ->
  splitlines (list_ascii_of_string (join_lines gs)) []
  = map list_ascii_of_string gs.
Proof.
  induction gs as [|g gs IH]; intros H; [reflexivity|].
  inversion H as [|? ? Hg Hgs]; subst. destruct Hg as (Hne & _ & Hnb).
  destruct gs as [|g2 gs].
  - cbn [join_lines map].
    rewrite <- (app_nil_r (list_ascii_of_string g)) at 1.
    rewrite splitlines_line by exact Hnb. rewrite app_nil_r. cbn.
    destruct (rev (list_ascii_of_string g)) eqn:E.
    + apply (f_equal (@rev _)) in E. rewrite rev_involutive in E.
      destruct g; [now elim Hne|discriminate].
    + rewrite <- E, rev_involutive. reflexivity.
  - change (join_lines (g :: g2 :: gs))
      with (g ++ newline ++ join_lines (g2 :: gs))%string.
    rewrite !list_ascii_app, splitlines_line by exact Hnb.
    change (map list_ascii_of_string (g :: g2 :: gs))
      with (list_ascii_of_string g :: map list_ascii_of_string (g2 :: gs)).
    rewrite app_nil_r, <- (IH Hgs).
    change (list_ascii_of_string newline) with [ascii_of_nat 10].
    cbn [app splitlines]. rewrite rev_involutive.
    change (is_linebreak (ascii_of_nat 10)) with true. cbv iota.
    f_equal.
    destruct (list_ascii_of_string (join_lines (g2 :: gs)));
      reflexivity.
Qed.

(** Clean globs, one on each line, are read back as they are. *)
Lemma glob_lines_join gs :
  Forall clean_glob gs -> glob_lines (join_lines gs) = gs.
Proof.
  intros H. unfold glob_lines. rewrite splitlines_join by exact H.
  induction H as [|g gs Hg _ IH]; [reflexivity|].
  destruct Hg as (Hne & Hs & _). unfold strip_text in Hs.
  cbn [map filter].
  assert (E : Py.strip (list_ascii_of_string g) = list_ascii_of_string g).
  { rewrite <- Hs at 2. now rewrite list_ascii_of_string_of_list_ascii. }
  assert (Hnn : is_nil (list_ascii_of_string g) = false)
    by (destruct g; [now elim Hne|reflexivity]).
  rewrite E, Hnn. cbn [negb map].
  rewrite E, string_of_list_ascii_of_string. f_equal. exact IH.
Qed.

End FormGlobs.

(* ------------------------------------------------------------------ *)
(** ** The Folders of a scan *)

Section Folders.

Context {HL : Hashlib}.

Lemma same_folder_spec S k r :
  Sql.same_folder S k r = true <-> fo_source r = S /\ fo_rel_path r = k.
Proof.
  unfold Sql.same_folder. rewrite andb_true_iff, Nat.eqb_eq, String.eqb_eq.
  reflexivity.
Qed.

Lemma touch_folder_keeps now S k S' k' d :
  folder_seen now S k d ->
  folder_seen now S k (Sql.touch_folder now S' k' d).
Proof.
  intros (row & Hin & H1 & H2 & H3). cbn.
  exists (if Sql.same_folder S' k' row then Sql.touch_folder_row now row
          else row).
  split; [apply in_map_iff; now exists row|].
  destruct (Sql.same_folder S' k' row); now repeat split.
Qed.

Lemma touch_folder_known now S k S' k' d :
  folder_known S k d -> folder_known S k (Sql.touch_folder now S' k' d).
Proof.
  intros (row & Hin & H1 & H2). cbn.
  exists (if Sql.same_folder S' k' row then Sql.touch_folder_row now row
          else row).
  split; [apply in_map_iff; now exists row|].
  destruct (Sql.same_folder S' k' row); now repeat split.
Qed.

Lemma touch_folder_sets now S k d :
  folder_known S k d -> folder_seen now S k (Sql.touch_folder now S k d).
Proof.
  intros (row & Hin & H1 & H2). cbn.
  exists (Sql.touch_folder_row now row).
  split; [|now repeat split].
  apply in_map_iff. exists row. split; [|exact Hin].
  replace (Sql.same_folder S k row) with true; [reflexivity|].
  symmetry. now apply same_folder_spec.
Qed.

Lemma upsert_folder_keeps now S k S' k' parent depth d :
  folder_seen now S k d ->
  folder_seen now S k (fst (Sql.upsert_folder now S' k' parent depth d)).
Proof.
  intros H. unfold Sql.upsert_folder. destruct (find _ _); cbn [fst].
  - now apply touch_folder_keeps.
  - destruct H as (row & Hin & H1). exists row.
    split; [cbn; apply in_or_app; now left|exact H1].
Qed.

Lemma upsert_folder_known now S k S' k' parent depth d :
  folder_known S k d ->
  folder_known S k (fst (Sql.upsert_folder now S' k' parent depth d)).
Proof.
  intros H. unfold Sql.upsert_folder. destruct (find _ _); cbn [fst].
  - now apply touch_folder_known.
  - destruct H as (row & Hin & H1). exists row.
    split; [cbn; apply in_or_app; now left|exact H1].
Qed.

Lemma upsert_folder_sets now S k parent depth d :
  folder_seen now S k (fst (Sql.upsert_folder now S k parent depth d)).
Proof.
  unfold Sql.upsert_folder.
  destruct (find (Sql.same_folder S k) (source_folders d)) as [r|] eqn:E;
    cbn [fst].
  - apply touch_folder_sets. apply find_some in E. destruct E as [Hin Hs].
    apply same_folder_spec in Hs. exists r. now split.
  - eexists. split; [cbn; apply in_or_app; right; now left|].
    now repeat split.
Qed.

Lemma folder_seen_known now S k d :
  folder_seen now S k d -> folder_known S k d.
Proof. intros (row & Hin & H1 & H2 & _). now exists row. Qed.

Lemma ingest_file_folders e rid sid rel full name ext o w w' :
  ingest_file e rid sid rel full name ext o w = Ok w' ->
  source_folders (w_db w') = source_folders (w_db w).
Proof.
  unfold ingest_file. intros H. destruct o as [content|msg].
  - destruct (_upsert_document_and_chunks _ _ _ _ _ _ _)
      as [[conn [id act]]|] eqn:E; [|discriminate].
    apply upsert_document_only_kb in E.
    destruct E as (_ & _ & E3 & _). inv H.
    unfold Sql.insert_run_file. cbn.
    destruct (existsb _ _); cbn; exact E3.
  - inv H. unfold Sql.upsert_run_file_error. cbn.
    destruct (existsb _ _); reflexivity.
Qed.

Lemma process_file_folders e rid src em dir fe sc sc' :
  process_file e rid src em dir fe sc = Ok sc' ->
  source_folders (w_db (sc_world sc')) = source_folders (w_db (sc_world sc))
  /\ sc_folder_map sc' = sc_folder_map sc.
Proof.
  unfold process_file. intros H.
  destruct (negb _); [inv H; now split|].
  destruct (fe_stat fe) as [sz mt|msg]; [|inv H; now split].
  unfold bind in H.
  destruct (detect_change _ _ _ _ _ _) as [v|]; [|discriminate].
  destruct (upsert_source_file _ _ _ _ _ _ _ _ _ _) as [conn sid] eqn:Eu.
  apply upsert_source_file_other in Eu.
  destruct Eu as (_ & _ & E3 & _).
  assert (Hw : forall (b : bool) (x : event) (w0 : world),
            w_db (if b then emit x w0 else w0) = w_db w0)
    by (intros [] ? ?; reflexivity).
  cbn in E3. rewrite Hw in E3. cbn in E3.
  destruct (_ && _); [destruct (cap_reached _ _)|];
    try (inv H; cbn [sc_world sc_folder_map w_db]; now split).
  destruct (ingest_file _ _ _ _ _ _ _ _ _) as [w2|] eqn:Ei; [|discriminate].
  inv H. cbn [sc_world sc_folder_map w_db]. split; [|reflexivity].
  apply ingest_file_folders in Ei. now rewrite Ei.
Qed.

Lemma files_loop_folders e rid src em dir : forall files sc sc',
  for_each (process_file e rid src em dir) files sc = Ok sc' ->
  source_folders (w_db (sc_world sc')) = source_folders (w_db (sc_world sc))
  /\ sc_folder_map sc' = sc_folder_map sc.
Proof.
  intros files sc sc' H.
  eapply (for_each_inv
            (fun s =>
               source_folders (w_db (sc_world s))
               = source_folders (w_db (sc_world sc)) /\
               sc_folder_map s = sc_folder_map sc)
            (process_file e rid src em dir) files);
    [|now split|exact H].
  intros fe s s' _ [A B] Hf. apply process_file_folders in Hf.
  destruct Hf as [F1 F2]. rewrite F1, F2. now split.
Qed.

Lemma mem_set {V} (m : Dict.t V) k v k' :
  Dict.mem (Dict.set m k v) k' = true -> k' = k \/ Dict.mem m k' = true.
Proof.
  unfold Dict.mem. rewrite dict_get_set.
  destruct (String.eqb_spec k k'); [now left|now right].
Qed.

Lemma process_folder_seen e src dir sc :
  map_known (src_id src) (sc_folder_map sc) (w_db (sc_world sc)) ->
  let sc' := process_folder e src dir sc in
  map_known (src_id src) (sc_folder_map sc') (w_db (sc_world sc')) /\
  folder_seen (e_now e) (src_id src) dir (w_db (sc_world sc')) /\
  (forall S k, folder_seen (e_now e) S k (w_db (sc_world sc)) ->
               folder_seen (e_now e) S k (w_db (sc_world sc'))).
Proof.
  intros Hmap. cbv zeta. unfold process_folder.
  destruct (Dict.mem (sc_folder_map sc) dir) eqn:Em; cbn [negb].
  - cbn. split; [|split].
    + intros k Hk. apply touch_folder_known. now apply Hmap.
    + apply touch_folder_sets. now apply Hmap.
    + intros S k H. now apply touch_folder_keeps.
  - destruct (Sql.upsert_folder _ _ _ _ _ _) as [conn fid] eqn:Eu.
    cbn [sc_world sc_folder_map w_db].
    assert (Hc : conn = fst (Sql.upsert_folder (e_now e) (src_id src) dir
                               (Some (folder_of (sc_folder_map sc)
                                        (if String.eqb dir ""
                                         then "" else Posix.parent dir)))
                               (if String.eqb dir ""
                                then 0 else Posix.parts_count dir)
                               (w_db (sc_world sc))))
      by now rewrite Eu.
    rewrite Hc. split; [|split].
    + intros k Hk. apply mem_set in Hk. destruct Hk as [->|Hk].
      * eapply folder_seen_known. apply upsert_folder_sets.
      * apply upsert_folder_known. now apply Hmap.
    + apply upsert_folder_sets.
    + intros S k H. now apply upsert_folder_keeps.
Qed.

Lemma walk_loop_folders e rid src em : forall walk sc sc',
  map_known (src_id src) (sc_folder_map sc) (w_db (sc_world sc)) ->
  for_each (process_dir e rid src em) walk sc = Ok sc' ->
  map_known (src_id src) (sc_folder_map sc') (w_db (sc_world sc')) /\
  (forall de, In de walk ->
     folder_seen (e_now e) (src_id src) (de_rel de) (w_db (sc_world sc'))) /\
  (forall S k, folder_seen (e_now e) S k (w_db (sc_world sc)) ->
               folder_seen (e_now e) S k (w_db (sc_world sc'))).
Proof.
  induction walk as [|de walk IH]; intros sc sc' Hmap H.
  - inv H. split; [exact Hmap|]. split; [intros ? []|auto].
  - simpl in H. unfold bind in H.
    destruct (process_dir e rid src em de sc) as [sc1|] eqn:Ed;
      [|discriminate].
    unfold process_dir in Ed. apply files_loop_folders in Ed.
    destruct Ed as [F1 F2].
    destruct (process_folder_seen e src (de_rel de) sc Hmap)
      as (P1 & P2 & P3).
    unfold folder_seen, map_known, folder_known in P1, P2, P3.
    rewrite <- F1, <- F2 in P1. rewrite <- F1 in P2.
    assert (P3' : forall S k, folder_seen (e_now e) S k (w_db (sc_world sc)) ->
                              folder_seen (e_now e) S k (w_db (sc_world sc1))).
    { intros S k Hk. unfold folder_seen. rewrite F1. now apply P3. }
    destruct (IH sc1 sc' P1 H) as (A & B & C).
    split; [exact A|]. split.
    + intros de' [<-|Hin]; [apply C; exact P2|now apply B].
    + intros S k Hk. apply C. now apply P3'.
Qed.

Lemma of_rows_known d S :
  map_known S
    (Dict.of_rows fo_rel_path fo_id (Sql.select_folders d S)) d.
Proof.
  intros k Hk. unfold Dict.mem in Hk. rewrite dict_get_of_rows in Hk.
  destruct (find _ _) as [r|] eqn:E; [|discriminate].
  apply find_some in E. destruct E as [Hin Hkey].
  apply in_rev in Hin. unfold Sql.select_folders in Hin.
  apply filter_In in Hin. destruct Hin as [Hin Hs].
  apply Nat.eqb_eq in Hs. apply String.eqb_eq in Hkey.
  exists r. now repeat split.
Qed.

Lemma ensure_root_folder_seen e src fm w w' fm' :
  map_known (src_id src) fm (w_db w) ->
  ensure_root_folder e src fm w = (w', fm') ->
  map_known (src_id src) fm' (w_db w') /\
  folder_seen (e_now e) (src_id src) "" (w_db w') /\
  (forall S k, folder_seen (e_now e) S k (w_db w) ->
               folder_seen (e_now e) S k (w_db w')).
Proof.
  intros Hmap. unfold ensure_root_folder.
  destruct (Dict.mem fm "") eqn:Em; cbn [negb].
  - intros H. inv H. cbn. split; [|split].
    + intros k Hk. apply touch_folder_known. now apply Hmap.
    + apply touch_folder_sets. now apply Hmap.
    + intros S k H. now apply touch_folder_keeps.
  - destruct (Sql.upsert_folder _ _ _ _ _ _) as [conn fid] eqn:Eu.
    intros H. inv H. cbn [w_db].
    assert (Hc : conn = fst (Sql.upsert_folder (e_now e) (src_id src) ""
                               None 0 (w_db w)))
      by now rewrite Eu.
    rewrite Hc. split; [|split].
    + intros k Hk. apply mem_set in Hk. destruct Hk as [->|Hk].
      * eapply folder_seen_known. apply upsert_folder_sets.
      * apply upsert_folder_known. now apply Hmap.
    + apply upsert_folder_sets.
    + intros S k H. now apply upsert_folder_keeps.
Qed.

Lemma reconcile_loop_folders e rid seen_paths : forall items w,
  source_folders
    (w_db (fold_left (fun w item => reconcile_one e rid seen_paths item w)
             items w))
  = source_folders (w_db w).
Proof.
  intros items w.
  apply (fold_left_inv
           (fun s => source_folders (w_db s) = source_folders (w_db w)));
    [|reflexivity].
  intros [k p] s _ A. unfold reconcile_one.
  destruct (seen seen_paths k); [exact A|].
  destruct (negb (e_dry_run e)); [|exact A].
  unfold Sql.insert_run_file. cbn. destruct (existsb _ _); exact A.
Qed.

(** The scan of a source leaves a Folder row, seen now, for the root and for
    every directory of the walk, and takes none of another scan away. *)
Lemma scan_source_folders e rid src w w' :
  scan_source e rid src w = Ok w' ->
  (forall S k, folder_seen (e_now e) S k (w_db w) ->
               folder_seen (e_now e) S k (w_db w')) /\
  (fs_exists (e_fs e) (root_path src) = ExistsOk true ->
   folder_seen (e_now e) (src_id src) "" (w_db w') /\
   forall de, In de (source_walk (e_fs e) src) ->
     folder_seen (e_now e) (src_id src) (de_rel de) (w_db w')).
Proof.
  unfold scan_source. intros H.
  destruct (fs_exists (e_fs e) (root_path src)) as [[|]|] eqn:Hex;
    [|inv H; split; [intros S k Hk; exact Hk|discriminate]|discriminate].
  unfold scan_files in H.
  destruct (ensure_root_folder _ _ _ _) as [w2 fm] eqn:Er.
  apply ensure_root_folder_seen in Er; [|apply of_rows_known].
  destruct Er as (M2 & R2 & K2).
  unfold bind in H.
  destruct (for_each _ _ _) as [sc|] eqn:Ew; [|discriminate].
  apply walk_loop_folders in Ew; [|exact M2].
  cbn [sc_world] in Ew. destruct Ew as (_ & B & C).
  match type of H with
  | context [fold_left ?f ?items ?w0] =>
      pose proof (reconcile_loop_folders e rid (sc_seen_paths sc) items w0)
        as R;
      set (wr := fold_left f items w0) in *
  end.
  assert (Hfin : source_folders (w_db w')
                 = source_folders (w_db (sc_world sc))).
  { inv H. destruct (negb (e_dry_run e)); cbn; exact R. }
  unfold folder_seen. rewrite Hfin. split.
  - intros S k Hk. apply C. apply K2. exact Hk.
  - intros _. split; [apply C; exact R2|exact B].
Qed.

Lemma sources_loop_folders e rid : forall srcs w w',
  for_each (scan_source e rid) srcs w = Ok w' ->
  (forall S k, folder_seen (e_now e) S k (w_db w) ->
               folder_seen (e_now e) S k (w_db w')) /\
  (forall src, In src srcs ->
     fs_exists (e_fs e) (root_path src) = ExistsOk true ->
     folder_seen (e_now e) (src_id src) "" (w_db w') /\
     forall de, In de (source_walk (e_fs e) src) ->
       folder_seen (e_now e) (src_id src) (de_rel de) (w_db w')).
Proof.
  induction srcs as [|s0 srcs IH]; intros w w' H.
  - inv H. split; [auto|intros ? []].
  - simpl in H. unfold bind in H.
    destruct (scan_source e rid s0 w) as [w1|] eqn:E1; [|discriminate].
    apply scan_source_folders in E1. destruct E1 as [K1 S1].
    destruct (IH w1 w' H) as [K2 S2]. split.
    + intros S k Hk. apply K2. now apply K1.
    + intros src [<-|Hin] Hex.
      * destruct (S1 Hex) as [A B]. split; [now apply K2|].
        intros de Hde. apply K2. now apply B.
      * now apply S2.
Qed.

(** In the transaction a scan hands to the final statement of the run, dry
    or not, every enabled source whose root exists has a Folder row for the
    root and one for every directory of its walk, all seen at the time of
    the run. *)
Lemma scan_records_folders e d w rid src :
  scan_campaign e d = Ok (w, rid) ->
  In src (Sql.select_sources d (e_campaign_id e)) ->
  fs_exists (e_fs e) (root_path src) = ExistsOk true ->
  folder_seen (e_now e) (src_id src) "" (w_db w) /\
  forall de, In de (source_walk (e_fs e) src) ->
    folder_seen (e_now e) (src_id src) (de_rel de) (w_db w).
Proof.
  intros E Hin Hex.
  apply scan_campaign_ok in E. destruct E as (_ & _ & L).
  apply sources_loop_folders in L. destruct L as [_ L].
  exact (L src Hin Hex).
Qed.

End Folders.

(* ------------------------------------------------------------------ *)
(** ** The time stamps of the sources *)

Section Stamps.

Context {HL : Hashlib}.

Lemma stamp_scan_sets now i d : scan_stamped now i (Sql.stamp_scan now i d).
Proof.
  intros s Hin Hid. cbn in Hin. apply in_map_iff in Hin.
  destruct Hin as (s0 & E & _).
  destruct (Nat.eqb_spec (src_id s0) i) as [He|Hne]; subst s; [reflexivity|].
  contradiction.
Qed.

Lemma stamp_scan_keeps now i j d :
  scan_stamped now i d -> scan_stamped now i (Sql.stamp_scan now j d).
Proof.
  intros H s Hin Hid. cbn in Hin. apply in_map_iff in Hin.
  destruct Hin as (s0 & E & Hin0).
  destruct (src_id s0 =? j); subst s; [reflexivity|now apply H].
Qed.

Lemma stamp_ingest_keeps_scan now i j d :
  scan_stamped now i d -> scan_stamped now i (Sql.stamp_ingest now j d).
Proof.
  intros H s Hin Hid. cbn in Hin. apply in_map_iff in Hin.
  destruct Hin as (s0 & E & Hin0).
  destruct (src_id s0 =? j); subst s; cbn; now apply H.
Qed.

Lemma stamp_ingest_sets now i d :
  ingest_stamped now i (Sql.stamp_ingest now i d).
Proof.
  intros s Hin Hid. cbn in Hin. apply in_map_iff in Hin.
  destruct Hin as (s0 & E & _).
  destruct (Nat.eqb_spec (src_id s0) i) as [He|Hne]; subst s; [reflexivity|].
  contradiction.
Qed.

Lemma stamp_ingest_keeps now i j d :
  ingest_stamped now i d -> ingest_stamped now i (Sql.stamp_ingest now j d).
Proof.
  intros H s Hin Hid. cbn in Hin. apply in_map_iff in Hin.
  destruct Hin as (s0 & E & Hin0).
  destruct (src_id s0 =? j); subst s; [reflexivity|now apply H].
Qed.

Lemma stamp_scan_keeps_ingest now i j d :
  ingest_stamped now i d -> ingest_stamped now i (Sql.stamp_scan now j d).
Proof.
  intros H s Hin Hid. cbn in Hin. apply in_map_iff in Hin.
  destruct Hin as (s0 & E & Hin0).
  destruct (src_id s0 =? j); subst s; cbn; now apply H.
Qed.

Lemma stamp_scan_last_ingest now j d :
  map src_last_ingest_at (campaign_sources (Sql.stamp_scan now j d))
  = map src_last_ingest_at (campaign_sources d).
Proof.
  cbn. rewrite map_map. apply map_ext. intros s.
  destruct (src_id s =? j); reflexivity.
Qed.

(** The sources between the stamp of the scan and the stamp of the
    ingestion. *)
Lemma scan_source_sources e rid src w w' :
  scan_source e rid src w = Ok w' ->
  campaign_sources (w_db w')
  = campaign_sources
      (match fs_exists (e_fs e) (root_path src) with
       | ExistsOk true =>
           if negb (e_dry_run e)
           then Sql.stamp_ingest (e_now e) (src_id src)
                  (Sql.stamp_scan (e_now e) (src_id src) (w_db w))
           else Sql.stamp_scan (e_now e) (src_id src) (w_db w)
       | _ => Sql.stamp_scan (e_now e) (src_id src) (w_db w)
       end).
Proof.
  unfold scan_source. intros H.
  destruct (fs_exists (e_fs e) (root_path src)) as [[|]|];
    [|now inv H|discriminate].
  unfold scan_files in H.
  destruct (ensure_root_folder _ _ _ _) as [w2 fm] eqn:Er.
  assert (Hw2 : campaign_sources (w_db w2)
                = campaign_sources
                    (Sql.stamp_scan (e_now e) (src_id src) (w_db w))).
  { unfold ensure_root_folder in Er. destruct (negb _).
    - unfold Sql.upsert_folder in Er. destruct (find _ _); now inv Er.
    - now inv Er. }
  unfold bind in H.
  destruct (for_each _ _ _) as [sc|] eqn:Ew; [|discriminate].
  apply walk_loop_frame in Ew. destruct Ew as (A & _).
  cbn [sc_world] in A. rewrite Hw2 in A.
  match type of H with
  | context [fold_left ?f ?items ?w0] =>
      pose proof (reconcile_loop_frame e rid (sc_seen_paths sc) items w0)
        as R; cbv zeta in R;
      set (wr := fold_left f items w0) in *
  end.
  destruct R as (R1 & _). rewrite A in R1.
  inv H. destruct (negb (e_dry_run e)); [|exact R1].
  unfold on_db, Sql.stamp_ingest.
  cbn [w_db campaign_sources set_campaign_sources]. now rewrite R1.
Qed.

Lemma scan_source_stamps e rid src w w' :
  scan_source e rid src w = Ok w' ->
  scan_stamped (e_now e) (src_id src) (w_db w') /\
  (fs_exists (e_fs e) (root_path src) = ExistsOk true -> e_dry_run e = false ->
   ingest_stamped (e_now e) (src_id src) (w_db w')) /\
  (forall i, scan_stamped (e_now e) i (w_db w) ->
             scan_stamped (e_now e) i (w_db w')) /\
  (forall i, ingest_stamped (e_now e) i (w_db w) ->
             ingest_stamped (e_now e) i (w_db w')) /\
  (e_dry_run e = true ->
   map src_last_ingest_at (campaign_sources (w_db w'))
   = map src_last_ingest_at (campaign_sources (w_db w))).
Proof.
  intros H. apply scan_source_sources in H.
  unfold scan_stamped, ingest_stamped. rewrite H.
  assert (Hidle :
    (fs_exists (e_fs e) (root_path src) = ExistsOk true ->
     e_dry_run e = false -> False) ->
    (forall s, In s (campaign_sources
                       (Sql.stamp_scan (e_now e) (src_id src) (w_db w))) ->
               src_id s = src_id src ->
               src_last_scan_at s = Some (e_now e)) /\
    (fs_exists (e_fs e) (root_path src) = ExistsOk true ->
     e_dry_run e = false ->
     forall s, In s (campaign_sources
                       (Sql.stamp_scan (e_now e) (src_id src) (w_db w))) ->
               src_id s = src_id src ->
               src_last_ingest_at s = Some (e_now e)) /\
    (forall i, scan_stamped (e_now e) i (w_db w) ->
               scan_stamped (e_now e) i
                 (Sql.stamp_scan (e_now e) (src_id src) (w_db w))) /\
    (forall i, ingest_stamped (e_now e) i (w_db w) ->
               ingest_stamped (e_now e) i
                 (Sql.stamp_scan (e_now e) (src_id src) (w_db w))) /\
    (e_dry_run e = true ->
     map src_last_ingest_at
       (campaign_sources (Sql.stamp_scan (e_now e) (src_id src) (w_db w)))
     = map src_last_ingest_at (campaign_sources (w_db w)))).
  { intros Hno.
    split; [apply stamp_scan_sets|].
    split; [intros Hex Hd; destruct (Hno Hex Hd)|].
    split; [intros i Hi; now apply stamp_scan_keeps|].
    split; [intros i Hi; now apply stamp_scan_keeps_ingest|].
    intros _. apply stamp_scan_last_ingest. }
  destruct (fs_exists (e_fs e) (root_path src)) as [[|]|];
    [|apply Hidle; discriminate..].
  destruct (e_dry_run e); cbn [negb];
    [apply Hidle; discriminate|].
  split; [apply stamp_ingest_keeps_scan, stamp_scan_sets|].
  split; [intros _ _; apply stamp_ingest_sets|].
  split; [intros i Hi; now apply stamp_ingest_keeps_scan, stamp_scan_keeps|].
  split; [intros i Hi; now apply stamp_ingest_keeps, stamp_scan_keeps_ingest|].
  discriminate.
Qed.

Lemma sources_loop_stamps e rid : forall srcs w w',
  for_each (scan_source e rid) srcs w = Ok w' ->
  (forall i, scan_stamped (e_now e) i (w_db w) ->
             scan_stamped (e_now e) i (w_db w')) /\
  (forall i, ingest_stamped (e_now e) i (w_db w) ->
             ingest_stamped (e_now e) i (w_db w')) /\
  (forall src, In src srcs ->
     scan_stamped (e_now e) (src_id src) (w_db w') /\
     (fs_exists (e_fs e) (root_path src) = ExistsOk true ->
      e_dry_run e = false ->
      ingest_stamped (e_now e) (src_id src) (w_db w'))) /\
  (e_dry_run e = true ->
   map src_last_ingest_at (campaign_sources (w_db w'))
   = map src_last_ingest_at (campaign_sources (w_db w))).
Proof.
  induction srcs as [|s0 srcs IH]; intros w w' H.
  - inv H. split; [auto|]. split; [auto|]. split; [intros ? []|auto].
  - simpl in H. unfold bind in H.
    destruct (scan_source e rid s0 w) as [w1|] eqn:E1; [|discriminate].
    apply scan_source_stamps in E1.
    destruct E1 as (A1 & A2 & A3 & A4 & A5).
    destruct (IH w1 w' H) as (B1 & B2 & B3 & B4).
    split; [intros i Hi; now apply B1, A3|].
    split; [intros i Hi; now apply B2, A4|].
    split.
    + intros src [<-|Hin].
      * split; [now apply B1|]. intros Hex Hd. apply B2. now apply A2.
      * now apply B3.
    + intros Hd. rewrite (B4 Hd). now apply A5.
Qed.

(** The stamps on the sources in the transaction a scan hands to the final
    statement of the run: every enabled source of the campaign was scanned
    at the time of the run; in a live run those whose root exists were
    ingested at that time; a dry run leaves every [last_ingest_at] as it
    was. *)
Lemma scan_stamps_sources e d w rid :
  scan_campaign e d = Ok (w, rid) ->
  (forall src, In src (Sql.select_sources d (e_campaign_id e)) ->
     scan_stamped (e_now e) (src_id src) (w_db w) /\
     (fs_exists (e_fs e) (root_path src) = ExistsOk true ->
      e_dry_run e = false ->
      ingest_stamped (e_now e) (src_id src) (w_db w))) /\
  (e_dry_run e = true ->
   map src_last_ingest_at (campaign_sources (w_db w))
   = map src_last_ingest_at (campaign_sources d)).
Proof.
  intros E.
  apply scan_campaign_ok in E. destruct E as (_ & _ & L).
  apply sources_loop_stamps in L. destruct L as (_ & _ & C & D).
  split; [exact C|].
  intros Hd. rewrite (D Hd). cbn [w_db].
  unfold Sql.insert_run. reflexivity.
Qed.

End Stamps.

(* ------------------------------------------------------------------ *)
(** ** The Files after a dry run *)

Section DryFiles.

Context {HL : Hashlib}.

Lemma dry_files_refl l : dry_files l l.
Proof.
  split; [|auto]. exists l, []. rewrite app_nil_r.
  split; [reflexivity|]. split; [reflexivity|constructor].
Qed.

Lemma dry_files_insert l0 l r :
  f_status r = "seen" -> f_last_ingest_status r = "never" ->
  f_last_ingested_at r = None ->
  dry_files l0 l -> dry_files l0 (l ++ [r]).
Proof.
  intros Hs Hn Ha ((l1 & t & -> & H1 & H2) & H3). split.
  - exists l1, (t ++ [r]). rewrite app_assoc. split; [reflexivity|].
    split; [exact H1|]. apply Forall_app. split; [exact H2|].
    constructor; [now split|constructor].
  - intros x Hx Hd. apply in_app_or in Hx. destruct Hx as [Hx|[<-|[]]].
    + now apply H3.
    + rewrite Hs in Hd. discriminate.
Qed.

Lemma dry_files_seen l0 l id h :
  (forall r, history_of (h r) = history_of r /\ f_status (h r) = "seen") ->
  dry_files l0 l -> dry_files l0 (map (upd id h) l).
Proof.
  intros Hh ((l1 & t & -> & H1 & H2) & H3).
  assert (Hu : forall r, history_of (upd id h r) = history_of r).
  { intros r. unfold upd. destruct (f_id r =? id); [apply Hh|reflexivity]. }
  split.
  - exists (map (upd id h) l1), (map (upd id h) t). rewrite map_app.
    split; [reflexivity|]. split.
    + rewrite map_map, <- H1. apply map_ext. exact Hu.
    + rewrite Forall_map. eapply Forall_impl; [|exact H2].
      intros r [A B]. specialize (Hu r). unfold history_of in Hu.
      split; congruence.
  - intros x Hx Hd. apply in_map_iff in Hx. destruct Hx as (r & <- & Hr).
    unfold upd in *. destruct (f_id r =? id).
    + rewrite (proj2 (Hh r)) in Hd. discriminate.
    + now apply H3.
Qed.

Lemma process_file_dry_files l0 e rid src em dir fe sc sc' :
  e_dry_run e = true ->
  process_file e rid src em dir fe sc = Ok sc' ->
  dry_files l0 (source_files (w_db (sc_world sc))) ->
  dry_files l0 (source_files (w_db (sc_world sc'))).
Proof.
  unfold process_file. intros Hdry H HP.
  destruct (negb _); [now inv H|].
  destruct (fe_stat fe) as [sz mt|msg]; [|now inv H].
  unfold bind in H.
  destruct (detect_change _ _ _ _ _ _) as [v|]; [|discriminate].
  destruct (upsert_source_file _ _ _ _ _ _ _ _ _ _) as [conn sid] eqn:Eu.
  assert (Hw : forall (b : bool) (x : event) (w0 : world),
            w_db (if b then emit x w0 else w0) = w_db w0)
    by (intros [] ? ?; reflexivity).
  assert (Hc : dry_files l0 (source_files conn)).
  { unfold upsert_source_file in Eu.
    destruct (Dict.get em _) as [p|]; cbn in Eu; rewrite Hw in Eu;
      cbn in Eu; inv Eu; cbn.
    - apply dry_files_seen; [|exact HP]. intros r. now split.
    - now apply dry_files_insert. }
  rewrite Hdry in H. cbn [negb] in H. rewrite andb_false_r in H.
  now inv H.
Qed.

Lemma scan_source_dry_files l0 e rid src w w' :
  e_dry_run e = true ->
  scan_source e rid src w = Ok w' ->
  dry_files l0 (source_files (w_db w)) ->
  dry_files l0 (source_files (w_db w')).
Proof.
  unfold scan_source. intros Hdry H HP.
  destruct (fs_exists _ _) as [[|]|]; [|now inv H|discriminate].
  unfold scan_files in H.
  destruct (ensure_root_folder _ _ _ _) as [w2 fm] eqn:Er.
  apply ensure_root_folder_files in Er. destruct Er as (Ef & _).
  cbn in Ef.
  unfold bind in H.
  destruct (for_each _ _ _) as [sc|] eqn:Ew; [|discriminate].
  assert (Hsc : dry_files l0 (source_files (w_db (sc_world sc)))).
  { eapply (for_each_inv
              (fun s => dry_files l0 (source_files (w_db (sc_world s)))));
      [| |exact Ew].
    - intros de s s' _ Ps Hd. unfold process_dir in Hd.
      eapply (for_each_inv
                (fun s0 => dry_files l0 (source_files (w_db (sc_world s0)))));
        [| |exact Hd].
      + intros fe s0 s1 _ P0 Hf.
        eapply process_file_dry_files; eassumption.
      + unfold process_folder. destruct (negb (Dict.mem _ _)).
        * unfold Sql.upsert_folder. destruct (find _ _); cbn; exact Ps.
        * cbn. exact Ps.
    - cbn. now rewrite Ef. }
  match type of H with
  | context [fold_left ?f ?items ?w0] =>
      assert (R : source_files (w_db (fold_left f items w0))
                  = source_files (w_db w0));
        [|set (wr := fold_left f items w0) in *]
  end.
  { apply (fold_left_inv
             (fun s => source_files (w_db s)
                       = source_files (w_db (sc_world sc))));
      [|reflexivity].
    intros [k p] s _ A. unfold reconcile_one.
    destruct (seen (sc_seen_paths sc) k); [exact A|].
    rewrite Hdry. exact A. }
  rewrite Hdry in H. cbn [negb] in H. inv H. now rewrite R.
Qed.

(** In the transaction a dry scan hands to the final statement of the run,
    the history of every File is kept: the rows that were there keep their
    id, source, path and what they say of their last ingestion; the rows
    added were never ingested; and no File is deleted that was not deleted
    before. *)
Lemma dry_scan_files e d w rid :
  e_dry_run e = true ->
  scan_campaign e d = Ok (w, rid) ->
  dry_files (source_files d) (source_files (w_db w)).
Proof.
  intros Hdry E.
  apply scan_campaign_ok in E. destruct E as (_ & _ & L).
  eapply (for_each_inv
            (fun s => dry_files (source_files d) (source_files (w_db s))));
    [| |exact L].
  - intros src s s' _ Ps Hs.
    exact (scan_source_dry_files _ e _ _ _ _ Hdry Hs Ps).
  - cbn. apply dry_files_refl.
Qed.

End DryFiles.

(* ------------------------------------------------------------------ *)
(** ** The files a scan counts *)

Section Counts.

Context {HL : Hashlib}.

Lemma for_each_measure {A S B} (body : A -> S -> outcome S) (m : S -> nat)
    (g : A -> list B) : forall l,
  (forall a s s', In a l -> body a s = Ok s' ->
                  m s' = m s + length (g a)) ->
  forall s s', for_each body l s = Ok s' ->
               m s' = m s + length (flat_map g l).
Proof.
  induction l as [|a l IH]; intros Hstep s s' H; simpl in H.
  - inv H. simpl. lia.
  - unfold bind in H. destruct (body a s) as [s1|] eqn:E; [|discriminate].
    simpl. rewrite length_app.
    rewrite (IH (fun a0 s0 s0' Hin => Hstep a0 s0 s0' (or_intror Hin))
               s1 s' H).
    rewrite (Hstep a s s1 (or_introl eq_refl) E). lia.
Qed.

(** One file, handled: when it passes the globs and its [stat] succeeds it
    is one more file seen, counted in the class of its verdict and in no
    other; otherwise no counter of classification moves. *)
Lemma process_file_counts e rid src em dir fe sc sc' :
  process_file e rid src em dir fe sc = Ok sc' ->
  (forall sz mt,
     entry_included src dir fe = true -> fe_stat fe = StatOk sz mt ->
     exists v,
       detect_change (src_change_detection src) (e_force_rehash e)
         (Dict.get em (entry_rel dir fe)) sz mt (fe_open fe) = Ok v /\
       v_is_new v = is_none (Dict.get em (entry_rel dir fe)) /\
       counted (class_of (v_is_new v) (v_changed v))
         (w_stats (sc_world sc)) (w_stats (sc_world sc'))) /\
  (entry_included src dir fe = false \/ (exists msg, fe_stat fe = StatErr msg)
   ->
   tally (w_stats (sc_world sc')) = tally (w_stats (sc_world sc))).
Proof.
  intros H. split.
  - intros sz mt Hi Hs.
    destruct (detect_change (src_change_detection src) (e_force_rehash e)
                (Dict.get em (entry_rel dir fe)) sz mt (fe_open fe))
      as [v|x] eqn:Hd.
    + exists v. split; [reflexivity|].
      split; [apply (detect_change_shape _ _ _ _ _ _ _ Hd)|].
      destruct (attempts e v (sc_files_to_ingest sc)) eqn:Ea.
      * destruct (process_file_attempt e rid src em dir fe sc sc' sz mt v
                    Hi Hs Hd Ea H) as (Ht & _).
        eapply counted_tally; [exact Ht|apply count_verdict_counted].
      * destruct (process_file_quiet e rid src em dir fe sc sz mt v Hi Hs Hd
                    Ea) as (sc2 & Hp2 & Hst & _).
        rewrite H in Hp2. inv Hp2. rewrite Hst. apply count_verdict_counted.
    + rewrite (process_file_raise e rid src em dir fe sc sz mt x Hi Hs Hd)
        in H. discriminate.
  - unfold process_file, entry_included, entry_rel in *.
    destruct (_should_include _ _ _); simpl in *.
    + intros [Hf|[msg Hm]]; [discriminate|]. rewrite Hm in H. now inv H.
    + intros _. now inv H.
Qed.

Lemma process_file_seen e rid src em dir fe sc sc' :
  process_file e rid src em dir fe sc = Ok sc' ->
  files_seen (w_stats (sc_world sc'))
  = files_seen (w_stats (sc_world sc)) + length (file_obs src dir fe).
Proof.
  intros H. destruct (process_file_counts _ _ _ _ _ _ _ _ H) as [A B].
  unfold file_obs. destruct (entry_included src dir fe) eqn:Hi.
  - destruct (fe_stat fe) as [sz mt|msg] eqn:Hs.
    + destruct (A sz mt eq_refl eq_refl) as (v & _ & _ & C & _).
      simpl. exact C.
    + assert (T : tally (w_stats (sc_world sc'))
                  = tally (w_stats (sc_world sc)))
        by (apply B; right; now exists msg).
      unfold tally in T. inv T. simpl. lia.
  - assert (T : tally (w_stats (sc_world sc'))
                = tally (w_stats (sc_world sc)))
      by (apply B; now left).
    unfold tally in T. inv T. simpl. lia.
Qed.

Lemma process_dir_seen e rid src em de sc sc' :
  process_dir e rid src em de sc = Ok sc' ->
  files_seen (w_stats (sc_world sc'))
  = files_seen (w_stats (sc_world sc)) + length (dir_obs src de).
Proof.
  unfold process_dir, dir_obs. intros H.
  rewrite (for_each_measure
             (process_file e rid src em (de_rel de))
             (fun s => files_seen (w_stats (sc_world s)))
             (file_obs src (de_rel de)) (de_files de)
             (fun fe s s' _ Hf => process_file_seen _ _ _ _ _ _ _ _ Hf)
             _ _ H).
  f_equal. unfold process_folder. destruct (negb _).
  - destruct (Sql.upsert_folder _ _ _ _ _ _); reflexivity.
  - reflexivity.
Qed.

Lemma reconcile_loop_seen e rid seen_paths : forall items w,
  files_seen
    (w_stats (fold_left (fun w item => reconcile_one e rid seen_paths item w)
                items w))
  = files_seen (w_stats w).
Proof.
  intros items w.
  apply (fold_left_inv
           (fun s => files_seen (w_stats s) = files_seen (w_stats w)));
    [|reflexivity].
  intros [k p] s _ A. unfold reconcile_one.
  destruct (seen seen_paths k); [exact A|].
  destruct (negb (e_dry_run e)); cbn; exact A.
Qed.

Lemma scan_source_seen e rid src w w' :
  scan_source e rid src w = Ok w' ->
  files_seen (w_stats w')
  = files_seen (w_stats w) + length (scan_obs (e_fs e) [src]).
Proof.
  unfold scan_source, scan_obs. intros H. simpl. rewrite app_nil_r.
  destruct (fs_exists (e_fs e) (root_path src)) as [[|]|];
    [|inv H; cbn; lia|discriminate].
  unfold scan_files in H.
  destruct (ensure_root_folder _ _ _ _) as [w2 fm] eqn:Er.
  assert (Hw2 : w_stats w2 = incr_sources_scanned (w_stats w)).
  { unfold ensure_root_folder in Er. destruct (negb _).
    - destruct (Sql.upsert_folder _ _ _ _ _ _). now inv Er.
    - now inv Er. }
  unfold bind in H.
  destruct (for_each _ _ _) as [sc|] eqn:Ew; [|discriminate].
  apply (for_each_measure (process_dir e rid src _)
           (fun s => files_seen (w_stats (sc_world s))) (dir_obs src) _
           (fun de s s' _ Hd => process_dir_seen _ _ _ _ _ _ _ Hd))
    in Ew.
  cbn [sc_world] in Ew. rewrite Hw2 in Ew. cbn in Ew.
  match type of H with
  | context [fold_left ?f ?items ?w0] =>
      pose proof (reconcile_loop_seen e rid (sc_seen_paths sc) items w0) as R;
      set (wr := fold_left f items w0) in *
  end.
  assert (Hs : forall (b : bool) (f : db -> db) (w0 : world),
            w_stats (if b then on_db f w0 else w0) = w_stats w0)
    by (intros [] ? ?; reflexivity).
  inv H. rewrite Hs, R. exact Ew.
Qed.

(** The files seen by a scan are the files it observes. *)
Lemma scan_campaign_seen e d w rid :
  scan_campaign e d = Ok (w, rid) ->
  files_seen (w_stats w)
  = length (scan_obs (e_fs e) (Sql.select_sources d (e_campaign_id e))).
Proof.
  intros H. apply scan_campaign_ok in H. destruct H as (_ & _ & L).
  apply (for_each_measure (scan_source e (seq_run d))
           (fun s => files_seen (w_stats s))
           (fun src => scan_obs (e_fs e) [src]) _
           (fun src s s' _ Hs => scan_source_seen _ _ _ _ _ Hs))
    in L.
  cbn [w_stats] in L. rewrite L. cbn [files_seen set_sources_total empty_stats].
  unfold scan_obs. simpl. f_equal. apply flat_map_ext.
  intros src. now rewrite app_nil_r.
Qed.

End Counts.

(* ------------------------------------------------------------------ *)
(** ** The Files of a source without its root *)

Section Rootless.

Context {HL : Hashlib}.


End Rootless.

(* ------------------------------------------------------------------ *)
(** ** The claims on the glob matcher *)

Section GlobClaims.

(** C3 (the code departs from the claim). [PurePosixPath.match] matches a
    relative pattern from the right, segment against segment, and [**] is
    no recursive wildcard: ["a.md"] has one segment and the pattern
    ["**/*.md"] two, so the include pattern does not match it, and
    [".git/c.md"] has two segments and ["**/.git/**"] three, so the exclude
    pattern does not match it.  Over the tree of the scenario the only File
    a scan records is [.git/c.md]. *)
Theorem recursive_glob_scenario :
  path_match "a.md" "**/*.md" = Some false /\
  path_match ".git/c.md" "**/.git/**" = Some false /\
  path_match ".git/c.md" "**/*.md" = Some true /\
  _should_include "a.md" ["**/*.md"] ["**/.git/**"] = false /\
  _should_include "b.txt" ["**/*.md"] ["**/.git/**"] = false /\
  _should_include ".git/c.md" ["**/*.md"] ["**/.git/**"] = true /\
  exists w,
    Fixture.scan (Fixture.kb_fs Fixture.git_walk) 7
      (Fixture.empty_db [Fixture.git_source]) true None = Ok (w, 0) /\
    map f_rel_path (source_files (w_db w)) = [".git/c.md"].
Proof.
  do 6 (split; [vm_compute; reflexivity|]).
  eexists. split; vm_compute; reflexivity.
Qed.

End GlobClaims.

(* ------------------------------------------------------------------ *)
(** ** The scan and its counters *)

Section RunClaims.

Context {HL : Hashlib}.

(** C10. The counters a run hands to its final statement, which are those
    of its result: [files_seen = files_new + files_changed +
    files_unchanged] and [docs_ingested = files_ingested]; [files_seen] is
    the number of files the walks list that pass the globs and whose [stat]
    succeeds; and the handling of each such file counts it as seen and in
    the one class of its verdict (new when it has no prior record, else
    changed or unchanged), while a file that is excluded or whose [stat]
    fails moves none of these counters. *)
Theorem scan_counters_balance e d w rid :
  scan_campaign e d = Ok (w, rid) ->
  files_seen (w_stats w)
  = files_new (w_stats w) + files_changed (w_stats w)
    + files_unchanged (w_stats w) /\
  docs_ingested (w_stats w) = files_ingested (w_stats w) /\
  files_seen (w_stats w)
  = length (scan_obs (e_fs e) (Sql.select_sources d (e_campaign_id e))) /\
  (forall src em dir fe sc sc',
     process_file e rid src em dir fe sc = Ok sc' ->
     (forall sz mt,
        entry_included src dir fe = true -> fe_stat fe = StatOk sz mt ->
        exists v,
          detect_change (src_change_detection src) (e_force_rehash e)
            (Dict.get em (entry_rel dir fe)) sz mt (fe_open fe) = Ok v /\
          counted
            (class_of (is_none (Dict.get em (entry_rel dir fe)))
               (v_changed v))
            (w_stats (sc_world sc)) (w_stats (sc_world sc'))) /\
     (entry_included src dir fe = false
      \/ (exists msg, fe_stat fe = StatErr msg) ->
      tally (w_stats (sc_world sc')) = tally (w_stats (sc_world sc)))).
Proof.
  intros H.
  destruct (scan_campaign_balanced e d w rid H) as [B1 B2].
  split; [exact B1|]. split; [exact B2|].
  split; [exact (scan_campaign_seen e d w rid H)|].
  intros src em dir fe sc sc' Hp.
  destruct (process_file_counts e rid src em dir fe sc sc' Hp) as [A B].
  split; [|exact B].
  intros sz mt Hi Hs. destruct (A sz mt Hi Hs) as (v & Hd & Hn & Hc).
  exists v. split; [exact Hd|]. now rewrite <- Hn.
Qed.


End RunClaims.

(* ------------------------------------------------------------------ *)
(** ** Evaluations *)

Section Evaluations.


Ltac evaluated := vm_compute; repeat split.

Ltac scanned := eexists; split; [vm_compute; reflexivity|evaluated].

Lemma kb_fs_wf walk : NoDup (walk_paths walk) -> fs_wf (Fixture.kb_fs walk).
Proof.
  intros H root follow. cbn. destruct (String.eqb root "/kb"); [exact H|].
  constructor.
Qed.

Lemma empty_db_wf sources :
  NoDup (map src_id sources) -> store_wf (Fixture.empty_db sources).
Proof.
  intros H. repeat split; cbn; auto; constructor.
Qed.


(** C1 (the code departs from the claim). The statements that write the
    Files and the Folders are not under the test of [dry_run]: over a store
    without Files and Folders, the dry scan of a source that holds one file
    sends the INSERT of the File and of two Folders, and writes no Document.
    A live scan started from the store the dry scan hands over finds the
    file unchanged and reads nothing, where a live scan of the same tree
    from the store as it was finds it new and writes its Document.  The call
    itself raises at its final statement and the store is as it was. *)
Theorem dry_run_writes_files_and_folders :
  source_files Fixture.fresh_db = [] /\
  source_folders Fixture.fresh_db = [] /\
  (exists w,
     Fixture.scan (Fixture.kb_fs Fixture.one_empty_walk) 7 Fixture.fresh_db
       true None = Ok (w, 0) /\
     source_files (w_db w)
     = [mkFile 0 10 1 "a.md" (Some "md") 0 100 (Some "sha:") "seen" 7 None
          "never" None] /\
     source_folders (w_db w)
     = [mkFolder 0 10 "" None 0 7; mkFolder 1 10 "." (Some 0) 0 7] /\
     kb_documents (w_db w) = [] /\
     exists w2,
       Fixture.scan (Fixture.kb_fs Fixture.one_empty_walk) 8 (w_db w) false
         None = Ok (w2, 1) /\
       tally (w_stats w2) = (1, 1, 1, 0, 0, 1, 0) /\
       w_trace w2 = [] /\
       kb_documents (w_db w2) = []) /\
  (exists w1,
     Fixture.scan (Fixture.kb_fs Fixture.one_empty_walk) 8 Fixture.fresh_db
       false None = Ok (w1, 0) /\
     tally (w_stats w1) = (1, 1, 1, 1, 0, 0, 0) /\
     map d_source_file (kb_documents (w_db w1)) = [0]) /\
  Fixture.run (Fixture.kb_fs Fixture.one_empty_walk) 7 Fixture.fresh_db true
    None
  = mkFinished Fixture.fresh_db (Raise (SQLAlchemyError "UPDATE ingest_runs"))
      [].
Proof.
  split; [reflexivity|]. split; [reflexivity|]. split; [|split].
  - eexists. split; [vm_compute; reflexivity|].
    do 3 (split; [vm_compute; reflexivity|]). scanned.
  - scanned.
  - evaluated.
Qed.

(** C2 (the code departs from the claim). The statement that closes the run
    is refused by the store, so the first run raises and its transaction is
    rolled back: the store after it is the store before it, and the second
    run, over the same tree, finds the file new again and sends the
    statements of its Document again.  With a file that holds text, the run
    raises already at the ingestion of the file. *)
Theorem first_run_is_rolled_back :
  Fixture.run (Fixture.kb_fs Fixture.one_empty_walk) 7 Fixture.fresh_db false
    None
  = mkFinished Fixture.fresh_db (Raise (SQLAlchemyError "UPDATE ingest_runs"))
      [] /\
  (exists w,
     Fixture.scan (Fixture.kb_fs Fixture.one_empty_walk) 7 Fixture.fresh_db
       false None = Ok (w, 0) /\
     tally (w_stats w) = (1, 1, 1, 1, 0, 0, 0) /\
     map d_source_file (kb_documents (w_db w)) = [0]) /\
  (exists w,
     Fixture.scan (Fixture.kb_fs Fixture.one_empty_walk) 8
       (fin_db (Fixture.run (Fixture.kb_fs Fixture.one_empty_walk) 7
                  Fixture.fresh_db false None))
       false None = Ok (w, 0) /\
     files_new (w_stats w) = 1 /\
     docs_skipped (w_stats w) = 0 /\
     w_trace w
     = [EvHashFile "/kb/a.md"; EvReadText "/kb/a.md";
        EvUpsertDocument 0 "ingested"]) /\
  Fixture.run (Fixture.kb_fs Fixture.one_empty_walk) 8
    (fin_db (Fixture.run (Fixture.kb_fs Fixture.one_empty_walk) 7
               Fixture.fresh_db false None))
    false None
  = mkFinished Fixture.fresh_db (Raise (SQLAlchemyError "UPDATE ingest_runs"))
      [] /\
  Fixture.run (Fixture.kb_fs Fixture.one_file_walk) 7 Fixture.fresh_db false
    None
  = mkFinished Fixture.fresh_db
      (Raise (SQLAlchemyError "UPDATE source_files")) [].
Proof.
  split; [evaluated|]. split; [scanned|]. split; [scanned|].
  split; evaluated.
Qed.

(** C4 (the code departs from the claim). The count of ingestions starts
    again at each source: with two sources that hold one new file each and a
    cap of one file, both files are read and the statements of two Documents
    are sent.  Within one source the cap holds: of two new files one is
    ingested, and the other keeps a row that is seen and never ingested,
    without an error. *)
Theorem max_files_resets_per_source :
  (exists w,
     Fixture.scan Fixture.two_sources_fs 7 Fixture.two_sources_db false
       (Some 1%Z) = Ok (w, 0) /\
     w_stats w = mkStats 2 2 2 2 0 0 0 2 2 0 [] /\
     read_events (w_trace w) = [EvReadText "/a/a.md"; EvReadText "/b/b.md"] /\
     map d_source_file (kb_documents (w_db w)) = [0; 1]) /\
  (exists w,
     Fixture.scan (Fixture.kb_fs Fixture.two_empty_walk) 7 Fixture.fresh_db
       false (Some 1%Z) = Ok (w, 0) /\
     w_stats w = mkStats 1 1 2 2 0 0 0 1 1 0 [] /\
     read_events (w_trace w) = [EvReadText "/kb/a.md"] /\
     map d_source_file (kb_documents (w_db w)) = [0] /\
     map (fun r => (f_rel_path r, f_status r, f_last_ingest_status r,
                    f_error r))
       (source_files (w_db w))
     = [("a.md", "seen", "ok", None); ("b.md", "seen", "never", None)]).
Proof. split; scanned. Qed.

(** C5 (the code departs from the claim). The hash of a file is computed
    outside the two [try] blocks: for a known campaign with a file that
    [stat] finds and that cannot be opened, under change detection [auto],
    the exception leaves [update_campaign_kb], the transaction is rolled
    back and the route has no result to answer with.  Under [mtime] the same
    file is opened inside the [try] block of ingestion only: the failure is
    recorded and the scan goes on to the end, with the status [partial];
    the statement that closes the run is then refused, as it is for a known
    campaign without any source, and no result is returned either. *)
Theorem unreadable_file_aborts_run :
  Sql.campaign_exists (Fixture.empty_db [Fixture.notes_source "auto"])
    Fixture.campaign = true /\
  Fixture.locked_run "auto"
  = mkFinished (Fixture.empty_db [Fixture.notes_source "auto"])
      (Raise (OSError "Permission denied")) [] /\
  @kb_update Fixture.toy_hashlib Fixture.locked_fs 7
    (Fixture.empty_db [Fixture.notes_source "auto"]) Fixture.campaign false
    false None
  = (Fixture.empty_db [Fixture.notes_source "auto"],
     Unhandled (OSError "Permission denied")) /\
  (exists w,
     Fixture.scan Fixture.locked_fs 7
       (Fixture.empty_db [Fixture.notes_source "mtime"]) false None
     = Ok (w, 0) /\
     w_stats w
     = mkStats 1 1 1 1 0 0 0 0 0 0
         ["ingest failed for d.md: Permission denied"] /\
     status_of (w_stats w) = "partial") /\
  Fixture.locked_run "mtime"
  = mkFinished (Fixture.empty_db [Fixture.notes_source "mtime"])
      (Raise (SQLAlchemyError "UPDATE ingest_runs")) [] /\
  Fixture.run Fixture.no_fs 7 (Fixture.empty_db []) false None
  = mkFinished (Fixture.empty_db [])
      (Raise (SQLAlchemyError "UPDATE ingest_runs")) [].
Proof.
  do 3 (split; [evaluated|]). split; [scanned|]. split; evaluated.
Qed.

(** C7 (the code departs from the claim). [notes.md], recorded with size
    100 and time 1000, is rewritten with size 120 and time 1001 under change
    detection [mtime]: it is classified changed without a hash, and its
    ingestion is attempted; the statement that writes its first Fragment is
    refused by the store, the statement of the handler that records the
    failure is refused in the aborted transaction, and the exception leaves
    the run.  The store keeps the Document with the text it had. *)
Theorem mtime_rewrite_is_not_reingested :
  @detect_change Fixture.toy_hashlib "mtime" false
    (Some (Fixture.notes_row None)) 120 1001 (OpenOk "new text")
  = Ok (mkVerdict false true true None false) /\
  @attempts (Fixture.live None) (mkVerdict false true true None false) 0
  = true /\
  @process_file Fixture.toy_hashlib (Fixture.live None) 0
    (Fixture.notes_source "mtime") (Fixture.notes_map None) "."
    Fixture.rewritten (Fixture.notes_scan "mtime" None)
  = Raise (SQLAlchemyError "UPDATE source_files") /\
  Fixture.run (Fixture.kb_fs [mkDirEntry "." [Fixture.rewritten]]) 7
    (Fixture.notes_db "mtime" None) false None
  = mkFinished (Fixture.notes_db "mtime" None)
      (Raise (SQLAlchemyError "UPDATE source_files")) [] /\
  map d_body_md (kb_documents (Fixture.notes_db "mtime" None))
  = ["old text"].
Proof. evaluated. Qed.


Lemma scan_counters_balance_witness :
  files_seen
    (w_stats
       (Fixture.handed
          (Fixture.scan (Fixture.kb_fs Fixture.two_empty_walk) 7
             Fixture.fresh_db false (Some 1%Z)))) = 2 /\
  files_new
    (w_stats
       (Fixture.handed
          (Fixture.scan (Fixture.kb_fs Fixture.two_empty_walk) 7
             Fixture.fresh_db false (Some 1%Z)))) = 2 /\
  docs_ingested
    (w_stats
       (Fixture.handed
          (Fixture.scan (Fixture.kb_fs Fixture.two_empty_walk) 7
             Fixture.fresh_db false (Some 1%Z))))
  = files_ingested
      (w_stats
         (Fixture.handed
            (Fixture.scan (Fixture.kb_fs Fixture.two_empty_walk) 7
               Fixture.fresh_db false (Some 1%Z)))).
Proof.
  destruct (@scan_counters_balance Fixture.toy_hashlib
              (mkEnv (Fixture.kb_fs Fixture.two_empty_walk) 7 Fixture.campaign
                 false false (Some 1%Z))
              Fixture.fresh_db
              (Fixture.handed
                 (Fixture.scan (Fixture.kb_fs Fixture.two_empty_walk) 7
                    Fixture.fresh_db false (Some 1%Z)))
              0)
    as (A & B & C & _).
  - vm_compute. reflexivity.
  - split; [rewrite C; vm_compute; reflexivity|].
    split; [vm_compute; reflexivity|exact B].
Defined.


Lemma hash_mode_confirms_witness :
  exists v sc',
    @process_file Fixture.toy_hashlib (Fixture.live None) 0
      (Fixture.notes_source "auto") (Fixture.notes_map (Some "sha:old text"))
      "." Fixture.touched (Fixture.notes_scan "auto" (Some "sha:old text"))
    = Ok sc' /\
    v_hashed v = true /\ v_changed v = false /\
    w_trace (sc_world sc') = [EvHashFile "/kb/notes.md"] /\
    kb_documents (w_db (sc_world sc'))
    = kb_documents (Fixture.notes_db "auto" (Some "sha:old text")).
Proof.
  destruct (@hash_mode_confirms Fixture.toy_hashlib (Fixture.live None) 0
              (Fixture.notes_source "auto")
              (Fixture.notes_map (Some "sha:old text")) "." Fixture.touched
              (Fixture.notes_scan "auto" (Some "sha:old text")) 100 1001
              "old text")
    as (v & _ & H2 & _ & H4 & _).
  - now right.
  - vm_compute. reflexivity.
  - reflexivity.
  - reflexivity.
  - right. vm_compute. reflexivity.
  - destruct (H4 (Fixture.notes_row (Some "sha:old text")) eq_refl eq_refl)
      as (A & sc' & Hp & _ & C & D & _).
    exists v, sc'. split; [exact Hp|]. split; [exact H2|].
    split; [exact A|]. split; [exact C|exact D].
Defined.

End Evaluations.

(* ------------------------------------------------------------------ *)
(** ** Further properties of the code *)

Section ChunkerProperties.

(** X1. For a window [max_chars > overlap >= 0] and a text that is not empty
    once trimmed, the fragments of [_chunk_text] are the windows of the
    trimmed text: the [k]-th is the [max_chars] characters from position
    [k * (max_chars - overlap)] on, and there are as many as it takes to
    reach the end of the text. *)
Theorem chunker_emits_windows (fuel : nat) (text_str : string)
    (max_chars overlap : Z) :
  (0 <= overlap)%Z -> (overlap < max_chars)%Z ->
  String.length (strip_text text_str) < fuel ->
  strip_text text_str <> "" ->
  _chunk_text fuel text_str max_chars overlap
  = Some (windows (strip_text text_str) (Z.to_nat max_chars)
            (Z.to_nat (max_chars - overlap))).
Proof. exact (chunk_text_is_windows fuel text_str max_chars overlap). Qed.

Lemma chunker_emits_windows_witness :
  _chunk_text 20 "  hello world  " 4 1
  = Some (windows (strip_text "  hello world  ") (Z.to_nat 4)
            (Z.to_nat (4 - 1))).
Proof.
  apply (chunker_emits_windows 20 "  hello world  " 4 1);
    [lia | lia | vm_compute; lia | vm_compute; discriminate].
Defined.

(** X2. A text that, once trimmed, is not empty and has at most [max_chars]
    characters gives one fragment, the trimmed text, after one round of the
    loop and whatever the overlap. *)
Theorem chunker_short_text_is_one_fragment (fuel : nat) (text_str : string)
    (max_chars overlap : Z) :
  strip_text text_str <> "" ->
  (Z.of_nat (String.length (strip_text text_str)) <= max_chars)%Z ->
  _chunk_text (S fuel) text_str max_chars overlap
  = Some [strip_text text_str].
Proof. exact (chunk_text_one_window fuel text_str max_chars overlap). Qed.

Lemma chunker_short_text_is_one_fragment_witness :
  _chunk_text 1 "  hi  " 5 9 = Some [strip_text "  hi  "].
Proof.
  apply (chunker_short_text_is_one_fragment 0 "  hi  " 5 9);
    [vm_compute; discriminate | vm_compute; discriminate].
Defined.

(** X3. When the overlap is not smaller than the window
    ([max_chars <= overlap]) and the trimmed text is longer than the window,
    the loop of [_chunk_text] starts every round at position 0 and never
    ends: no amount of fuel gives a result. *)
Theorem chunker_never_ends_on_wide_overlap (text_str : string)
    (max_chars overlap : Z) :
  (0 <= overlap)%Z -> (max_chars <= overlap)%Z ->
  (max_chars < Z.of_nat (String.length (strip_text text_str)))%Z ->
  strip_text text_str <> "" ->
  forall fuel, _chunk_text fuel text_str max_chars overlap = None.
Proof.
  intros H1 H2 H3 H4 fuel.
  exact (chunk_text_stuck fuel text_str max_chars overlap H1 H2 H3 H4).
Qed.

Lemma chunker_never_ends_on_wide_overlap_witness :
  _chunk_text 1000 "hello world" 4 4 = None.
Proof.
  refine (chunker_never_ends_on_wide_overlap "hello world" 4 4 _ _ _ _ 1000);
    [lia | lia | vm_compute; reflexivity | vm_compute; discriminate].
Defined.

End ChunkerProperties.

Section GlobProperties.

(** X4. [_should_include] is true exactly when no exclude pattern matches
    the path and the include list is empty or one of its patterns matches;
    a pattern on which [match] raises counts as one that does not match. *)
Theorem inclusion_rule (rel_posix : string)
    (include_globs exclude_globs : list string) :
  _should_include rel_posix include_globs exclude_globs = true <->
  (forall p, In p exclude_globs -> path_match rel_posix p <> Some true) /\
  (include_globs = [] \/
   exists p, In p include_globs /\ path_match rel_posix p = Some true).
Proof. exact (should_include_iff rel_posix include_globs exclude_globs). Qed.

(** X5. A path is never included when the include list is not empty and
    every include pattern has more parts than the path, where the root of
    an absolute path counts as a part: [match] compares part with part and
    has no recursive wildcard. *)
Theorem longer_patterns_never_include (rel_posix : string)
    (include_globs exclude_globs : list string) :
  include_globs <> [] ->
  (forall p, In p include_globs ->
     length (Posix.parts rel_posix) < length (Posix.parts p)) ->
  _should_include rel_posix include_globs exclude_globs = false.
Proof.
  exact (should_include_longer rel_posix include_globs exclude_globs).
Qed.

Lemma longer_patterns_never_include_witness :
  _should_include "a.md" ["**/*.md"; "docs/*.txt"] [] = false.
Proof.
  apply (longer_patterns_never_include "a.md" ["**/*.md"; "docs/*.txt"] []).
  - discriminate.
  - intros p [<-|[<-|[]]]; vm_compute; lia.
Defined.

(** X6. A relative pattern of one segment is matched against the last
    segment of the path alone, whatever the directories before it. *)
Theorem one_segment_pattern_matches_the_name (rel_posix pat : string)
    (q : list ascii) (dirs : list (list ascii)) (name : list ascii) :
  Posix.root pat = "" ->
  Posix.segments pat = [q] ->
  Posix.segments rel_posix = dirs ++ [name] ->
  path_match rel_posix pat = Some (Fnmatch.fnmatchcase name q).
Proof. exact (path_match_name rel_posix pat q dirs name). Qed.

Lemma one_segment_pattern_matches_the_name_witness :
  path_match "x/y/a.md" "*.md"
  = Some (Fnmatch.fnmatchcase (list_ascii_of_string "a.md")
            (list_ascii_of_string "*.md")).
Proof.
  apply (one_segment_pattern_matches_the_name "x/y/a.md" "*.md"
           (list_ascii_of_string "*.md")
           [list_ascii_of_string "x"; list_ascii_of_string "y"]
           (list_ascii_of_string "a.md")); reflexivity.
Defined.

(** X7. The name of a file is its stem followed by its suffix, and the
    extension stored with a File, when there is one, is not empty and does
    not start with a dot. *)
Theorem file_name_attributes (name : string) :
  (PathAttr.stem name ++ PathAttr.suffix name)%string = name /\
  (forall x, PathAttr.ext_of name = Some x ->
     exists c rest, x = String c rest /\ c <> "."%char).
Proof.
  split; [exact (stem_suffix name)|exact (ext_of_clean name)].
Qed.

End GlobProperties.

Section MaterializerProperties.

Context {HL : Hashlib}.

(** X8. The materializer is idempotent: after a call that returned, a
    second call for the same file with the same body answers [skipped] with
    the id of the same Document and leaves the store as the first call left
    it. *)
Theorem materializer_is_idempotent (now now' : nat) (conn : db)
    (campaign_id source_file_id : nat) (title doc_type body : string)
    (conn' : db) (doc_id : nat) (action : string) :
  _upsert_document_and_chunks now conn campaign_id source_file_id title
    doc_type body = Ok (conn', (doc_id, action)) ->
  _upsert_document_and_chunks now' conn' campaign_id source_file_id title
    doc_type body = Ok (conn', (doc_id, "skipped")).
Proof.
  exact (upsert_document_twice now now' conn campaign_id source_file_id title
           doc_type body conn' doc_id action).
Qed.

(** X9. The three ways out of the materializer.  When the Document of the
    file holds the hash of the body, it answers [skipped] and the store is
    as it was.  Otherwise, when the body is blank, it answers [ingested]:
    no Fragment is added, and in a store whose Fragments belong to
    Documents that exist the Document of the file holds the title, the
    type, the body and the hash of the body, and has no Fragment.
    Otherwise the body has a first fragment, the statement that inserts it
    is refused by the store, and the exception leaves the materializer. *)
Theorem materializer_outcomes (now : nat) (conn : db)
    (campaign_id source_file_id : nat) (title doc_type body : string) :
  (would_skip conn campaign_id source_file_id body = true ->
   exists doc,
     Sql.select_document conn campaign_id source_file_id = Some doc /\
     _upsert_document_and_chunks now conn campaign_id source_file_id title
       doc_type body = Ok (conn, (d_id doc, "skipped"))) /\
  (would_skip conn campaign_id source_file_id body = false ->
   strip_text body = "" ->
   exists conn' doc_id,
     _upsert_document_and_chunks now conn campaign_id source_file_id title
       doc_type body = Ok (conn', (doc_id, "ingested")) /\
     (forall ch, In ch (kb_chunks conn') -> In ch (kb_chunks conn)) /\
     (Forall (fun ch => ch_document ch < seq_document conn) (kb_chunks conn)
      ->
      chunks_of doc_id conn' = [] /\
      exists doc,
        Sql.select_document conn' campaign_id source_file_id = Some doc /\
        d_id doc = doc_id /\ d_title doc = title /\
        d_doc_type doc = doc_type /\ d_body_md doc = body /\
        d_content_hash doc = _sha256_text body)) /\
  (would_skip conn campaign_id source_file_id body = false ->
   strip_text body <> "" ->
   _upsert_document_and_chunks now conn campaign_id source_file_id title
     doc_type body = Raise (SQLAlchemyError "INSERT INTO kb_chunks")).
Proof.
  split; [|split].
  - intros Hs. unfold would_skip in Hs.
    destruct (Sql.select_document conn campaign_id source_file_id)
      as [doc|] eqn:E; [|discriminate].
    exists doc. split; [reflexivity|].
    apply upsert_document_skipped; [exact E|].
    now apply String.eqb_eq.
  - intros Hs Hb.
    assert (Hr : refused conn campaign_id source_file_id body = false).
    { destruct (refused conn campaign_id source_file_id body) eqn:Er;
        [|reflexivity].
      apply refused_spec in Er. destruct Er as [_ Er]. contradiction. }
    destruct (upsert_document_returns now conn campaign_id source_file_id
                title doc_type body Hr) as (conn' & doc_id & E).
    rewrite Hs in E. exists conn', doc_id. split; [exact E|].
    split; [exact (upsert_document_no_fragment _ _ _ _ _ _ _ _ _ E)|].
    intros Hfk.
    destruct (upsert_document_ingested now conn campaign_id source_file_id
                title doc_type body conn' doc_id Hfk E) as (A & B & _).
    now split.
  - intros Hs Hb. apply upsert_document_refused.
    apply refused_spec. now split.
Qed.

(** X10. A call of the materializer that returns has written to no table
    but Documents and Fragments, and there it has left every other Document
    and the Fragments of every other Document as they were. *)
Theorem materializer_touches_one_document (now : nat) (conn : db)
    (campaign_id source_file_id : nat) (title doc_type body : string)
    (conn' : db) (doc_id : nat) (action : string) :
  _upsert_document_and_chunks now conn campaign_id source_file_id title
    doc_type body = Ok (conn', (doc_id, action)) ->
  only_kb_changed conn conn' /\
  other_documents doc_id conn' = other_documents doc_id conn /\
  other_chunks doc_id conn' = other_chunks doc_id conn.
Proof.
  intros H. split.
  - exact (upsert_document_only_kb now conn campaign_id source_file_id title
             doc_type body conn' (doc_id, action) H).
  - exact (upsert_document_frame now conn campaign_id source_file_id title
             doc_type body conn' doc_id action H).
Qed.

End MaterializerProperties.

Section MaterializerExamples.

Lemma materializer_is_idempotent_witness :
  @_upsert_document_and_chunks Fixture.toy_hashlib 8 Sample.cleared_db
    Fixture.campaign 0 "notes" "md" ""
  = Ok (Sample.cleared_db, (0, "skipped")).
Proof.
  apply (@materializer_is_idempotent Fixture.toy_hashlib 7 8
           (Fixture.notes_db "auto" None) Fixture.campaign 0 "notes" "md"
           "" Sample.cleared_db 0 "ingested").
  vm_compute. reflexivity.
Defined.

Lemma materializer_touches_one_document_witness :
  only_kb_changed (Fixture.notes_db "auto" None) Sample.cleared_db /\
  other_documents 0 Sample.cleared_db
  = other_documents 0 (Fixture.notes_db "auto" None) /\
  other_chunks 0 Sample.cleared_db
  = other_chunks 0 (Fixture.notes_db "auto" None).
Proof.
  apply (@materializer_touches_one_document Fixture.toy_hashlib 7
           (Fixture.notes_db "auto" None) Fixture.campaign 0 "notes" "md"
           "" Sample.cleared_db 0 "ingested").
  vm_compute. reflexivity.
Defined.

End MaterializerExamples.

Section RunProperties.

Context {HL : Hashlib}.

(** X11. For a campaign that does not exist, [update_campaign_kb] raises
    [ValueError] with the message [Campaign not found.], leaves the store as
    it was (no row of a run among the rest), and the route [kb_update]
    answers 400 with that message. *)
Theorem unknown_campaign_is_rejected (fs : filesystem) (now : nat) (d : db)
    (campaign_id : nat) (dry_run force_rehash : bool) (max_files : option Z) :
  Sql.campaign_exists d campaign_id = false ->
  update_campaign_kb fs now d campaign_id dry_run force_rehash max_files
  = mkFinished d (Raise (ValueError "Campaign not found.")) [] /\
  kb_update fs now d campaign_id dry_run force_rehash max_files
  = (d, HttpException 400 "Campaign not found.").
Proof.
  exact (unknown_campaign_aborts fs now d campaign_id dry_run force_rehash
           max_files).
Qed.

(** X12. No call of [update_campaign_kb] returns: an exception leaves it
    every time and the store is as it was.  The exception is the
    [ValueError] of an unknown campaign; or, for a known campaign, the
    [OSError] of a root of a source that [exists] cannot test, the
    [OSError] of a file that a hashing source cannot open, the refusal met
    in the handler of a failed ingestion in a live run (a source holds a
    readable file whose text is not blank), or, when the scan came to its
    end, the refusal of the statement that closes the run. *)
Theorem run_always_raises (fs : filesystem) (now : nat) (d : db)
    (campaign_id : nat) (dry_run force_rehash : bool) (max_files : option Z) :
  fin_db
    (update_campaign_kb fs now d campaign_id dry_run force_rehash max_files)
  = d /\
  exists ex,
    fin_result
      (update_campaign_kb fs now d campaign_id dry_run force_rehash max_files)
    = Raise ex /\
    ((Sql.campaign_exists d campaign_id = false /\
      ex = ValueError "Campaign not found.") \/
     (Sql.campaign_exists d campaign_id = true /\
      ((exists src msg,
          In src (Sql.select_sources d campaign_id) /\
          untestable fs src msg /\ ex = OSError msg) \/
       (exists src msg,
          In src (Sql.select_sources d campaign_id) /\
          unhashable fs src msg /\ ex = OSError msg) \/
       (dry_run = false /\
        (exists src,
           In src (Sql.select_sources d campaign_id) /\ fragmented fs src) /\
        ex = SQLAlchemyError "UPDATE source_files") \/
       ((exists w,
           scan_campaign
             (mkEnv fs now campaign_id dry_run force_rehash max_files) d
           = Ok (w, seq_run d)) /\
        ex = SQLAlchemyError "UPDATE ingest_runs")))).
Proof.
  exact (run_raise_cases fs now d campaign_id dry_run force_rehash max_files).
Qed.

(** X13. The route [kb_update] never answers 200 and leaves the store as it
    was: for an unknown campaign it answers 400 with the message
    [Campaign not found.]; for a known campaign the exception of
    [update_campaign_kb], which is no [ValueError], passes through it. *)
Theorem route_answers (fs : filesystem) (now : nat) (d : db)
    (campaign_id : nat) (dry_run force_rehash : bool) (max_files : option Z) :
  fst (kb_update fs now d campaign_id dry_run force_rehash max_files) = d /\
  (forall body,
     snd (kb_update fs now d campaign_id dry_run force_rehash max_files)
     <> Http200 body) /\
  (Sql.campaign_exists d campaign_id = false ->
   snd (kb_update fs now d campaign_id dry_run force_rehash max_files)
   = HttpException 400 "Campaign not found.") /\
  (Sql.campaign_exists d campaign_id = true ->
   exists ex,
     snd (kb_update fs now d campaign_id dry_run force_rehash max_files)
     = Unhandled ex /\
     fin_result
       (update_campaign_kb fs now d campaign_id dry_run force_rehash
          max_files) = Raise ex /\
     forall msg, ex <> ValueError msg).
Proof.
  exact (kb_update_answers fs now d campaign_id dry_run force_rehash
           max_files).
Qed.

(** X14. For a campaign that exists, when the root of every enabled source
    can be tested and every file of the walks can be opened, and the run is
    dry or every file holds blank text: the scan comes to its end, with the
    id drawn for the run, and [update_campaign_kb] raises at the statement
    that closes the run, the store as it was. *)
Theorem run_stops_at_its_final_statement (fs : filesystem) (now : nat)
    (d : db) (campaign_id : nat) (dry_run force_rehash : bool)
    (max_files : option Z) :
  Sql.campaign_exists d campaign_id = true ->
  (forall src, In src (Sql.select_sources d campaign_id) ->
     exists found, fs_exists fs (root_path src) = ExistsOk found) ->
  (forall src, In src (Sql.select_sources d campaign_id) ->
     walk_readable (source_walk fs src)) ->
  (dry_run = true \/
   forall src, In src (Sql.select_sources d campaign_id) ->
     walk_blank (source_walk fs src)) ->
  (exists w,
     scan_campaign (mkEnv fs now campaign_id dry_run force_rehash max_files)
       d = Ok (w, seq_run d)) /\
  update_campaign_kb fs now d campaign_id dry_run force_rehash max_files
  = mkFinished d (Raise (SQLAlchemyError "UPDATE ingest_runs")) [].
Proof.
  intros Hc Hroots Hread Hblank.
  destruct (scan_campaign_returns
              (mkEnv fs now campaign_id dry_run force_rehash max_files) d
              Hc Hroots Hread Hblank) as (w & Hw).
  split; [now exists w|].
  exact (scanned_run_raises fs now d campaign_id dry_run force_rehash
           max_files w (seq_run d) Hw).
Qed.

(** X15. What a scan that comes to its end hands to the statement that
    closes the run: the id is the next of the sequence of runs, the status
    is [ok] when no error was recorded and [partial] otherwise, and
    [sources_total] and [sources_scanned] both count the enabled sources of
    the campaign. *)
Theorem scan_result_summary (e : env) (d : db) (w : world)
    (ingest_run_id : nat) :
  scan_campaign e d = Ok (w, ingest_run_id) ->
  ingest_run_id = seq_run d /\
  ((status_of (w_stats w) = "ok" /\ errors (w_stats w) = []) \/
   (status_of (w_stats w) = "partial" /\ errors (w_stats w) <> [])) /\
  sources_total (w_stats w)
  = length (Sql.select_sources d (e_campaign_id e)) /\
  sources_scanned (w_stats w)
  = length (Sql.select_sources d (e_campaign_id e)).
Proof.
  intros H.
  destruct (scan_counts_sources e d w ingest_run_id H) as (A & B & _).
  apply scan_campaign_ok in H. destruct H as (_ & Hid & _).
  split; [exact Hid|]. split; [|now split].
  unfold status_of. destruct (errors (w_stats w)); cbn.
  - now left.
  - right. split; [reflexivity|discriminate].
Qed.

(** X16. With [max_files = k], the scan of one source reads for ingestion
    at most [k] files, and the Documents it ingested or skipped are among
    the files it read; the count starts again at the next source. *)
Theorem cap_bounds_ingestion_per_source (e : env) (ingest_run_id : nat)
    (src : source) (w w' : world) :
  scan_source e ingest_run_id src w = Ok w' ->
  exists n,
    (forall k, e_max_files e = Some k -> n <= Z.to_nat k) /\
    reads (w_trace w') = reads (w_trace w) + n /\
    materialized (w_stats w) <= materialized (w_stats w') /\
    materialized (w_stats w') <= materialized (w_stats w) + n.
Proof. exact (scan_source_budget e ingest_run_id src w w'). Qed.

(** X17. In a store whose audit rows come from the sequence of runs, the
    transaction a scan hands to the statement that closes the run holds one
    more row of [ingest_runs], the row of the run with the status
    [running]; the rows of earlier runs and the audit rows of earlier runs
    are as they were, and every audit row added is a row of this run. *)
Theorem scan_appends_its_rows (e : env) (d : db) (w : world)
    (ingest_run_id : nat) :
  Forall (fun rf => rf_run rf < seq_run d) (ingest_run_files d) ->
  scan_campaign e d = Ok (w, ingest_run_id) ->
  ingest_run_id = seq_run d /\
  ingest_runs (w_db w)
  = ingest_runs d
    ++ [mkRun (seq_run d) (e_campaign_id e) "api" "running" None None None]
  /\
  seq_run (w_db w) = S (seq_run d) /\
  audit_grown (seq_run d) (ingest_run_files d) (ingest_run_files (w_db w)).
Proof. exact (scan_rows e d w ingest_run_id). Qed.


(** X19. In the transaction a scan hands to the statement that closes the
    run, the Files of every source the run does not scan (a source that is
    disabled, or of another campaign) are exactly as they were; and so are
    the Files of an enabled source whose root path does not exist: the
    source is skipped, none of its Files is marked deleted, its error is
    recorded and the status is [partial]. *)
Theorem unscanned_sources_are_untouched (e : env) (d : db) (w : world)
    (ingest_run_id : nat) :
  store_wf d -> fs_wf (e_fs e) ->
  scan_campaign e d = Ok (w, ingest_run_id) ->
  (forall source_id,
     ~ In source_id (map src_id (Sql.select_sources d (e_campaign_id e))) ->
     rows_of source_id (source_files (w_db w))
     = rows_of source_id (source_files d)) /\
  (forall src,
     In src (Sql.select_sources d (e_campaign_id e)) ->
     fs_exists (e_fs e) (root_path src) = ExistsOk false ->
     rows_of (src_id src) (source_files (w_db w))
     = rows_of (src_id src) (source_files d) /\
     status_of (w_stats w) = "partial" /\
     In ("Source '" ++ src_name src ++ "' root_path not found: "
         ++ root_path src)%string
       (errors (w_stats w))).
Proof.
  intros Hwf Hfs H. split.
  - intros source_id Hn.
    exact (scan_frame_files e d w ingest_run_id source_id Hwf Hfs H Hn).
  - intros src Hin Hex.
    exact (scan_skips_rootless e d w ingest_run_id src Hwf Hfs Hin Hex H).
Qed.

(** X21. In the transaction a scan hands to the statement that closes the
    run, dry or live, every file that the walk of an enabled source lists,
    that passes the globs and whose [stat] succeeds has a row that is not
    deleted, the last of its path, holding the size and the modification
    time that [stat] gave. *)
Theorem scanned_files_are_recorded (e : env) (d : db) (w : world)
    (ingest_run_id : nat) (src : source) (rel_path : string)
    (size_bytes mtime_epoch : Z) :
  store_wf d -> fs_wf (e_fs e) ->
  scan_campaign e d = Ok (w, ingest_run_id) ->
  In src (Sql.select_sources d (e_campaign_id e)) ->
  fs_exists (e_fs e) (root_path src) = ExistsOk true ->
  In (rel_path, size_bytes, mtime_epoch)
    (walk_obs src (source_walk (e_fs e) src)) ->
  exists row,
    existing_row (source_files (w_db w)) (src_id src) rel_path = Some row /\
    f_size_bytes row = size_bytes /\ f_mtime_epoch row = mtime_epoch.
Proof.
  exact (scan_syncs_files e d w ingest_run_id src rel_path size_bytes
           mtime_epoch).
Qed.

(** X25. A scan started from the store another scan of the same tree
    handed over finds no file new and none changed: every file seen is
    unchanged, nothing is ingested or skipped, Documents and Fragments stay
    as they were, and no file is read and no call of the materializer is
    made. *)
Theorem rescan_is_idle (fs : filesystem) (now1 now2 : nat) (d : db)
    (campaign_id : nat) (dry_run1 force_rehash1 : bool)
    (max_files1 : option Z) (dry_run2 force_rehash2 : bool)
    (max_files2 : option Z) (w1 : world) (ingest_run_id1 : nat) (w2 : world)
    (ingest_run_id2 : nat) :
  store_wf d -> fs_wf fs ->
  scan_campaign
    (mkEnv fs now1 campaign_id dry_run1 force_rehash1 max_files1) d
  = Ok (w1, ingest_run_id1) ->
  scan_campaign
    (mkEnv fs now2 campaign_id dry_run2 force_rehash2 max_files2) (w_db w1)
  = Ok (w2, ingest_run_id2) ->
  files_new (w_stats w2) = 0 /\
  files_changed (w_stats w2) = 0 /\
  files_unchanged (w_stats w2) = files_seen (w_stats w2) /\
  ingest_tally (w_stats w2) = (0, 0, 0) /\
  kb_documents (w_db w2) = kb_documents (w_db w1) /\
  kb_chunks (w_db w2) = kb_chunks (w_db w1) /\
  filter is_ingest_event (w_trace w2) = [].
Proof.
  exact (second_scan_is_idle fs now1 now2 d campaign_id dry_run1
           force_rehash1 max_files1 dry_run2 force_rehash2 max_files2 w1
           ingest_run_id1 w2 ingest_run_id2).
Qed.

(** X28. In the transaction a scan hands to the statement that closes the
    run, dry or live, every enabled source of the campaign whose root
    exists has a Folder row for the root (the empty path) and a Folder row
    for every directory its walk lists, each last seen at the time of the
    run. *)
Theorem walked_folders_are_recorded (e : env) (d : db) (w : world)
    (ingest_run_id : nat) (src : source) :
  scan_campaign e d = Ok (w, ingest_run_id) ->
  In src (Sql.select_sources d (e_campaign_id e)) ->
  fs_exists (e_fs e) (root_path src) = ExistsOk true ->
  folder_seen (e_now e) (src_id src) "" (w_db w) /\
  forall de, In de (source_walk (e_fs e) src) ->
    folder_seen (e_now e) (src_id src) (de_rel de) (w_db w).
Proof. exact (scan_records_folders e d w ingest_run_id src). Qed.

(** X29. The time stamps on the sources in the transaction a scan hands to
    the statement that closes the run: every enabled source of the campaign
    has [last_scan_at] at the time of the run, dry run or not; in a live
    run those whose root exists have [last_ingest_at] at that time; a dry
    run leaves every [last_ingest_at] as it was. *)
Theorem scan_stamps_the_sources (e : env) (d : db) (w : world)
    (ingest_run_id : nat) :
  scan_campaign e d = Ok (w, ingest_run_id) ->
  (forall src, In src (Sql.select_sources d (e_campaign_id e)) ->
     scan_stamped (e_now e) (src_id src) (w_db w) /\
     (fs_exists (e_fs e) (root_path src) = ExistsOk true ->
      e_dry_run e = false ->
      ingest_stamped (e_now e) (src_id src) (w_db w))) /\
  (e_dry_run e = true ->
   map src_last_ingest_at (campaign_sources (w_db w))
   = map src_last_ingest_at (campaign_sources d)).
Proof. exact (scan_stamps_sources e d w ingest_run_id). Qed.

(** X30. What a dry scan hands to the statement that closes the run:
    Documents, Fragments and audit rows are as they were; in the File table
    the rows that were there come first, in their order, each with its id,
    source, path, [last_ingested_at], [last_ingest_status] and [error] as
    before; the rows added after them have [last_ingest_status] at
    ['never'] and no [last_ingested_at]; and every File with the status
    ['deleted'] is, unchanged, a row of the table before the run. *)
Theorem dry_scan_keeps_file_history (e : env) (d : db) (w : world)
    (ingest_run_id : nat) :
  e_dry_run e = true ->
  scan_campaign e d = Ok (w, ingest_run_id) ->
  kb_documents (w_db w) = kb_documents d /\
  kb_chunks (w_db w) = kb_chunks d /\
  ingest_run_files (w_db w) = ingest_run_files d /\
  dry_files (source_files d) (source_files (w_db w)).
Proof.
  intros Hdry H.
  pose proof (dry_scan_view e d w ingest_run_id Hdry H) as V.
  unfold dry_view in V.
  split; [exact (f_equal (fun t => fst (fst (fst t))) V)|].
  split; [exact (f_equal (fun t => snd (fst (fst t))) V)|].
  split; [exact (f_equal snd V)|].
  exact (dry_scan_files e d w ingest_run_id Hdry H).
Qed.

End RunProperties.

Section FileProperties.

Context {HL : Hashlib}.

(** X20. Under change detection [mtime] the detector does not hash, and
    its verdict is that of the metadata: changed when the file has no
    prior record or its size or its modification time differs from the
    record.  When the handling of the file returns, no hash was computed,
    the file is counted in the class of that verdict and in no other, and
    for a readable file that is changed, in a live run under the cap, the
    trace adds the read of the file and the call of the materializer. *)
Theorem mtime_mode_skips_hash (e : env) (ingest_run_id : nat) (src : source)
    (existing_map : Dict.t file) (dir_rel : string) (fe : file_entry)
    (sc : scan) (size_bytes mtime_epoch : Z) :
  src_change_detection src = "mtime" ->
  entry_included src dir_rel fe = true ->
  fe_stat fe = StatOk size_bytes mtime_epoch ->
  let prev := Dict.get existing_map (entry_rel dir_rel fe) in
  let changed := meta_changed prev size_bytes mtime_epoch in
  exists v,
    detect_change (src_change_detection src) (e_force_rehash e) prev
      size_bytes mtime_epoch (fe_open fe) = Ok v /\
    v_hashed v = false /\
    v_changed v = changed /\
    (forall sc',
       process_file e ingest_run_id src existing_map dir_rel fe sc = Ok sc'
       ->
       hash_events (w_trace (sc_world sc'))
       = hash_events (w_trace (sc_world sc)) /\
       counted (class_of (is_none prev) changed)
         (w_stats (sc_world sc)) (w_stats (sc_world sc')) /\
       (forall content,
          changed = true -> e_dry_run e = false ->
          cap_reached (e_max_files e) (sc_files_to_ingest sc) = false ->
          fe_open fe = OpenOk content ->
          w_trace (sc_world sc')
          = w_trace (sc_world sc)
            ++ [EvReadText (entry_full src dir_rel fe);
                EvUpsertDocument (row_id prev (w_db (sc_world sc)))
                  (if would_skip (w_db (sc_world sc)) (e_campaign_id e)
                        (row_id prev (w_db (sc_world sc)))
                        (utf8_decode_replace content)
                   then "skipped" else "ingested")])).
Proof.
  exact (mtime_mode_verdict e ingest_run_id src existing_map dir_rel fe sc
           size_bytes mtime_epoch).
Qed.

(** X22. A new or changed file of a source that does not hash, in a live
    run and under the cap, that cannot be read: the scan goes on, the
    message [ingest failed for <path>: <error>] is added to the errors, the
    attempt counts against the cap, no Document or Fragment is written, the
    run has an audit row for the file with status [error] and the error,
    and the row of the File is marked [error] with the error and the time. *)
Theorem unreadable_file_is_recorded (e : env) (ingest_run_id : nat)
    (src : source) (existing_map : Dict.t file) (dir_rel : string)
    (fe : file_entry) (sc : scan) (size_bytes mtime_epoch : Z)
    (msg : string) :
  entry_included src dir_rel fe = true ->
  fe_stat fe = StatOk size_bytes mtime_epoch ->
  fe_open fe = OpenErr msg ->
  hashing_mode (src_change_detection src) = false ->
  meta_changed (Dict.get existing_map (entry_rel dir_rel fe)) size_bytes
    mtime_epoch = true ->
  e_dry_run e = false ->
  cap_reached (e_max_files e) (sc_files_to_ingest sc) = false ->
  exists sc',
    process_file e ingest_run_id src existing_map dir_rel fe sc = Ok sc' /\
    errors (w_stats (sc_world sc'))
    = errors (w_stats (sc_world sc))
      ++ [("ingest failed for " ++ entry_rel dir_rel fe ++ ": " ++ msg)%string]
    /\
    sc_files_to_ingest sc' = (sc_files_to_ingest sc + 1)%Z /\
    kb_documents (w_db (sc_world sc')) = kb_documents (w_db (sc_world sc)) /\
    kb_chunks (w_db (sc_world sc')) = kb_chunks (w_db (sc_world sc)) /\
    (exists rf,
       In rf (ingest_run_files (w_db (sc_world sc'))) /\
       rf_run rf = ingest_run_id /\
       rf_file rf
       = row_id (Dict.get existing_map (entry_rel dir_rel fe))
           (w_db (sc_world sc)) /\
       rf_status rf = "error" /\ rf_error rf = Some (truncate msg)) /\
    (forall row,
       In row (source_files (w_db (sc_world sc'))) ->
       f_id row
       = row_id (Dict.get existing_map (entry_rel dir_rel fe))
           (w_db (sc_world sc)) ->
       f_last_ingest_status row = "error" /\
       f_error row = Some (truncate msg) /\
       f_last_ingested_at row = Some (e_now e)).
Proof.
  exact (process_file_unreadable e ingest_run_id src existing_map dir_rel fe
           sc size_bytes mtime_epoch msg).
Qed.

(** X23. A file that is new or changed, in a live run and under the cap,
    and that can be read.  When no Document of the File holds the hash of
    its text and the text is not blank, the statement that writes its first
    Fragment is refused by the store, the statement of the handler is
    refused too, and the exception leaves the handling of the file.
    Otherwise the handling returns: the Document of the File holds the hash
    of the text, no Fragment was added, the run has an audit row for the
    File, and the row of the File says [ok] or [skipped], without an error,
    at the time of the run. *)
Theorem read_file_is_materialized (e : env) (ingest_run_id : nat)
    (src : source) (existing_map : Dict.t file) (dir_rel : string)
    (fe : file_entry) (sc : scan) (size_bytes mtime_epoch : Z)
    (v : verdict) (content : string) :
  entry_included src dir_rel fe = true ->
  fe_stat fe = StatOk size_bytes mtime_epoch ->
  fe_open fe = OpenOk content ->
  detect_change (src_change_detection src) (e_force_rehash e)
    (Dict.get existing_map (entry_rel dir_rel fe)) size_bytes mtime_epoch
    (fe_open fe) = Ok v ->
  attempts e v (sc_files_to_ingest sc) = true ->
  let file_id :=
    row_id (Dict.get existing_map (entry_rel dir_rel fe))
      (w_db (sc_world sc)) in
  let body := utf8_decode_replace content in
  (would_skip (w_db (sc_world sc)) (e_campaign_id e) file_id body = false ->
   strip_text body <> "" ->
   process_file e ingest_run_id src existing_map dir_rel fe sc
   = Raise (SQLAlchemyError "UPDATE source_files")) /\
  (would_skip (w_db (sc_world sc)) (e_campaign_id e) file_id body = true
   \/ strip_text body = "" ->
   exists sc',
     process_file e ingest_run_id src existing_map dir_rel fe sc = Ok sc' /\
     (exists doc,
        Sql.select_document (w_db (sc_world sc')) (e_campaign_id e) file_id
        = Some doc /\
        d_content_hash doc = _sha256_text body) /\
     (forall ch, In ch (kb_chunks (w_db (sc_world sc'))) ->
                 In ch (kb_chunks (w_db (sc_world sc)))) /\
     (exists rf,
        In rf (ingest_run_files (w_db (sc_world sc'))) /\
        rf_run rf = ingest_run_id /\ rf_file rf = file_id) /\
     (forall row,
        In row (source_files (w_db (sc_world sc'))) ->
        f_id row = file_id ->
        (f_last_ingest_status row = "ok"
         \/ f_last_ingest_status row = "skipped") /\
        f_error row = None /\
        f_last_ingested_at row = Some (e_now e))).
Proof.
  intros Hi Hs Ho Hd Ha file_id body. split.
  - intros Hn Hb.
    apply (process_file_refused e ingest_run_id src existing_map dir_rel fe
             sc size_bytes mtime_epoch v content Hi Hs Hd Ha Ho).
    apply refused_spec. now split.
  - intros Hok.
    apply (process_file_materializes e ingest_run_id src existing_map dir_rel
             fe sc size_bytes mtime_epoch v content Hi Hs Ho Hd Ha).
    fold file_id body.
    destruct (refused (w_db (sc_world sc)) (e_campaign_id e) file_id body)
      eqn:Er; [|reflexivity].
    apply refused_spec in Er. destruct Er as [E1 E2].
    destruct Hok as [Hok|Hok]; [congruence|contradiction].
Qed.

End FileProperties.

Section RouteProperties.

(** X24. The route [list_document_chunks] answers 404 for a Document that
    does not exist; for one that exists it answers 200 with the number of
    the Fragments of the Document as total and with a page of at most
    [limit] of them, in the order of their index; a first page wide enough
    holds them all. *)
Theorem chunk_listing_is_a_sorted_page (d : db) (doc_id lim off : nat) :
  ((forall r, In r (kb_documents d) -> d_id r <> doc_id) ->
   list_document_chunks d doc_id lim off
   = AnswerError 404 "Document not found.") /\
  ((exists r, In r (kb_documents d) /\ d_id r = doc_id) ->
   exists items,
     list_document_chunks d doc_id lim off
     = Answer200 (mkPage items (length (chunks_of doc_id d)) lim off) /\
     length items <= lim /\
     StronglySorted le (map ch_chunk_index items) /\
     (forall ch, In ch items ->
        In ch (kb_chunks d) /\ ch_document ch = doc_id) /\
     (off = 0 -> length (chunks_of doc_id d) <= lim ->
      forall ch, In ch (kb_chunks d) -> ch_document ch = doc_id ->
                 In ch items)).
Proof. exact (list_document_chunks_page d doc_id lim off). Qed.

End RouteProperties.

Section FormProperties.

(** X26. Every glob that [ui_source_create] reads off a text of the form is
    clean: not empty, without white space before or after it, and without a
    line boundary inside. *)
Theorem form_globs_are_clean (raw : string) :
  Forall clean_glob (glob_lines raw).
Proof. exact (glob_lines_clean raw). Qed.

(** X27. Clean globs written one on each line are read back by
    [ui_source_create] as they are, in their order. *)
Theorem form_globs_round_trip (globs : list string) :
  Forall clean_glob globs -> glob_lines (join_lines globs) = globs.
Proof. exact (glob_lines_join globs). Qed.

End FormProperties.

Section FurtherExamples.

Ltac fresh_keys :=
  repeat (apply NoDup_cons; [cbn; intuition discriminate|]); apply NoDup_nil.

Lemma no_fs_wf : fs_wf Fixture.no_fs.
Proof. intros root follow. constructor. Qed.

Lemma archived_db_wf : store_wf Sample.archived_db.
Proof.
  repeat split; cbn; try fresh_keys; repeat constructor.
Qed.

Lemma fresh_db_wf : store_wf Fixture.fresh_db.
Proof. apply empty_db_wf. cbn. fresh_keys. Qed.

Lemma one_file_fs_wf : fs_wf (Fixture.kb_fs Fixture.one_file_walk).
Proof. apply kb_fs_wf. cbn. fresh_keys. Qed.

Lemma unknown_campaign_is_rejected_witness :
  @update_campaign_kb Fixture.toy_hashlib Fixture.no_fs 7
    (Fixture.empty_db []) 2 false false None
  = mkFinished (Fixture.empty_db [])
      (Raise (ValueError "Campaign not found.")) [] /\
  @kb_update Fixture.toy_hashlib Fixture.no_fs 7 (Fixture.empty_db []) 2
    false false None
  = (Fixture.empty_db [], HttpException 400 "Campaign not found.").
Proof.
  apply (@unknown_campaign_is_rejected Fixture.toy_hashlib Fixture.no_fs 7
           (Fixture.empty_db []) 2 false false None).
  reflexivity.
Defined.

Lemma run_stops_at_its_final_statement_witness :
  (exists w,
     Fixture.scan (Fixture.kb_fs Fixture.one_file_walk) 7 Fixture.fresh_db
       true None = Ok (w, 0)) /\
  Fixture.run (Fixture.kb_fs Fixture.one_file_walk) 7 Fixture.fresh_db true
    None
  = mkFinished Fixture.fresh_db (Raise (SQLAlchemyError "UPDATE ingest_runs"))
      [].
Proof.
  apply (@run_stops_at_its_final_statement Fixture.toy_hashlib
           (Fixture.kb_fs Fixture.one_file_walk) 7 Fixture.fresh_db
           Fixture.campaign true false None).
  - reflexivity.
  - intros src [<-|[]]. exists true. reflexivity.
  - intros src [<-|[]] de fe [<-|[]] [<-|[]]. eexists. reflexivity.
  - now left.
Defined.

Lemma scan_result_summary_witness :
  0 = 0 /\
  ((status_of
      (w_stats
         (Fixture.handed
            (Fixture.scan Fixture.no_fs 7 (Fixture.notes_db "auto" None)
               false None))) = "ok" /\
    errors
      (w_stats
         (Fixture.handed
            (Fixture.scan Fixture.no_fs 7 (Fixture.notes_db "auto" None)
               false None))) = []) \/
   (status_of
      (w_stats
         (Fixture.handed
            (Fixture.scan Fixture.no_fs 7 (Fixture.notes_db "auto" None)
               false None))) = "partial" /\
    errors
      (w_stats
         (Fixture.handed
            (Fixture.scan Fixture.no_fs 7 (Fixture.notes_db "auto" None)
               false None))) <> [])) /\
  sources_total
    (w_stats
       (Fixture.handed
          (Fixture.scan Fixture.no_fs 7 (Fixture.notes_db "auto" None) false
             None))) = 1 /\
  sources_scanned
    (w_stats
       (Fixture.handed
          (Fixture.scan Fixture.no_fs 7 (Fixture.notes_db "auto" None) false
             None))) = 1.
Proof.
  apply (@scan_result_summary Fixture.toy_hashlib
           (mkEnv Fixture.no_fs 7 Fixture.campaign false false None)
           (Fixture.notes_db "auto" None)).
  vm_compute. reflexivity.
Defined.

Lemma cap_bounds_ingestion_per_source_witness :
  exists n,
    (forall k, Some 1%Z = Some k -> n <= Z.to_nat k) /\
    reads
      (w_trace
         (Sample.scanned
            (@scan_source Fixture.toy_hashlib Sample.capped_env 0
               (Fixture.notes_source "auto")
               (mkWorld Fixture.fresh_db empty_stats []))))
    = 0 + n /\
    0 <= materialized
           (w_stats
              (Sample.scanned
                 (@scan_source Fixture.toy_hashlib Sample.capped_env 0
                    (Fixture.notes_source "auto")
                    (mkWorld Fixture.fresh_db empty_stats [])))) /\
    materialized
      (w_stats
         (Sample.scanned
            (@scan_source Fixture.toy_hashlib Sample.capped_env 0
               (Fixture.notes_source "auto")
               (mkWorld Fixture.fresh_db empty_stats []))))
    <= 0 + n.
Proof.
  apply (@cap_bounds_ingestion_per_source Fixture.toy_hashlib
           Sample.capped_env 0 (Fixture.notes_source "auto")
           (mkWorld Fixture.fresh_db empty_stats [])).
  vm_compute. reflexivity.
Defined.

Lemma scan_appends_its_rows_witness :
  0 = 0 /\
  ingest_runs (w_db (Fixture.handed Sample.dry_scan))
  = [mkRun 0 Fixture.campaign "api" "running" None None None] /\
  seq_run (w_db (Fixture.handed Sample.dry_scan)) = 1 /\
  audit_grown 0 [] (ingest_run_files (w_db (Fixture.handed Sample.dry_scan))).
Proof.
  apply (@scan_appends_its_rows Fixture.toy_hashlib Sample.dry_env
           Fixture.fresh_db).
  - constructor.
  - vm_compute. reflexivity.
Defined.


Lemma unscanned_sources_are_untouched_witness :
  rows_of 11
    (source_files
       (w_db
          (Fixture.handed
             (Fixture.scan (Fixture.kb_fs Fixture.one_file_walk) 7
                Sample.archived_db true None))))
  = [Sample.archive_row].
Proof.
  destruct (@unscanned_sources_are_untouched Fixture.toy_hashlib
              (mkEnv (Fixture.kb_fs Fixture.one_file_walk) 7 Fixture.campaign
                 true false None)
              Sample.archived_db
              (Fixture.handed
                 (Fixture.scan (Fixture.kb_fs Fixture.one_file_walk) 7
                    Sample.archived_db true None))
              0) as [A _].
  - exact archived_db_wf.
  - apply kb_fs_wf. cbn. fresh_keys.
  - vm_compute. reflexivity.
  - apply (A 11). vm_compute. intros [H|[]]. discriminate.
Defined.

Lemma mtime_mode_skips_hash_witness :
  exists v,
    @detect_change Fixture.toy_hashlib "mtime" false
      (Some (Fixture.notes_row None)) 100 1001 (OpenOk "old text") = Ok v /\
    v_hashed v = false /\ v_changed v = true.
Proof.
  destruct (@mtime_mode_skips_hash Fixture.toy_hashlib (Fixture.live None) 0
              (Fixture.notes_source "mtime") (Fixture.notes_map None) "."
              Fixture.touched (Fixture.notes_scan "mtime" None) 100 1001)
    as (v & H1 & H2 & H3 & _).
  - reflexivity.
  - vm_compute. reflexivity.
  - reflexivity.
  - exists v. split; [exact H1|]. split; [exact H2|exact H3].
Defined.

Lemma scanned_files_are_recorded_witness :
  exists row,
    existing_row (source_files (w_db (Fixture.handed Sample.dry_scan))) 10
      "a.md" = Some row /\
    f_size_bytes row = 3%Z /\ f_mtime_epoch row = 100%Z.
Proof.
  apply (@scanned_files_are_recorded Fixture.toy_hashlib Sample.dry_env
           Fixture.fresh_db (Fixture.handed Sample.dry_scan) 0
           (Fixture.notes_source "auto") "a.md" 3%Z 100%Z).
  - apply empty_db_wf. cbn. fresh_keys.
  - apply kb_fs_wf. cbn. fresh_keys.
  - vm_compute. reflexivity.
  - cbn. now left.
  - reflexivity.
  - vm_compute. now left.
Defined.

Lemma unreadable_file_is_recorded_witness :
  exists sc',
    @process_file Fixture.toy_hashlib (Fixture.live None) 0
      (Fixture.notes_source "mtime") [] "." (Fixture.locked_file "d.md")
      (Sample.blank_scan "mtime") = Ok sc' /\
    errors (w_stats (sc_world sc'))
    = ["ingest failed for d.md: Permission denied"] /\
    sc_files_to_ingest sc' = 1%Z.
Proof.
  destruct (@unreadable_file_is_recorded Fixture.toy_hashlib
              (Fixture.live None) 0 (Fixture.notes_source "mtime") [] "."
              (Fixture.locked_file "d.md") (Sample.blank_scan "mtime")
              5%Z 100%Z "Permission denied")
    as (sc' & H1 & H2 & H3 & _); try reflexivity.
  exists sc'. split; [exact H1|]. split; [exact H2|exact H3].
Defined.

Lemma read_file_is_materialized_witness :
  exists sc' doc,
    @process_file Fixture.toy_hashlib (Fixture.live None) 0
      (Fixture.notes_source "mtime") (Fixture.notes_map None) "."
      Fixture.touched (Fixture.notes_scan "mtime" None) = Ok sc' /\
    Sql.select_document (w_db (sc_world sc')) Fixture.campaign 0 = Some doc /\
    d_content_hash doc = "sha:old text".
Proof.
  destruct (@read_file_is_materialized Fixture.toy_hashlib
              (Fixture.live None) 0 (Fixture.notes_source "mtime")
              (Fixture.notes_map None) "." Fixture.touched
              (Fixture.notes_scan "mtime" None) 100%Z 1001%Z
              (mkVerdict false true true None false) "old text")
    as [_ B]; try reflexivity.
  destruct B as (sc' & H1 & (doc & H2 & H3) & _);
    [left; vm_compute; reflexivity|].
  exists sc', doc. split; [exact H1|]. split; [exact H2|exact H3].
Defined.

Lemma rescan_is_idle_witness :
  files_new
    (w_stats
       (Fixture.handed
          (Fixture.scan (Fixture.kb_fs Fixture.one_empty_walk) 8
             (w_db
                (Fixture.handed
                   (Fixture.scan (Fixture.kb_fs Fixture.one_empty_walk) 7
                      Fixture.fresh_db false None)))
             false None))) = 0 /\
  files_changed
    (w_stats
       (Fixture.handed
          (Fixture.scan (Fixture.kb_fs Fixture.one_empty_walk) 8
             (w_db
                (Fixture.handed
                   (Fixture.scan (Fixture.kb_fs Fixture.one_empty_walk) 7
                      Fixture.fresh_db false None)))
             false None))) = 0.
Proof.
  destruct (@rescan_is_idle Fixture.toy_hashlib
              (Fixture.kb_fs Fixture.one_empty_walk) 7 8 Fixture.fresh_db
              Fixture.campaign false false None false false None
              (Fixture.handed
                 (Fixture.scan (Fixture.kb_fs Fixture.one_empty_walk) 7
                    Fixture.fresh_db false None))
              0
              (Fixture.handed
                 (Fixture.scan (Fixture.kb_fs Fixture.one_empty_walk) 8
                    (w_db
                       (Fixture.handed
                          (Fixture.scan
                             (Fixture.kb_fs Fixture.one_empty_walk) 7
                             Fixture.fresh_db false None)))
                    false None))
              1)
    as (A & B & _).
  - apply empty_db_wf. cbn. fresh_keys.
  - apply kb_fs_wf. cbn. fresh_keys.
  - vm_compute. reflexivity.
  - vm_compute. reflexivity.
  - split; [exact A|exact B].
Defined.

Lemma form_globs_round_trip_witness :
  glob_lines (join_lines ["**/*.md"; "docs/*.txt"])
  = ["**/*.md"; "docs/*.txt"].
Proof.
  apply (form_globs_round_trip ["**/*.md"; "docs/*.txt"]).
  repeat constructor; try discriminate.
Defined.

Lemma walked_folders_are_recorded_witness :
  folder_seen 7 10 "" (w_db (Fixture.handed Sample.dry_scan)) /\
  folder_seen 7 10 "." (w_db (Fixture.handed Sample.dry_scan)).
Proof.
  destruct (@walked_folders_are_recorded Fixture.toy_hashlib Sample.dry_env
              Fixture.fresh_db (Fixture.handed Sample.dry_scan) 0
              (Fixture.notes_source "auto")) as [A B].
  - vm_compute. reflexivity.
  - cbn. now left.
  - reflexivity.
  - split; [exact A|].
    exact (B (mkDirEntry "." [Fixture.text_file "a.md" "abc" 3 100])
             (or_introl eq_refl)).
Defined.

Lemma scan_stamps_the_sources_witness :
  scan_stamped 7 10 (w_db (Fixture.handed Sample.dry_scan)) /\
  map src_last_ingest_at
    (campaign_sources (w_db (Fixture.handed Sample.dry_scan)))
  = [None].
Proof.
  destruct (@scan_stamps_the_sources Fixture.toy_hashlib Sample.dry_env
              Fixture.fresh_db (Fixture.handed Sample.dry_scan) 0) as [A B].
  - vm_compute. reflexivity.
  - split; [|exact (B eq_refl)].
    exact (proj1 (A (Fixture.notes_source "auto") (or_introl eq_refl))).
Defined.

Lemma dry_scan_keeps_file_history_witness :
  kb_documents
    (w_db
       (Fixture.handed
          (Fixture.scan (Fixture.kb_fs []) 7 (Fixture.notes_db "auto" None)
             true None)))
  = kb_documents (Fixture.notes_db "auto" None) /\
  dry_files (source_files (Fixture.notes_db "auto" None))
    (source_files
       (w_db
          (Fixture.handed
             (Fixture.scan (Fixture.kb_fs []) 7
                (Fixture.notes_db "auto" None) true None)))).
Proof.
  destruct (@dry_scan_keeps_file_history Fixture.toy_hashlib
              (mkEnv (Fixture.kb_fs []) 7 Fixture.campaign true false None)
              (Fixture.notes_db "auto" None)
              (Fixture.handed
                 (Fixture.scan (Fixture.kb_fs []) 7
                    (Fixture.notes_db "auto" None) true None))
              0) as (A & _ & _ & D).
  - reflexivity.
  - vm_compute. reflexivity.
  - split; [exact A|exact D].
Defined.

End FurtherExamples.
